(* ===== verification/_CoqProject ===== *)
-Q . S2P
Prelude.v
StateM.v
DList.v
Cache.v
CacheInv.v
CacheSort.v
CacheHash.v
CacheIO.v
CacheGet.v
CacheMiss.v
CacheView.v
CachePool.v
CacheDemo.v
CacheProps.v
Layout.v
Dadfs.v
DadfsInv.v
DadfsOps.v
Mkfs.v
DadfsProps.v
DadfsModule.v
Avl.v
Region.v
RegionOps.v
RegionSlot.v
RegionUnmap.v
Yielded.v
YieldedInv.v
YieldedFree.v
YieldBlock.v
RegionFree.v
RegionFork.v
RegionMap.v
RegionDemo.v
RegionExit.v
RegionProps.v
RegionMapProps.v
RegionUsage.v
YieldedProps.v
RegionSanity.v
CString.v
Stdio.v
PtrArray.v
SortList.v
SortListInv.v
SortListSort.v
SortListProps.v
UiMenu.v
UiMenuProps.v
PluginApi.v
PluginTxt.v
PluginCsv.v
PluginCsvProps.v
PluginMain.v
PluginMainProps.v
DlistObj.v
DlistObjProps.v
Zathura.v
ZathuraProps.v
Cthread.v
CthreadProps.v
Getnchpid.v
Thrashing.v
Banker.v
BankerProps.v
Dice.v
DiceProps.v
DiceModule.v
