(* ===== verification/Prelude.v ===== *)
(** * The systems programs of VE482: a verification development

    The repository holds the course work of an operating systems course.  Its
    programs proper are two files of the Minix 3 system that Lab 8 studies (the
    block cache and the memory regions of the VM server), the Linux file system
    module dadfs of Lab 7 with its formatter, the dice device driver of Lab 9,
    the list sorting programs of Homework 3 and of Labs 5 and 6, the last of them
    with a loader of plug-ins, a plug-in for a document viewer, and the exercises
    of Homeworks 4 to 7.  This library models these programs as executable
    functions, the threads of Homework 4 as a step relation, and proves what they
    do.

    ** How C is modelled

    - A C function is a definition of the same name, with the same branches in
      the same order.  Its result is [Done v], or the [Fault] that stops the
      program: a NULL pointer or freed object that is followed, an index out of
      range, a failing [assert], a [panic], a mutex that is misused, an operation
      the standard leaves undefined.  Error codes are ordinary results.
    - Code that threads much state runs in the monad [ST] of [StateM], and
      [wp m s Q] says that [m], run in [s], returns, with [Q] of its result and of
      the new state.  [runs m P] is the same for the block cache, whose functions
      take and return the state.  Both are total: a theorem of the form "it
      returns, and ..." is what is proved, never "if it returns".
    - Pointers are indices or keys of a map per kind of object, NULL is [None].
      Unsigned arithmetic has its wrap-around written out ([u32], [u64]), signed
      arithmetic is checked where it can overflow ([int_expr], [shl_int]).
    - A loop whose recursion is not structural has a fuel argument: the length of
      what it walks (buffers, nodes on the heap, pages of a range, lines of a
      file), or for the gaps of the Shell sort the length of the queue.  Running
      out of it is the fault [OutOfFuel], so that each theorem about a result
      shows that the fuel was enough.
    - What is not in the repository is a parameter: a class of operations
      ([MinixHdr], [MinixEnv], [Kernel], [Posix], [VmHdr], [VmServer], [Avl],
      [Cmp64], [Dl], [Stdio], [Viewer], [ProcTable], [ModuleKernel], [DiceKernel]), and where
      a theorem relies on their behaviour a second class of laws ([ReliableDisk],
      [ReadableDisk], [KernelOk], [Quiet], [JournalOk], [Device], [PbOk], [MemOk],
      [YieldOk], [ForkOk], [UnrefOk], [BlockOk], [AvlOk], [ViewerOk],
      [ProcTableOk], [ModuleKernelOk], [DiceKernelOk]).  Each has a concrete instance
      ([CacheDemo], the end of [DadfsProps], [RegionDemo], the end of the file of
      the properties), at which the theorems are evaluated.

    ** Shared files

    - [Prelude]: faults, [runs], machine integers, lists.  [StateM]: the monad and
      the rules of [wp].  [DList]: intrusive doubly linked chains over any store
      of nodes, for the LRU chains of the cache and of the yielded blocks.
      [CString]: C strings and the library functions that the list programs, the
      dice device and the exercises call.  [Stdio]: output streams with buffers, of
      which the library sends what it likes when it likes, and all at the end of
      the program; [writing] describes the files of a program between its start
      and its end.  [PtrArray]: arrays of pointers.

    ** The block cache: [Lab/Lab 8/src/cache.c]

    [Cache] has the static data as one record (the array of buffers, the hash
    table, the LRU chain, the counters) and every function of the file.
    [CacheInv] states the invariant: the chain holds exactly the unused buffers,
    each buffer is on the hash chain of its block number, no block is cached
    twice.  [CacheSort], [CacheHash], [CacheIO], [CacheGet], [CacheMiss] and
    [CachePool] prove it of the operations; [CacheView] abstracts the cache to the
    block contents a client sees.  [CacheProps] has the properties: the cache is
    transparent (getting a block returns its contents and changes none, whatever
    is evicted), hits and misses on every branch, the order in which released
    buffers are evicted, the sync that makes disk and contents equal, the writing
    of exactly the dirty blocks, termination of scattered I/O on every device,
    the Shell sort, the set-up of the pool, invalidation and the panic when no
    buffer is free.  [fs_sync], a callback of the file system, is an argument of
    the pool functions.

    ** dadfs: [Lab/Lab 7/dadfs/base.h, sblock.h, base.c, mkfs-dadfs.c]

    [Layout] has the on-disk structures as bytes at the offsets of x86-64 and the
    arrays of structures in a block.  [Dadfs] has the operations of the module on
    the in-memory super block, the three mutexes and the kernel's buffers;
    [DadfsInv] the invariant of a mounted file system; [DadfsOps] the
    specifications of the operations in terms of inodes and directory entries.
    [Mkfs] is the formatter, [DadfsModule] the loading and unloading of the module
    with the cache of inodes it leaves behind when registration fails.  [DadfsProps]: what is formatted can be mounted and
    its welcome file read; creation keeps the invariant and is found by lookup,
    its guards refuse it without a trace; lookup, reading and the layout; and the
    defects: the free map, the shift in the allocator, the file position that
    reading ignores, writing that stores nothing, signals at the mutexes, the
    directory that overflows.

    ** Memory regions and yielded blocks: [Lab/Lab 8/src/region.c]

    [Avl] states what the generated trees promise, against ordered lists.
    [Region] has the heap objects (regions, their arrays of pages, physical
    blocks) and the rest of the VM server as parameters; [RegionOps] every
    operation on regions; [RegionSlot] the layout of a process and the search for
    a free range; [RegionUnmap] the loops that release pages.  [Yielded] and
    [YieldedInv] have the blocks a process lends to the server: trees by hash, a
    chain by age, and the invariant that ties them; [YieldBlock] proves yielding
    and getting back, [YieldedFree] freeing.  [RegionProps]: the search
    finds a range exactly when there is one; lookup; unmapping later pages and
    the first pages; and the defects of the search's hint, of a region at address
    zero and of unmapping the start or the whole of a region.  [YieldedProps]:
    what is yielded is got back as it was; memory is taken from the oldest
    blocks, as many as needed; forgetting one block.  [lrucheck] accepts the
    chain, and [get_stats_info] counts it.

    [RegionFree], [RegionFork] and [RegionMap] have the operations on whole address
    spaces, with the reference counts of the physical blocks as multisets of
    references that are added ([bump]) and taken back ([unbump]).  The operations
    of [pb.c] may fail when memory is scarce, a proposition of [ForkOk].
    [RegionExit]: an exit takes exactly the references of the process and frees its
    yielded blocks; a fork shares all pages or is undone; a fork and an exit leave
    no trace.  So may the entry of a page in a page table when there is no
    room for the table, a proposition of [YieldOk].  [RegionMapProps]: a new region
    lies in a free place, mapping and unmapping undo each other but for a
    neighbour, a write fault makes a page private (whether or not it can be entered
    in the page table) or loses it, and after a fork it leaves the parent alone.
    [RegionDemo] is a concrete server.  [RegionUsage]: the walks over trees
    and pages that report the memory usage of a process count what a fold over
    the lists of pages counts.  [RegionSanity]: [map_sanitycheck] decides whether the
    memory of all processes is sane, by the counts of the references to the blocks
    and the lists [pb.c] keeps; the fields that only these use are parameters.  The
    calls of the checks inside the operations are left out.

    ** The list sorting program: [Homework/h3/ex2.c]

    [SortList] has the heap of nodes, keys and data, the list operations, the
    table of comparators, the sort on an array of pointers, and the program from
    its arguments to its output file.  [SortListInv] states what a list holds and
    that it owns its memory; [SortListSort] proves the insertion sort for any
    comparator that returns.  [SortListProps]: run on a file of well-formed lines
    the program frees all it allocated and its output file holds them sorted when
    the streams, which it does not close, have been flushed; the sort with an
    order, with the random comparator, and on doubles, which it compares by their
    difference cut to an int.

    ** The sorting program with a menu: [Lab/Lab 5/code]

    List, sort and file handling are line by line those of [ex2.c]: [UiMenu]
    defines them as these, and adds the command line and the menu, a loop of
    rounds on the terminal input.  [UiMenuProps]: a session whose commands neither
    read nor write the output of an earlier one sorts every file and gives all
    memory back; the examples at its end are sessions that go wrong, because the
    output of a command may stay in its buffer and its stream stays open.

    ** The plug-in sorting program: [Lab/Lab 6/cmplx-sort]

    [PluginApi] and [PluginTxt] are the list and the text plug-in, [PluginCsv] the
    plug-in for tables (buffers that [strsep] cuts up, an array of lists),
    [PluginMain] the loader: the handles on the heap, the scan of the directory,
    the choice by file type and the clean-up.  A directory is a list of names, the
    dynamic linker the class [Dl], whose [dlerror] keeps an error until it is asked,
    as its manual says, or forgets it when a call succeeds.  [PluginMainProps]: the
    loader behaves as the plug-in that it should call, and loader and text plug-in
    together sort a file, but for the directories (any with [.] before a library)
    with which a [dlerror] that keeps errors makes the loader give up;
    [PluginCsvProps]: what a file of one column gives, and the pointer that a file
    of two columns makes the plug-in follow.

    ** The list object: [Lab/Lab 5/lab5_dlist.c]

    [DlistObj] has the list behind a [void *] with a union for its values;
    [DlistObjProps] that it stays typed and what sorting and freeing do.

    ** The text plug-in for zathura: [Lab/Lab 6/zathura-txt]

    [Zathura] has the five callbacks, on memory, files and a viewer that is a
    parameter; [ZathuraProps] follows a document from opening to closing, and
    proves what [get_extension] returns.

    ** Threads: [Homework/h4/cthread.c]

    [Cthread] is a step relation on two counting threads and the main thread, each
    access to the shared counter being a step; [CthreadProps] proves by induction
    over the steps that the semaphore keeps the threads apart, and from a measure
    that each execution ends with the full count.

    ** Exercises: [Homework/h5/banker.cpp, h6/thrashing.c, h7/getnchpid.c]

    [Banker] is the program of the banker's algorithm on any matrices,
    [BankerProps] its equivalence with the existence of a safe order.
    [Thrashing] has the four arrays that are allocated, filled and freed, and what
    happens when one of them is not granted.  [Getnchpid] has the two functions
    over a table of processes that stands for [mproc.h], and the program around
    them, which calls a function that does not exist: an argument.

    ** The dice device: [Lab/Lab 9/dice/dice.c]

    [Dice] has the file operations and the initialisation, [DiceModule] loading and
    unloading with the kernel's tables of device numbers and devices, and that
    unloading leaves them as they were; [DiceProps] follows a
    number from the write to the picture that the next read returns, up to the
    227 dice that fit its buffer.

    ** Not modelled

    - In the modelled files: functions that only print, the tables of operations
      of dadfs and of the dice device, messages.  Errors of the disk under the
      streams of the sorting programs, and the stream of the directory that the
      plug-in loader leaves open.
    - The shell scripts, reports and slides are no programs of the system.
    - Threads: the models other than [Cthread] are sequential, except that signals
      can interrupt the mutexes of dadfs. *)
From stdpp Require Export base list gmap strings sorting.
From Stdlib Require Export ZArith Lia.

Declare Scope c_scope.
Delimit Scope c_scope with C.

(** ** Results of C code: a value, or the fault that stops the program *)

(** The ways the modelled C code can stop without returning: a NULL pointer is
    followed, an array is indexed out of range, an [assert] fails, [panic] or
    [BUG_ON] is reached, a mutex is misused, the C standard leaves the operation
    undefined, or a loop of the model has used up its fuel. *)
Inductive fault :=
| NullDeref | OutOfBounds | AssertFail | Panic | BadUnlock | Deadlock
| Undefined | OutOfFuel.

Inductive exec (A : Type) :=
| Done (a : A)
| Fault (f : fault).
Arguments Done {A} _.
Arguments Fault {A} _.

#[export] Instance exec_ret : MRet exec := fun _ a => Done a.
#[export] Instance exec_bind : MBind exec :=
  fun _ _ k m => match m with Done a => k a | Fault f => Fault f end.

#[export] Instance fault_eq_dec : EqDecision fault.
Proof. solve_decision. Defined.

(** [deref] follows a pointer (or reads an array cell) that the model holds as
    an option; [assertC] is the C macro [assert]. *)
Definition deref {A} (f : fault) (o : option A) : exec A :=
  match o with Some a => Done a | None => Fault f end.

Definition assertC (P : Prop) `{Decision P} : exec unit :=
  if decide P then Done tt else Fault AssertFail.

(** A statement that is executed only when the condition holds. *)
Definition whenC {A} (b : bool) (f : A -> exec A) (a : A) : exec A :=
  if b then f a else Done a.

(** Partial correctness is never what the theorems state: [runs m P] says that
    [m] returns, and that its result satisfies [P]. *)
Definition runs {A} (m : exec A) (P : A -> Prop) : Prop :=
  exists a, m = Done a /\ P a.

Lemma runs_done {A} (a : A) (P : A -> Prop) : P a -> runs (Done a) P.
Proof. exists a; eauto. Qed.

Lemma runs_bind {A B} (m : exec A) (k : A -> exec B) (P : A -> Prop) (Q : B -> Prop) :
  runs m P -> (forall a, P a -> runs (k a) Q) -> runs (m ≫= k) Q.
Proof. intros (a & -> & HP) Hk. exact (Hk a HP). Qed.

Lemma runs_mono {A} (m : exec A) (P Q : A -> Prop) :
  runs m P -> (forall a, P a -> Q a) -> runs m Q.
Proof. intros (a & -> & HP) Hk. exists a; eauto. Qed.

Lemma runs_deref {A} f (o : option A) a (P : A -> Prop) :
  o = Some a -> P a -> runs (deref f o) P.
Proof. intros -> HP. by apply runs_done. Qed.

Lemma assertC_true (Q : Prop) `{Decision Q} : Q -> assertC Q = Done tt.
Proof. intros HQ. unfold assertC. by rewrite decide_True. Qed.

Lemma exec_bind_done {A B} (a : A) (k : A -> exec B) : Done a ≫= k = k a.
Proof. reflexivity. Qed.

Lemma exec_bind_fault {A B} f (k : A -> exec B) : (Fault f : exec A) ≫= k = Fault f.
Proof. reflexivity. Qed.

Lemma exec_bind_inv {A B} (m : exec A) (k : A -> exec B) b :
  m ≫= k = Done b -> exists a, m = Done a /\ k a = Done b.
Proof. destruct m as [a|f]; [|discriminate]. intros H. exists a. done. Qed.

(** ** Machine integers *)

(** Unsigned 32- and 64-bit integers and the signed 32-bit [int] of the C code
    are values of [Z]; the wrap-around of an operation is written out. *)
Definition wrap (w z : Z) : Z := z mod 2 ^ w.
Definition u8 (z : Z) : Z := wrap 8 z.
Definition u32 (z : Z) : Z := wrap 32 z.
Definition u64 (z : Z) : Z := wrap 64 z.
Definition i32 (z : Z) : Z := (z + 2 ^ 31) mod 2 ^ 32 - 2 ^ 31.

Lemma wrap_range w z : (0 <= w)%Z -> (0 <= wrap w z < 2 ^ w)%Z.
Proof. intros Hw. apply Z.mod_pos_bound, Z.pow_pos_nonneg; lia. Qed.

Lemma wrap_small w z : (0 <= z < 2 ^ w)%Z -> wrap w z = z.
Proof. apply Z.mod_small. Qed.

Lemma u32_small z : (0 <= z < 2 ^ 32)%Z -> u32 z = z.
Proof. apply wrap_small. Qed.

Lemma u32_range z : (0 <= u32 z < 2 ^ 32)%Z.
Proof. by apply wrap_range. Qed.

Lemma u64_small z : (0 <= z < 2 ^ 64)%Z -> u64 z = z.
Proof. apply wrap_small. Qed.

Lemma i32_small z : (- 2 ^ 31 <= z < 2 ^ 31)%Z -> i32 z = z.
Proof. intros Hz. unfold i32. rewrite Z.mod_small; lia. Qed.

Lemma i32_range z : (- 2 ^ 31 <= i32 z < 2 ^ 31)%Z.
Proof. unfold i32. pose proof (Z.mod_pos_bound (z + 2 ^ 31) (2 ^ 32)). lia. Qed.

(** ** Lists *)

Definition head_or {A} (d : option A) (l : list A) : option A :=
  match l with [] => d | x :: _ => Some x end.

Fixpoint last_or {A} (d : option A) (l : list A) : option A :=
  match l with [] => d | x :: l' => last_or (Some x) l' end.

Lemma head_or_app {A} (d : option A) l1 l2 :
  head_or d (l1 ++ l2) = head_or (head_or d l2) l1.
Proof. by destruct l1. Qed.

Lemma last_or_app {A} (d : option A) l1 l2 :
  last_or d (l1 ++ l2) = last_or (last_or d l1) l2.
Proof. revert d. induction l1; simpl; eauto. Qed.

Lemma last_or_Some_ne {A} (d : option A) l : l <> [] -> last_or d l = last l.
Proof.
  revert d. induction l as [|x l IH]; intros d Hl; [done|]. simpl.
  destruct l as [|y l]; [done|]. by rewrite IH.
Qed.

Lemma last_or_last {A} (d : option A) l x : last_or d (l ++ [x]) = Some x.
Proof. by rewrite last_or_app. Qed.

Lemma filter_all {A} (P : A -> Prop) `{forall x, Decision (P x)} l : Forall P l -> filter P l = l.
Proof. induction 1; [done|]. rewrite filter_cons_True by done. by f_equal. Qed.

Lemma filter_none {A} (P : A -> Prop) `{forall x, Decision (P x)} l :
  Forall (fun x => ~ P x) l -> filter P l = [].
Proof. induction 1; [done|]. by rewrite filter_cons_False. Qed.

Lemma filter_fmap {A B} (f : A -> B) (P : B -> Prop) (Q : A -> Prop) `{forall x, Decision (P x)} `{forall x, Decision (Q x)} (l : list A) :
  (forall x, P (f x) <-> Q x) -> filter P (f <$> l) = f <$> filter Q l.
Proof.
  intros HPQ. induction l as [|x l IH]; [done|]. rewrite fmap_cons, !filter_cons. destruct (decide (Q x)).
  - rewrite decide_True by by apply HPQ. by rewrite IH.
  - by rewrite decide_False by by rewrite HPQ.
Qed.

(** ** Automation *)

Create HintDb csem.
#[export] Hint Resolve runs_done : csem.

(** Run the binds whose head is a value. *)
Ltac exec_step := cbn [mbind exec_bind mret exec_ret] in *.

(** Split the fields of conjunctive hypotheses. *)
Ltac splitH := repeat match goal with H : _ /\ _ |- _ => destruct H end.
