(* ===== verification/StateM.v ===== *)
(** * Stateful code that may fail

    The monad of the kernel modules: a state, and the faults of the prelude.
    [wp m s Q] is total correctness: run in state [s], [m] returns, and [Q] holds
    of its result and of the new state. *)
From S2P Require Import Prelude.

Definition ST (S A : Type) : Type := S -> exec (A * S).

#[export] Instance st_ret {S} : MRet (ST S) := fun _ a s => Done (a, s).
#[export] Instance st_bind {S} : MBind (ST S) :=
  fun _ _ k m s => match m s with Done (a, s') => k a s' | Fault f => Fault f end.

Section ops.
Context {S : Type}.

Definition raise {A} (f : fault) : ST S A := fun _ => Fault f.
Definition asserts (P : Prop) `{Decision P} : ST S unit :=
  fun s => if decide P then Done (tt, s) else Fault AssertFail.
Definition derefs {A} (f : fault) (o : option A) : ST S A :=
  match o with Some a => mret a | None => raise f end.
Definition gets {A} (f : S -> A) : ST S A := fun s => Done (f s, s).
Definition modify (f : S -> S) : ST S unit := fun s => Done (tt, f s).
Definition lift {A} (m : exec A) : ST S A := fun s => a ← m; Done (a, s).
End ops.

Section wp.
Context {S : Type}.
Implicit Types (s : S).

Definition wp {A} (m : ST S A) s (Q : A -> S -> Prop) : Prop :=
  runs (m s) (fun r => Q r.1 r.2).

Lemma wp_ret {A} (a : A) s (Q : A -> S -> Prop) : Q a s -> wp (mret a) s Q.
Proof. intros HQ. exists (a, s). done. Qed.

Lemma wp_bind {A B} (m : ST S A) (k : A -> ST S B) s (Q : B -> S -> Prop) :
  wp m s (fun a s' => wp (k a) s' Q) -> wp (m ≫= k) s Q.
Proof.
  intros ([a s'] & Hm & ([b s''] & Hk & HQ)). exists (b, s''). split; [|done].
  unfold mbind, st_bind. by rewrite Hm.
Qed.

Lemma wp_mono {A} (m : ST S A) s (P Q : A -> S -> Prop) :
  wp m s P -> (forall a s', P a s' -> Q a s') -> wp m s Q.
Proof. intros ([a s'] & Hm & HP) HPQ. exists (a, s'). split; [done|]. by apply HPQ. Qed.

Lemma wp_done {A} (m : ST S A) s a s' (Q : A -> S -> Prop) : m s = Done (a, s') -> Q a s' -> wp m s Q.
Proof. intros Hm HQ. by exists (a, s'). Qed.

Lemma wp_lift {A} (m : exec A) a s (Q : A -> S -> Prop) : m = Done a -> Q a s -> wp (lift m) s Q.
Proof. intros -> HQ. by exists (a, s). Qed.

Lemma wp_gets {A} (f : S -> A) s (Q : A -> S -> Prop) : Q (f s) s -> wp (gets f) s Q.
Proof. intros HQ. by exists (f s, s). Qed.

Lemma wp_modify f s (Q : unit -> S -> Prop) : Q tt (f s) -> wp (modify f) s Q.
Proof. intros HQ. by exists (tt, f s). Qed.

Lemma wp_asserts (P : Prop) `{Decision P} s (Q : unit -> S -> Prop) : P -> Q tt s -> wp (asserts P) s Q.
Proof. intros HP HQ. exists (tt, s). split; [|done]. unfold asserts. by rewrite decide_True. Qed.

Lemma wp_derefs {A} f (o : option A) a s (Q : A -> S -> Prop) : o = Some a -> Q a s -> wp (derefs f o) s Q.
Proof. intros -> HQ. by apply wp_ret. Qed.

(** The outcome of a program whose first part returns, be it a result or a fault. *)
Lemma bind_outcome {A B} (m : ST S A) (k : A -> ST S B) s (O : exec (B * S) -> Prop) :
  wp m s (fun a s' => O (k a s')) -> O ((m ≫= k) s).
Proof. intros ([a s'] & Hm & HO). unfold mbind, st_bind. by rewrite Hm. Qed.

(** What a program reads and returns, without a change of the state. *)
Lemma bind_done {A B} (m : ST S A) (k : A -> ST S B) s a s' : m s = Done (a, s') -> (m ≫= k) s = k a s'.
Proof. intros Hm. unfold mbind, st_bind. by rewrite Hm. Qed.

Lemma bind_inv {A B} (m : ST S A) (k : A -> ST S B) s r : (m ≫= k) s = Done r -> exists a s', m s = Done (a, s') /\ k a s' = Done r.
Proof. unfold mbind, st_bind. destruct (m s) as [[a s']|]; [|done]. by exists a, s'. Qed.

Lemma ret_inv {A} (a : A) s r : (mret a : ST S A) s = Done r -> r = (a, s).
Proof. unfold mret, st_ret. by intros [= <-]. Qed.

Lemma asserts_inv (P : Prop) `{Decision P} s r : asserts P s = Done r -> P /\ r = (tt, s).
Proof. unfold asserts. case_decide; [|done]. by intros [= <-]. Qed.

Lemma gets_inv {A} (f : S -> A) s r : gets f s = Done r -> r = (f s, s).
Proof. unfold gets. by intros [= <-]. Qed.

Lemma bind_fault {A B} (m : ST S A) (k : A -> ST S B) s f : m s = Fault f -> (m ≫= k) s = Fault f.
Proof. intros Hm. unfold mbind, st_bind. by rewrite Hm. Qed.

Lemma asserts_false (P : Prop) `{Decision P} s : ~ P -> asserts P s = Fault AssertFail.
Proof. intros HP. unfold asserts. by rewrite decide_False. Qed.

Lemma asserts_true (P : Prop) `{Decision P} s : P -> asserts P s = Done (tt, s).
Proof. intros HP. unfold asserts. by rewrite decide_True. Qed.
End wp.
