(* ===== verification/DList.v ===== *)
(** * Intrusive doubly linked lists

    [cache.c] (the chain from [front] to [rear]) and [region.c] (the chain from
    [lru_youngest] to [lru_oldest]) keep nodes that carry their own two link
    pointers, and two global pointers to the ends.  This file states what such a
    chain is, over any store of nodes, and proves once what unlinking a node and
    pushing a node at either end do to it. *)
From S2P Require Import Prelude.

(** ** The interface a component's nodes and store implement *)

(** A store of nodes: a C array, or the heap of a slab allocator. *)
Class Store (M V : Type) := {
  sget : M -> nat -> option V;
  sset : nat -> V -> M -> M;
  sget_sset : forall m i v j, is_Some (sget m i) ->
    sget (sset i v m) j = if decide (i = j) then Some v else sget m j
}.

(** A node: a successor pointer, a predecessor pointer and a payload that the
    link updates leave alone. *)
Class Link (V P : Type) := {
  nxt : V -> option nat;
  prv : V -> option nat;
  payload : V -> P;
  set_nxt : option nat -> V -> V;
  set_prv : option nat -> V -> V;
  nxt_set_nxt : forall v n, nxt (set_nxt n v) = n;
  prv_set_nxt : forall v n, prv (set_nxt n v) = prv v;
  payload_set_nxt : forall v n, payload (set_nxt n v) = payload v;
  nxt_set_prv : forall v n, nxt (set_prv n v) = nxt v;
  prv_set_prv : forall v n, prv (set_prv n v) = n;
  payload_set_prv : forall v n, payload (set_prv n v) = payload v
}.
Arguments payload {V P _} _ : simpl never.

Create Rewrite HintDb csem.
#[export] Hint Rewrite @nxt_set_nxt @prv_set_nxt @payload_set_nxt
  @nxt_set_prv @prv_set_prv @payload_set_prv : csem.

#[export] Program Instance list_store {V} : Store (list V) V := {|
  sget m i := m !! i;
  sset i v m := <[i := v]> m
|}.
Next Obligation.
  intros V m i v j [w Hw]. case_decide as Hij.
  - subst j. apply list_lookup_insert_eq. by eapply lookup_lt_Some.
  - by apply list_lookup_insert_ne.
Qed.

#[export] Program Instance gmap_store {V} : Store (gmap nat V) V := {|
  sget m i := m !! i;
  sset i v m := <[i := v]> m
|}.
Next Obligation. intros V m i v j _. apply lookup_insert. Qed.

Section dlist.
Context {M V P : Type} `{!Store M V} `{!Link V P}.
Implicit Types (m : M) (l : list nat) (x y : nat) (p n : option nat).

(** ** Chains *)

(** [dseg m p l n]: the nodes [l] are linked in order, the first one's
    predecessor is [p] and the last one's successor is [n]. *)
Fixpoint dseg m p l n : Prop :=
  match l with
  | [] => True
  | x :: l' => exists v, sget m x = Some v /\ prv v = p /\ nxt v = head_or n l' /\
      dseg m (Some x) l' n
  end.

(** A whole chain, with its two end pointers. *)
Definition dchain m hd tl l : Prop :=
  NoDup l /\ hd = head_or None l /\ tl = last_or None l /\ dseg m None l None.

(** ** The three link updates of the sources *)

(** [rm_lru] and the first half of [freeyieldednode]. *)
Definition unlink m hd tl x : exec (M * option nat * option nat) :=
  v ← deref NullDeref (sget m x);
  let n := nxt v in
  let p := prv v in
  '(m, hd) ←
    (match p with
     | Some q => w ← deref NullDeref (sget m q); Done (sset q (set_nxt n w) m, hd)
     | None => Done (m, n)
     end : exec (M * option nat));
  '(m, tl) ←
    (match n with
     | Some q => w ← deref NullDeref (sget m q); Done (sset q (set_prv p w) m, tl)
     | None => Done (m, p)
     end : exec (M * option nat));
  Done (m, hd, tl).

(** The node becomes the new first element. *)
Definition push_front m hd tl x : exec (M * option nat * option nat) :=
  v ← deref NullDeref (sget m x);
  let m := sset x (set_nxt hd (set_prv None v)) m in
  match hd with
  | None => Done (m, Some x, Some x)
  | Some q => w ← deref NullDeref (sget m q);
      Done (sset q (set_prv (Some x) w) m, Some x, tl)
  end.

(** The node becomes the new last element. *)
Definition push_back m hd tl x : exec (M * option nat * option nat) :=
  v ← deref NullDeref (sget m x);
  let m := sset x (set_nxt None (set_prv tl v)) m in
  match tl with
  | None => Done (m, Some x, Some x)
  | Some q => w ← deref NullDeref (sget m q);
      Done (sset q (set_nxt (Some x) w) m, hd, Some x)
  end.

(** ** Frames *)

(** The two links of the node at [x]. *)
Definition links m x : option (option nat * option nat) :=
  (fun v => (prv v, nxt v)) <$> sget m x.

Lemma dseg_frame m m' p l n :
  (forall x, x ∈ l -> links m' x = links m x) -> dseg m p l n -> dseg m' p l n.
Proof.
  revert p. induction l as [|x l IH]; intros p Hfr; [done|].
  intros (v & Hx & Hp & Hn & Hl). simpl.
  assert (Hlx : links m' x = links m x) by (apply Hfr; set_solver).
  unfold links in Hlx. rewrite Hx in Hlx.
  destruct (sget m' x) as [v'|] eqn:Hx'; [|done]. simplify_eq/=.
  exists v'. split_and!; [done|congruence|congruence|].
  apply IH; [set_solver|done].
Qed.

Lemma dseg_app m p l1 l2 n :
  dseg m p (l1 ++ l2) n <-> dseg m p l1 (head_or n l2) /\ dseg m (last_or p l1) l2 n.
Proof.
  revert p. induction l1 as [|x l1 IH]; intros p; simpl; [tauto|].
  setoid_rewrite head_or_app. setoid_rewrite IH. split.
  - intros (v & ? & ? & ? & ? & ?). eauto 10.
  - intros [(v & ? & ? & ? & ?) ?]. eauto 10.
Qed.

Lemma dseg_mem m p l n x : dseg m p l n -> x ∈ l -> is_Some (sget m x).
Proof.
  revert p. induction l as [|y l IH]; intros p; [set_solver|].
  intros (v & Hy & _ & _ & Hl) [->|Hx]%elem_of_cons; eauto.
Qed.

Lemma dchain_frame m m' hd tl l :
  (forall x, x ∈ l -> links m' x = links m x) -> dchain m hd tl l -> dchain m' hd tl l.
Proof. intros Hfr (?&?&?&?). split_and!; eauto using dseg_frame. Qed.

Lemma dchain_mem m hd tl l x : dchain m hd tl l -> x ∈ l -> is_Some (sget m x).
Proof. intros (_&_&_&Hs). by eapply dseg_mem. Qed.

Lemma sget_sset_ne m x y v w : sget m x = Some w -> x <> y -> sget (sset x v m) y = sget m y.
Proof. intros Hx Hne. by rewrite sget_sset, decide_False by eauto. Qed.

Lemma sget_sset_eq m x v w : sget m x = Some w -> sget (sset x v m) x = Some v.
Proof. intros Hx. by rewrite sget_sset, decide_True by eauto. Qed.

Lemma links_sset_ne m x y v : is_Some (sget m x) -> x <> y -> links (sset x v m) y = links m y.
Proof. intros Hx Hne. unfold links. by rewrite sget_sset, decide_False. Qed.

Lemma links_sset_eq m x v :
  is_Some (sget m x) -> links (sset x v m) x = Some (prv v, nxt v).
Proof. intros Hx. unfold links. by rewrite sget_sset, decide_True. Qed.

(** Rewriting the predecessor of a segment's first node. *)
Lemma dseg_set_prv m p p' x l n v :
  x ∉ l -> sget m x = Some v ->
  dseg m p (x :: l) n -> dseg (sset x (set_prv p' v) m) p' (x :: l) n.
Proof.
  intros Hx Hv (v' & Hv' & _ & Hn & Hl). simplify_eq.
  exists (set_prv p' v). rewrite sget_sset, decide_True by eauto.
  rewrite prv_set_prv, nxt_set_prv. split_and!; try done.
  eapply dseg_frame; [|exact Hl]. intros y Hy. apply links_sset_ne; [eauto|].
  intros ->. done.
Qed.

(** Rewriting the successor of a segment's last node. *)
Lemma dseg_set_nxt m p l x n n' v :
  x ∉ l -> sget m x = Some v ->
  dseg m p (l ++ [x]) n -> dseg (sset x (set_nxt n' v) m) p (l ++ [x]) n'.
Proof.
  intros Hx Hv. rewrite !dseg_app. intros [Hl (v' & Hv' & Hp & _)]. simplify_eq. split.
  - eapply dseg_frame; [|exact Hl]. intros y Hy. apply links_sset_ne; [eauto|].
    intros ->. done.
  - exists (set_nxt n' v). rewrite sget_sset, decide_True by eauto.
    by rewrite prv_set_nxt, nxt_set_nxt.
Qed.

(** The payload of every node survives an update of one node's links. *)
Lemma payload_sset m x v y :
  sget m x = Some v -> forall v', payload v' = payload v ->
  payload <$> sget (sset x v' m) y = payload <$> sget m y.
Proof.
  intros Hx v' Hp. rewrite sget_sset by eauto. case_decide; [|done].
  subst. rewrite Hx. simpl. by rewrite Hp.
Qed.

Lemma sget_sset_Some m x v y : is_Some (sget m x) ->
  is_Some (sget (sset x v m) y) <-> is_Some (sget m y).
Proof.
  intros Hx. rewrite sget_sset by done. case_decide; [|done]. subst. split; eauto.
Qed.

(** ** Effect of the link updates on a chain *)

(** [same_nodes m m']: the update touched links only. *)
Definition same_nodes m m' : Prop :=
  forall y, payload <$> sget m' y = payload <$> sget m y.

Lemma same_nodes_refl m : same_nodes m m.
Proof. done. Qed.

Lemma same_nodes_trans m1 m2 m3 : same_nodes m1 m2 -> same_nodes m2 m3 -> same_nodes m1 m3.
Proof. intros H1 H2 y. by rewrite H2. Qed.

Lemma same_nodes_Some m m' y : same_nodes m m' -> is_Some (sget m' y) <-> is_Some (sget m y).
Proof. intros Hs. specialize (Hs y). destruct (sget m y), (sget m' y); naive_solver. Qed.

Lemma last_or_snoc_inv (d : option nat) l q :
  last_or d l = Some q -> d <> Some q -> exists l', l = l' ++ [q].
Proof.
  intros Hl Hd. destruct l as [|y l'] using rev_ind; [done|].
  rewrite last_or_last in Hl. simplify_eq. eauto.
Qed.

Lemma head_or_cons_inv l q : head_or None l = Some q -> exists l', l = q :: l'.
Proof. destruct l; simpl; intros ?; simplify_eq; eauto. Qed.

(** Writing the [nxt] link of the last node of [l1], or the head pointer. *)
Lemma relink_prev m hd l1 n n' :
  NoDup l1 -> dseg m None l1 n -> hd = head_or n l1 ->
  exists m' hd',
    match last_or None l1 with
    | Some q => w ← deref NullDeref (sget m q); Done (sset q (set_nxt n' w) m, hd)
    | None => Done (m, n')
    end = Done (m', hd') /\
    dseg m' None l1 n' /\ hd' = head_or n' l1 /\ same_nodes m m' /\
    (forall y, y ∉ l1 -> sget m' y = sget m y).
Proof.
  intros Hnd Hseg ->. destruct (last_or None l1) as [q|] eqn:Hq.
  - destruct (last_or_snoc_inv None l1 q) as [l' ->]; [done|done|].
    destruct (dseg_mem _ _ _ _ q Hseg) as [w Hw]; [clear; set_solver|].
    apply NoDup_app in Hnd as (_ & Hnd & _).
    eexists _, _. rewrite Hw. split; [done|]. split_and!.
    + eapply dseg_set_nxt; [|exact Hw|exact Hseg]. set_solver.
    + rewrite !head_or_app. done.
    + intros y. by apply payload_sset with (v := w); [|apply payload_set_nxt].
    + intros y Hy. apply (sget_sset_ne _ _ _ _ w); [done|clear -Hy; set_solver].
  - destruct l1 as [|y l1] using rev_ind; [|by rewrite last_or_last in Hq].
    eexists _, _. split_and!; [done..|apply same_nodes_refl|done].
Qed.

(** Writing the [prv] link of the first node of [l2], or the tail pointer. *)
Lemma relink_next m tl p p' l2 :
  NoDup l2 -> dseg m p l2 None -> (l2 <> [] -> tl = last_or p' l2) ->
  exists m' tl',
    match head_or None l2 with
    | Some q => w ← deref NullDeref (sget m q); Done (sset q (set_prv p' w) m, tl)
    | None => Done (m, p')
    end = Done (m', tl') /\
    dseg m' p' l2 None /\ tl' = last_or p' l2 /\ same_nodes m m' /\
    (forall y, y ∉ l2 -> sget m' y = sget m y).
Proof.
  intros Hnd Hseg Htl. destruct l2 as [|q l2].
  - eexists _, _. split_and!; [done..|apply same_nodes_refl|done].
  - apply NoDup_cons in Hnd as [Hq _].
    destruct (dseg_mem _ _ _ _ q Hseg) as [w Hw]; [clear; set_solver|]. simpl. rewrite Hw.
    eexists _, _. split; [done|]. split_and!.
    + eapply dseg_set_prv; [done|exact Hw|exact Hseg].
    + by apply Htl.
    + intros y. by apply payload_sset with (v := w); [|apply payload_set_prv].
    + intros y Hy. apply (sget_sset_ne _ _ _ _ w); [done|clear -Hy; set_solver].
Qed.

Lemma unlink_spec m hd tl l1 x l2 :
  dchain m hd tl (l1 ++ x :: l2) ->
  exists m' hd' tl', unlink m hd tl x = Done (m', hd', tl') /\
    dchain m' hd' tl' (l1 ++ l2) /\ same_nodes m m' /\
    (forall y, y ∉ l1 ++ l2 -> sget m' y = sget m y).
Proof.
  intros (Hnd & Hhd & Htl & Hseg).
  apply dseg_app in Hseg as [Hs1 (v & Hv & Hp & Hn & Hs2)].
  apply NoDup_app in Hnd as (Hnd1 & Hdis & Hnd2).
  apply NoDup_cons in Hnd2 as [Hx2 Hnd2].
  assert (Hdis' : forall y, y ∈ l1 -> y ∉ l2) by set_solver.
  destruct (relink_prev m hd l1 (Some x) (head_or None l2)) as
    (m1 & hd' & E1 & Hs1' & Hhd' & Hsame1 & Hfr1); [done|done|by rewrite Hhd, head_or_app|].
  assert (Hs2' : dseg m1 (Some x) l2 None).
  { eapply dseg_frame; [|exact Hs2]. intros y Hy. unfold links. by rewrite Hfr1 by set_solver. }
  destruct (relink_next m1 tl (Some x) (last_or None l1) l2) as
    (m2 & tl' & E2 & Hs2'' & Htl' & Hsame2 & Hfr2); [done|done| |].
  { intros Hl2. rewrite Htl, last_or_app. simpl. by rewrite !last_or_Some_ne. }
  exists m2, hd', tl'. unfold unlink. rewrite Hv. cbn [deref mbind exec_bind].
  rewrite Hp, Hn, E1. cbn [mbind exec_bind]. rewrite E2. split; [done|]. split_and!.
  - split_and!; [apply NoDup_app; auto|by rewrite head_or_app|by rewrite last_or_app|].
    apply dseg_app. split; [|done].
    eapply dseg_frame; [|exact Hs1']. intros y Hy. unfold links. by rewrite Hfr2 by set_solver.
  - eauto using same_nodes_trans.
  - intros y Hy. rewrite Hfr2, Hfr1; set_solver.
Qed.

(** A node's neighbours point back to it. *)
Lemma dchain_neighbours m hd tl l1 x l2 : dchain m hd tl (l1 ++ x :: l2) ->
  exists v, sget m x = Some v /\
  match prv v with
  | Some q => exists w, sget m q = Some w /\ nxt w = Some x
  | None => hd = Some x
  end /\
  match nxt v with
  | Some q => exists w, sget m q = Some w /\ prv w = Some x
  | None => tl = Some x
  end.
Proof.
  intros (Hnd & -> & -> & Hseg). apply dseg_app in Hseg as [Hs1 (v & Hv & Hp & Hn & Hs2)].
  exists v. split; [done|]. split.
  - rewrite Hp. destruct (last_or None l1) as [q|] eqn:Hq.
    + destruct (last_or_snoc_inv None l1 q) as [l' ->]; [done|done|].
      apply dseg_app in Hs1 as [_ (w & Hw & _ & Hwn & _)]. by exists w.
    + destruct l1 as [|y l1 _] using rev_ind; [done|]. by rewrite last_or_last in Hq.
  - rewrite Hn. destruct l2 as [|q l2]; simpl.
    + by rewrite last_or_app.
    + destruct Hs2 as (w & Hw & Hwp & _). by exists w.
Qed.

(** The links of a node. *)
Lemma dchain_links m hd tl l1 x l2 : dchain m hd tl (l1 ++ x :: l2) ->
  exists v, sget m x = Some v /\ prv v = last_or None l1 /\ nxt v = head_or None l2.
Proof. intros (_ & _ & _ & Hseg). apply dseg_app in Hseg as [_ (v & ? & ? & ? & _)]. by exists v. Qed.

Lemma push_front_spec m hd tl l x v :
  dchain m hd tl l -> x ∉ l -> sget m x = Some v ->
  exists m' tl', push_front m hd tl x = Done (m', Some x, tl') /\
    dchain m' (Some x) tl' (x :: l) /\ same_nodes m m' /\
    (forall y, y ∉ x :: l -> sget m' y = sget m y).
Proof.
  intros (Hnd & -> & -> & Hseg) Hx Hv. unfold push_front. rewrite Hv.
  cbn [deref mbind exec_bind].
  set (v' := set_nxt (head_or None l) (set_prv None v)).
  set (m1 := sset x v' m).
  assert (Hpay : same_nodes m m1).
  { intros y. apply payload_sset with (v := v); [done|].
    unfold v'. rewrite payload_set_nxt. apply payload_set_prv. }
  assert (Hm1 : sget m1 x = Some v') by (unfold m1; rewrite sget_sset, decide_True; eauto).
  assert (Hne : forall y, y ∉ x :: l -> sget m1 y = sget m y).
  { intros y Hy. apply (sget_sset_ne _ _ _ _ v); [done|clear -Hy; set_solver]. }
  assert (Hs1 : dseg m1 None l None).
  { eapply dseg_frame; [|exact Hseg]. intros y Hy. apply links_sset_ne; [eauto|]. by intros ->. }
  destruct l as [|q l].
  - eexists _, _. split; [done|]. split_and!; [|done|done].
    split_and!; [apply NoDup_singleton|done|done|].
    exists v'. unfold v'. rewrite prv_set_nxt, prv_set_prv, nxt_set_nxt. done.
  - destruct (dseg_mem _ _ _ _ q Hs1) as [w Hw]; [clear; set_solver|].
    cbn [head_or]. rewrite Hw. cbn [deref mbind exec_bind].
    eexists _, _. split; [done|].
    apply NoDup_cons in Hnd as [Hq Hnd].
    assert (Hqx : q <> x) by (clear -Hx; set_solver). split_and!.
    + split_and!; [apply NoDup_cons_2, NoDup_cons_2; done|done|done|].
      exists v'. rewrite (sget_sset_ne _ _ _ _ w) by done. split_and!; [done|..].
      * unfold v'. by rewrite prv_set_nxt, prv_set_prv.
      * unfold v'. by rewrite nxt_set_nxt.
      * eapply dseg_set_prv; eauto.
    + eapply same_nodes_trans; [exact Hpay|]. intros y.
      apply payload_sset with (v := w); [done|apply payload_set_prv].
    + intros y Hy. rewrite (sget_sset_ne _ _ _ _ w); [by apply Hne|done|clear -Hy; set_solver].
Qed.

Lemma push_back_spec m hd tl l x v :
  dchain m hd tl l -> x ∉ l -> sget m x = Some v ->
  exists m' hd', push_back m hd tl x = Done (m', hd', Some x) /\
    dchain m' hd' (Some x) (l ++ [x]) /\ same_nodes m m' /\
    (forall y, y ∉ l ++ [x] -> sget m' y = sget m y).
Proof.
  intros (Hnd & -> & -> & Hseg) Hx Hv. unfold push_back. rewrite Hv.
  cbn [deref mbind exec_bind].
  set (v' := set_nxt None (set_prv (last_or None l) v)).
  set (m1 := sset x v' m).
  assert (Hpay : same_nodes m m1).
  { intros y. apply payload_sset with (v := v); [done|].
    unfold v'. rewrite payload_set_nxt. apply payload_set_prv. }
  assert (Hm1 : sget m1 x = Some v') by (unfold m1; rewrite sget_sset, decide_True; eauto).
  assert (Hne : forall y, y ∉ l ++ [x] -> sget m1 y = sget m y).
  { intros y Hy. apply (sget_sset_ne _ _ _ _ v); [done|clear -Hy; set_solver]. }
  assert (Hs1 : dseg m1 None l None).
  { eapply dseg_frame; [|exact Hseg]. intros y Hy. apply links_sset_ne; [eauto|]. by intros ->. }
  assert (Hnd' : NoDup (l ++ [x])) by 
    (apply NoDup_app; split_and!; [done|clear -Hx; set_solver|apply NoDup_singleton]).
  assert (Hx1 : forall p, p = last_or None l -> dseg m1 p [x] None).
  { intros p ->. exists v'. unfold v' in *. by rewrite prv_set_nxt, prv_set_prv, nxt_set_nxt. }
  destruct l as [|q l _] using rev_ind.
  - eexists _, _. split; [done|]. split_and!; [|done|done]. split_and!; eauto.
  - destruct (dseg_mem _ _ _ _ q Hs1) as [w Hw]; [clear; set_solver|].
    rewrite last_or_last, Hw in *. cbn [deref mbind exec_bind].
    eexists _, _. split; [done|].
    assert (Hqx : q <> x) by (clear -Hx; set_solver). split_and!.
    + split_and!; [done|by rewrite !head_or_app|by rewrite last_or_last|].
      apply dseg_app. rewrite last_or_last. split.
      * apply NoDup_app in Hnd as (_ & Hql & _). eapply dseg_set_nxt; eauto. set_solver.
      * eapply dseg_frame; [|by apply Hx1].
        intros y Hy. apply links_sset_ne; [eauto|set_solver].
    + eapply same_nodes_trans; [exact Hpay|]. intros y.
      apply payload_sset with (v := w); [done|apply payload_set_nxt].
    + intros y Hy. rewrite (sget_sset_ne _ _ _ _ w); [by apply Hne|done|clear -Hy; set_solver].
Qed.
End dlist.

#[export] Hint Resolve same_nodes_refl same_nodes_trans : csem.
