(* ===== verification/Cache.v ===== *)
(** * The block cache of libminixfs: [Lab/Lab 8/src/cache.c]

    The state is the static data of [cache.c]: the array [buf], the hash table
    [buf_hash], the ends [front] and [rear] of the LRU chain, and the counters
    and switches.  Pointers into [buf] are indices.  The block device, the VM
    server and the allocator are parameters ([MinixEnv]); constants of the Minix
    headers are parameters as well ([MinixHdr]). *)
From S2P Require Import Prelude DList.
Local Open Scope Z_scope.

(** ** What [cache.c] uses of Minix *)

(** Constants of the Minix headers. *)
Class MinixHdr := {
  NO_DEV : Z; NO_BLOCK : Z; DEV_RAM : Z; MEMORY_MAJOR : Z;
  NORMAL : Z; NO_READ : Z; PREFETCH : Z;
  ONE_SHOT : Z; PARTIAL_DATA_BLOCK : Z;
  NR_IOREQS : nat; OK : Z; ENOSYS : Z; END_OF_FILE : Z; VM_BLOCKID_NONE : Z
}.

(** The functions of the kernel libraries and servers that [cache.c] calls; each
    one acts on the [world] outside the cache.  [bd] is the type of the contents
    of a block buffer.  An I/O vector is a list of buffer contents and sizes. *)
Class MinixEnv (world bd : Type) := {
  make64 : Z -> Z -> Z;
  mul64u : Z -> Z -> Z;
  div64u : Z -> Z -> Z;
  sqrt_approx : Z -> Z;
  malloc : Z -> world -> bool * world;
  alloc_contig : Z -> world -> option bd * world;
  free_contig : bd -> Z -> world -> world;
  bdev_read : Z -> Z -> bd -> Z -> world -> Z * bd * world;
  bdev_gather : Z -> Z -> list (bd * Z) -> world -> Z * list bd * world;
  bdev_scatter : Z -> Z -> list (bd * Z) -> world -> Z * world;
  vm_yield_block_get_block : Z -> Z -> bd -> Z -> world -> Z * bd * world;
  vm_forgetblock : Z -> world -> Z * world;
  vm_forgetblocks : world -> world;
  (** [vm_info_stats]: the result code, [vsi_free] and [vsi_pagesize]. *)
  vm_info_stats : world -> Z * Z * Z * world;
  (** [fs_blockstats]: total, free and used blocks. *)
  fs_blockstats : world -> Z * Z * Z * world
}.

(** ** Data *)

Definition BP_CLEAN : Z := 0.
Definition BP_DIRTY : Z := 1.
Definition MINBUFS : Z := 6.
(** The [rw_flag] argument of [lmfs_rw_scattered]. *)
Inductive rw_mode := READING | WRITING.

#[export] Instance rw_mode_eq_dec : EqDecision rw_mode.
Proof. solve_decision. Defined.

Record buf (bd : Type) := Buf {
  lmfs_next : option nat;
  lmfs_prev : option nat;
  lmfs_hash : option nat;
  lmfs_blocknr : Z;
  lmfs_dev : Z;
  lmfs_dirt : Z;
  lmfs_count : Z;
  lmfs_bytes : Z;
  b_data : option bd
}.
Arguments Buf {bd} _ _ _ _ _ _ _ _ _.
Arguments lmfs_next {bd} _. Arguments lmfs_prev {bd} _. Arguments lmfs_hash {bd} _.
Arguments lmfs_blocknr {bd} _. Arguments lmfs_dev {bd} _. Arguments lmfs_dirt {bd} _.
Arguments lmfs_count {bd} _. Arguments lmfs_bytes {bd} _. Arguments b_data {bd} _.

Section setters.
Context {bd : Type}.
Implicit Types b : buf bd.

Definition with_next n b : buf bd :=
  Buf n (lmfs_prev b) (lmfs_hash b) (lmfs_blocknr b) (lmfs_dev b) (lmfs_dirt b)
    (lmfs_count b) (lmfs_bytes b) (b_data b).
Definition with_prev p b : buf bd :=
  Buf (lmfs_next b) p (lmfs_hash b) (lmfs_blocknr b) (lmfs_dev b) (lmfs_dirt b)
    (lmfs_count b) (lmfs_bytes b) (b_data b).
Definition with_hash h b : buf bd :=
  Buf (lmfs_next b) (lmfs_prev b) h (lmfs_blocknr b) (lmfs_dev b) (lmfs_dirt b)
    (lmfs_count b) (lmfs_bytes b) (b_data b).
Definition with_blocknr n b : buf bd :=
  Buf (lmfs_next b) (lmfs_prev b) (lmfs_hash b) n (lmfs_dev b) (lmfs_dirt b)
    (lmfs_count b) (lmfs_bytes b) (b_data b).
Definition with_dev d b : buf bd :=
  Buf (lmfs_next b) (lmfs_prev b) (lmfs_hash b) (lmfs_blocknr b) d (lmfs_dirt b)
    (lmfs_count b) (lmfs_bytes b) (b_data b).
Definition with_dirt d b : buf bd :=
  Buf (lmfs_next b) (lmfs_prev b) (lmfs_hash b) (lmfs_blocknr b) (lmfs_dev b) d
    (lmfs_count b) (lmfs_bytes b) (b_data b).
Definition with_count c b : buf bd :=
  Buf (lmfs_next b) (lmfs_prev b) (lmfs_hash b) (lmfs_blocknr b) (lmfs_dev b)
    (lmfs_dirt b) c (lmfs_bytes b) (b_data b).
Definition with_data d n b : buf bd :=
  Buf (lmfs_next b) (lmfs_prev b) (lmfs_hash b) (lmfs_blocknr b) (lmfs_dev b)
    (lmfs_dirt b) (lmfs_count b) n d.

(** The LRU links make a buffer a node of a doubly linked chain. *)
#[export] Instance buf_link : Link (buf bd) (buf bd).
Proof.
  refine {| nxt := lmfs_next; prv := lmfs_prev;
            payload b := with_next None (with_prev None b);
            set_nxt := with_next; set_prv := with_prev |}; by intros [].
Defined.
End setters.

Record cache (world bd : Type) := Cache {
  c_buf : list (buf bd);
  buf_hash : list (option nat);
  front : option nat;
  rear : option nat;
  bufs_in_use : Z;
  nr_bufs : Z;
  vmcache : bool;
  may_use_vmcache : bool;
  fs_block_size : Z;
  rdwt_err : Z;
  dirtylistsize : Z;
  c_world : world
}.
Arguments Cache {world bd} _ _ _ _ _ _ _ _ _ _ _ _.
Arguments c_buf {world bd} _. Arguments buf_hash {world bd} _. Arguments front {world bd} _.
Arguments rear {world bd} _. Arguments bufs_in_use {world bd} _. Arguments nr_bufs {world bd} _.
Arguments vmcache {world bd} _. Arguments may_use_vmcache {world bd} _.
Arguments fs_block_size {world bd} _. Arguments rdwt_err {world bd} _.
Arguments dirtylistsize {world bd} _. Arguments c_world {world bd} _.

Section cache_ops.
Context {world bd : Type} `{!MinixHdr} `{E : !MinixEnv world bd}.
Local Abbreviation cache := (cache world bd).
Local Abbreviation buf := (buf bd).
Implicit Types (st : cache) (b : buf) (bp : nat).

Definition set_bufs m st : cache :=
  Cache m (buf_hash st) (front st) (rear st) (bufs_in_use st) (nr_bufs st) (vmcache st)
    (may_use_vmcache st) (fs_block_size st) (rdwt_err st) (dirtylistsize st) (c_world st).
Definition set_hash h st : cache :=
  Cache (c_buf st) h (front st) (rear st) (bufs_in_use st) (nr_bufs st) (vmcache st)
    (may_use_vmcache st) (fs_block_size st) (rdwt_err st) (dirtylistsize st) (c_world st).
Definition set_ends f r st : cache :=
  Cache (c_buf st) (buf_hash st) f r (bufs_in_use st) (nr_bufs st) (vmcache st)
    (may_use_vmcache st) (fs_block_size st) (rdwt_err st) (dirtylistsize st) (c_world st).
Definition set_in_use n st : cache :=
  Cache (c_buf st) (buf_hash st) (front st) (rear st) n (nr_bufs st) (vmcache st)
    (may_use_vmcache st) (fs_block_size st) (rdwt_err st) (dirtylistsize st) (c_world st).
Definition set_vmcache v st : cache :=
  Cache (c_buf st) (buf_hash st) (front st) (rear st) (bufs_in_use st) (nr_bufs st) v
    (may_use_vmcache st) (fs_block_size st) (rdwt_err st) (dirtylistsize st) (c_world st).
Definition set_block_size z st : cache :=
  Cache (c_buf st) (buf_hash st) (front st) (rear st) (bufs_in_use st) (nr_bufs st)
    (vmcache st) (may_use_vmcache st) z (rdwt_err st) (dirtylistsize st) (c_world st).
Definition set_rdwt_err e st : cache :=
  Cache (c_buf st) (buf_hash st) (front st) (rear st) (bufs_in_use st) (nr_bufs st)
    (vmcache st) (may_use_vmcache st) (fs_block_size st) e (dirtylistsize st) (c_world st).
Definition set_dirtylistsize n st : cache :=
  Cache (c_buf st) (buf_hash st) (front st) (rear st) (bufs_in_use st) (nr_bufs st)
    (vmcache st) (may_use_vmcache st) (fs_block_size st) (rdwt_err st) n (c_world st).
Definition set_world w st : cache :=
  Cache (c_buf st) (buf_hash st) (front st) (rear st) (bufs_in_use st) (nr_bufs st)
    (vmcache st) (may_use_vmcache st) (fs_block_size st) (rdwt_err st) (dirtylistsize st) w.

(** [*bp], and an assignment to a field of [*bp]. *)
Definition getb st bp : exec buf := deref OutOfBounds (c_buf st !! bp).
Definition updb bp (f : buf -> buf) st : exec cache :=
  b ← getb st bp; Done (set_bufs (<[bp := f b]> (c_buf st)) st).

(** [BUFHASH(b)]. *)
Definition BUFHASH st (n : Z) : nat := Z.to_nat (n mod nr_bufs st).

(** ** Small accessors *)

Definition lmfs_markdirty bp st : exec cache := updb bp (with_dirt BP_DIRTY) st.
Definition lmfs_markclean bp st : exec cache := updb bp (with_dirt BP_CLEAN) st.
Definition lmfs_isclean bp st : exec bool :=
  b ← getb st bp; Done (bool_decide (lmfs_dirt b = BP_CLEAN)).
Definition lmfs_bufs_in_use st : Z := bufs_in_use st.
Definition lmfs_nr_bufs st : Z := nr_bufs st.
Definition lmfs_fs_block_size st : Z := fs_block_size st.
Definition lmfs_may_use_vmcache ok st : cache :=
  Cache (c_buf st) (buf_hash st) (front st) (rear st) (bufs_in_use st) (nr_bufs st)
    (vmcache st) ok (fs_block_size st) (rdwt_err st) (dirtylistsize st) (c_world st).
Definition lmfs_reset_rdwt_err st : cache := set_rdwt_err OK st.
Definition lmfs_rdwt_err st : Z := rdwt_err st.

(** ** The LRU chain *)

Definition rm_lru bp st : exec cache :=
  let st := set_in_use (bufs_in_use st + 1) st in
  b ← getb st bp;
  let next_ptr := lmfs_next b in
  let prev_ptr := lmfs_prev b in
  st ← match prev_ptr with
       | Some q => updb q (with_next next_ptr) st
       | None => Done (set_ends next_ptr (rear st) st)
       end;
  match next_ptr with
  | Some q => updb q (with_prev prev_ptr) st
  | None => Done (set_ends (front st) prev_ptr st)
  end.

Definition lmfs_put_block (obp : option nat) (block_type : Z) st : exec cache :=
  match obp with
  | None => Done st
  | Some bp =>
      st ← updb bp (fun b => with_count (lmfs_count b - 1) b) st;
      b ← getb st bp;
      if decide (lmfs_count b <> 0) then Done st else
      let st := set_in_use (bufs_in_use st - 1) st in
      if decide (lmfs_dev b = DEV_RAM \/ Z.land block_type ONE_SHOT <> 0) then
        st ← updb bp (with_prev None) st;
        st ← updb bp (with_next (front st)) st;
        st ← match front st with
             | None => Done (set_ends (front st) (Some bp) st)
             | Some q => updb q (with_prev (Some bp)) st
             end;
        Done (set_ends (Some bp) (rear st) st)
      else
        st ← updb bp (with_prev (rear st)) st;
        st ← updb bp (with_next None) st;
        st ← match rear st with
             | None => Done (set_ends (Some bp) (rear st) st)
             | Some q => updb q (with_next (Some bp)) st
             end;
        Done (set_ends (front st) (Some bp) st)
  end.

(** ** Block I/O *)

Definition read_block bp st : exec cache :=
  b ← getb st bp;
  let dev := lmfs_dev b in
  _ ← assertC (dev <> NO_DEV);
  let pos := mul64u (lmfs_blocknr b) (fs_block_size st) in
  d ← deref NullDeref (b_data b);
  let '(r, d', w) := bdev_read dev pos d (fs_block_size st) (c_world st) in
  let st := set_world w st in
  st ← updb bp (with_data (Some d') (lmfs_bytes b)) st;
  let '(r, op_failed) :=
    if decide (r < 0) then (r, true)
    else if decide (r <> fs_block_size st) then (END_OF_FILE, true) else (r, false) in
  if op_failed then
    st ← updb bp (with_dev NO_DEV) st; Done (set_rdwt_err r st)
  else Done st.

(** The sort key of a queued buffer. *)
Definition blocknr_of st bp : Z :=
  match c_buf st !! bp with Some b => lmfs_blocknr b | None => 0 end.

(** The Shell sort of [lmfs_rw_scattered], on the array [bufq].  [pos] is the
    index [i + gap] of the source, whose loop test [i >= 0] is [gap <= pos]. *)
Definition swap (q : list nat) (i k : nat) : list nat :=
  match q !! i, q !! k with
  | Some x, Some y => <[i := y]> (<[k := x]> q)
  | _, _ => q
  end.

Fixpoint sift (fuel : nat) (key : nat -> Z) (gap : nat) (q : list nat) (pos : nat) : list nat :=
  match fuel with
  | O => q
  | S fuel =>
      if decide (gap <= pos)%nat then
        match q !! (pos - gap)%nat, q !! pos with
        | Some x, Some y =>
            if decide (key x > key y) then
              sift fuel key gap (swap q (pos - gap) pos) (pos - gap)
            else q
        | _, _ => q
        end
      else q
  end.

(** The [for (j = gap; j < bufqsize; j++)] loop. *)
Definition gap_pass (key : nat -> Z) (gap : nat) (q : list nat) : list nat :=
  fold_left (fun q j => sift (S (length q)) key gap q j) (seq gap (length q - gap)) q.

(** [do gap = 3 * gap + 1; while (gap <= bufqsize)]. *)
Fixpoint gap_init (fuel gap n : nat) : nat :=
  let gap := (3 * gap + 1)%nat in
  match fuel with
  | O => gap
  | S fuel => if decide (gap <= n)%nat then gap_init fuel gap n else gap
  end.

(** [while (gap != 1) { gap /= 3; ... }]. *)
Fixpoint gap_passes (fuel : nat) (key : nat -> Z) (gap : nat) (q : list nat) : list nat :=
  match fuel with
  | O => q
  | S fuel =>
      if decide (gap = 1)%nat then q
      else let gap := (gap / 3)%nat in gap_passes fuel key gap (gap_pass key gap q)
  end.

Definition shell_sort (key : nat -> Z) (q : list nat) : list nat :=
  let gap := gap_init (length q) 1 (length q) in gap_passes gap key gap q.

(** The I/O vector: the longest run of consecutive block numbers, [j] of them. *)
Fixpoint run_length st (room : nat) (first j : Z) (q : list nat) : nat :=
  match room, q with
  | S room, bp :: q' =>
      if decide (blocknr_of st bp = u32 (first + j)) then S (run_length st room first (j + 1) q')
      else O
  | _, _ => O
  end.

Fixpoint iovec st (q : list nat) : exec (list (bd * Z)) :=
  match q with
  | [] => Done []
  | bp :: q' => b ← getb st bp; d ← deref NullDeref (b_data b);
      iov ← iovec st q'; Done ((d, fs_block_size st) :: iov)
  end.

(** What a completed gather left in the buffers of the vector. *)
Fixpoint fill (q : list nat) (ds : list bd) st : exec cache :=
  match q, ds with
  | bp :: q', d :: ds' =>
      st ← updb bp (fun b => with_data (Some d) (lmfs_bytes b) b) st; fill q' ds' st
  | _, _ => Done st
  end.

(** The loop that harvests the results: [q] is [bufq[i..j)]. *)
Fixpoint harvest (dev : Z) (rw_flag : rw_mode) (r : Z) (i : nat) (q : list nat) st
    : exec (cache * nat) :=
  match q with
  | [] => Done (st, i)
  | bp :: q' =>
      if decide (r < fs_block_size st) then
        if decide (i = 0)%nat then
          st ← updb bp (with_dev NO_DEV) st;
          Done (set_world (vm_forgetblocks (c_world st)) st, i)
        else Done (st, i)
      else
        st ← match rw_flag with
             | READING => st ← updb bp (with_dev dev) st;
                 lmfs_put_block (Some bp) PARTIAL_DATA_BLOCK st
             | WRITING => lmfs_markclean bp st
             end;
        harvest dev rw_flag (r - fs_block_size st) (S i) q' st
  end.

Fixpoint put_all (q : list nat) st : exec cache :=
  match q with
  | [] => Done st
  | bp :: q' => st ← lmfs_put_block (Some bp) PARTIAL_DATA_BLOCK st; put_all q' st
  end.

(** One round of the [while (bufqsize > 0)] loop: the new state and the number
    of buffers done. *)
Definition rw_round (dev : Z) (rw_flag : rw_mode) (bp0 : nat) (q : list nat) st
    : exec (cache * nat) :=
  b0 ← getb st bp0;
  let j := run_length st NR_IOREQS (lmfs_blocknr b0) 0 q in
  let run := take j q in
  iov ← iovec st run;
  let pos := mul64u (lmfs_blocknr b0) (fs_block_size st) in
  '(r, st) ← (match rw_flag with
              | READING =>
                  let '(r, ds, w) := bdev_gather dev pos iov (c_world st) in
                  st ← fill run ds (set_world w st); Done (r, st)
              | WRITING =>
                  let '(r, w) := bdev_scatter dev pos iov (c_world st) in
                  Done (r, set_world w st)
              end : exec (Z * cache));
  harvest dev rw_flag r 0 run st.

Fixpoint rw_loop (fuel : nat) (dev : Z) (rw_flag : rw_mode) (q : list nat) st : exec cache :=
  match q with
  | [] => Done st
  | bp0 :: _ =>
      match fuel with
      | O => Fault OutOfFuel
      | S fuel =>
          '(st, i) ← rw_round dev rw_flag bp0 q st;
          let q := drop i q in
          match rw_flag with
          | READING => put_all q st
          | WRITING => if decide (i = 0)%nat then Done st else rw_loop fuel dev rw_flag q st
          end
      end
  end.

Definition lmfs_rw_scattered (dev : Z) (bufq : list nat) (rw_flag : rw_mode) st : exec cache :=
  rw_loop (length bufq) dev rw_flag (shell_sort (blocknr_of st) bufq) st.

(** The dirty buffers of a device, in array order. *)
Definition is_dirty_for (dev : Z) st (i : nat) : bool :=
  match c_buf st !! i with
  | Some b => bool_decide (lmfs_dirt b = BP_DIRTY /\ lmfs_dev b = dev)
  | None => false
  end.

Definition flushall (dev : Z) st : exec cache :=
  st ← (if decide (dirtylistsize st <> nr_bufs st) then
          let '(ok, w) := malloc (nr_bufs st) (c_world st) in
          if ok : bool then Done (set_dirtylistsize (nr_bufs st) (set_world w st))
          else Fault Panic
        else Done st);
  let dirty := filter (fun i => is_dirty_for dev st i = true) (seq 0 (length (c_buf st))) in
  lmfs_rw_scattered dev dirty WRITING st.

Definition lmfs_flushall st : exec cache :=
  fold_left (fun m i => st ← m; b ← getb st i;
      if decide (lmfs_dev b <> NO_DEV /\ lmfs_dirt b = BP_DIRTY)
      then flushall (lmfs_dev b) st else Done st)
    (seq 0 (length (c_buf st))) (Done st).

Definition lmfs_invalidate (device : Z) st : cache :=
  let st := set_bufs ((fun b => if decide (lmfs_dev b = device) then with_dev NO_DEV b else b)
              <$> c_buf st) st in
  set_world (vm_forgetblocks (c_world st)) st.

(** ** [lmfs_get_block] *)

(** The walk along a hash chain; the fuel is the number of buffers. *)
Fixpoint hash_search (fuel : nat) (dev block : Z) (cur : option nat) st : exec (option nat) :=
  match cur with
  | None => Done None
  | Some bp =>
      match fuel with
      | O => Fault OutOfFuel
      | S fuel =>
          b ← getb st bp;
          if decide (lmfs_blocknr b = block /\ lmfs_dev b = dev) then Done (Some bp)
          else hash_search fuel dev block (lmfs_hash b) st
      end
  end.

(** [for(bp = front; bp && bp->lmfs_bytes < fs_block_size; bp = bp->lmfs_next)]. *)
Fixpoint find_with_memory (fuel : nat) (cur : option nat) st : exec (option nat) :=
  match cur with
  | None => Done None
  | Some bp =>
      match fuel with
      | O => Fault OutOfFuel
      | S fuel =>
          b ← getb st bp;
          if decide (lmfs_bytes b < fs_block_size st) then find_with_memory fuel (lmfs_next b) st
          else Done (Some bp)
      end
  end.

(** The buffer to evict: [front], or, when it has no memory and none can be
    allocated, the first free buffer that has some. *)
Definition pick_victim st : exec (nat * cache) :=
  bp ← deref Panic (front st);
  b ← getb st bp;
  if decide (lmfs_bytes b < fs_block_size st) then
    _ ← assertC (b_data b = None);
    _ ← assertC (lmfs_bytes b = 0);
    let '(d, w) := alloc_contig (fs_block_size st) (c_world st) in
    let st := set_world w st in
    match d with
    | None =>
        o ← find_with_memory (length (c_buf st)) (front st) st;
        bp ← deref Panic o; Done (bp, st)
    | Some d => st ← updb bp (with_data (Some d) (fs_block_size st)) st; Done (bp, st)
    end
  else Done (bp, st).

(** The walk that unlinks [bp] from the chain behind [prev_ptr]. *)
Fixpoint hash_unlink_after (fuel : nat) (prev_ptr bp : nat) (h : option nat) st : exec cache :=
  match fuel with
  | O => Fault OutOfFuel
  | S fuel =>
      p ← getb st prev_ptr;
      match lmfs_hash p with
      | None => Done st
      | Some q =>
          if decide (q = bp) then updb prev_ptr (with_hash h) st
          else hash_unlink_after fuel q bp h st
      end
  end.

(** "Remove the block that was just taken from its hash chain." *)
Definition hash_remove bp st : exec cache :=
  b ← getb st bp;
  let i := BUFHASH st (lmfs_blocknr b) in
  h ← deref OutOfBounds (buf_hash st !! i);
  if decide (h = Some bp) then Done (set_hash (<[i := lmfs_hash b]> (buf_hash st)) st)
  else
    prev_ptr ← deref NullDeref h;
    hash_unlink_after (S (length (c_buf st))) prev_ptr bp (lmfs_hash b) st.

(** Write back the device's dirty blocks, and name the block for VM: the new
    state and [yieldid]. *)
Definition evict bp st : exec (Z * cache) :=
  b ← getb st bp;
  if decide (lmfs_dev b <> NO_DEV) then
    st ← (if decide (lmfs_dirt b = BP_DIRTY) then flushall (lmfs_dev b) st else Done st);
    b ← getb st bp;
    let yieldid := make64 (lmfs_dev b) (lmfs_blocknr b) in
    _ ← assertC (lmfs_bytes b = fs_block_size st);
    st ← updb bp (with_dev NO_DEV) st;
    Done (yieldid, st)
  else Done (VM_BLOCKID_NONE, st).

(** "Fill in block's parameters and add it to the hash chain where it goes." *)
Definition rename bp (dev block : Z) st : exec cache :=
  st ← lmfs_markclean bp st;
  st ← updb bp (with_dev dev) st;
  st ← updb bp (with_blocknr block) st;
  st ← updb bp (fun b => with_count (lmfs_count b + 1) b) st;
  let i := BUFHASH st block in
  h ← deref OutOfBounds (buf_hash st !! i);
  st ← updb bp (with_hash h) st;
  Done (set_hash (<[i := Some bp]> (buf_hash st)) st).

(** Go get the block, from VM's cache or from the device, as [only_search] says. *)
Definition fetch bp (yieldid getid only_search : Z) st : exec cache :=
  '(hit, st) ←
    (if decide ((only_search = PREFETCH \/ only_search = NORMAL) /\ vmcache st = true) then
       b ← getb st bp;
       d ← deref NullDeref (b_data b);
       let '(r, d', w) :=
         vm_yield_block_get_block yieldid getid d (fs_block_size st) (c_world st) in
       st ← updb bp (with_data (Some d') (lmfs_bytes b)) (set_world w st);
       Done (bool_decide (r = OK), st)
     else Done (false, st) : exec (bool * cache));
  if hit : bool then Done st
  else if decide (only_search = PREFETCH) then updb bp (with_dev NO_DEV) st
  else if decide (only_search = NORMAL) then read_block bp st
  else if decide (only_search = NO_READ) then
    if vmcache st then
      let '(_, w) := vm_forgetblock getid (c_world st) in Done (set_world w st)
    else Done st
  else Fault Panic.

Definition lmfs_get_block (dev block only_search : Z) st : exec (nat * cache) :=
  let getid := make64 dev block in
  _ ← assertC (nr_bufs st > 0);
  _ ← assertC (fs_block_size st > 0);
  _ ← assertC (dev <> NO_DEV);
  h ← deref OutOfBounds (buf_hash st !! BUFHASH st block);
  found ← hash_search (length (c_buf st)) dev block h st;
  match found with
  | Some bp =>
      b ← getb st bp;
      st ← (if decide (lmfs_count b = 0) then rm_lru bp st else Done st);
      st ← updb bp (fun b => with_count (lmfs_count b + 1) b) st;
      b ← getb st bp;
      _ ← assertC (lmfs_bytes b = fs_block_size st);
      _ ← assertC (b_data b <> None);
      Done (bp, st)
  | None =>
      '(bp, st) ← pick_victim st;
      b ← getb st bp;
      _ ← assertC (b_data b <> None);
      _ ← assertC (lmfs_bytes b = fs_block_size st);
      _ ← assertC (lmfs_count b = 0);
      st ← rm_lru bp st;
      st ← hash_remove bp st;
      '(yieldid, st) ← evict bp st;
      st ← rename bp dev block st;
      st ← fetch bp yieldid getid only_search st;
      Done (bp, st)
  end.

(** ** The buffer pool *)

(** [lmfs_buf_pool] calls [fs_sync] of the file system that uses the library;
    it calls back into this file. *)
Context (fs_sync : cache -> exec cache).

Definition free_buffers st : exec cache :=
  w ← foldl (fun m b => w ← m;
        match b_data b with
        | Some d => _ ← assertC (lmfs_bytes b > 0); Done (free_contig d (lmfs_bytes b) w)
        | None => Done w
        end) (Done (c_world st)) (c_buf st);
  Done (set_world w st).

(** A cell of the new array after the first loop. *)
Definition pool_cell (i : nat) : buf :=
  Buf (Some (S i)) (Some (i - 1)%nat) None NO_BLOCK NO_DEV 0 0 0 None.

Definition lmfs_buf_pool (new_nr_bufs : Z) st : exec cache :=
  _ ← assertC (new_nr_bufs >= MINBUFS);
  st ← (if decide (nr_bufs st > 0) then st ← fs_sync st; free_buffers st else Done st);
  let n := Z.to_nat new_nr_bufs in
  let '(ok1, w) := malloc new_nr_bufs (c_world st) in
  let '(ok2, w) := malloc new_nr_bufs w in
  if negb (ok1 && ok2) then Fault Panic else
  let st := Cache (pool_cell <$> seq 0 n) (replicate n None) (Some 0%nat) (Some (n - 1)%nat)
      0 new_nr_bufs (vmcache st) (may_use_vmcache st) (fs_block_size st) (rdwt_err st)
      (dirtylistsize st) w in
  st ← updb 0 (with_prev None) st;
  st ← updb (n - 1) (with_next None) st;
  let st := set_bufs ((fun b => with_hash (lmfs_next b) b) <$> c_buf st) st in
  let st := set_hash (<[0%nat := front st]> (buf_hash st)) st in
  Done (set_world (vm_forgetblocks (c_world st)) st).

Definition cache_resize (blocksize bufs : Z) st : exec cache :=
  _ ← assertC (blocksize > 0);
  _ ← assertC (bufs >= MINBUFS);
  if decide (Forall (fun b => lmfs_count b = 0) (c_buf st)) then
    st ← lmfs_buf_pool bufs st; Done (set_block_size blocksize st)
  else Fault Panic.

(** ** The size heuristic *)

Definition fs_bufs_heuristic (minbufs btotal bfree blocksize majordev : Z) (w : world)
    : exec (Z * world) :=
  let bused := u32 (btotal - bfree) in
  if decide (majordev = MEMORY_MAJOR) then Done (u32 minbufs, w) else
  let '(r, vsi_free, vsi_pagesize, w) := vm_info_stats w in
  if decide (r <> OK) then Done (1024, w) else
  let kbytes_remain_mem := u32 (div64u (mul64u vsi_free vsi_pagesize) 1024) in
  let kbytes_used_fs := u32 (div64u (mul64u bused blocksize) 1024) in
  let kbytes_total_fs := u32 (div64u (mul64u btotal blocksize) 1024) in
  let kb_fsmax := u32 (sqrt_approx kbytes_used_fs * 40) in
  let kb_fsmax := Z.min kb_fsmax (kbytes_total_fs / 2) in
  let kbcache := Z.min (kbytes_remain_mem / 10) kb_fsmax in
  if decide (u32 blocksize = 0) then Fault Undefined else
  let bufs := i32 (u32 (kbcache * 1024) / u32 blocksize) in
  let bufs := if decide (bufs < minbufs) then minbufs else bufs in
  Done (u32 bufs, w).

Definition lmfs_set_blocksize (new_block_size major : Z) st : exec cache :=
  st ← cache_resize new_block_size MINBUFS st;
  let '(btotal, bfree, _, w) := fs_blockstats (c_world st) in
  '(bufs, w) ← fs_bufs_heuristic 10 btotal bfree new_block_size major w;
  st ← cache_resize new_block_size (i32 bufs) (set_world w st);
  let st := set_vmcache false st in
  let '(r, w) := vm_forgetblock VM_BLOCKID_NONE (c_world st) in
  let st := set_world w st in
  if decide (r <> ENOSYS /\ may_use_vmcache st = true /\ major <> MEMORY_MAJOR)
  then Done (set_vmcache true st) else Done st.
End cache_ops.
