(* ===== verification/CacheInv.v ===== *)
(** * The invariant of the block cache, and the lemmas that preserve it

    [core_inv st l ex]: the free buffers are chained in the order [l], every
    buffer but [ex] is on exactly the hash chain of its block number, and no two
    buffers hold the same block.  [ex] is the buffer that [lmfs_get_block] has
    taken off its chains and not yet renamed. *)
From S2P Require Import Prelude DList Cache.
Local Open Scope Z_scope.

Section cache_inv.
Context {world bd : Type} `{!MinixHdr} `{E : !MinixEnv world bd}.
Local Abbreviation cache := (cache world bd).
Local Abbreviation buf := (buf bd).
Implicit Types (st : cache) (b : buf) (bp i : nat) (l : list nat) (ex : option nat) (m : list buf).

(** ** Hash chains *)

(** From [cur], the hash links lead through [l] to [e]. *)
Fixpoint hseg m (cur : option nat) l (e : option nat) : Prop :=
  match l with
  | [] => cur = e
  | x :: l' => cur = Some x /\ exists b, m !! x = Some b /\ hseg m (lmfs_hash b) l' e
  end.

Definition bucket (nr : Z) b : nat := Z.to_nat (lmfs_blocknr b mod nr).

(** Every chain holds, once each, the buffers of its bucket, [ex] excepted. *)
Definition hash_ok (m : list buf) (h : list (option nat)) (nr : Z) ex : Prop :=
  length h = Z.to_nat nr /\
  forall k c, h !! k = Some c -> exists l, hseg m c l None /\ NoDup l /\
    forall i, i ∈ l <-> (Some i <> ex) /\ exists b, m !! i = Some b /\ bucket nr b = k.

(** ** The invariant *)

Definition mem_ok (bs : Z) b : Prop :=
  (lmfs_bytes b = 0 /\ b_data b = None) \/ (lmfs_bytes b = bs /\ b_data b <> None).

Definition cell_ok (bs : Z) l ex i b : Prop :=
  0 <= lmfs_count b /\ mem_ok bs b /\
  (0 < lmfs_count b \/ lmfs_dev b <> NO_DEV -> b_data b <> None) /\
  0 <= lmfs_blocknr b < 2 ^ 32 /\
  (if decide (ex = Some i) then (i ∉ l) /\ lmfs_count b = 0 else (i ∈ l <-> lmfs_count b = 0)).

(** No block of a device is in two buffers. *)
Definition unique_blocks (m : list buf) : Prop :=
  forall i j bi bj, m !! i = Some bi -> m !! j = Some bj ->
    lmfs_dev bi = lmfs_dev bj -> lmfs_blocknr bi = lmfs_blocknr bj ->
    lmfs_dev bi <> NO_DEV -> i = j.

Record core_inv st l ex : Prop := CoreInv {
  ci_nr : 0 < nr_bufs st < 2 ^ 32;
  ci_len : length (c_buf st) = Z.to_nat (nr_bufs st);
  ci_bs : 0 < fs_block_size st;
  ci_lru : dchain (c_buf st) (front st) (rear st) l;
  ci_hash : hash_ok (c_buf st) (buf_hash st) (nr_bufs st) ex;
  ci_cells : forall i b, c_buf st !! i = Some b -> cell_ok (fs_block_size st) l ex i b;
  ci_in_use : bufs_in_use st = nr_bufs st - Z.of_nat (length l);
  ci_unique : unique_blocks (c_buf st)
}.

(** The invariant between two calls into the cache. *)
Definition cache_inv st l : Prop := core_inv st l None.

(** ** Steps that only clean, invalidate or refill buffers *)

Definition has_data b : bool := if b_data b is Some _ then true else false.

Definition cell_weak b b' : Prop :=
  lmfs_next b' = lmfs_next b /\ lmfs_prev b' = lmfs_prev b /\ lmfs_hash b' = lmfs_hash b /\
  lmfs_blocknr b' = lmfs_blocknr b /\ lmfs_count b' = lmfs_count b /\
  lmfs_bytes b' = lmfs_bytes b /\ has_data b' = has_data b /\
  (lmfs_dev b' = lmfs_dev b \/ lmfs_dev b' = NO_DEV).

Record weak_step st st' : Prop := WeakStep {
  ws_cells : Forall2 cell_weak (c_buf st) (c_buf st');
  ws_hash : buf_hash st' = buf_hash st;
  ws_front : front st' = front st;
  ws_rear : rear st' = rear st;
  ws_in_use : bufs_in_use st' = bufs_in_use st;
  ws_nr : nr_bufs st' = nr_bufs st;
  ws_vm : vmcache st' = vmcache st;
  ws_may : may_use_vmcache st' = may_use_vmcache st;
  ws_bs : fs_block_size st' = fs_block_size st
}.

Lemma cell_weak_refl b : cell_weak b b.
Proof. unfold cell_weak. tauto. Qed.

Lemma cell_weak_trans b1 b2 b3 : cell_weak b1 b2 -> cell_weak b2 b3 -> cell_weak b1 b3.
Proof.
  unfold cell_weak. intros. destruct_and!. split_and!; try congruence.
  destruct_or!; (left; congruence) || (right; congruence).
Qed.

Lemma weak_cells_refl (m : list buf) : Forall2 cell_weak m m.
Proof. induction m; constructor; auto using cell_weak_refl. Qed.

Lemma weak_step_refl st : weak_step st st.
Proof. split; auto using weak_cells_refl. Qed.

Lemma weak_step_trans st1 st2 st3 : weak_step st1 st2 -> weak_step st2 st3 -> weak_step st1 st3.
Proof.
  intros [] []. split; try congruence.
  eapply Forall2_trans; eauto using cell_weak_trans.
Qed.

Lemma weak_lookup st st' i b : weak_step st st' -> c_buf st !! i = Some b ->
  exists b', c_buf st' !! i = Some b' /\ cell_weak b b'.
Proof.
  intros [Hc _ _ _ _ _ _ _ _] Hb.
  destruct (Forall2_lookup_l _ _ _ _ _ Hc Hb) as (b' & ? & ?). eauto.
Qed.

Lemma weak_lookup_r st st' i b' : weak_step st st' -> c_buf st' !! i = Some b' ->
  exists b, c_buf st !! i = Some b /\ cell_weak b b'.
Proof.
  intros [Hc _ _ _ _ _ _ _ _] Hb.
  destruct (Forall2_lookup_r _ _ _ _ _ Hc Hb) as (b & ? & ?). eauto.
Qed.

Lemma getb_done st bp b : c_buf st !! bp = Some b -> getb st bp = Done b.
Proof. intros Hb. unfold getb. by rewrite Hb. Qed.

(** Updates of one cell. *)
Lemma updb_done bp f st b : c_buf st !! bp = Some b ->
  updb bp f st = Done (set_bufs (<[bp := f b]> (c_buf st)) st).
Proof. intros Hb. unfold updb, getb. by rewrite Hb. Qed.

Lemma cells_insert (R : buf -> buf -> Prop) (m : list buf) bp b b' :
  (forall c, R c c) -> m !! bp = Some b -> R b b' -> Forall2 R m (<[bp := b']> m).
Proof.
  intros Hrefl Hb HR.
  assert (Hm : Forall2 R m m) by (clear Hb; induction m; constructor; auto).
  rewrite <- (list_insert_id m bp b) at 1 by done. by apply Forall2_insert.
Qed.

Lemma updb_weak bp f st b : c_buf st !! bp = Some b -> cell_weak b (f b) ->
  runs (updb bp f st) (fun st' => weak_step st st' /\ c_buf st' = <[bp := f b]> (c_buf st)).
Proof.
  intros Hb Hw. rewrite (updb_done _ _ _ b) by done. apply runs_done.
  split; [|done]. split; try done. apply cells_insert with b; auto using cell_weak_refl.
Qed.

Lemma weak_world st w : weak_step st (set_world w st).
Proof. split; auto using weak_cells_refl. Qed.

Lemma weak_rdwt_err st e : weak_step st (set_rdwt_err e st).
Proof. split; auto using weak_cells_refl. Qed.

Lemma weak_dirtylistsize st n : weak_step st (set_dirtylistsize n st).
Proof. split; auto using weak_cells_refl. Qed.

(** ** Frames of the hash chains *)

Lemma hseg_mem m c l e i : hseg m c l e -> i ∈ l -> is_Some (m !! i).
Proof.
  revert c. induction l as [|x l IH]; intros c; [by intros _ ?%elem_of_nil|].
  intros (_ & b & Hb & Hl) [->|Hi]%elem_of_cons; eauto.
Qed.

Lemma hseg_frame m m' c l e :
  (forall i, i ∈ l -> lmfs_hash <$> m' !! i = lmfs_hash <$> m !! i) ->
  hseg m c l e -> hseg m' c l e.
Proof.
  revert c. induction l as [|x l IH]; intros c Hfr; [done|].
  intros (-> & b & Hb & Hl). split; [done|].
  assert (Hx : lmfs_hash <$> m' !! x = lmfs_hash <$> m !! x) by (apply Hfr; set_solver).
  rewrite Hb in Hx. destruct (m' !! x) as [b'|] eqn:Hb'; [|done]. simplify_eq/=.
  exists b'. split; [done|]. rewrite Hx. apply IH; [|done]. intros i Hi. apply Hfr. set_solver.
Qed.

(** Cells with the same hash link and bucket keep the table well formed. *)
Lemma hash_ok_frame m m' h nr ex :
  (forall i, (fun b => (lmfs_hash b, lmfs_blocknr b)) <$> m' !! i =
             (fun b => (lmfs_hash b, lmfs_blocknr b)) <$> m !! i) ->
  hash_ok m h nr ex -> hash_ok m' h nr ex.
Proof.
  intros Hfr [Hlen Hh]. split; [done|]. intros k c Hk.
  destruct (Hh k c Hk) as (l & Hseg & Hnd & Hmem). exists l. split_and!; [|done|].
  - eapply hseg_frame; [|exact Hseg]. intros i _. specialize (Hfr i).
    destruct (m !! i), (m' !! i); simplify_eq/=; congruence.
  - intros i. rewrite Hmem. specialize (Hfr i). unfold bucket.
    destruct (m !! i) as [b|] eqn:E1, (m' !! i) as [b'|] eqn:E2; simplify_eq/=.
    + split; intros (? & ? & ? & ?); simplify_eq; split; eauto; eexists; split; eauto; congruence.
    + split; intros (? & ? & ? & ?); done.
Qed.

(** ** [core_inv] under weak steps *)

Lemma cell_ok_weak bs l ex i b b' : cell_weak b b' -> cell_ok bs l ex i b -> cell_ok bs l ex i b'.
Proof.
  unfold cell_weak, cell_ok, mem_ok, has_data.
  intros (Hn & Hp & Hh & Hbn & Hc & Hby & Hd & Hv). rewrite Hc, Hby, Hbn.
  destruct (b_data b), (b_data b'); try done; [intuition congruence|].
  intros (?&?&Hdat&?). split_and!; try tauto. intros [?|?]; [tauto|]. apply Hdat. right.
  by destruct Hv as [<-|]. 
Qed.

Lemma weak_links st st' i : weak_step st st' -> links (c_buf st') i = links (c_buf st) i.
Proof.
  intros Hw. unfold links. simpl. destruct (c_buf st !! i) as [b|] eqn:Hb.
  - destruct (weak_lookup _ _ _ _ Hw Hb) as (b' & -> & Hcw). simpl.
    destruct Hcw as (-> & -> & _). done.
  - destruct (c_buf st' !! i) as [b'|] eqn:Hb'; [|done].
    destruct (weak_lookup_r _ _ _ _ Hw Hb') as (b & ? & _). congruence.
Qed.

Lemma core_inv_weak st st' l ex : weak_step st st' -> core_inv st l ex -> core_inv st' l ex.
Proof.
  intros Hw [Hnr Hlen Hbs Hlru Hhash Hcells Huse Huniq]. pose proof Hw as [Hc Eh Ef Er Eu En _ _ Eb].
  split; rewrite ?Eh, ?Ef, ?Er, ?Eu, ?En, ?Eb; try done.
  - by rewrite <- (Forall2_length _ _ _ Hc).
  - eapply dchain_frame; [|exact Hlru]. intros i _. by apply weak_links.
  - eapply hash_ok_frame; [|exact Hhash]. intros i.
    destruct (c_buf st !! i) as [b|] eqn:Hb.
    + destruct (weak_lookup _ _ _ _ Hw Hb) as (b' & -> & Hcw). simpl.
      destruct Hcw as (_ & _ & -> & -> & _). done.
    + destruct (c_buf st' !! i) as [b'|] eqn:Hb'; [|done].
      destruct (weak_lookup_r _ _ _ _ Hw Hb') as (b & ? & _). congruence.
  - intros i b' Hb'. destruct (weak_lookup_r _ _ _ _ Hw Hb') as (b & Hb & Hcw).
    eapply cell_ok_weak; eauto.
  - intros i j bi bj Hi Hj Hd Hn Hne.
    destruct (weak_lookup_r _ _ _ _ Hw Hi) as (ci & Hi' & (_&_&_&Ei&_&_&_&Di)).
    destruct (weak_lookup_r _ _ _ _ Hw Hj) as (cj & Hj' & (_&_&_&Ej&_&_&_&Dj)).
    eapply Huniq; [exact Hi'|exact Hj'|..]; destruct Di, Dj; congruence.
Qed.

(** ** The LRU operations on the invariant *)

(** Cells that differ in their LRU links only. *)
Definition same_payload (m m' : list buf) : Prop := same_nodes m m'.

Lemma same_nodes_cell m m' i b' : same_nodes m m' -> m' !! i = Some b' ->
  exists b, m !! i = Some b /\ payload b' = payload b.
Proof.
  intros Hs Hb'. specialize (Hs i). simpl in Hs. rewrite Hb' in Hs.
  destruct (m !! i) as [b|]; [|done]. apply Some_inj in Hs. eauto.
Qed.

Lemma same_nodes_length (m m' : list buf) : same_nodes m m' -> length m' = length m.
Proof.
  intros Hs. apply Nat.le_antisymm; apply Nat.le_ngt; intros Hlt.
  - apply lookup_lt_is_Some in Hlt. apply (same_nodes_Some _ _ _ Hs) in Hlt.
    apply lookup_lt_is_Some in Hlt. lia.
  - apply lookup_lt_is_Some in Hlt. apply (same_nodes_Some _ _ _ Hs) in Hlt.
    apply lookup_lt_is_Some in Hlt. lia.
Qed.

Lemma payload_fields b b' : payload b' = payload b ->
  lmfs_hash b' = lmfs_hash b /\ lmfs_blocknr b' = lmfs_blocknr b /\ lmfs_dev b' = lmfs_dev b /\
  lmfs_dirt b' = lmfs_dirt b /\ lmfs_count b' = lmfs_count b /\ lmfs_bytes b' = lmfs_bytes b /\
  b_data b' = b_data b.
Proof. destruct b, b'. unfold payload. cbn. intros Heq. by simplify_eq. Qed.

Lemma hash_ok_same_nodes m m' h nr ex : same_nodes m m' -> hash_ok m h nr ex -> hash_ok m' h nr ex.
Proof.
  intros Hs. apply hash_ok_frame. intros i. specialize (Hs i). simpl in Hs.
  destruct (m !! i) as [b|], (m' !! i) as [b'|]; try done.
  apply Some_inj, payload_fields in Hs. simpl. by destruct Hs as (-> & -> & _).
Qed.

Lemma unique_same_nodes m m' : same_nodes m m' -> unique_blocks m -> unique_blocks m'.
Proof.
  intros Hs Hu i j bi bj Hi Hj Hd Hn Hne.
  destruct (same_nodes_cell _ _ _ _ Hs Hi) as (ci & Hci & Ei%payload_fields).
  destruct (same_nodes_cell _ _ _ _ Hs Hj) as (cj & Hcj & Ej%payload_fields).
  destruct_and!. eapply Hu; eauto; congruence.
Qed.

(** [rm_lru] is the generic unlinking, and one more buffer in use. *)
Lemma rm_lru_unlink bp st m' f r :
  unlink (c_buf st) (front st) (rear st) bp = Done (m', f, r) ->
  rm_lru bp st = Done (set_ends f r (set_bufs m' (set_in_use (bufs_in_use st + 1) st))).
Proof.
  unfold unlink, rm_lru, updb, getb. simpl.
  destruct (c_buf st !! bp) as [b|]; simpl; [|done].
  destruct (lmfs_prev b) as [q|]; simpl.
  - destruct (c_buf st !! q) as [bq|]; simpl; [|done].
    destruct (lmfs_next b) as [p|]; simpl; [|by intros [=<- <- <-]].
    destruct (<[q := _]> (c_buf st) !! p); simpl; [|done]. by intros [=<- <- <-].
  - destruct (lmfs_next b) as [p|]; simpl; [|by intros [=<- <- <-]].
    destruct (c_buf st !! p); simpl; [|done]. by intros [=<- <- <-].
Qed.

(** What [rm_lru] leaves: the chain without the buffer, nothing else changed. *)
Definition lru_removed st st' l' : Prop :=
  exists m' f r, st' = set_ends f r (set_bufs m' (set_in_use (bufs_in_use st + 1) st)) /\
    dchain m' f r l' /\ same_nodes (c_buf st) m'.

Lemma rm_lru_spec bp st l1 l2 :
  dchain (c_buf st) (front st) (rear st) (l1 ++ bp :: l2) ->
  runs (rm_lru bp st) (fun st' => lru_removed st st' (l1 ++ l2)).
Proof.
  intros Hch. destruct (unlink_spec _ _ _ _ _ _ Hch) as (m' & f & r & Eu & Hch' & Hs & _).
  rewrite (rm_lru_unlink _ _ _ _ _ Eu). apply runs_done. by exists m', f, r.
Qed.

(** ** Changing the use count of one buffer *)

Lemma core_inv_recount st st2 l l2 ex bp b b2 :
  core_inv st l ex -> c_buf st !! bp = Some b -> c_buf st2 !! bp = Some b2 ->
  lmfs_hash b2 = lmfs_hash b -> lmfs_blocknr b2 = lmfs_blocknr b -> lmfs_dev b2 = lmfs_dev b ->
  (forall i, i <> bp -> payload <$> c_buf st2 !! i = payload <$> c_buf st !! i) ->
  length (c_buf st2) = length (c_buf st) ->
  buf_hash st2 = buf_hash st -> nr_bufs st2 = nr_bufs st -> fs_block_size st2 = fs_block_size st ->
  dchain (c_buf st2) (front st2) (rear st2) l2 ->
  (forall i, i <> bp -> i ∈ l2 <-> i ∈ l) ->
  cell_ok (fs_block_size st) l2 ex bp b2 ->
  bufs_in_use st2 = nr_bufs st - Z.of_nat (length l2) ->
  core_inv st2 l2 ex.
Proof.
  intros [[Hnr Hnr'] Hlen Hbs Hlru Hhash Hcells Huse Huniq] Hb Hb2 Eh Ebn Ed Hsame Hlen2 Et En Ebs
    Hlru2 Hmem Hcell Huse2.
  assert (Hother : forall i b', i <> bp -> c_buf st2 !! i = Some b' ->
    exists b0, c_buf st !! i = Some b0 /\ payload b' = payload b0).
  { intros i b' Hi Hb'. specialize (Hsame i Hi). rewrite Hb' in Hsame.
    destruct (c_buf st !! i) as [b0|]; [|done]. apply Some_inj in Hsame. eauto. }
  split; rewrite ?En, ?Ebs, ?Et; try done.
  - by rewrite Hlen2.
  - eapply hash_ok_frame; [|exact Hhash]. intros i. destruct (decide (i = bp)) as [->|Hi].
    + rewrite Hb, Hb2. simpl. by rewrite Eh, Ebn.
    + specialize (Hsame i Hi). destruct (c_buf st !! i), (c_buf st2 !! i); try done.
      apply Some_inj, payload_fields in Hsame. simpl. by destruct Hsame as (-> & -> & _).
  - intros i b' Hb'. destruct (decide (i = bp)) as [->|Hi]; [by simplify_eq|].
    destruct (Hother i b' Hi Hb') as (b0 & Hb0 & Hp%payload_fields).
    destruct Hp as (_&Ebn'&Edv&_&Ec&Eby&Eda). specialize (Hcells i b0 Hb0).
    unfold cell_ok, mem_ok in *. rewrite Ec, Eby, Eda, Ebn', Edv.
    destruct Hcells as (?&?&?&[? ?]&Hc). split_and!; try done.
    specialize (Hmem i Hi). destruct (decide (ex = Some i)); tauto.
  - assert (Hback : forall i b', c_buf st2 !! i = Some b' -> exists b0, c_buf st !! i = Some b0 /\
      lmfs_dev b' = lmfs_dev b0 /\ lmfs_blocknr b' = lmfs_blocknr b0).
    { intros i b' Hb'. destruct (decide (i = bp)) as [->|Hi]; [simplify_eq; eauto|].
      destruct (Hother i b' Hi Hb') as (b0 & Hb0 & (_&?&?&_)%payload_fields). eauto. }
    intros i j bi bj Hi Hj Hd Hn Hne.
    destruct (Hback i bi Hi) as (ci & Hci & ? & ?), (Hback j bj Hj) as (cj & Hcj & ? & ?).
    eapply Huniq; [exact Hci|exact Hcj|..]; congruence.
Qed.

Lemma same_nodes_insert m m' bp b :
  same_nodes m m' -> forall i, i <> bp -> payload <$> <[bp := b]> m' !! i = payload <$> m !! i.
Proof. intros Hs i Hi. rewrite list_lookup_insert_ne by done. apply Hs. Qed.

Lemma dchain_insert_payload m f r l bp b b' :
  m !! bp = Some b -> lmfs_prev b' = lmfs_prev b -> lmfs_next b' = lmfs_next b ->
  dchain m f r l -> dchain (<[bp := b']> m) f r l.
Proof.
  intros Hb Hp Hn. apply dchain_frame. intros i _. unfold links. simpl.
  destruct (decide (bp = i)) as [<-|Hi].
  - rewrite list_lookup_insert_eq by (by eapply lookup_lt_Some). rewrite Hb. simpl. congruence.
  - by rewrite list_lookup_insert_ne.
Qed.

Lemma same_domain_length (m m' : list buf) :
  (forall i, is_Some (m !! i) <-> is_Some (m' !! i)) -> length m = length m'.
Proof.
  intros Hdom. apply Nat.le_antisymm; apply Nat.le_ngt; intros Hlt;
    apply lookup_lt_is_Some, Hdom, lookup_lt_is_Some in Hlt; lia.
Qed.

End cache_inv.
