(* ===== verification/CacheSort.v ===== *)
(** * The Shell sort of [lmfs_rw_scattered]

    The gaps of the source end with 1, whatever the length of the queue, so the
    last pass is an insertion sort: the queue comes out sorted by block number,
    and no buffer is lost or duplicated. *)
From S2P Require Import Prelude DList Cache.
Local Open Scope Z_scope.

Section shell_sort.
Variable key : nat -> Z.
Implicit Types (q r ra : list nat) (x y : nat).

(** ** Permutation *)

Lemma length_swap q i k : length (swap q i k) = length q.
Proof. unfold swap. destruct (q !! i), (q !! k); by rewrite ?length_insert. Qed.

Lemma swap_Permutation q i k : i <> k -> swap q i k ≡ₚ q.
Proof.
  intros Hik. unfold swap. destruct (q !! i) as [x|] eqn:Hi; [|done].
  destruct (q !! k) as [y|] eqn:Hk; [|done].
  apply Permutation_inj. split; [by rewrite !length_insert|].
  exists (fun j => if decide (j = i) then k else if decide (j = k) then i else j). split.
  - intros a b. repeat case_decide; congruence.
  - intros j. assert (Hi' := lookup_lt_Some _ _ _ Hi). assert (Hk' := lookup_lt_Some _ _ _ Hk).
    repeat case_decide; subst.
    + by rewrite list_lookup_insert_eq by (by rewrite length_insert).
    + rewrite list_lookup_insert_ne by done. by rewrite list_lookup_insert_eq.
    + by rewrite !list_lookup_insert_ne.
Qed.

Lemma sift_Permutation fuel gap q pos : (0 < gap)%nat -> sift fuel key gap q pos ≡ₚ q.
Proof.
  intros Hg. revert q pos. induction fuel as [|fuel IH]; intros q pos; simpl; [done|].
  case_decide; [|done]. destruct (q !! (pos - gap)%nat); [|done]. destruct (q !! pos); [|done].
  case_decide; [|done]. rewrite IH. apply swap_Permutation. lia.
Qed.

Lemma fold_sift_Permutation gap js q : (0 < gap)%nat ->
  fold_left (fun q j => sift (S (length q)) key gap q j) js q ≡ₚ q.
Proof.
  intros Hg. revert q. induction js as [|j js IH]; intros q; cbn [fold_left]; [done|].
  rewrite IH. by apply sift_Permutation.
Qed.

Lemma gap_pass_Permutation gap q : (0 < gap)%nat -> gap_pass key gap q ≡ₚ q.
Proof. apply fold_sift_Permutation. Qed.

(** ** The gaps *)

Fixpoint nth_gap (k : nat) : nat := match k with O => 1%nat | S k => (3 * nth_gap k + 1)%nat end.

Lemma nth_gap_pos k : (0 < nth_gap k)%nat.
Proof. destruct k; simpl; lia. Qed.

Lemma nth_gap_div k : (nth_gap (S k) / 3 = nth_gap k)%nat.
Proof.
  simpl nth_gap. replace (nth_gap k + (nth_gap k + (nth_gap k + 0)) + 1)%nat
    with (1 + nth_gap k * 3)%nat by lia.
  rewrite Nat.div_add by lia. done.
Qed.

Lemma gap_init_nth fuel k n : exists k', gap_init fuel (nth_gap k) n = nth_gap (S k').
Proof.
  revert k. induction fuel as [|fuel IH]; intros k; [by exists k|].
  cbn [gap_init]. case_decide; [|by exists k].
  apply (IH (S k)).
Qed.

(** The fuel of the first loop is enough: it stops on its own test. *)
Lemma gap_init_exit fuel gap n : (n <= fuel + gap)%nat -> (n < gap_init fuel gap n)%nat.
Proof.
  revert gap. induction fuel as [|fuel IH]; intros gap Hn; cbn [gap_init]; [lia|].
  case_decide; [|lia]. apply IH. lia.
Qed.

Lemma gap_passes_last k fuel q : (nth_gap (S k) <= fuel)%nat ->
  exists q', q' ≡ₚ q /\ gap_passes fuel key (nth_gap (S k)) q = gap_pass key 1 q'.
Proof.
  revert fuel q. induction k as [|k IH]; intros fuel q Hf.
  - destruct fuel as [|fuel]; [simpl in Hf; lia|]. exists q. split; [done|].
    cbn [gap_passes]. rewrite decide_False by done.
    rewrite nth_gap_div. destruct fuel; [simpl in Hf; lia|]. done.
  - destruct fuel as [|fuel]; [simpl in Hf; lia|]. cbn [gap_passes].
    rewrite decide_False by (pose proof (nth_gap_pos (S k)); simpl in *; lia).
    rewrite nth_gap_div.
    destruct (IH fuel (gap_pass key (nth_gap (S k)) q)) as (q' & Hq' & E).
    { simpl in *. lia. }
    exists q'. split; [|done]. rewrite Hq'. apply gap_pass_Permutation, nth_gap_pos.
Qed.

(** ** The last pass is an insertion sort *)

(** Insertion into a descending list (the sorted prefix, reversed). *)
Fixpoint insr x ra : list nat :=
  match ra with
  | [] => [x]
  | y :: ra' => if decide (key y > key x) then y :: insr x ra' else x :: y :: ra'
  end.

Definition desc ra : Prop := StronglySorted (fun y z => key z <= key y) ra.

Lemma swap_adjacent ra x y r :
  swap (rev ra ++ y :: x :: r) (length ra) (S (length ra)) = rev ra ++ x :: y :: r.
Proof.
  rewrite <- (length_rev ra). unfold swap.
  rewrite list_lookup_middle by done.
  replace (rev ra ++ y :: x :: r) with ((rev ra ++ [y]) ++ x :: r) at 1 by (by rewrite <- app_assoc).
  rewrite list_lookup_middle by (rewrite length_app; simpl; lia).
  rewrite insert_app_r_alt by lia. replace (S (length (rev ra)) - length (rev ra))%nat with 1%nat by lia.
  simpl. rewrite insert_app_r_alt by lia. by rewrite Nat.sub_diag.
Qed.

Lemma sift_insr fuel ra x r : (length ra < fuel)%nat ->
  sift fuel key 1 (rev ra ++ x :: r) (length ra) = rev (insr x ra) ++ r.
Proof.
  revert fuel r. induction ra as [|y ra IH]; intros fuel r Hf; destruct fuel as [|fuel];
    simpl in Hf; try lia; cbn [sift length].
  - done.
  - rewrite decide_True by lia. replace (S (length ra) - 1)%nat with (length ra) by lia.
    cbn [rev]. rewrite <- app_assoc. cbn [app].
    rewrite list_lookup_middle by (by rewrite length_rev).
    replace (rev ra ++ y :: x :: r) with ((rev ra ++ [y]) ++ x :: r) at 1 by (by rewrite <- app_assoc).
    rewrite list_lookup_middle by (rewrite length_app, length_rev; simpl; lia).
    cbn [insr]. case_decide.
    + rewrite swap_adjacent. cbn [rev]. rewrite IH by lia. by rewrite <- app_assoc.
    + cbn [rev]. by rewrite <- !app_assoc.
Qed.

Lemma length_insr x ra : length (insr x ra) = S (length ra).
Proof. induction ra as [|y ra IH]; simpl; [done|]. case_decide; simpl; lia. Qed.

Lemma insr_Permutation x ra : insr x ra ≡ₚ x :: ra.
Proof.
  induction ra as [|y ra IH]; simpl; [done|]. case_decide; [|done].
  rewrite IH. apply perm_swap.
Qed.

Lemma insr_desc x ra : desc ra -> desc (insr x ra).
Proof.
  induction ra as [|y ra IH]; intros Hd; simpl; [repeat constructor|].
  apply StronglySorted_inv in Hd as [Hd Hy]. case_decide.
  - constructor; [by apply IH|]. rewrite (insr_Permutation x ra). constructor; [lia|done].
  - repeat constructor; [done|done|lia|].
    eapply Forall_impl; [exact Hy|]. simpl. lia.
Qed.

Lemma fold_sift_insr r ra : desc ra ->
  exists ra', desc ra' /\
    fold_left (fun q j => sift (S (length q)) key 1 q j) (seq (length ra) (length r)) (rev ra ++ r)
      = rev ra'.
Proof.
  revert ra. induction r as [|x r IH]; intros ra Hd; cbn [length seq fold_left].
  - exists ra. by rewrite app_nil_r.
  - rewrite sift_insr by (rewrite length_app, length_rev; lia).
    destruct (IH (insr x ra) (insr_desc _ _ Hd)) as (ra' & Hd' & E).
    exists ra'. split; [done|]. rewrite length_insr in E. exact E.
Qed.

Lemma gap_pass_1 q : exists ra, desc ra /\ gap_pass key 1 q = rev ra.
Proof.
  destruct q as [|x q]; [exists []; split; [constructor|done]|].
  unfold gap_pass. replace (length (x :: q) - 1)%nat with (length q) by (simpl; lia).
  apply (fold_sift_insr q [x]). repeat constructor.
Qed.

Lemma desc_rev ra : desc ra -> StronglySorted (fun x y => key x <= key y) (rev ra).
Proof.
  induction ra as [|x ra IH]; intros Hd; simpl; [constructor|].
  apply StronglySorted_inv in Hd as [Hd Hx].
  apply StronglySorted_app_2; [|by apply IH|repeat constructor].
  intros y z Hy Hz%list_elem_of_singleton. subst z.
  rewrite Forall_forall in Hx. apply Hx. by apply list_elem_of_In, in_rev, list_elem_of_In.
Qed.

(** ** The whole sort *)

Lemma shell_sort_spec q :
  shell_sort key q ≡ₚ q /\ StronglySorted (fun x y => key x <= key y) (shell_sort key q).
Proof.
  unfold shell_sort. destruct (gap_init_nth (length q) 0 (length q)) as (k & Ek).
  change (nth_gap 0) with 1%nat in Ek. rewrite Ek.
  destruct (gap_passes_last k (nth_gap (S k)) q) as (q' & Hq' & ->); [done|]. split.
  - rewrite gap_pass_Permutation by lia. done.
  - destruct (gap_pass_1 q') as (ra & Hd & ->). by apply desc_rev.
Qed.
End shell_sort.

