(* ===== verification/CacheHash.v ===== *)
(** * The hash table of the block cache

    The walk of [lmfs_get_block] along a hash chain finds the block exactly when
    some buffer of the chain holds it; taking a buffer off its chain and putting
    it on the chain of its new block number keep the table well formed. *)
From S2P Require Import Prelude DList Cache CacheInv.
Local Open Scope Z_scope.

Section cache_hash.
Context {world bd : Type} `{!MinixHdr} `{E : !MinixEnv world bd}.
Local Abbreviation cache := (cache world bd).
Local Abbreviation buf := (buf bd).
Implicit Types (st : cache) (b : buf) (bp i : nat) (l : list nat) (ex : option nat) (m : list buf).

(** ** Searching *)

Lemma hash_search_spec fuel dev block c l st :
  hseg (c_buf st) c l None -> (length l <= fuel)%nat ->
  (exists bp b, bp ∈ l /\ c_buf st !! bp = Some b /\ lmfs_dev b = dev /\ lmfs_blocknr b = block /\
     hash_search fuel dev block c st = Done (Some bp)) \/
  (hash_search fuel dev block c st = Done None /\
   forall i b, i ∈ l -> c_buf st !! i = Some b -> ~ (lmfs_dev b = dev /\ lmfs_blocknr b = block)).
Proof.
  revert fuel c. induction l as [|x l IH]; intros fuel c Hseg Hfuel.
  - simpl in Hseg. subst c. right. destruct fuel; split; try done; by intros ?? ?%elem_of_nil.
  - destruct Hseg as (-> & b & Hb & Hseg). destruct fuel as [|fuel]; simpl in Hfuel; [lia|].
    simpl. unfold getb. rewrite Hb. simpl. case_decide as Hd.
    + left. exists x, b. destruct Hd. split_and!; try done. set_solver.
    + destruct (IH fuel _ Hseg ltac:(lia)) as [(bp & b' & Hin & ?)|[Hs Hno]].
      * left. exists bp, b'. split; [set_solver|done].
      * right. split; [done|]. intros i b' [->|Hi]%elem_of_cons Hb'; [|eauto].
        simplify_eq. tauto.
Qed.

Lemma NoDup_fits m l : NoDup l -> (forall i, i ∈ l -> is_Some (m !! i)) ->
  (length l <= length m)%nat.
Proof.
  intros Hnd Hin. rewrite <- (length_seq (length m) 0).
  apply submseteq_length, NoDup_submseteq; [done|].
  intros i Hi. apply elem_of_seq. apply Hin, lookup_lt_is_Some in Hi. lia.
Qed.

Lemma BUFHASH_lt st n : 0 < nr_bufs st -> (BUFHASH st n < Z.to_nat (nr_bufs st))%nat.
Proof. intros. unfold BUFHASH. pose proof (Z.mod_pos_bound n (nr_bufs st)). lia. Qed.

(** In a well-formed table the search decides whether the block is cached. *)
Lemma hash_lookup_spec st ex dev block :
  0 < nr_bufs st -> hash_ok (c_buf st) (buf_hash st) (nr_bufs st) ex ->
  exists h, buf_hash st !! BUFHASH st block = Some h /\
  ((exists bp b, c_buf st !! bp = Some b /\ Some bp <> ex /\ lmfs_dev b = dev /\
      lmfs_blocknr b = block /\
      hash_search (length (c_buf st)) dev block h st = Done (Some bp)) \/
   (hash_search (length (c_buf st)) dev block h st = Done None /\
    forall i b, c_buf st !! i = Some b -> Some i <> ex ->
      ~ (lmfs_dev b = dev /\ lmfs_blocknr b = block))).
Proof.
  intros Hnr [Hlen Hh].
  destruct (lookup_lt_is_Some_2 (buf_hash st) (BUFHASH st block)) as [h Hk].
  { rewrite Hlen. by apply BUFHASH_lt. }
  exists h. split; [done|].
  destruct (Hh _ _ Hk) as (l & Hseg & Hnd & Hmem).
  assert (Hfit : (length l <= length (c_buf st))%nat).
  { apply NoDup_fits; [done|]. intros i. by eapply hseg_mem. }
  destruct (hash_search_spec _ dev block h l st Hseg Hfit) as [(bp & b & Hin & Hb & Hd & Hn & Hs)|[Hs Hno]].
  - left. exists bp, b. apply Hmem in Hin as [Hex _]. done.
  - right. split; [done|]. intros i b Hb Hex [Hd Hn].
    apply (Hno i b); [|done|done]. apply Hmem. split; [done|]. exists b. split; [done|].
    unfold bucket, BUFHASH. by rewrite Hn.
Qed.

(** ** Segments *)

Lemma hseg_app m c l1 l2 e :
  hseg m c (l1 ++ l2) e <-> exists c', hseg m c l1 c' /\ hseg m c' l2 e.
Proof.
  revert c. induction l1 as [|x l1 IH]; intros c; simpl; [split; [eauto|by intros (? & -> & ?)]|].
  split.
  - intros (-> & b & Hb & (c' & ? & ?)%IH). eauto 10.
  - intros (c' & (-> & b & Hb & ?) & ?). split; [done|]. exists b. split; [done|]. apply IH. eauto.
Qed.

Lemma hseg_insert_other m c l e q b : q ∉ l -> hseg m c l e -> hseg (<[q := b]> m) c l e.
Proof.
  intros Hq. apply hseg_frame. intros i Hi. rewrite list_lookup_insert_ne; [done|set_solver].
Qed.

(** Redirecting the link of the node before [bp] skips [bp]. *)
Lemma hseg_skip m c l1 q bp l2 e bq b :
  NoDup (l1 ++ q :: bp :: l2) -> m !! q = Some bq -> m !! bp = Some b ->
  hseg m c (l1 ++ q :: bp :: l2) e ->
  hseg (<[q := with_hash (lmfs_hash b) bq]> m) c (l1 ++ q :: l2) e.
Proof.
  intros Hnd Hq Hb (c' & H1 & -> & bq' & Hq' & _ & b' & Hb' & H2)%hseg_app. simplify_eq.
  apply NoDup_app in Hnd as (_ & Hdis & Hnd2).
  apply NoDup_cons in Hnd2 as [Hqn _].
  apply hseg_app. exists (Some q). split.
  - apply hseg_insert_other; [|done]. intros Hin. apply (Hdis q Hin). set_solver.
  - simpl. split; [done|]. eexists. rewrite list_lookup_insert_eq by (by eapply lookup_lt_Some).
    split; [done|]. simpl. apply hseg_insert_other; [set_solver|done].
Qed.

(** The walk stops at the node before [bp] and redirects its link. *)
Lemma hash_unlink_after_spec fuel prev bp h l st :
  hseg (c_buf st) (Some prev) (prev :: l) None -> bp ∈ l -> (length l <= fuel)%nat ->
  exists l1 q l2 bq, prev :: l = l1 ++ q :: bp :: l2 /\ c_buf st !! q = Some bq /\
    hash_unlink_after fuel prev bp h st =
      Done (set_bufs (<[q := with_hash h bq]> (c_buf st)) st).
Proof.
  revert fuel prev. induction l as [|x l IH]; intros fuel prev Hseg Hbp Hfuel; [by apply elem_of_nil in Hbp|].
  destruct fuel as [|fuel]; simpl in Hfuel; [lia|].
  destruct Hseg as (_ & bprev & Hprev & Hseg). pose proof Hseg as (Hx & _).
  simpl. unfold getb. rewrite Hprev. simpl. rewrite Hx. case_decide as Hd.
  - subst x. exists [], prev, l, bprev. split_and!; [done|done|].
    by rewrite (updb_done _ _ _ bprev).
  - assert (Hbp' : bp ∈ l) by set_solver. rewrite Hx in Hseg.
    destruct (IH fuel x Hseg Hbp' ltac:(lia)) as (l1 & q & l2 & bq & El & Hq & Hr).
    exists (prev :: l1), q, l2, bq. rewrite El. done.
Qed.

(** ** Removing *)

Definition same_but_hash b b' : Prop := with_hash None b' = with_hash None b.

(** Chains of the other buckets do not see the redirected link. *)
Lemma hash_ok_removed m h nr k c bp b l1 l2 m' h' :
  hash_ok m h nr None -> h !! k = Some c -> m !! bp = Some b -> bucket nr b = k ->
  hseg m c (l1 ++ bp :: l2) None -> NoDup (l1 ++ bp :: l2) ->
  (forall i, i ∈ l1 ++ bp :: l2 <-> exists b0, m !! i = Some b0 /\ bucket nr b0 = k) ->
  (forall i, i ∉ l1 -> m' !! i = m !! i) ->
  (forall i, lmfs_blocknr <$> m' !! i = lmfs_blocknr <$> m !! i) ->
  length h' = length h -> (forall k', k' <> k -> h' !! k' = h !! k') ->
  (forall c', h' !! k = Some c' -> hseg m' c' (l1 ++ l2) None) ->
  hash_ok m' h' nr (Some bp).
Proof.
  intros [Hlen Hh] Hk Hbp Hbk Hseg Hnd Hmem Hsame Hbn Hlen' Hother Hnew.
  assert (Hbuck : forall i k', (exists b0, m' !! i = Some b0 /\ bucket nr b0 = k') <->
                               (exists b0, m !! i = Some b0 /\ bucket nr b0 = k')).
  { intros i k'. specialize (Hbn i). unfold bucket.
    destruct (m !! i), (m' !! i); simplify_eq/=; split; intros (? & ? & ?); simplify_eq;
      eexists; split; eauto; congruence. }
  split; [by rewrite Hlen'|]. intros k' c' Hk'. destruct (decide (k' = k)) as [->|Hne].
  - exists (l1 ++ l2). split_and!; [by apply Hnew| |].
    + apply NoDup_app in Hnd as (? & Hd & [? ?]%NoDup_cons). apply NoDup_app.
      split_and!; [done|set_solver|done].
    + intros i. rewrite Hbuck, <- Hmem. apply NoDup_app in Hnd as (_ & Hd & [Hn ?]%NoDup_cons).
      split.
      * intros Hi. split; [|set_solver]. intros [=->]. apply elem_of_app in Hi as [Hi|Hi]; [|done].
        apply (Hd bp Hi). set_solver.
      * intros [Hi1 Hi2]. assert (i <> bp) by congruence. set_solver.
  - rewrite Hother in Hk' by done. destruct (Hh k' c' Hk') as (l & Hs & Hn & Hm).
    exists l. split_and!; [|done|].
    + eapply hseg_frame; [|exact Hs]. intros i Hi. rewrite Hsame; [done|]. intros Hi1.
      assert (Hk1 : i ∈ l1 ++ bp :: l2) by set_solver.
      apply Hmem in Hk1 as (b0 & Hb0 & Hb0k). apply Hm in Hi as [_ (b1 & Hb1 & Hb1k)].
      simplify_eq.
    + intros i. rewrite Hbuck, Hm. split; [|naive_solver].
      intros [_ Hi]. split; [|done]. intros [=->]. destruct Hi as (b0 & ? & ?). simplify_eq.
Qed.

Lemma cells_same_hash_refl m : Forall2 same_but_hash m m.
Proof. induction m; constructor; done. Qed.

Lemma hash_remove_spec bp b st :
  0 < nr_bufs st -> hash_ok (c_buf st) (buf_hash st) (nr_bufs st) None ->
  c_buf st !! bp = Some b ->
  runs (hash_remove bp st) (fun st' => exists m' h',
    st' = set_hash h' (set_bufs m' st) /\ hash_ok m' h' (nr_bufs st) (Some bp) /\
    Forall2 same_but_hash (c_buf st) m' /\ m' !! bp = Some b).
Proof.
  intros Hnr Hok Hb. pose proof Hok as [Hlen Hh]. unfold hash_remove, getb. rewrite Hb. cbn [deref mbind exec_bind].
  set (k := BUFHASH st (lmfs_blocknr b)).
  destruct (lookup_lt_is_Some_2 (buf_hash st) k) as [c Hk].
  { rewrite Hlen. by apply BUFHASH_lt. }
  rewrite Hk. cbn [deref mbind exec_bind]. destruct (Hh k c Hk) as (l & Hseg & Hnd & Hmem).
  assert (Hmem' : forall i, i ∈ l <-> exists b0, c_buf st !! i = Some b0 /\ bucket (nr_bufs st) b0 = k).
  { intros i. rewrite Hmem. split; [by intros []|]. intros ?. split; [done|done]. }
  assert (Hbp : bp ∈ l) by (apply Hmem'; eauto).
  case_decide as Hc.
  - subst c. destruct l as [|x l]; [done|]. pose proof Hseg as ([=<-] & b' & Hb' & Hs).
    assert (b' = b) as -> by congruence.
    apply runs_done. exists (c_buf st), (<[k := lmfs_hash b]> (buf_hash st)).
    split; [by destruct st|]. split_and!; [|apply cells_same_hash_refl|done].
    eapply (hash_ok_removed _ _ _ k (Some bp) bp b [] l); try done.
    + by rewrite length_insert.
    + intros k' Hk'. by rewrite list_lookup_insert_ne.
    + intros c'. rewrite list_lookup_insert_eq by (by eapply lookup_lt_Some). by intros [=<-].
  - destruct l as [|x l]; [by apply elem_of_nil in Hbp|]. pose proof Hseg as (-> & _).
    assert (Hbl : bp ∈ l) by set_solver. cbn [deref mbind exec_bind].
    assert (Hfit : (length l <= S (length (c_buf st)))%nat).
    { assert (length (x :: l) <= length (c_buf st))%nat; [|simpl in *; lia].
      apply NoDup_fits; [done|]. intros i. by eapply hseg_mem. }
    destruct (hash_unlink_after_spec _ x bp (lmfs_hash b) l st Hseg Hbl Hfit)
      as (l1 & q & l2 & bq & El & Hq & Hr).
    rewrite Hr. apply runs_done.
    exists (<[q := with_hash (lmfs_hash b) bq]> (c_buf st)), (buf_hash st).
    split; [by destruct st|]. rewrite El in Hnd, Hseg.
    assert (Hqbp : q <> bp).
    { apply NoDup_app in Hnd as (_ & _ & [Hn _]%NoDup_cons). set_solver. }
    split_and!.
    + eapply (hash_ok_removed _ _ _ k (Some x) bp b (l1 ++ [q]) l2); try done.
      * by rewrite <- app_assoc.
      * by rewrite <- app_assoc.
      * intros i. rewrite <- app_assoc. simpl. rewrite <- El. apply Hmem'.
      * intros i Hi. apply list_lookup_insert_ne. set_solver.
      * intros i. destruct (decide (q = i)) as [<-|Hi].
        -- rewrite list_lookup_insert_eq, Hq by (by eapply lookup_lt_Some). done.
        -- by rewrite list_lookup_insert_ne.
      * intros c' Hc'. simplify_eq. rewrite <- app_assoc. simpl. eapply hseg_skip; eauto.
    + apply cells_insert with bq; done.
    + by rewrite list_lookup_insert_ne.
Qed.

(** ** Renaming and inserting *)

Definition renamed (dev block : Z) (h : option nat) b : buf :=
  with_hash h (with_count (lmfs_count b + 1) (with_blocknr block (with_dev dev (with_dirt BP_CLEAN b)))).

Lemma rename_done bp dev block b h st :
  c_buf st !! bp = Some b -> buf_hash st !! BUFHASH st block = Some h ->
  rename bp dev block st = Done (set_hash (<[BUFHASH st block := Some bp]> (buf_hash st))
    (set_bufs (<[bp := renamed dev block h b]> (c_buf st)) st)).
Proof.
  intros Hb Hh. assert (Hlt : (bp < length (c_buf st))%nat) by (by eapply lookup_lt_Some).
  unfold rename, lmfs_markclean. rewrite (updb_done bp _ _ b) by done. cbn [mbind exec_bind].
  repeat (erewrite (updb_done bp);
    [|simpl; rewrite ?list_insert_insert_eq; apply list_lookup_insert_eq; by rewrite ?length_insert];
    cbn [mbind exec_bind]).
  replace (BUFHASH _ block) with (BUFHASH st block) by done. simpl. rewrite Hh. simpl.
  erewrite (updb_done bp);
    [|simpl; rewrite ?list_insert_insert_eq; apply list_lookup_insert_eq; by rewrite ?length_insert].
  simpl. rewrite !list_insert_insert_eq. done.
Qed.

Lemma hash_ok_inserted m h nr bp b' c k :
  hash_ok m h nr (Some bp) -> h !! k = Some c -> is_Some (m !! bp) ->
  lmfs_hash b' = c -> bucket nr b' = k ->
  hash_ok (<[bp := b']> m) (<[k := Some bp]> h) nr None.
Proof.
  intros [Hlen Hh] Hk Hbp Hc Hbk.
  assert (Hbp' : <[bp := b']> m !! bp = Some b').
  { apply list_lookup_insert_eq. by apply lookup_lt_is_Some. }
  assert (Hbuck : forall i k', i <> bp ->
    (exists b0, <[bp := b']> m !! i = Some b0 /\ bucket nr b0 = k') <->
    (exists b0, m !! i = Some b0 /\ bucket nr b0 = k')).
  { intros i k' Hi. by rewrite list_lookup_insert_ne. }
  split; [by rewrite length_insert|]. intros k' c' Hk'.
  destruct (decide (k' = k)) as [->|Hne].
  - rewrite list_lookup_insert_eq in Hk' by (by eapply lookup_lt_Some). simplify_eq.
    destruct (Hh _ _ Hk) as (l & Hs & Hn & Hm).
    assert (Hbpl : bp ∉ l) by (rewrite Hm; naive_solver).
    exists (bp :: l). split_and!.
    + simpl. split; [done|]. exists b'. split; [done|]. by apply hseg_insert_other.
    + by apply NoDup_cons.
    + intros i. rewrite elem_of_cons. destruct (decide (i = bp)) as [->|Hi].
      * split; [|by left]. intros _. split; [done|]. eauto.
      * rewrite Hm, Hbuck by done. split.
        -- intros [->|[_ ?]]; [done|]. done.
        -- intros [_ ?]. right. split; [congruence|done].
  - rewrite list_lookup_insert_ne in Hk' by done. destruct (Hh _ _ Hk') as (l & Hs & Hn & Hm).
    assert (Hbpl : bp ∉ l) by (rewrite Hm; naive_solver).
    exists l. split_and!; [by apply hseg_insert_other|done|].
    intros i. destruct (decide (i = bp)) as [->|Hi].
    + split; [done|]. intros [_ (b0 & Hb0 & Hbk0)]. simplify_eq.
    + rewrite Hm, Hbuck by done. split; intros [_ ?]; (split; [congruence|done]).
Qed.

Lemma rename_spec bp dev block b l st :
  core_inv st l (Some bp) -> c_buf st !! bp = Some b -> b_data b <> None -> 0 <= block < 2 ^ 32 ->
  (forall i b', i <> bp -> c_buf st !! i = Some b' -> ~ (lmfs_dev b' = dev /\ lmfs_blocknr b' = block)) ->
  exists h, buf_hash st !! BUFHASH st block = Some h /\
  runs (rename bp dev block st) (fun st' => core_inv st' l None /\
    st' = set_hash (<[BUFHASH st block := Some bp]> (buf_hash st))
            (set_bufs (<[bp := renamed dev block h b]> (c_buf st)) st)).
Proof.
  intros [[Hnr Hnr2] Hlen Hbs Hlru Hhash Hcells Huse Huniq] Hb Hdata Hblk Hnew.
  destruct (lookup_lt_is_Some_2 (buf_hash st) (BUFHASH st block)) as [h Hh].
  { destruct Hhash as [-> _]. by apply BUFHASH_lt. }
  exists h. split; [done|]. rewrite (rename_done _ _ _ b h) by done. apply runs_done.
  split; [|done]. pose proof (Hcells bp b Hb) as (Hc1 & Hc2 & Hc3 & _ & Hc4).
  rewrite decide_True in Hc4 by done. destruct Hc4 as [Hbl Hc0].
  split; simpl; try done.
  - by rewrite length_insert.
  - by eapply dchain_insert_payload.
  - eapply hash_ok_inserted; eauto.
  - intros i b' Hb'. destruct (decide (i = bp)) as [->|Hi].
    + rewrite list_lookup_insert_eq in Hb' by (by eapply lookup_lt_Some). simplify_eq.
      unfold cell_ok, mem_ok in *. simpl. split_and!; [lia|tauto|tauto|lia|lia|].
      split; [done|lia].
    + rewrite list_lookup_insert_ne in Hb' by done.
      destruct (Hcells i b' Hb') as (?&?&?&?&Hd). rewrite decide_False in Hd by congruence.
      done.
  - assert (Hne : forall i bi j bj, i <> bp -> c_buf st !! i = Some bi ->
      <[bp := renamed dev block h b]> (c_buf st) !! j = Some bj ->
      lmfs_dev bi = lmfs_dev bj -> lmfs_blocknr bi = lmfs_blocknr bj -> lmfs_dev bi <> NO_DEV -> i = j).
    { intros i bi j bj Hi Hbi Hbj Hd Hn Hnd. destruct (decide (j = bp)) as [->|Hj].
      - rewrite list_lookup_insert_eq in Hbj by (by eapply lookup_lt_Some). simplify_eq.
        by destruct (Hnew i bi Hi Hbi).
      - rewrite list_lookup_insert_ne in Hbj by done. eauto. }
    intros i j bi bj Hbi Hbj Hd Hn Hnd. destruct (decide (i = bp)) as [->|Hi].
    + destruct (decide (j = bp)) as [->|Hj]; [done|].
      rewrite list_lookup_insert_ne in Hbj by done. symmetry. eapply Hne; eauto; congruence.
    + rewrite list_lookup_insert_ne in Hbi by done. eauto.
Qed.
End cache_hash.
