(* ===== verification/CacheIO.v ===== *)
(** * Writing back dirty blocks

    [lmfs_rw_scattered] with [WRITING] always terminates and touches the dirty
    and device fields of the queued buffers only.  On a device that takes every
    write, it cleans every queued buffer and leaves its contents at the block's
    place on the device. *)
From S2P Require Import Prelude DList Cache CacheInv CacheSort.
Local Open Scope Z_scope.

Section cache_io.
Context {world bd : Type} `{!MinixHdr} `{E : !MinixEnv world bd}.
Local Abbreviation cache := (cache world bd).
Local Abbreviation buf := (buf bd).
Implicit Types (st : cache) (b : buf) (bp i : nat) (q : list nat) (m : list buf).

(** The queue holds pointers to buffers with memory. *)
Definition valid_queue st q : Prop :=
  forall i, i ∈ q -> exists b, c_buf st !! i = Some b /\ b_data b <> None.

Lemma valid_queue_weak st st' q : weak_step st st' -> valid_queue st q -> valid_queue st' q.
Proof.
  intros Hw Hv i Hi. destruct (Hv i Hi) as (b & Hb & Hd).
  destruct (weak_lookup _ _ _ _ Hw Hb) as (b' & Hb' & Hc). exists b'. split; [done|].
  destruct Hc as (_&_&_&_&_&_&Hc&_). unfold has_data in Hc. by destruct (b_data b), (b_data b').
Qed.

Lemma valid_queue_sub st q q' : (forall i, i ∈ q' -> i ∈ q) -> valid_queue st q -> valid_queue st q'.
Proof. intros Hs Hv i Hi. by apply Hv, Hs. Qed.

Lemma cell_weak_dirt b d : cell_weak b (with_dirt d b).
Proof. unfold cell_weak. simpl. tauto. Qed.

Lemma cell_weak_no_dev b : cell_weak b (with_dev NO_DEV b).
Proof. unfold cell_weak. simpl. tauto. Qed.

Lemma iovec_done st q : valid_queue st q ->
  exists iov, iovec st q = Done iov /\ length iov = length q /\
    forall k bp b, q !! k = Some bp -> c_buf st !! bp = Some b ->
      exists d, b_data b = Some d /\ iov !! k = Some (d, fs_block_size st).
Proof.
  induction q as [|bp q IH]; intros Hv; [by exists []|].
  destruct (Hv bp) as (b & Hb & Hd); [set_solver|].
  destruct (b_data b) as [d|] eqn:Ed; [|done].
  destruct IH as (iov & Hiov & Hlen & Hk). { eapply valid_queue_sub; [|exact Hv]. set_solver. }
  exists ((d, fs_block_size st) :: iov). cbn [iovec]. unfold getb. rewrite Hb.
  cbn [deref mbind exec_bind]. rewrite Ed. cbn [deref mbind exec_bind]. rewrite Hiov.
  split_and!; [done|simpl; by rewrite Hlen|].
  intros [|k] bp' b' Hq Hb'; simpl in Hq; simplify_eq; eauto.
Qed.

Lemma harvest_weak dev r i q st : valid_queue st q ->
  runs (harvest dev WRITING r i q st) (fun '(st', i') => weak_step st st').
Proof.
  revert r i st. induction q as [|bp q IH]; intros r i st Hv; cbn [harvest].
  - apply runs_done, weak_step_refl.
  - destruct (Hv bp) as (b & Hb & Hd); [set_solver|]. case_decide.
    + case_decide; [|apply runs_done, weak_step_refl].
      eapply runs_bind; [eapply updb_weak; [exact Hb|apply cell_weak_no_dev]|].
      intros st1 [Hw1 _]. apply runs_done. eapply weak_step_trans; [done|apply weak_world].
    + eapply runs_bind; [eapply (updb_weak bp); [exact Hb|apply cell_weak_dirt]|].
      intros st1 [Hw1 _]. eapply runs_mono; [apply IH|].
      * eapply valid_queue_weak; [done|]. eapply valid_queue_sub; [|exact Hv]. set_solver.
      * intros [st2 i2] Hw2. by eapply weak_step_trans.
Qed.

Lemma rw_round_weak dev bp0 q st : valid_queue st (bp0 :: q) ->
  runs (rw_round dev WRITING bp0 (bp0 :: q) st) (fun '(st', i') => weak_step st st').
Proof.
  intros Hv. destruct (Hv bp0) as (b0 & Hb0 & _); [set_solver|].
  unfold rw_round, getb. rewrite Hb0. cbn [deref mbind exec_bind].
  set (run := take _ _).
  assert (Hvr : valid_queue st run).
  { eapply valid_queue_sub; [|exact Hv]. apply subseteq_take. }
  destruct (iovec_done st run Hvr) as (iov & -> & _). cbn [mbind exec_bind].
  destruct (bdev_scatter _ _ _ _) as [r w]. cbn [mbind exec_bind].
  eapply runs_mono; [apply harvest_weak|].
  - eapply valid_queue_weak; [apply weak_world|done].
  - intros [st' i'] Hw. eapply weak_step_trans; [apply weak_world|done].
Qed.

(** The loop stops, whatever the device answers: a round that makes no progress
    ends it, and every other round shortens the queue. *)
Lemma rw_loop_weak fuel dev q st : valid_queue st q -> (length q <= fuel)%nat ->
  runs (rw_loop fuel dev WRITING q st) (weak_step st).
Proof.
  revert q st. induction fuel as [|fuel IH]; intros q st Hv Hf;
    destruct q as [|bp0 q]; simpl in Hf; try lia; cbn [rw_loop];
    try (apply runs_done, weak_step_refl).
  eapply runs_bind; [by apply rw_round_weak|]. intros [st1 i] Hw1. cbn beta iota.
  case_decide; [by apply runs_done|].
  eapply runs_mono; [apply IH|].
  - eapply valid_queue_weak; [done|]. eapply valid_queue_sub; [|exact Hv]. apply subseteq_drop.
  - rewrite length_drop. simpl. lia.
  - intros st2 Hw2. by eapply weak_step_trans.
Qed.

Lemma rw_scattered_weak dev q st : valid_queue st q ->
  runs (lmfs_rw_scattered dev q WRITING st) (weak_step st).
Proof.
  intros Hv. destruct (shell_sort_spec (blocknr_of st) q) as [Hp _].
  apply rw_loop_weak; [|by rewrite Hp].
  eapply valid_queue_sub; [|exact Hv]. intros i. by rewrite Hp.
Qed.

(** The queue that [flushall] builds. *)
Definition dirty_queue dev st : list nat :=
  filter (fun i => is_dirty_for dev st i = true) (seq 0 (length (c_buf st))).

Lemma elem_of_dirty_queue dev st i : i ∈ dirty_queue dev st <->
  exists b, c_buf st !! i = Some b /\ lmfs_dirt b = BP_DIRTY /\ lmfs_dev b = dev.
Proof.
  unfold dirty_queue, is_dirty_for. rewrite list_elem_of_filter, elem_of_seq.
  destruct (c_buf st !! i) as [b|] eqn:Hb.
  - apply lookup_lt_Some in Hb as Hl. rewrite bool_decide_eq_true. split.
    + intros [[? ?] _]. eauto.
    + intros (b' & ? & ? & ?). simplify_eq. split; [done|lia].
  - split; [by intros [? _]|]. by intros (b & ? & _).
Qed.

Lemma flushall_weak dev st :
  (forall i b, c_buf st !! i = Some b -> lmfs_dev b <> NO_DEV -> b_data b <> None) ->
  dev <> NO_DEV ->
  (dirtylistsize st = nr_bufs st \/ fst (malloc (nr_bufs st) (c_world st)) = true) ->
  runs (flushall dev st) (weak_step st).
Proof.
  intros Hdd Hdev Hmal. unfold flushall.
  assert (Hq : valid_queue st (dirty_queue dev st)).
  { intros i (b & Hb & Hd & Hdv)%elem_of_dirty_queue. exists b. split; [done|].
    apply (Hdd i b); congruence. }
  case_decide as Hs.
  - destruct (malloc _ _) as [ok w] eqn:Hm. destruct Hmal as [|Hok]; [done|].
    simpl in Hok. subst ok. cbn [mbind exec_bind]. eapply runs_mono.
    + apply (rw_scattered_weak dev (dirty_queue dev st)). exact Hq.
    + intros st' Hw. eapply weak_step_trans; [|exact Hw].
      eapply weak_step_trans; [apply (weak_world _ w)|apply weak_dirtylistsize].
  - cbn [mbind exec_bind]. by apply (rw_scattered_weak dev (dirty_queue dev st)).
Qed.

(** ** A device that takes every write *)

(** [disk_at w dev pos]: what the device holds at a byte position, in blocks of
    [bs] bytes. *)
Class ReliableDisk (bs : Z) := {
  disk_at : world -> Z -> Z -> option bd;
  mul64u_spec : forall x y, mul64u x y = x * y;
  malloc_disk : forall n w, disk_at (malloc n w).2 = disk_at w;
  scatter_result : forall dev pos iov w, Forall (fun x => x.2 = bs) iov ->
    (bdev_scatter dev pos iov w).1 = bs * Z.of_nat (length iov);
  scatter_hit : forall dev pos iov w k d, Forall (fun x => x.2 = bs) iov ->
    iov !! k = Some (d, bs) ->
    disk_at (bdev_scatter dev pos iov w).2 dev (pos + bs * Z.of_nat k) = Some d;
  scatter_miss : forall dev pos iov w dev' pos', Forall (fun x => x.2 = bs) iov ->
    (dev' <> dev \/ forall k, (k < length iov)%nat -> pos' <> pos + bs * Z.of_nat k) ->
    disk_at (bdev_scatter dev pos iov w).2 dev' pos' = disk_at w dev' pos'
}.

(** The queued buffers made clean, all others as they were. *)
Definition clean q m : list buf :=
  imap (fun i b => if decide (i ∈ q) then with_dirt BP_CLEAN b else b) m.

Lemma lookup_clean q m i : clean q m !! i =
  (fun b => if decide (i ∈ q) then with_dirt BP_CLEAN b else b) <$> m !! i.
Proof. unfold clean. by rewrite list_lookup_imap. Qed.

Lemma lookup_clean_in q m i b : m !! i = Some b -> i ∈ q ->
  clean q m !! i = Some (with_dirt BP_CLEAN b).
Proof. intros Hb Hi. rewrite lookup_clean, Hb. cbn [fmap option_fmap option_map]. by rewrite decide_True. Qed.

Lemma lookup_clean_out q m i : i ∉ q -> clean q m !! i = m !! i.
Proof.
  intros Hi. rewrite lookup_clean. destruct (m !! i); cbn [fmap option_fmap option_map]; [|done].
  by rewrite decide_False.
Qed.

Lemma clean_None q m i : m !! i = None -> clean q m !! i = None.
Proof. intros Hb. by rewrite lookup_clean, Hb. Qed.

Lemma clean_nil m : clean [] m = m.
Proof. apply list_eq. intros i. apply lookup_clean_out. by intros ?%elem_of_nil. Qed.

Lemma clean_clean q1 q2 m : clean q2 (clean q1 m) = clean (q1 ++ q2) m.
Proof.
  apply list_eq. intros i. rewrite !lookup_clean. destruct (m !! i) as [b|]; [|done].
  cbn [fmap option_fmap option_map]. f_equal.
  destruct (decide (i ∈ q1)), (decide (i ∈ q2)), (decide (i ∈ q1 ++ q2)); set_solver.
Qed.

Lemma clean_equiv q1 q2 m : (forall i, i ∈ q1 <-> i ∈ q2) -> clean q1 m = clean q2 m.
Proof.
  intros Hq. apply list_eq. intros i. rewrite !lookup_clean. destruct (m !! i); [|done].
  cbn [fmap option_fmap option_map]. f_equal. by rewrite (decide_ext _ _ _ _ (Hq i)).
Qed.

Lemma clean_one bp b m : m !! bp = Some b -> <[bp := with_dirt BP_CLEAN b]> m = clean [bp] m.
Proof.
  intros Hb. apply list_eq. intros i. destruct (decide (i = bp)) as [->|Hi].
  - rewrite list_lookup_insert_eq by (by eapply lookup_lt_Some).
    symmetry. apply lookup_clean_in; [done|set_solver].
  - rewrite list_lookup_insert_ne by done. symmetry. apply lookup_clean_out. set_solver.
Qed.

Lemma valid_queue_clean q q' st w : valid_queue st q ->
  valid_queue (set_world w (set_bufs (clean q' (c_buf st)) st)) q.
Proof.
  intros Hv i Hi. destruct (Hv i Hi) as (b & Hb & Hd). simpl. destruct (decide (i ∈ q')).
  - rewrite (lookup_clean_in _ _ _ b) by done. by eexists.
  - rewrite lookup_clean_out by done. eauto.
Qed.

Lemma harvest_all dev r i q st : 0 < fs_block_size st -> valid_queue st q ->
  Z.of_nat (length q) * fs_block_size st <= r ->
  harvest dev WRITING r i q st = Done (set_bufs (clean q (c_buf st)) st, (i + length q)%nat).
Proof.
  intros Hbs. revert r i st Hbs. induction q as [|bp q IH]; intros r i st Hbs Hv Hr; cbn [harvest].
  - rewrite clean_nil, Nat.add_0_r. by destruct st.
  - destruct (Hv bp) as (b & Hb & Hd); [set_solver|]. simpl in Hr.
    rewrite decide_False by nia. unfold lmfs_markclean. rewrite (updb_done _ _ _ b) by done.
    cbn [mbind exec_bind]. rewrite clean_one by done. rewrite IH; simpl; [|done| |nia].
    + rewrite clean_clean. f_equal. f_equal. lia.
    + eapply valid_queue_sub; [|exact (valid_queue_clean _ [bp] st (c_world st) Hv)]. set_solver.
Qed.

Lemma blocknr_of_clean q st w i :
  blocknr_of (set_world w (set_bufs (clean q (c_buf st)) st)) i = blocknr_of st i.
Proof.
  unfold blocknr_of. simpl. rewrite lookup_clean. destruct (c_buf st !! i); [|done].
  cbn [fmap option_fmap option_map]. by case_decide.
Qed.

(** ** One transfer *)

Lemma run_length_le st room first j q : (run_length st room first j q <= length q)%nat.
Proof.
  revert room j. induction q as [|bp q IH]; intros [|room] j; simpl; try lia.
  case_decide; simpl; [|lia]. specialize (IH room (j + 1)). lia.
Qed.

Lemma run_length_lookup st room first j q k bp :
  (k < run_length st room first j q)%nat -> q !! k = Some bp ->
  blocknr_of st bp = u32 (first + j + Z.of_nat k).
Proof.
  revert room j k. induction q as [|x q IH]; intros [|room] j k; simpl; try lia.
  case_decide as Hx; [|lia]. intros Hk Hq. destruct k as [|k]; simpl in Hq.
  - simplify_eq. rewrite Hx. f_equal. lia.
  - rewrite (IH room (j + 1) k) by (done || lia). f_equal. lia.
Qed.

Definition increasing st q : Prop := StronglySorted (fun x y => blocknr_of st x < blocknr_of st y) q.

Lemma run_blocks st room bp0 q k bp :
  increasing st (bp0 :: q) -> Z.of_nat (length (bp0 :: q)) < 2 ^ 32 ->
  (forall i, i ∈ bp0 :: q -> 0 <= blocknr_of st i < 2 ^ 32) ->
  (k < run_length st room (blocknr_of st bp0) 0 (bp0 :: q))%nat -> (bp0 :: q) !! k = Some bp ->
  blocknr_of st bp = blocknr_of st bp0 + Z.of_nat k.
Proof.
  intros Hinc Hlen Hrange Hk Hq.
  pose proof (run_length_lookup _ _ _ _ _ _ _ Hk Hq) as Hb. rewrite Z.add_0_r in Hb.
  assert (Hge : blocknr_of st bp0 <= blocknr_of st bp).
  { apply StronglySorted_inv in Hinc as [_ Hall].
    apply list_elem_of_lookup_2, elem_of_cons in Hq as [->|Hq]; [lia|].
    rewrite Forall_forall in Hall. specialize (Hall bp Hq). simpl in Hall. lia. }
  pose proof (run_length_le st room (blocknr_of st bp0) 0 (bp0 :: q)) as Hrl.
  pose proof (Hrange bp0 ltac:(set_solver)).
  assert (Hr2 : 0 <= blocknr_of st bp < 2 ^ 32) by (apply Hrange; by eapply list_elem_of_lookup_2).
  unfold u32, wrap in Hb.
  assert (blocknr_of st bp0 + Z.of_nat k < 2 ^ 32) as Hlt; [|by rewrite Z.mod_small in Hb by lia].
  apply Z.nle_gt. intros Hov.
  rewrite <- (Z.mod_add _ (-1)) in Hb by lia. rewrite Z.mod_small in Hb by lia. lia.
Qed.

Context (bs : Z) `{!ReliableDisk bs}.

(** What a write of the whole queue leaves. *)
Definition wrote dev st q st' : Prop := exists w',
  st' = set_world w' (set_bufs (clean q (c_buf st)) st) /\
  (forall i b, i ∈ q -> c_buf st !! i = Some b -> disk_at w' dev (lmfs_blocknr b * bs) = b_data b) /\
  (forall dev' pos', (dev' <> dev \/ forall i, i ∈ q -> pos' <> blocknr_of st i * bs) ->
     disk_at w' dev' pos' = disk_at (c_world st) dev' pos').

Hypothesis NR_IOREQS_pos : (0 < NR_IOREQS)%nat.

Lemma blocknr_of_Some st i b : c_buf st !! i = Some b -> blocknr_of st i = lmfs_blocknr b.
Proof. intros Hb. unfold blocknr_of. by rewrite Hb. Qed.

Lemma rw_round_all dev bp0 q st :
  fs_block_size st = bs -> 0 < bs -> valid_queue st (bp0 :: q) -> increasing st (bp0 :: q) ->
  Z.of_nat (length (bp0 :: q)) < 2 ^ 32 -> (forall i, i ∈ bp0 :: q -> 0 <= blocknr_of st i < 2 ^ 32) ->
  exists j, (0 < j <= length (bp0 :: q))%nat /\
    runs (rw_round dev WRITING bp0 (bp0 :: q) st) (fun '(st', i) =>
      i = j /\ wrote dev st (take j (bp0 :: q)) st').
Proof.
  intros Ebs Hbs Hv Hinc Hlen Hrange.
  destruct (Hv bp0) as (b0 & Hb0 & _); [set_solver|].
  set (j := run_length st NR_IOREQS (blocknr_of st bp0) 0 (bp0 :: q)).
  pose proof (Hrange bp0 ltac:(set_solver)) as Hr0.
  assert (Hj : (0 < j <= length (bp0 :: q))%nat).
  { split; [|apply run_length_le]. unfold j. destruct NR_IOREQS; [lia|]. cbn [run_length].
    rewrite decide_True; [lia|]. rewrite Z.add_0_r. by rewrite u32_small. }
  exists j. split; [done|]. unfold rw_round, getb. rewrite Hb0. cbn [deref mbind exec_bind].
  rewrite <- (blocknr_of_Some _ _ _ Hb0). fold j.
  assert (Hvr : valid_queue st (take j (bp0 :: q))).
  { eapply valid_queue_sub; [|exact Hv]. apply subseteq_take. }
  destruct (iovec_done st _ Hvr) as (iov & -> & Hiovlen & Hiov). cbn [mbind exec_bind].
  assert (Hlenj : length (take j (bp0 :: q)) = j) by (rewrite length_take; lia).
  assert (Hsz : Forall (fun x => x.2 = bs) iov).
  { apply Forall_lookup_2. intros k [d sz] Hk. simpl.
    destruct (lookup_lt_is_Some_2 (take j (bp0 :: q)) k) as [bp Hbp].
    { rewrite <- Hiovlen. by eapply lookup_lt_Some. }
    destruct (Hvr bp) as (b & Hb & _); [by eapply list_elem_of_lookup_2|].
    destruct (Hiov k bp b Hbp Hb) as (d' & _ & Hd'). congruence. }
  set (pos := mul64u (blocknr_of st bp0) (fs_block_size st)).
  destruct (bdev_scatter dev pos iov (c_world st)) as [r w] eqn:Hsc. cbn [mbind exec_bind].
  pose proof (scatter_result dev pos iov (c_world st) Hsz) as Hres. rewrite Hsc in Hres. simpl in Hres.
  rewrite harvest_all; [|simpl; lia|done|simpl; rewrite Hres, Hiovlen; lia].
  apply runs_done. split; [by rewrite Hlenj|]. exists w. split; [by destruct st|].
  assert (Epos : pos = blocknr_of st bp0 * bs) by (unfold pos; by rewrite mul64u_spec, Ebs).
  assert (Hblk : forall k bp, take j (bp0 :: q) !! k = Some bp ->
    blocknr_of st bp * bs = pos + bs * Z.of_nat k).
  { intros k bp Hk. assert (k < j)%nat by (rewrite <- Hlenj; by eapply lookup_lt_Some).
    rewrite lookup_take_lt in Hk by done.
    rewrite (run_blocks st NR_IOREQS bp0 q k bp) by done. rewrite Epos. lia. }
  split.
  - intros i b Hi Hb. apply list_elem_of_lookup in Hi as [k Hk].
    destruct (Hiov k i b Hk Hb) as (d & Hd & Hkd). rewrite Ebs in Hkd.
    rewrite <- (blocknr_of_Some _ _ _ Hb), (Hblk k i Hk), Hd.
    pose proof (scatter_hit dev pos iov (c_world st) k d Hsz Hkd) as Hit. by rewrite Hsc in Hit.
  - intros dev' pos' Hne.
    pose proof (scatter_miss dev pos iov (c_world st) dev' pos' Hsz) as Hm. rewrite Hsc in Hm.
    apply Hm. destruct Hne as [?|Hne]; [by left|right]. intros k Hk.
    destruct (lookup_lt_is_Some_2 (take j (bp0 :: q)) k) as [bp Hbp]; [by rewrite <- Hiovlen|].
    rewrite <- (Hblk k bp Hbp). apply Hne. by eapply list_elem_of_lookup_2.
Qed.

Lemma wrote_app dev st q1 q2 st1 st2 :
  (forall i j, i ∈ q1 -> j ∈ q2 -> blocknr_of st i <> blocknr_of st j) -> 0 < bs ->
  wrote dev st q1 st1 -> wrote dev st1 q2 st2 -> wrote dev st (q1 ++ q2) st2.
Proof.
  intros Hdis Hbs (w1 & -> & Hin1 & Hout1) (w2 & -> & Hin2 & Hout2). simpl in *.
  exists w2. split; [by rewrite clean_clean|]. split.
  - intros i b Hi Hb. destruct (decide (i ∈ q2)) as [Hi2|Hi2].
    + destruct (decide (i ∈ q1)) as [Hi1|Hi1].
      * by destruct (Hdis i i Hi1 Hi2).
      * apply (Hin2 i b Hi2). by rewrite lookup_clean_out.
    + assert (Hi1 : i ∈ q1) by set_solver. rewrite Hout2; [by apply (Hin1 i)|]. right.
      intros j Hj. rewrite blocknr_of_clean, <- (blocknr_of_Some _ _ _ Hb).
      specialize (Hdis i j Hi1 Hj). nia.
  - intros dev' pos' Hne. rewrite Hout2, Hout1; [done|..].
    + destruct Hne as [?|Hne]; [by left|right]. intros i Hi. apply Hne. set_solver.
    + destruct Hne as [?|Hne]; [by left|right]. intros i Hi. rewrite blocknr_of_clean.
      apply Hne. set_solver.
Qed.

Lemma rw_loop_all fuel dev q st :
  fs_block_size st = bs -> 0 < bs -> valid_queue st q -> increasing st q ->
  Z.of_nat (length q) < 2 ^ 32 -> (forall i, i ∈ q -> 0 <= blocknr_of st i < 2 ^ 32) ->
  (length q <= fuel)%nat -> runs (rw_loop fuel dev WRITING q st) (wrote dev st q).
Proof.
  revert q st. induction fuel as [|fuel IH]; intros q st Ebs Hbs Hv Hinc Hlen Hrange Hf;
    destruct q as [|bp0 q]; try (simpl in Hf; lia); cbn [rw_loop].
  1,2: apply runs_done; exists (c_world st); rewrite clean_nil; split; [by destruct st|];
    split; [by intros ?? ?%elem_of_nil|done].
  destruct (rw_round_all dev bp0 q st) as (j & Hj & Hround); try done.
  eapply runs_bind; [exact Hround|]. intros [st1 i] [-> Hw1]. cbn beta iota.
  rewrite decide_False by lia.
  pose proof Hw1 as (w1 & E1 & _). rewrite E1 in *.
  assert (Hsplit : increasing st (take j (bp0 :: q) ++ drop j (bp0 :: q))) by (by rewrite take_drop).
  apply StronglySorted_app in Hsplit as (Hlt & _ & Hincd).
  assert (Hsub : forall i, i ∈ drop j (bp0 :: q) -> i ∈ bp0 :: q) by (intros i; apply subseteq_drop).
  eapply runs_mono; [apply IH|].
  - done.
  - done.
  - apply valid_queue_clean. by eapply valid_queue_sub.
  - unfold increasing. clear -Hincd. induction Hincd as [|x l Hl IH Hx]; constructor; [done|].
    eapply Forall_impl; [exact Hx|]. intros y. by rewrite !blocknr_of_clean.
  - rewrite length_drop. lia.
  - intros i Hi. rewrite blocknr_of_clean. by apply Hrange, Hsub.
  - rewrite length_drop. simpl in *. lia.
  - intros st2 Hw2. rewrite <- (take_drop j (bp0 :: q)). eapply wrote_app; eauto.
    intros x y Hx Hy. specialize (Hlt x y Hx Hy). simpl in Hlt. lia.
Qed.

Lemma rw_scattered_all dev q st :
  fs_block_size st = bs -> 0 < bs -> valid_queue st q -> NoDup q ->
  (forall i j, i ∈ q -> j ∈ q -> blocknr_of st i = blocknr_of st j -> i = j) ->
  Z.of_nat (length q) < 2 ^ 32 -> (forall i, i ∈ q -> 0 <= blocknr_of st i < 2 ^ 32) ->
  runs (lmfs_rw_scattered dev q WRITING st) (wrote dev st q).
Proof.
  intros Ebs Hbs Hv Hnd Hinj Hlen Hrange. unfold lmfs_rw_scattered.
  destruct (shell_sort_spec (blocknr_of st) q) as [Hp Hs].
  set (q' := shell_sort (blocknr_of st) q) in *.
  assert (Hin : forall i, i ∈ q' <-> i ∈ q) by (intros i; by rewrite Hp).
  eapply runs_mono; [apply rw_loop_all|].
  - done.
  - done.
  - eapply valid_queue_sub; [|exact Hv]. intros i. apply Hin.
  - assert (Hnd' : NoDup q') by (by rewrite Hp).
    assert (Hinj' : forall i j, i ∈ q' -> j ∈ q' -> blocknr_of st i = blocknr_of st j -> i = j).
    { intros i j ?%Hin ?%Hin. by apply Hinj. }
    clear -Hs Hnd' Hinj'. unfold increasing. induction Hs as [|x l Hl IH Hx]; constructor.
    + apply NoDup_cons in Hnd' as [_ Hnd']. apply IH; [done|].
      intros i j Hi Hj. apply Hinj'; set_solver.
    + apply NoDup_cons in Hnd' as [Hxl _]. apply Forall_forall. intros y Hy.
      rewrite Forall_forall in Hx. specialize (Hx y Hy). simpl in *.
      assert (blocknr_of st x <> blocknr_of st y); [|lia].
      intros Heq. assert (x = y) as -> by (apply Hinj'; [set_solver..|done]). done.
  - by rewrite Hp.
  - intros i ?%Hin. by apply Hrange.
  - by rewrite Hp.
  - intros st' (w' & -> & Hdisk & Hrest). exists w'. split; [by rewrite (clean_equiv q' q _ Hin)|].
    split; [intros i b ?%Hin; by apply Hdisk|].
    intros dev' pos' Hne. apply Hrest. destruct Hne as [?|Hne]; [by left|right].
    intros i ?%Hin. by apply Hne.
Qed.

(** [flushall] on a reliable device: every dirty block of the device reaches its
    place on the disk, and exactly those buffers become clean. *)
Lemma flushall_all dev l ex st :
  core_inv st l ex -> fs_block_size st = bs -> dev <> NO_DEV ->
  (dirtylistsize st = nr_bufs st \/ (malloc (nr_bufs st) (c_world st)).1 = true) ->
  runs (flushall dev st) (fun st' => exists w',
    c_buf st' = clean (dirty_queue dev st) (c_buf st) /\ c_world st' = w' /\
    weak_step st st' /\
    (forall i b, i ∈ dirty_queue dev st -> c_buf st !! i = Some b ->
       disk_at w' dev (lmfs_blocknr b * bs) = b_data b) /\
    (forall dev' pos', (dev' <> dev \/
        forall i, i ∈ dirty_queue dev st -> pos' <> blocknr_of st i * bs) ->
       disk_at w' dev' pos' = disk_at (c_world st) dev' pos')).
Proof.
  intros Hinv Ebs Hdev Hmal. pose proof Hinv as [[Hnr Hnr'] Hlen Hbs Hlru Hhash Hcells Huse Huniq].
  assert (Hdat : forall i b, c_buf st !! i = Some b -> lmfs_dev b <> NO_DEV -> b_data b <> None).
  { intros i b Hb Hd. destruct (Hcells i b Hb) as (_&_&Hdat&_). apply Hdat. by right. }
  destruct (flushall_weak dev st Hdat Hdev Hmal) as (st' & Est' & Hweak).
  exists st'. split; [done|].
  (* the state in which the transfer starts *)
  set (st0 := if decide (dirtylistsize st <> nr_bufs st)
              then set_dirtylistsize (nr_bufs st) (set_world (malloc (nr_bufs st) (c_world st)).2 st)
              else st).
  assert (E0 : flushall dev st = lmfs_rw_scattered dev (dirty_queue dev st) WRITING st0).
  { unfold flushall, st0. case_decide; [|done]. destruct Hmal as [|Hok]; [done|].
    destruct (malloc _ _) as [ok w]. simpl in Hok. by subst ok. }
  assert (Eb0 : c_buf st0 = c_buf st) by (unfold st0; by case_decide).
  assert (Ebs0 : fs_block_size st0 = bs) by (unfold st0; by case_decide).
  assert (Ed0 : disk_at (c_world st0) = disk_at (c_world st)).
  { unfold st0. case_decide; [|done]. simpl. apply malloc_disk. }
  assert (Ek0 : forall i, blocknr_of st0 i = blocknr_of st i) by (intros i; unfold blocknr_of; by rewrite Eb0).
  destruct (rw_scattered_all dev (dirty_queue dev st) st0) as (st2 & Est2 & Hwr); try done.
  - by rewrite <- Ebs.
  - intros i (b & Hb & _ & Hd)%elem_of_dirty_queue. rewrite Eb0. exists b. split; [done|].
    apply (Hdat i b); congruence.
  - apply NoDup_filter, NoDup_seq.
  - intros i j (bi & Hbi & _ & Hdi)%elem_of_dirty_queue (bj & Hbj & _ & Hdj)%elem_of_dirty_queue.
    rewrite !Ek0, (blocknr_of_Some _ _ _ Hbi), (blocknr_of_Some _ _ _ Hbj). intros Hn.
    eapply Huniq; eauto; congruence.
  - pose proof (length_filter (fun i => is_dirty_for dev st i = true) (seq 0 (length (c_buf st)))) as Hle.
    rewrite length_seq in Hle. unfold dirty_queue. lia.
  - intros i (b & Hb & _)%elem_of_dirty_queue. rewrite Ek0, (blocknr_of_Some _ _ _ Hb).
    by destruct (Hcells i b Hb) as (_&_&_&?&_).
  - rewrite E0, Est2 in Est'. simplify_eq. destruct Hwr as (w' & -> & Hdisk & Hrest).
    exists w'. simpl. rewrite Eb0 in *. split_and!; [done|done|done|done|].
    intros dev' pos' Hne. rewrite Hrest, Ed0; [done|].
    destruct Hne as [?|Hne]; [by left|right]. intros i Hi. rewrite Ek0. by apply Hne.
Qed.
End cache_io.
