(* ===== verification/CacheGet.v ===== *)
(** * Getting and releasing blocks

    [lmfs_put_block] and the two paths of [lmfs_get_block], on the invariant of
    [CacheInv]. *)
From S2P Require Import Prelude DList Cache CacheInv CacheHash CacheIO.
Local Open Scope Z_scope.

Section cache_get.
Context {world bd : Type} `{!MinixHdr} `{E : !MinixEnv world bd}.
Local Abbreviation cache := (cache world bd).
Local Abbreviation buf := (buf bd).
Implicit Types (st : cache) (b : buf) (bp i : nat) (l q : list nat) (m : list buf).

(** ** Releasing *)

(** The last reference goes: the two insertions are the generic ones. *)
Definition with_chain st (c : list buf * option nat * option nat) : cache :=
  let '(m, f, r) := c in set_ends f r (set_bufs m st).

Lemma push_front_code bp b st m' f r :
  c_buf st !! bp = Some b ->
  push_front (c_buf st) (front st) (rear st) bp = Done (m', f, r) ->
  (st ← updb bp (with_prev None) st;
   st ← updb bp (with_next (front st)) st;
   st ← match front st with
        | None => Done (set_ends (front st) (Some bp) st)
        | Some q => updb q (with_prev (Some bp)) st
        end;
   Done (set_ends (Some bp) (rear st) st)) = Done (with_chain st (m', f, r)).
Proof.
  intros Hb. unfold push_front. simpl. rewrite Hb. simpl.
  rewrite (updb_done bp _ st b) by done. cbn [mbind exec_bind].
  erewrite (updb_done bp) by (apply list_lookup_insert_eq; by eapply lookup_lt_Some).
  cbn [mbind exec_bind]. simpl. rewrite list_insert_insert_eq.
  destruct (front st) as [p|]; simpl.
  - unfold updb, getb. simpl. change (with_next (Some p) (with_prev None b)) with
      (set_nxt (Some p) (set_prv None b)).
    destruct (<[bp := _]> (c_buf st) !! p); simpl; [|done]. by intros [= <- <- <-].
  - by intros [= <- <- <-].
Qed.

Lemma push_back_code bp b st m' f r :
  c_buf st !! bp = Some b ->
  push_back (c_buf st) (front st) (rear st) bp = Done (m', f, r) ->
  (st ← updb bp (with_prev (rear st)) st;
   st ← updb bp (with_next None) st;
   st ← match rear st with
        | None => Done (set_ends (Some bp) (rear st) st)
        | Some q => updb q (with_next (Some bp)) st
        end;
   Done (set_ends (front st) (Some bp) st)) = Done (with_chain st (m', f, r)).
Proof.
  intros Hb. unfold push_back. simpl. rewrite Hb. simpl.
  rewrite (updb_done bp _ st b) by done. cbn [mbind exec_bind].
  erewrite (updb_done bp) by (apply list_lookup_insert_eq; by eapply lookup_lt_Some).
  cbn [mbind exec_bind]. simpl. rewrite list_insert_insert_eq.
  destruct (rear st) as [p|]; simpl.
  - unfold updb, getb. simpl. change (with_next None (with_prev (Some p) b)) with
      (set_nxt None (set_prv (Some p) b)).
    destruct (<[bp := _]> (c_buf st) !! p); simpl; [|done]. by intros [= <- <- <-].
  - by intros [= <- <- <-].
Qed.

(** Where a released buffer goes. *)
Definition put_order (block_type : Z) b bp l : list nat :=
  if decide (lmfs_dev b = DEV_RAM \/ Z.land block_type ONE_SHOT <> 0) then bp :: l else l ++ [bp].

Lemma in_use_cell_ok bs l bp b : cell_ok bs l None bp b -> 0 < lmfs_count b -> bp ∉ l.
Proof. intros (_&_&_&_&Hc) Hpos. rewrite decide_False in Hc by done. rewrite Hc. lia. Qed.

Lemma payload_with_count m m' bp b c i :
  same_nodes (<[bp := with_count c b]> m) m' -> i <> bp ->
  payload <$> m' !! i = payload <$> m !! i.
Proof.
  intros Hs Hi. specialize (Hs i). simpl in Hs.
  by rewrite list_lookup_insert_ne in Hs by done.
Qed.

Lemma with_count_payload b b' c : payload b' = payload (with_count c b) ->
  lmfs_hash b' = lmfs_hash b /\ lmfs_blocknr b' = lmfs_blocknr b /\ lmfs_dev b' = lmfs_dev b /\
  lmfs_count b' = c /\ lmfs_bytes b' = lmfs_bytes b /\ b_data b' = b_data b.
Proof. intros Hp%payload_fields. simpl in Hp. tauto. Qed.

(** One buffer moved between use and the chain: the invariant follows from the
    new chain. *)
Lemma core_inv_moved st st2 l l2 bp b c m' f r n :
  cache_inv st l -> c_buf st !! bp = Some b ->
  st2 = set_ends f r (set_bufs m' (set_in_use n st)) ->
  same_nodes (<[bp := with_count c b]> (c_buf st)) m' -> dchain m' f r l2 ->
  (forall i, i <> bp -> i ∈ l2 <-> i ∈ l) ->
  0 <= c -> (0 < c -> b_data b <> None) -> (bp ∈ l2 <-> c = 0) ->
  n = nr_bufs st - Z.of_nat (length l2) ->
  cache_inv st2 l2 /\ exists b2, m' !! bp = Some b2 /\ payload b2 = payload (with_count c b).
Proof.
  intros Hinv Hb -> Hs Hch Hmem Hc Hdat Hbp Hn.
  assert (Hlt : (bp < length (c_buf st))%nat) by (by eapply lookup_lt_Some).
  assert (Hm1 : <[bp := with_count c b]> (c_buf st) !! bp = Some (with_count c b))
    by (by apply list_lookup_insert_eq).
  assert (is_Some (m' !! bp)) as [b2 Hb2].
  { apply (same_nodes_Some _ _ bp Hs). simpl. eauto. }
  destruct (same_nodes_cell _ _ _ _ Hs Hb2) as (b' & Hb' & Hp). assert (b' = with_count c b) as -> by congruence.
  split; [|eauto]. apply with_count_payload in Hp as Hf. destruct Hf as (Eh & Ebn & Ed & Ec & Eby & Eda).
  destruct (ci_cells _ _ _ Hinv bp b Hb) as (_ & Hmo & Hdv & Hrange & _).
  eapply (core_inv_recount st _ l l2 None bp b b2); try done.
  - intros i Hi. by eapply payload_with_count.
  - simpl. rewrite (same_nodes_length _ _ Hs). by rewrite length_insert.
  - simpl. unfold cell_ok, mem_ok in *. rewrite Ec, Eby, Eda, Ebn, Ed. split_and!; try done; try lia.
    + intros [?|?]; [by apply Hdat|apply Hdv; by right].
Qed.

Lemma put_block_spec bp b block_type st l :
  cache_inv st l -> c_buf st !! bp = Some b -> 0 < lmfs_count b ->
  runs (lmfs_put_block (Some bp) block_type st) (fun st' =>
    let l' := if decide (lmfs_count b = 1) then put_order block_type b bp l else l in
    cache_inv st' l' /\
    (forall i, i <> bp -> payload <$> c_buf st' !! i = payload <$> c_buf st !! i) /\
    (exists b', c_buf st' !! bp = Some b' /\ payload b' = payload (with_count (lmfs_count b - 1) b)) /\
    c_world st' = c_world st).
Proof.
  intros Hinv Hb Hpos. unfold lmfs_put_block.
  assert (Hlt : (bp < length (c_buf st))%nat) by (by eapply lookup_lt_Some).
  rewrite (updb_done _ _ _ b) by done. cbn [mbind exec_bind].
  set (b1 := with_count (lmfs_count b - 1) b). set (m1 := <[bp := b1]> (c_buf st)).
  unfold getb at 1. cbn [c_buf set_bufs]. fold m1. assert (Hm1 : m1 !! bp = Some b1) by (by apply list_lookup_insert_eq).
  rewrite Hm1. cbn [deref mbind exec_bind].
  destruct (ci_cells _ _ _ Hinv bp b Hb) as (Hc0 & _ & Hdat & _ & _).
  assert (Hbpl : bp ∉ l) by (eapply in_use_cell_ok; [exact (ci_cells _ _ _ Hinv bp b Hb)|done]).
  assert (Hch1 : dchain m1 (front st) (rear st) l).
  { eapply dchain_insert_payload; [exact Hb|done..|apply (ci_lru _ _ _ Hinv)]. }
  assert (Hother : forall m' i, same_nodes m1 m' -> i <> bp -> payload <$> m' !! i = payload <$> c_buf st !! i).
  { intros m' i Hs Hi. by eapply payload_with_count. }
  pose proof (ci_in_use _ _ _ Hinv) as Huse.
  case_decide as Hz; destruct (decide (lmfs_count b = 1)) as [H1|H1]; simpl in Hz; try lia.
  - apply runs_done.
    destruct (core_inv_moved st (set_bufs m1 st) l l bp b (lmfs_count b - 1) m1 (front st) (rear st)
      (bufs_in_use st)) as [Hinv' Hcell]; try done; try lia; try (by destruct st);
      try (intros _; apply Hdat; left; lia); try (split; [done|lia]).
    split_and!; [done|intros i Hi; by apply Hother|done|done].
  - assert (Hlen : forall l2, Permutation l2 (bp :: l) ->
      bufs_in_use st - 1 = nr_bufs st - Z.of_nat (length l2)).
    { intros l2 Hp. rewrite Hp. simpl. lia. }
    unfold put_order. change (lmfs_dev b1) with (lmfs_dev b). cbv zeta. case_decide as Hk.
    + destruct (push_front_spec m1 (front st) (rear st) l bp b1 Hch1 Hbpl Hm1)
        as (m' & r' & Ep & Hch' & Hs & _).
      rewrite (push_front_code bp b1 _ m' (Some bp) r') by done. apply runs_done.
      destruct (core_inv_moved st (with_chain (set_in_use (bufs_in_use st - 1) (set_bufs m1 st)) (m', Some bp, r'))
        l (bp :: l) bp b (lmfs_count b - 1) m' (Some bp) r' (bufs_in_use st - 1)) as [Hinv' Hcell];
        try done; try lia.
      * intros i Hi. set_solver.
      * split; [lia|set_solver].
      * by apply Hlen.
      * split_and!; [done|intros i Hi; by apply Hother|done|done].
    + destruct (push_back_spec m1 (front st) (rear st) l bp b1 Hch1 Hbpl Hm1)
        as (m' & f' & Ep & Hch' & Hs & _).
      rewrite (push_back_code bp b1 _ m' f' (Some bp)) by done. apply runs_done.
      destruct (core_inv_moved st (with_chain (set_in_use (bufs_in_use st - 1) (set_bufs m1 st)) (m', f', Some bp))
        l (l ++ [bp]) bp b (lmfs_count b - 1) m' f' (Some bp) (bufs_in_use st - 1)) as [Hinv' Hcell];
        try done; try lia.
      * intros i Hi. set_solver.
      * split; [lia|set_solver].
      * apply Hlen. by rewrite Permutation_app_comm.
      * split_and!; [done|intros i Hi; by apply Hother|done|done].
Qed.

(** ** A block that is in the cache *)

Definition without bp l : list nat := filter (fun i => i <> bp) l.

Lemma without_notin bp l : bp ∉ l -> without bp l = l.
Proof.
  intros Hn. unfold without. induction l as [|x l IH]; [done|].
  rewrite filter_cons_True by set_solver. f_equal. apply IH. set_solver.
Qed.

Lemma without_middle bp l1 l2 : NoDup (l1 ++ bp :: l2) -> without bp (l1 ++ bp :: l2) = l1 ++ l2.
Proof.
  intros (_ & Hd & [Hn _]%NoDup_cons)%NoDup_app. unfold without.
  rewrite filter_app, filter_cons_False by tauto.
  f_equal; apply without_notin; [|done]. intros Hin. apply (Hd bp Hin). set_solver.
Qed.

Lemma cell_has_memory bs l ex i b : cell_ok bs l ex i b -> lmfs_dev b <> NO_DEV ->
  lmfs_bytes b = bs /\ b_data b <> None.
Proof.
  intros (_ & Hm & Hdat & _) Hd. specialize (Hdat (or_intror Hd)).
  destruct Hm as [[_ ?]|?]; done.
Qed.

Definition hit_path bp st : exec (nat * cache) :=
  b ← getb st bp;
  st ← (if decide (lmfs_count b = 0) then rm_lru bp st else Done st);
  st ← updb bp (fun b => with_count (lmfs_count b + 1) b) st;
  b ← getb st bp;
  _ ← assertC (lmfs_bytes b = fs_block_size st);
  _ ← assertC (b_data b <> None);
  Done (bp, st).

Lemma hit_path_spec bp b st l :
  cache_inv st l -> c_buf st !! bp = Some b -> lmfs_dev b <> NO_DEV ->
  runs (hit_path bp st) (fun '(bp', st') => bp' = bp /\
    cache_inv st' (without bp l) /\ c_world st' = c_world st /\
    (forall i, i <> bp -> payload <$> c_buf st' !! i = payload <$> c_buf st !! i) /\
    exists b', c_buf st' !! bp = Some b' /\ payload b' = payload (with_count (lmfs_count b + 1) b)).
Proof.
  intros Hinv Hb Hd. pose proof (ci_cells _ _ _ Hinv bp b Hb) as Hcell.
  destruct (cell_has_memory _ _ _ _ _ Hcell Hd) as [Hby Hdat].
  pose proof Hcell as (Hc0 & _ & _ & _ & Hmem). rewrite decide_False in Hmem by done.
  assert (Hlt : (bp < length (c_buf st))%nat) by (by eapply lookup_lt_Some).
  (* the chain without the buffer, and the state before the count is raised *)
  assert (Hrm : runs (if decide (lmfs_count b = 0) then rm_lru bp st else Done st) (fun st1 =>
    exists m' f r n, st1 = set_ends f r (set_bufs m' (set_in_use n st)) /\
      dchain m' f r (without bp l) /\ same_nodes (c_buf st) m' /\
      n = nr_bufs st - Z.of_nat (length (without bp l)))).
  { case_decide as Hc.
    - destruct (list_elem_of_split l bp) as (l1 & l2 & ->); [by apply Hmem|].
      pose proof (ci_lru _ _ _ Hinv) as Hch. pose proof Hch as (Hnd & _).
      eapply runs_mono; [by apply rm_lru_spec|]. intros st1 (m' & f & r & -> & Hch' & Hs).
      rewrite without_middle by done. exists m', f, r, (bufs_in_use st + 1). split_and!; try done.
      rewrite (ci_in_use _ _ _ Hinv), !length_app. simpl. lia.
    - apply runs_done. rewrite without_notin by tauto.
      exists (c_buf st), (front st), (rear st), (bufs_in_use st).
      split_and!; [by destruct st|apply (ci_lru _ _ _ Hinv)|done|apply (ci_in_use _ _ _ Hinv)]. }
  unfold hit_path. rewrite (getb_done st bp b) by done. cbn [mbind exec_bind].
  eapply runs_bind; [exact Hrm|]. intros st1 (m' & f & r & n & -> & Hch & Hs & Hn).
  assert (is_Some (m' !! bp)) as [b1 Hb1] by (apply (same_nodes_Some _ _ bp Hs); simpl; eauto).
  destruct (same_nodes_cell _ _ _ _ Hs Hb1) as (b0 & Hb0 & Hp). assert (b0 = b) as -> by congruence.
  pose proof (payload_fields _ _ Hp) as (_&_&_&_&Ec&Eby&Eda).
  rewrite (updb_done _ _ _ b1) by done. cbn [mbind exec_bind].
  assert (Hlt' : (bp < length m')%nat) by (by eapply lookup_lt_Some).
  rewrite (getb_done _ bp (with_count (lmfs_count b1 + 1) b1)) by (by apply list_lookup_insert_eq).
  cbn [mbind exec_bind].
  rewrite !assertC_true by (simpl; congruence). cbn [mbind exec_bind]. apply runs_done.
  split; [done|].
  assert (Hs1 : same_nodes (<[bp := with_count (lmfs_count b + 1) b]> (c_buf st))
                           (<[bp := with_count (lmfs_count b1 + 1) b1]> m')).
  { intros i. simpl. destruct (decide (i = bp)) as [->|Hi].
    - rewrite !list_lookup_insert_eq by done. simpl. f_equal. rewrite Ec. clear -Hp.
      unfold payload in *. destruct b, b1. cbn in *. by simplify_eq.
    - rewrite !list_lookup_insert_ne by done. apply Hs. }
  destruct (core_inv_moved st (set_ends f r (set_bufs (<[bp := with_count (lmfs_count b1 + 1) b1]> m')
    (set_in_use n st))) l (without bp l) bp b (lmfs_count b + 1)
    (<[bp := with_count (lmfs_count b1 + 1) b1]> m') f r n) as [Hinv' Hcell']; try done; try lia.
  - by eapply dchain_insert_payload.
  - intros i Hi. unfold without. rewrite list_elem_of_filter. tauto.
  - unfold without. rewrite list_elem_of_filter. split; [tauto|lia].
  - split_and!; [done|done|intros i Hi; by eapply payload_with_count|done].
Qed.

(** ** Choosing the buffer to evict *)

Definition has_memory st i : bool :=
  match c_buf st !! i with Some b => has_data b | None => false end.

(** The buffer the code settles on, when the block is not cached: the head of
    the chain if it has memory or memory can be allocated for it, and otherwise
    the first buffer of the chain that has memory. *)
Definition victim st l : option nat :=
  match (alloc_contig (fs_block_size st) (c_world st)).1 with
  | Some _ => head l
  | None => head (filter (fun i => has_memory st i = true) l)
  end.

Lemma mem_ok_bytes bs b : 0 < bs -> mem_ok bs b ->
  (lmfs_bytes b < bs <-> has_data b = false) /\ (has_data b = false -> lmfs_bytes b = 0 /\ b_data b = None) /\
  (has_data b = true -> lmfs_bytes b = bs /\ b_data b <> None).
Proof.
  unfold has_data. intros Hbs [[-> ->]|[-> Hd]]; [split_and!; [|done|done]; split; [done|lia]|].
  destruct (b_data b); [|done]. split_and!; [split; [lia|done]|done|done].
Qed.

Lemma find_with_memory_spec fuel l p n st :
  (forall i b, c_buf st !! i = Some b -> mem_ok (fs_block_size st) b) -> 0 < fs_block_size st ->
  dseg (c_buf st) p l None -> (length l <= fuel)%nat -> n = head_or None l ->
  find_with_memory fuel n st = Done (head (filter (fun i => has_memory st i = true) l)).
Proof.
  intros Hm Hbs. revert fuel p n. induction l as [|x l IH]; intros fuel p n Hseg Hf ->.
  - by destruct fuel.
  - destruct Hseg as (b & Hb & _ & Hn & Hseg). destruct fuel as [|fuel]; simpl in Hf; [lia|].
    cbn [find_with_memory head_or]. change (c_buf st !! x = Some b) in Hb.
    rewrite (getb_done _ _ b) by done. cbn [mbind exec_bind].
    destruct (mem_ok_bytes _ b Hbs (Hm _ _ Hb)) as (Hiff & _).
    assert (Ehm : has_memory st x = has_data b) by (unfold has_memory; by rewrite Hb).
    case_decide as Hd.
    + rewrite filter_cons_False by (rewrite Ehm; apply Hiff in Hd; congruence).
      eapply IH; [done|lia|exact Hn].
    + rewrite filter_cons_True; [done|]. rewrite Ehm. destruct (has_data b); [done|]. tauto.
Qed.

Lemma chain_fits st l : cache_inv st l -> (length l <= length (c_buf st))%nat.
Proof.
  intros Hinv. pose proof (ci_lru _ _ _ Hinv) as Hch. pose proof Hch as (Hnd & _).
  apply NoDup_fits; [done|]. intros i Hi. exact (dchain_mem _ _ _ _ i Hch Hi).
Qed.

(** Giving a free buffer memory. *)
Lemma cache_inv_alloc st l bp b d w :
  cache_inv st l -> c_buf st !! bp = Some b -> lmfs_count b = 0 ->
  cache_inv (set_bufs (<[bp := with_data (Some d) (fs_block_size st) b]> (c_buf st)) (set_world w st)) l.
Proof.
  intros Hinv Hb Hc. pose proof (ci_cells _ _ _ Hinv bp b Hb) as (_ & _ & _ & Hr & Hm).
  eapply (core_inv_recount st _ l l None bp b (with_data (Some d) (fs_block_size st) b)); try done.
  - simpl. apply list_lookup_insert_eq. by eapply lookup_lt_Some.
  - intros i Hi. simpl. by rewrite list_lookup_insert_ne.
  - simpl. by rewrite length_insert.
  - simpl. eapply dchain_insert_payload; [exact Hb|done..|apply (ci_lru _ _ _ Hinv)].
  - simpl. split_and!; simpl; try lia; try done. by right.
  - simpl. apply (ci_in_use _ _ _ Hinv).
Qed.

(** Cells that agree on everything but the memory they own. *)
Definition same_name b b' : Prop :=
  lmfs_blocknr b' = lmfs_blocknr b /\ lmfs_dev b' = lmfs_dev b /\ lmfs_dirt b' = lmfs_dirt b /\
  lmfs_count b' = lmfs_count b /\ (b_data b <> None -> b_data b' = b_data b).

Lemma same_name_refl b : same_name b b.
Proof. done. Qed.

(** The parts of the state that the chains do not use. *)
Definition same_settings st st' : Prop :=
  nr_bufs st' = nr_bufs st /\ fs_block_size st' = fs_block_size st /\
  vmcache st' = vmcache st /\ dirtylistsize st' = dirtylistsize st.

Lemma pick_victim_spec st l bp :
  cache_inv st l -> victim st l = Some bp ->
  runs (pick_victim st) (fun '(bp', st') => bp' = bp /\ cache_inv st' l /\ bp ∈ l /\
    same_settings st st' /\ Forall2 same_name (c_buf st) (c_buf st') /\
    (c_world st' = c_world st \/ c_world st' = (alloc_contig (fs_block_size st) (c_world st)).2) /\
    exists b, c_buf st' !! bp = Some b /\ has_data b = true).
Proof.
  intros Hinv Hv. pose proof Hinv as [_ _ Hbs Hch _ Hcells _ _].
  pose proof Hch as (Hnd & Hf & _ & Hseg).
  assert (Hrefl : Forall2 same_name (c_buf st) (c_buf st)).
  { clear. induction (c_buf st); constructor; auto using same_name_refl. }
  assert (Hmem : forall i b, c_buf st !! i = Some b -> mem_ok (fs_block_size st) b).
  { intros i b Hb. by destruct (Hcells i b Hb) as (_&?&_). }
  destruct l as [|x l]; [unfold victim in Hv; by destruct (alloc_contig _ _).1|].
  pose proof Hseg as (b & Hb & _ & _ & _). change (c_buf st !! x = Some b) in Hb.
  destruct (mem_ok_bytes _ b Hbs (Hmem _ _ Hb)) as (Hiff & Hno & Hyes).
  assert (Ehm : has_memory st x = has_data b) by (unfold has_memory; by rewrite Hb).
  assert (Hxc : lmfs_count b = 0).
  { destruct (Hcells x b Hb) as (_&_&_&_&Hc). rewrite decide_False in Hc by done. apply Hc. set_solver. }
  unfold pick_victim. rewrite Hf. cbn [head_or deref mbind exec_bind].
  rewrite (getb_done _ _ b) by done. cbn [mbind exec_bind]. case_decide as Hd.
  - apply Hiff in Hd as Hnd'. destruct (Hno Hnd') as [Hb0 Hbd].
    rewrite !assertC_true by done. cbn [mbind exec_bind].
    unfold victim in Hv. destruct (alloc_contig _ _) as [od w]. cbn [fst snd]. simpl in Hv.
    destruct od as [d|].
    + simplify_eq. rewrite (updb_done _ _ _ b) by done. cbn [mbind exec_bind]. apply runs_done.
      split_and!; [done|by apply (cache_inv_alloc st _ _ b d w)|set_solver|done| |by right|].
      * simpl. apply cells_insert with b; [apply same_name_refl|done|].
        unfold same_name. simpl. naive_solver.
      * simpl. eexists. rewrite list_lookup_insert_eq by (by eapply lookup_lt_Some). done.
    + rewrite (find_with_memory_spec _ (x :: l) None _ (set_world w st)) by (done || exact (chain_fits st _ Hinv)).
      change (filter (fun i => has_memory (set_world w st) i = true) (x :: l)) with
        (filter (fun i => has_memory st i = true) (x :: l)).
      rewrite Hv. cbn [deref mbind exec_bind]. apply runs_done.
      apply head_Some in Hv as [l' Hl'].
      assert (Hbp : bp ∈ filter (fun i => has_memory st i = true) (x :: l)) by (rewrite Hl'; set_solver).
      apply list_elem_of_filter in Hbp as [Hmm Hbp].
      split_and!; [done|eapply core_inv_weak; [apply weak_world|done]|done|done|done|by right|].
      unfold has_memory in Hmm. simpl. destruct (c_buf st !! bp); [|done]. eauto.
  - assert (Hdb : has_data b = true) by (destruct (has_data b); tauto).
    assert (bp = x) as ->.
    { unfold victim in Hv. destruct (alloc_contig _ _).1; [by simplify_eq/=|].
      rewrite filter_cons_True in Hv by congruence. by simplify_eq/=. }
    apply runs_done. split_and!; [done|done|set_solver|done|done|by left|]. eauto.
Qed.
End cache_get.
