(* ===== verification/CacheMiss.v ===== *)
(** * A block that is not in the cache

    The steps of [lmfs_get_block] after its search has failed: the victim leaves
    its chains, is written back, gets its new name and is filled. *)
From S2P Require Import Prelude DList Cache CacheInv CacheHash CacheIO CacheGet.
Local Open Scope Z_scope.

Section cache_miss.
Context {world bd : Type} `{!MinixHdr} `{E : !MinixEnv world bd}.
Local Abbreviation cache := (cache world bd).
Local Abbreviation buf := (buf bd).
Implicit Types (st : cache) (b : buf) (bp i : nat) (l : list nat) (m : list buf).

(** Everything in a buffer but its links. *)
Definition content b : buf := with_hash None (payload b).

Lemma content_fields b b' : content b' = content b ->
  lmfs_blocknr b' = lmfs_blocknr b /\ lmfs_dev b' = lmfs_dev b /\
  lmfs_dirt b' = lmfs_dirt b /\ lmfs_count b' = lmfs_count b /\ lmfs_bytes b' = lmfs_bytes b /\
  b_data b' = b_data b.
Proof. destruct b, b'. unfold content, payload. cbn. intros Heq. by simplify_eq. Qed.

(** *** Off the chains *)

Definition take_off bp st : exec cache := st ← rm_lru bp st; hash_remove bp st.

Lemma take_off_spec bp b st l1 l2 :
  cache_inv st (l1 ++ bp :: l2) -> c_buf st !! bp = Some b ->
  runs (take_off bp st) (fun st' => core_inv st' (l1 ++ l2) (Some bp) /\
    same_settings st st' /\ c_world st' = c_world st /\
    Forall2 (fun c c' => content c' = content c) (c_buf st) (c_buf st')).
Proof.
  intros Hinv Hb. pose proof Hinv as [Hnr Hlen Hbs Hlru Hhash Hcells Huse Huniq].
  unfold take_off. eapply runs_bind; [by eapply rm_lru_spec|].
  intros st1 (m1 & f & r & -> & Hch1 & Hs1).
  assert (is_Some (m1 !! bp)) as [b1 Hb1] by (apply (same_nodes_Some _ _ bp Hs1); simpl; eauto).
  set (st1 := set_ends f r (set_bufs m1 (set_in_use (bufs_in_use st + 1) st))).
  assert (Hhash1 : hash_ok (c_buf st1) (buf_hash st1) (nr_bufs st1) None)
    by exact (hash_ok_same_nodes _ _ _ _ _ Hs1 Hhash).
  eapply runs_mono; [apply (hash_remove_spec bp b1 st1); [simpl; lia|done|done]|].
  intros st2 (m2 & h2 & -> & Hhash2 & Hsame & Hb2).
  pose proof (ci_lru _ _ _ Hinv) as (Hnd & _).
  apply NoDup_app in Hnd as (_ & Hdis & [Hbl2 _]%NoDup_cons).
  assert (Hback : forall i c2, m2 !! i = Some c2 -> exists c c1, c_buf st !! i = Some c /\
    m1 !! i = Some c1 /\ payload c1 = payload c /\ same_but_hash c1 c2).
  { intros i c2 Hc2. destruct (Forall2_lookup_r _ _ _ _ _ Hsame Hc2) as (c1 & Hc1 & Hsb).
    destruct (same_nodes_cell _ _ _ _ Hs1 Hc1) as (c & Hc & Hp). eauto 10. }
  assert (Hcont : forall i c2, m2 !! i = Some c2 -> exists c, c_buf st !! i = Some c /\ content c2 = content c).
  { intros i c2 Hc2. destruct (Hback i c2 Hc2) as (c & c1 & Hc & _ & Hp & Hsb). exists c. split; [done|].
    unfold content, same_but_hash, payload in *. clear -Hp Hsb. destruct c, c1, c2. cbn in *. by simplify_eq. }
  assert (Hlen2 : length m2 = length (c_buf st)).
  { rewrite <- (Forall2_length _ _ _ Hsame). exact (same_nodes_length _ _ Hs1). }
  split_and!; [|done|done|].
  - split; simpl; try done.
    + by rewrite Hlen2.
    + eapply dchain_frame; [|exact Hch1]. intros i _. unfold links. simpl.
      pose proof (Forall2_length _ _ _ Hsame) as Hl. change (c_buf st1) with m1 in *.
      destruct (m2 !! i) as [c2|] eqn:Hc2.
      * destruct (Hback i c2 Hc2) as (_ & c1 & _ & Hc1 & _ & Hsb). rewrite Hc1. simpl.
        unfold same_but_hash in Hsb. clear -Hsb. destruct c1, c2. cbn in *. by simplify_eq.
      * apply lookup_ge_None in Hc2. rewrite (lookup_ge_None_2 m1); [done|lia].
    + intros i c2 Hc2. destruct (Hcont i c2 Hc2) as (c & Hc & Hf%content_fields).
      destruct Hf as (En & Ed & _ & Ec & Eby & Eda).
      destruct (Hcells i c Hc) as (?&Hmo&?&?&Hmem). unfold cell_ok, mem_ok.
      rewrite En, Ed, Ec, Eby, Eda. split_and!; try done; try lia.
      rewrite decide_False in Hmem by done.
      destruct (decide (Some bp = Some i)) as [[=<-]|Hi].
      * split; [|apply Hmem; set_solver]. intros [Hi|Hi]%elem_of_app; [|done].
        apply (Hdis bp Hi). set_solver.
      * rewrite <- Hmem. rewrite !elem_of_app, elem_of_cons.
        assert (i <> bp) by congruence. tauto.
    + rewrite Huse, !length_app. simpl. lia.
    + intros i j ci cj Hi Hj. destruct (Hcont i ci Hi) as (c & Hc & Hf%content_fields).
      destruct (Hcont j cj Hj) as (c' & Hc' & Hf'%content_fields).
      destruct Hf as (-> & -> & _), Hf' as (-> & -> & _). by apply (Huniq i j c c').
  - simpl. apply Forall2_same_length_lookup_2; [by rewrite Hlen2|].
    intros i c c2 Hc Hc2. destruct (Hcont i c2 Hc2) as (c' & Hc' & Hcc). congruence.
Qed.

(** *** Writing back *)

(** The list of dirty buffers can be allocated. *)
Definition can_flush st : Prop :=
  dirtylistsize st = nr_bufs st \/ forall w, (malloc (nr_bufs st) w).1 = true.

Lemma can_flush_now st : can_flush st ->
  dirtylistsize st = nr_bufs st \/ (malloc (nr_bufs st) (c_world st)).1 = true.
Proof. intros [?|Hm]; [by left|right; apply Hm]. Qed.

Lemma core_inv_data st l ex : core_inv st l ex ->
  forall i b, c_buf st !! i = Some b -> lmfs_dev b <> NO_DEV -> b_data b <> None.
Proof. intros Hinv i b Hb Hd. destruct (ci_cells _ _ _ Hinv i b Hb) as (_&_&Hdat&_). tauto. Qed.

Lemma evict_spec bp b st l ex :
  core_inv st l ex -> c_buf st !! bp = Some b -> lmfs_bytes b = fs_block_size st -> can_flush st ->
  runs (evict bp st) (fun '(yid, st') => weak_step st st' /\
    exists b', c_buf st' !! bp = Some b' /\ cell_weak b b' /\ lmfs_dev b' = NO_DEV).
Proof.
  intros Hinv Hb Hby Hmal. unfold evict. rewrite (getb_done st bp b) by done. cbn [mbind exec_bind].
  case_decide as Hd.
  - eapply (runs_bind _ _ (weak_step st)).
    { case_decide; [|apply runs_done, weak_step_refl].
      apply flushall_weak; [by eapply core_inv_data|done|by apply can_flush_now]. }
    intros st1 Hw1. destruct (weak_lookup _ _ _ _ Hw1 Hb) as (b1 & Hb1 & Hc1).
    rewrite (getb_done st1 bp b1) by done. cbn [mbind exec_bind].
    rewrite assertC_true by (destruct Hc1 as (_&_&_&_&_&->&_); by rewrite (ws_bs _ _ Hw1)).
    cbn [mbind exec_bind]. rewrite (updb_done _ _ _ b1) by done. cbn [mbind exec_bind].
    apply runs_done. destruct (updb_weak bp (with_dev NO_DEV) st1 b1 Hb1 (cell_weak_no_dev b1))
      as (st2 & E2 & Hw2 & Ec2). rewrite (updb_done _ _ _ b1) in E2 by done. simplify_eq.
    split; [by eapply weak_step_trans|]. exists (with_dev NO_DEV b1). split_and!.
    + simpl. apply list_lookup_insert_eq. by eapply lookup_lt_Some.
    + eapply cell_weak_trans; [exact Hc1|apply cell_weak_no_dev].
    + done.
  - apply runs_done. split; [apply weak_step_refl|]. exists b. split_and!; [done|apply cell_weak_refl|].
    destruct (decide (lmfs_dev b = NO_DEV)); tauto.
Qed.

(** *** Filling *)

(** Steps that refill one buffer. *)
Definition one_cell bp st st' : Prop :=
  weak_step st st' /\ (forall i, i <> bp -> c_buf st' !! i = c_buf st !! i) /\
  forall b, c_buf st !! bp = Some b -> exists b', c_buf st' !! bp = Some b' /\
    lmfs_dirt b' = lmfs_dirt b.

Lemma one_cell_trans bp st1 st2 st3 : one_cell bp st1 st2 -> one_cell bp st2 st3 -> one_cell bp st1 st3.
Proof.
  intros (? & Ho & Hb) (? & Ho' & Hb'). split_and!; [by eapply weak_step_trans| |].
  - intros i Hi. by rewrite Ho', Ho.
  - intros b Hbb. destruct (Hb b Hbb) as (b1 & Hb1 & E1). destruct (Hb' b1 Hb1) as (b2 & Hb2 & E2).
    exists b2. split; congruence.
Qed.

Lemma one_cell_outside bp st st' : weak_step st st' -> c_buf st' = c_buf st -> one_cell bp st st'.
Proof. intros Hw E'. split_and!; [done|by rewrite E'|]. intros b. rewrite E'. eauto. Qed.

Lemma one_cell_updb bp b f st : c_buf st !! bp = Some b -> cell_weak b (f b) ->
  lmfs_dirt (f b) = lmfs_dirt b ->
  one_cell bp st (set_bufs (<[bp := f b]> (c_buf st)) st).
Proof.
  intros Hb Hw Hd. destruct (updb_weak bp f st b Hb Hw) as (st' & E' & Hw' & _).
  rewrite (updb_done _ _ _ b) in E' by done. simplify_eq. split_and!; [done| |].
  - intros i Hi. simpl. by rewrite list_lookup_insert_ne.
  - intros b0 Hb0. assert (b0 = b) as -> by congruence. exists (f b). split; [|done]. simpl.
    apply list_lookup_insert_eq. by eapply lookup_lt_Some.
Qed.

Lemma cell_weak_data b d : b_data b <> None -> cell_weak b (with_data (Some d) (lmfs_bytes b) b).
Proof. intros Hd. unfold cell_weak, has_data. simpl. destruct (b_data b); [tauto|done]. Qed.

Lemma read_block_weak bp b st : c_buf st !! bp = Some b -> b_data b <> None -> lmfs_dev b <> NO_DEV ->
  runs (read_block bp st) (one_cell bp st).
Proof.
  intros Hb Hd Hdev. unfold read_block. rewrite (getb_done _ _ b) by done. cbn [mbind exec_bind].
  rewrite assertC_true by done. cbn [mbind exec_bind].
  destruct (b_data b) as [d|] eqn:Eb; [|done]. cbn [deref mbind exec_bind].
  destruct (bdev_read _ _ _ _ _) as [[r d'] w]. rewrite (updb_done _ _ _ b) by done.
  cbn [mbind exec_bind]. assert (Hbd : b_data b <> None) by congruence.
  pose proof (one_cell_updb bp b (fun b => with_data (Some d') (lmfs_bytes b) b) (set_world w st) Hb
    (cell_weak_data _ d' Hbd) eq_refl) as Hw.
  assert (Hw1 : one_cell bp st (set_world w st)) by (apply one_cell_outside; [apply weak_world|done]).
  pose proof (one_cell_trans _ _ _ _ Hw1 Hw) as Hw2.
  destruct (if decide (r < 0) then _ else _) as [r' failed]. destruct failed; [|by apply runs_done].
  set (b2 := with_data (Some d') (lmfs_bytes b) b) in *.
  erewrite (updb_done bp _ _ b2) by (simpl; apply list_lookup_insert_eq; by eapply lookup_lt_Some).
  cbn [mbind exec_bind]. apply runs_done. eapply one_cell_trans; [exact Hw2|].
  eapply one_cell_trans; [|apply one_cell_outside; [apply weak_rdwt_err|done]].
  apply (one_cell_updb bp b2 (with_dev NO_DEV)); [|apply cell_weak_no_dev|done].
  simpl. apply list_lookup_insert_eq. by eapply lookup_lt_Some.
Qed.

Lemma fetch_weak bp b st yieldid getid only_search :
  c_buf st !! bp = Some b -> b_data b <> None -> lmfs_dev b <> NO_DEV ->
  only_search = NORMAL \/ only_search = PREFETCH \/ only_search = NO_READ ->
  runs (fetch bp yieldid getid only_search st) (one_cell bp st).
Proof.
  intros Hb Hd Hdev Hs. unfold fetch.
  eapply (runs_bind _ _ (fun '(hit, st') => one_cell bp st st' /\ exists b', c_buf st' !! bp = Some b' /\
    b_data b' <> None /\ lmfs_dev b' <> NO_DEV)).
  { case_decide; [|apply runs_done; split; [by apply one_cell_outside; [apply weak_step_refl|]|eauto]].
    rewrite (getb_done _ _ b) by done. cbn [mbind exec_bind].
    destruct (b_data b) as [d|] eqn:Eb; [|done]. cbn [deref mbind exec_bind].
    destruct (vm_yield_block_get_block _ _ _ _ _) as [[r d'] w].
    rewrite (updb_done _ _ _ b) by done. cbn [mbind exec_bind]. apply runs_done. split.
    - eapply one_cell_trans; [apply (one_cell_outside _ _ (set_world w st)); [apply weak_world|done]|].
      apply (one_cell_updb bp b (with_data (Some d') (lmfs_bytes b))); [done| |done].
      apply cell_weak_data. congruence.
    - exists (with_data (Some d') (lmfs_bytes b) b). split_and!; [|done|done].
      simpl. apply list_lookup_insert_eq. by eapply lookup_lt_Some. }
  intros [hit st1] (Hw & b1 & Hb1 & Hd1 & Hdev1). destruct hit; [by apply runs_done|].
  case_decide.
  { rewrite (updb_done _ _ _ b1) by done. apply runs_done. eapply one_cell_trans; [exact Hw|].
    apply one_cell_updb; [done|apply cell_weak_no_dev|done]. }
  case_decide.
  { eapply runs_mono; [by eapply read_block_weak|]. intros st2 Hw2. by eapply one_cell_trans. }
  rewrite decide_True by tauto. destruct (vmcache st1); [|by apply runs_done].
  destruct (vm_forgetblock _ _) as [r w]. apply runs_done. eapply one_cell_trans; [exact Hw|].
  apply one_cell_outside; [apply weak_world|done].
Qed.

(** ** [lmfs_get_block] *)

Definition not_cached st dev block : Prop :=
  forall i b, c_buf st !! i = Some b -> ~ (lmfs_dev b = dev /\ lmfs_blocknr b = block).

(** The victim picked, checked and off both chains. *)
Definition detach st : exec (nat * cache) :=
  '(bp, st) ← pick_victim st;
  b ← getb st bp;
  _ ← assertC (b_data b <> None);
  _ ← assertC (lmfs_bytes b = fs_block_size st);
  _ ← assertC (lmfs_count b = 0);
  st ← take_off bp st;
  Done (bp, st).

Definition install bp dev block only_search st : exec (nat * cache) :=
  '(yieldid, st) ← evict bp st;
  st ← rename bp dev block st;
  st ← fetch bp yieldid (make64 dev block) only_search st;
  Done (bp, st).

Lemma get_block_hit_code bp b dev block only_search st l :
  cache_inv st l -> dev <> NO_DEV -> c_buf st !! bp = Some b -> lmfs_dev b = dev ->
  lmfs_blocknr b = block ->
  lmfs_get_block dev block only_search st = hit_path bp st.
Proof.
  intros Hinv Hdev Hb Hd Hn. unfold lmfs_get_block.
  pose proof (ci_nr _ _ _ Hinv) as Hnr. pose proof (ci_bs _ _ _ Hinv) as Hbs.
  rewrite !assertC_true by (done || lia). cbn [mbind exec_bind].
  destruct (hash_lookup_spec st None dev block) as (h & -> & [(bp' & b' & Hb' & _ & Hd' & Hn' & Es)|[_ Hno]]).
  - lia.
  - apply (ci_hash _ _ _ Hinv).
  - assert (bp' = bp) as -> by (eapply (ci_unique _ _ _ Hinv); eauto; congruence).
    cbn [deref mbind exec_bind]. by rewrite Es.
  - by destruct (Hno bp b).
Qed.

Lemma get_block_miss_code dev block only_search st l :
  cache_inv st l -> dev <> NO_DEV -> not_cached st dev block ->
  lmfs_get_block dev block only_search st =
    ('(bp, st) ← detach st; install bp dev block only_search st).
Proof.
  intros Hinv Hdev Hno. unfold lmfs_get_block, detach, install, take_off.
  pose proof (ci_nr _ _ _ Hinv) as Hnr. pose proof (ci_bs _ _ _ Hinv) as Hbs.
  rewrite !assertC_true by (done || lia). cbn [mbind exec_bind].
  destruct (hash_lookup_spec st None dev block) as (h & -> & [(bp' & b' & Hb' & _ & Hd' & Hn' & _)|[Es _]]).
  - lia.
  - apply (ci_hash _ _ _ Hinv).
  - by destruct (Hno bp' b').
  - cbn [deref mbind exec_bind]. rewrite Es. cbn [mbind exec_bind]. destruct (pick_victim st) as [[bp st1]|]; [|done]. cbn [mbind exec_bind].
    destruct (getb st1 bp) as [b|]; [|done]. cbn [mbind exec_bind].
    destruct (assertC (b_data b <> None)); [|done]. cbn [mbind exec_bind].
    destruct (assertC (lmfs_bytes b = _)); [|done]. cbn [mbind exec_bind].
    destruct (assertC (lmfs_count b = 0)); [|done]. cbn [mbind exec_bind].
    destruct (rm_lru bp st1) as [st2|]; [|done]. cbn [mbind exec_bind].
    by destruct (hash_remove bp st2).
Qed.

(** What [detach] leaves behind. *)
Record detached st l bp st2 : Prop := Detached {
  dt_inv : core_inv st2 (without bp l) (Some bp);
  dt_settings : same_settings st st2;
  dt_names : Forall2 same_name (c_buf st) (c_buf st2);
  dt_world : c_world st2 = c_world st \/ c_world st2 = (alloc_contig (fs_block_size st) (c_world st)).2;
  dt_cell : exists b, c_buf st2 !! bp = Some b /\ b_data b <> None /\
              lmfs_bytes b = fs_block_size st /\ lmfs_count b = 0
}.

Lemma same_name_content b1 b2 b3 : same_name b1 b2 -> content b3 = content b2 -> same_name b1 b3.
Proof.
  unfold same_name. intros (?&?&?&?&Hd) (?&?&?&?&_&?)%content_fields.
  split_and!; try congruence. intros Hn. specialize (Hd Hn). congruence.
Qed.

Lemma detach_spec st l bp : cache_inv st l -> victim st l = Some bp ->
  runs (detach st) (fun '(bp', st2) => bp' = bp /\ detached st l bp st2).
Proof.
  intros Hinv Hv. unfold detach. eapply runs_bind; [by apply pick_victim_spec|].
  intros [bp' st1] (-> & Hinv1 & Hbp & Hset & Hnames & Hworld & b & Hb & Hdata).
  rewrite (getb_done _ _ b) by done. cbn [mbind exec_bind].
  destruct (ci_cells _ _ _ Hinv1 bp b Hb) as (_ & Hmo & _ & _ & Hmem). rewrite decide_False in Hmem by done.
  apply Hmem in Hbp as Hc0.
  destruct (mem_ok_bytes _ b (ci_bs _ _ _ Hinv1) Hmo) as (_ & _ & Hyes). destruct (Hyes Hdata) as [Hby Hdat].
  rewrite !assertC_true by done. cbn [mbind exec_bind].
  pose proof (ci_lru _ _ _ Hinv1) as (Hnd & _).
  destruct (list_elem_of_split _ _ Hbp) as (l1 & l2 & ->).
  eapply runs_bind; [by eapply take_off_spec|].
  intros st2 (Hinv2 & Hset2 & Hw2 & Hcont). apply runs_done. split; [done|].
  assert (exists b2, c_buf st2 !! bp = Some b2 /\ content b2 = content b) as (b2 & Hb2 & Hf%content_fields).
  { destruct (Forall2_lookup_l _ _ _ _ _ Hcont Hb) as (b2 & ? & ?). eauto. }
  destruct Hset as (En & Eb & Ev & Ed), Hset2 as (En2 & Eb2 & Ev2 & Ed2). split.
  - by rewrite without_middle.
  - split_and!; congruence.
  - eapply Forall2_trans; [|exact Hnames|exact Hcont]. intros x y z. by apply same_name_content.
  - rewrite Hw2. done.
  - exists b2. split; [done|]. destruct Hf as (_&_&_&->&->&->). by rewrite Hby, Hc0, Eb.
Qed.

Definition search_mode (s : Z) : Prop := s = NORMAL \/ s = PREFETCH \/ s = NO_READ.

(** The new name of the buffer. *)
Definition got (dev block : Z) b : Prop :=
  lmfs_blocknr b = block /\ lmfs_count b = 1 /\ lmfs_dirt b = BP_CLEAN /\ b_data b <> None /\
  (lmfs_dev b = dev \/ lmfs_dev b = NO_DEV).

(** The other buffers: released names at most. *)
Definition kept b b' : Prop :=
  lmfs_blocknr b' = lmfs_blocknr b /\ lmfs_count b' = lmfs_count b /\
  (lmfs_dev b' = lmfs_dev b \/ lmfs_dev b' = NO_DEV).

Lemma cell_weak_kept b b' : cell_weak b b' -> kept b b'.
Proof. unfold cell_weak, kept. tauto. Qed.

Lemma install_spec st l bp b dev block mode :
  core_inv st l (Some bp) -> c_buf st !! bp = Some b -> b_data b <> None ->
  lmfs_bytes b = fs_block_size st -> lmfs_count b = 0 -> can_flush st ->
  dev <> NO_DEV -> 0 <= block < 2 ^ 32 -> search_mode mode ->
  (forall i c, i <> bp -> c_buf st !! i = Some c -> ~ (lmfs_dev c = dev /\ lmfs_blocknr c = block)) ->
  runs (install bp dev block mode st) (fun '(bp', st') => bp' = bp /\ cache_inv st' l /\
    (exists b', c_buf st' !! bp = Some b' /\ got dev block b') /\
    (forall i c, i <> bp -> c_buf st !! i = Some c -> exists c', c_buf st' !! i = Some c' /\ kept c c')).
Proof.
  intros Hinv Hb Hdat Hby Hc0 Hmal Hdev Hblk Hmode Hno. unfold install.
  eapply runs_bind; [by eapply evict_spec|]. intros [y st1] (Hw1 & b1 & Hb1 & Hcw1 & Hd1).
  pose proof (core_inv_weak _ _ _ _ Hw1 Hinv) as Hinv1.
  destruct (rename_spec bp dev block b1 l st1) as (h & Hh & Hren); try done.
  { destruct Hcw1 as (_&_&_&_&_&_&Hhd&_). unfold has_data in Hhd. by destruct (b_data b), (b_data b1). }
  { intros i c' Hi Hc' [Hcd Hcn]. destruct (weak_lookup_r _ _ _ _ Hw1 Hc') as (c & Hc & Hcw).
    destruct Hcw as (_&_&_&En&_&_&_&Ed). apply (Hno i c Hi Hc). destruct Ed; split; congruence. }
  eapply runs_bind; [exact Hren|]. intros st3 (Hinv3 & ->).
  set (st3 := set_hash _ _) in *. set (b3 := renamed dev block h b1) in *.
  assert (Hb3 : c_buf st3 !! bp = Some b3) by (apply list_lookup_insert_eq; by eapply lookup_lt_Some).
  assert (Hdat3 : b_data b3 <> None).
  { eapply core_inv_data; [exact Hinv3|exact Hb3|done]. }
  eapply runs_bind; [by eapply (fetch_weak bp b3)|]. intros st4 (Hw4 & Ho4 & Hcell4).
  apply runs_done. pose proof (core_inv_weak _ _ _ _ Hw4 Hinv3) as Hinv4. split_and!; [done|done| |].
  - destruct (weak_lookup _ _ _ _ Hw4 Hb3) as (b4 & Hb4 & Hcw4). exists b4. split; [done|].
    destruct (Hcell4 b3 Hb3) as (b4' & Hb4' & Hdirt). assert (b4' = b4) as -> by congruence.
    destruct Hcw4 as (_&_&_&En&Ec&_&Hd4&Ed). destruct Hcw1 as (_&_&_&_&Ec1&_).
    split_and!; [done|rewrite Ec; simpl; lia|done| |done].
    unfold has_data in Hd4. by destruct (b_data b3), (b_data b4).
  - intros i c Hi Hc. destruct (weak_lookup _ _ _ _ Hw1 Hc) as (c1 & Hc1 & Hcw).
    exists c1. split; [|by apply cell_weak_kept]. rewrite Ho4 by done. simpl.
    by rewrite list_lookup_insert_ne.
Qed.

Lemma miss_spec st l bp dev block mode :
  cache_inv st l -> can_flush st -> not_cached st dev block -> victim st l = Some bp ->
  dev <> NO_DEV -> 0 <= block < 2 ^ 32 -> search_mode mode ->
  runs (lmfs_get_block dev block mode st) (fun '(bp', st') => bp' = bp /\
    cache_inv st' (without bp l) /\
    (exists b', c_buf st' !! bp = Some b' /\ got dev block b') /\
    (forall i b, i <> bp -> c_buf st !! i = Some b -> exists b', c_buf st' !! i = Some b' /\ kept b b')).
Proof.
  intros Hinv Hmal Hno Hv Hdev Hblk Hmode. rewrite (get_block_miss_code _ _ _ _ l) by done.
  eapply runs_bind; [by apply detach_spec|]. intros [bp' st2] (-> & Hdt).
  pose proof Hdt as [Hinv2 (En & Ebs & _ & Ed) Hnames _ (b & Hb & Hdat & Hby & Hc0)].
  assert (Hsame : forall i c2, c_buf st2 !! i = Some c2 -> exists c, c_buf st !! i = Some c /\ same_name c c2).
  { intros i c2 Hc2. destruct (Forall2_lookup_r _ _ _ _ _ Hnames Hc2) as (c & ? & ?). eauto. }
  eapply runs_mono; [eapply (install_spec st2); try done|].
  - by rewrite Ebs.
  - unfold can_flush. by rewrite En, Ed.
  - intros i c2 _ Hc2. destruct (Hsame i c2 Hc2) as (c & Hc & -> & -> & _). by apply (Hno i).
  - intros [bp' st'] (-> & Hinv' & Hgot & Hkept). split_and!; try done.
    intros i c Hi Hc. destruct (Forall2_lookup_l _ _ _ _ _ Hnames Hc) as (c2 & Hc2 & Hsn).
    destruct (Hkept i c2 Hi Hc2) as (c' & Hc' & Hk). exists c'. split; [done|].
    destruct Hsn as (E1 & E2 & _ & E4 & _). unfold kept in *. destruct Hk as (?&?&[?|?]).
    + split_and!; try congruence. left; congruence.
    + split_and!; try congruence. right; congruence.
Qed.
End cache_miss.
