(* ===== verification/CacheView.v ===== *)
(** * What the cache shows of the disk

    On devices that complete their transfers, and without VM's second-level
    cache, the cache is transparent: [view], the block contents as a client sees
    them, is changed neither by getting a block (whatever is evicted) nor by
    releasing one, and a sync makes the disk equal to it. *)
From S2P Require Import Prelude DList Cache CacheInv CacheHash CacheIO CacheGet CacheMiss.
Local Open Scope Z_scope.

Section cache_view.
Context {world bd : Type} `{!MinixHdr} `{E : !MinixEnv world bd}.
Context (bs : Z) `{D : !ReliableDisk (world:=world) (bd:=bd) bs}.
Local Abbreviation cache := (cache world bd).
Local Abbreviation buf := (buf bd).
Implicit Types (st : cache) (b : buf) (bp i : nat) (l q : list nat) (m : list buf).

Hypothesis NR_IOREQS_pos : (0 < NR_IOREQS)%nat.

(** A device whose reads complete, and an allocator that does no I/O. *)
Class ReadableDisk := {
  read_hit : forall dev pos d w d', disk_at w dev pos = Some d' ->
    exists w', bdev_read dev pos d bs w = (bs, d', w') /\ disk_at w' = disk_at w;
  alloc_disk : forall n w, disk_at (alloc_contig n w).2 = disk_at w
}.

Definition named (dev n : Z) b : Prop := lmfs_dev b = dev /\ lmfs_blocknr b = n.

(** The contents of a block: those of its buffer, or else those on the disk. *)
Definition view st (dev n : Z) : option bd :=
  match list_find (named dev n) (c_buf st) with
  | Some (_, b) => b_data b
  | None => disk_at (c_world st) dev (n * bs)
  end.

(** Clean buffers hold what the disk holds. *)
Definition coherent st : Prop :=
  forall i b, c_buf st !! i = Some b -> lmfs_dev b <> NO_DEV -> lmfs_dirt b <> BP_DIRTY ->
    disk_at (c_world st) (lmfs_dev b) (lmfs_blocknr b * bs) = b_data b.

Lemma view_cached st dev n i b : unique_blocks (c_buf st) -> c_buf st !! i = Some b ->
  named dev n b -> dev <> NO_DEV -> view st dev n = b_data b.
Proof.
  intros Hu Hb [Hd Hn] Hdev. unfold view.
  destruct (list_find _ _) as [[j bj]|] eqn:Hf.
  - apply list_find_Some in Hf as (Hj & [Hdj Hnj] & _).
    assert (i = j) as -> by (eapply Hu; eauto; congruence). congruence.
  - apply list_find_None in Hf. rewrite Forall_forall in Hf.
    destruct (Hf b); [by eapply list_elem_of_lookup_2|done].
Qed.

Lemma view_uncached st dev n : not_cached st dev n -> view st dev n = disk_at (c_world st) dev (n * bs).
Proof.
  intros Hno. unfold view. destruct (list_find _ _) as [[j bj]|] eqn:Hf; [|done].
  apply list_find_Some in Hf as (Hj & Hnm & _). by destruct (Hno j bj Hj).
Qed.

Lemma view_cases st dev n : unique_blocks (c_buf st) -> dev <> NO_DEV ->
  (exists i b, c_buf st !! i = Some b /\ named dev n b /\ view st dev n = b_data b) \/
  (not_cached st dev n /\ view st dev n = disk_at (c_world st) dev (n * bs)).
Proof.
  intros Hu Hdev. destruct (list_find (named dev n) (c_buf st)) as [[j bj]|] eqn:Hf.
  - left. apply list_find_Some in Hf as (Hj & Hnm & _). exists j, bj.
    split_and!; [done|done|by eapply view_cached].
  - right. assert (Hno : not_cached st dev n).
    { intros i b Hb Hnm. apply list_find_None in Hf. rewrite Forall_forall in Hf.
      apply (Hf b); [by eapply list_elem_of_lookup_2|done]. }
    split; [done|by apply view_uncached].
Qed.

(** ** Steps that a client cannot see *)

Record unseen st st' : Prop := Unseen {
  un_coherent : coherent st -> coherent st';
  un_view : coherent st -> forall dev n, dev <> NO_DEV -> view st' dev n = view st dev n
}.

Lemma unseen_trans st1 st2 st3 : unseen st1 st2 -> unseen st2 st3 -> unseen st1 st3.
Proof.
  intros [H1c H1v] [H2c H2v]. split; [auto|]. intros Hc dev n Hd.
  rewrite H2v by auto. by apply H1v.
Qed.

(** The view of a state from its cells and its disk. *)
Lemma view_intro st st' : unique_blocks (c_buf st') ->
  (forall i b, c_buf st' !! i = Some b -> lmfs_dev b <> NO_DEV ->
     b_data b = view st (lmfs_dev b) (lmfs_blocknr b)) ->
  (forall dev n, dev <> NO_DEV -> not_cached st' dev n ->
     disk_at (c_world st') dev (n * bs) = view st dev n) ->
  forall dev n, dev <> NO_DEV -> view st' dev n = view st dev n.
Proof.
  intros Hu Hin Hout dev n Hd. destruct (view_cases st' dev n Hu Hd) as [(i & b & Hb & [<- <-] & ->)|[Hno ->]].
  - by eapply Hin.
  - by apply Hout.
Qed.

(** Cells keep their names and contents, the disk does not change. *)
Definition same_cells st st' : Prop :=
  disk_at (c_world st') = disk_at (c_world st) /\
  Forall2 (fun b b' => lmfs_dev b' = lmfs_dev b /\ lmfs_blocknr b' = lmfs_blocknr b /\
    lmfs_dirt b' = lmfs_dirt b /\ (lmfs_dev b <> NO_DEV -> b_data b' = b_data b))
    (c_buf st) (c_buf st').

Lemma same_cells_recount st st' bp b b' c :
  c_world st' = c_world st -> c_buf st !! bp = Some b -> c_buf st' !! bp = Some b' ->
  payload b' = payload (with_count c b) ->
  (forall i, i <> bp -> payload <$> c_buf st' !! i = payload <$> c_buf st !! i) ->
  same_cells st st'.
Proof.
  intros Hw Hb Hb' Hp Hother. split; [by rewrite Hw|]. apply Forall2_same_length_lookup_2.
  { apply same_domain_length. intros i. destruct (decide (i = bp)) as [->|Hi]; [rewrite Hb, Hb'; split; eauto|].
    specialize (Hother i Hi). destruct (c_buf st !! i), (c_buf st' !! i); try done; split; eauto. }
  intros i d d' Hd Hd'. destruct (decide (i = bp)) as [->|Hi].
  - assert (d' = b') as -> by congruence. assert (d = b) as -> by congruence.
    apply payload_fields in Hp. simpl in Hp. tauto.
  - specialize (Hother i Hi). rewrite Hd, Hd' in Hother. apply Some_inj, payload_fields in Hother. tauto.
Qed.

Lemma unseen_same_cells st st' : unique_blocks (c_buf st) -> same_cells st st' -> unseen st st'.
Proof.
  intros Hu [Hdisk Hcells].
  assert (Hback : forall i b', c_buf st' !! i = Some b' -> exists b, c_buf st !! i = Some b /\
    lmfs_dev b' = lmfs_dev b /\ lmfs_blocknr b' = lmfs_blocknr b /\
    lmfs_dirt b' = lmfs_dirt b /\ (lmfs_dev b <> NO_DEV -> b_data b' = b_data b)).
  { intros i b' Hb'. destruct (Forall2_lookup_r _ _ _ _ _ Hcells Hb') as (b & ? & ?). eauto. }
  split.
  - intros Hc i b' Hb' Hd Hdirt. destruct (Hback i b' Hb') as (b & Hb & Ed & En & Edt & Eda).
    rewrite Hdisk, Ed, En, Eda by congruence. apply (Hc i b); congruence.
  - intros Hc. apply view_intro.
    + intros i j bi bj Hi Hj Hd Hn Hne. destruct (Hback i bi Hi) as (ci & Hci & Edi & Eni & _).
      destruct (Hback j bj Hj) as (cj & Hcj & Edj & Enj & _). apply (Hu i j ci cj); congruence.
    + intros i b' Hb' Hd. destruct (Hback i b' Hb') as (b & Hb & Ed & En & _ & Eda).
      rewrite Ed, En, Eda by congruence. symmetry. eapply view_cached; eauto; [done|congruence].
    + intros dev n Hd Hno. rewrite Hdisk. symmetry. apply view_uncached. intros i b Hb [Hbd Hbn].
      destruct (Forall2_lookup_l _ _ _ _ _ Hcells Hb) as (b' & Hb' & Ed & En & _).
      apply (Hno i b' Hb'). split; congruence.
Qed.

(** A buffer that is not dirty loses its name. *)
Lemma unseen_drop st bp b : unique_blocks (c_buf st) -> c_buf st !! bp = Some b ->
  lmfs_dirt b <> BP_DIRTY ->
  unseen st (set_bufs (<[bp := with_dev NO_DEV b]> (c_buf st)) st).
Proof.
  intros Hu Hb Hdirt.
  assert (Hback : forall i b', <[bp := with_dev NO_DEV b]> (c_buf st) !! i = Some b' ->
    lmfs_dev b' <> NO_DEV -> c_buf st !! i = Some b' /\ i <> bp).
  { intros i b' Hb' Hd. destruct (decide (i = bp)) as [->|Hi].
    - rewrite list_lookup_insert_eq in Hb' by (by eapply lookup_lt_Some). by simplify_eq.
    - by rewrite list_lookup_insert_ne in Hb'. }
  split.
  - intros Hc i b' Hb' Hd Hdt. destruct (Hback i b' Hb' Hd) as [Hb0 _]. by apply (Hc i b').
  - intros Hc. apply view_intro.
    + intros i j bi bj Hi Hj Hd Hn Hne. destruct (Hback i bi Hi) as [Hi' _]; [done|].
      destruct (Hback j bj Hj) as [Hj' _]; [congruence|]. by apply (Hu i j bi bj).
    + intros i b' Hb' Hd. destruct (Hback i b' Hb' Hd) as [Hb0 _]. symmetry. by eapply view_cached.
    + intros dev n Hd Hno. simpl. destruct (view_cases st dev n Hu Hd) as [(i & b0 & Hb0 & Hnm & ->)|[_ ->]]; [|done].
      destruct Hnm as [<- <-]. destruct (decide (i = bp)) as [->|Hi].
      * assert (b0 = b) as -> by congruence. by apply (Hc bp).
      * destruct (Hno i b0); [|done]. simpl. by rewrite list_lookup_insert_ne.
Qed.

Lemma named_once st bp b (Hu : unique_blocks (c_buf st)) :
  c_buf st !! bp = Some b -> forall i c, c_buf st !! i = Some c -> lmfs_dev b <> NO_DEV ->
  named (lmfs_dev b) (lmfs_blocknr b) c -> i = bp.
Proof. intros Hb i c Hc Hd [Hcd Hcn]. apply (Hu i bp c b); congruence. Qed.

(** The dirty buffers of a device are written. *)
Lemma unseen_flush dev st st' :
  unique_blocks (c_buf st) -> dev <> NO_DEV -> 0 < bs ->
  c_buf st' = clean (dirty_queue dev st) (c_buf st) ->
  (forall i b, i ∈ dirty_queue dev st -> c_buf st !! i = Some b ->
     disk_at (c_world st') dev (lmfs_blocknr b * bs) = b_data b) ->
  (forall dev' pos', (dev' <> dev \/ forall i, i ∈ dirty_queue dev st -> pos' <> blocknr_of st i * bs) ->
     disk_at (c_world st') dev' pos' = disk_at (c_world st) dev' pos') ->
  unseen st st'.
Proof.
  intros Hu Hdev Hbs Ecells Hin Hout. set (q := dirty_queue dev st) in *.
  assert (Hback : forall i b', c_buf st' !! i = Some b' -> exists b, c_buf st !! i = Some b /\
    b' = if decide (i ∈ q) then with_dirt BP_CLEAN b else b).
  { intros i b'. rewrite Ecells, lookup_clean. destruct (c_buf st !! i) as [b|]; [|done].
    cbn. intros [= <-]. eauto. }
  assert (Hkeep : forall i b', c_buf st' !! i = Some b' -> exists b, c_buf st !! i = Some b /\
    lmfs_dev b' = lmfs_dev b /\ lmfs_blocknr b' = lmfs_blocknr b /\ b_data b' = b_data b).
  { intros i b' (b & Hb & ->)%Hback. exists b. by case_decide. }
  (* blocks that are not in the queue are on the disk as before *)
  assert (Hsame : forall dev' n, dev' <> NO_DEV ->
    (forall i b, i ∈ q -> c_buf st !! i = Some b -> ~ named dev' n b) ->
    disk_at (c_world st') dev' (n * bs) = disk_at (c_world st) dev' (n * bs)).
  { intros dev' n Hd Hnq. apply Hout. destruct (decide (dev' = dev)) as [->|]; [right|by left].
    intros i Hi Heq. pose proof Hi as (b & Hb & _ & Hbd)%elem_of_dirty_queue.
    rewrite (blocknr_of_Some _ _ _ Hb) in Heq. apply Z.mul_cancel_r in Heq; [|lia].
    by apply (Hnq i b). }
  split.
  - intros Hc i b' Hb' Hd Hdirt. destruct (Hback i b' Hb') as (b & Hb & ->).
    destruct (decide (i ∈ q)) as [Hq|Hq]; simpl in *.
    + pose proof Hq as (b0 & Hb0 & _ & Hbd)%elem_of_dirty_queue. assert (b0 = b) as -> by congruence.
      rewrite Hbd. by apply (Hin i).
    + rewrite Hsame; [by apply (Hc i)|done|]. intros j c Hj Hcj Hnm. destruct Hq.
      by rewrite <- (named_once st i b Hu Hb j c Hcj Hd Hnm).
  - intros Hc. apply view_intro.
    + intros i j bi bj Hi Hj Hd Hn Hne. destruct (Hkeep i bi Hi) as (ci & Hci & Edi & Eni & _).
      destruct (Hkeep j bj Hj) as (cj & Hcj & Edj & Enj & _). apply (Hu i j ci cj); congruence.
    + intros i b' Hb' Hd. destruct (Hkeep i b' Hb') as (b & Hb & Ed & En & ->).
      rewrite Ed, En. symmetry. eapply view_cached; [done|done|done|congruence].
    + intros dev' n Hd Hno.
      assert (Hno' : not_cached st dev' n).
      { intros i b Hb Hnm. apply (Hno i (if decide (i ∈ q) then with_dirt BP_CLEAN b else b)).
        - rewrite Ecells, lookup_clean, Hb. done.
        - by case_decide. }
      rewrite view_uncached by done. apply Hsame; [done|]. intros i b _ Hb. by apply (Hno' i b).
Qed.

(** A nameless buffer is named and filled from the disk. *)
Lemma unseen_load st st' bp b b' :
  unique_blocks (c_buf st) -> unique_blocks (c_buf st') ->
  c_buf st !! bp = Some b -> lmfs_dev b = NO_DEV -> c_buf st' = <[bp := b']> (c_buf st) ->
  disk_at (c_world st') = disk_at (c_world st) ->
  disk_at (c_world st) (lmfs_dev b') (lmfs_blocknr b' * bs) = b_data b' ->
  not_cached st (lmfs_dev b') (lmfs_blocknr b') ->
  unseen st st'.
Proof.
  intros Hu Hu' Hb Hbd Ecells Edisk Hdat Hno.
  assert (Hback : forall i c', c_buf st' !! i = Some c' ->
    (i = bp /\ c' = b') \/ (i <> bp /\ c_buf st !! i = Some c')).
  { intros i c'. rewrite Ecells. destruct (decide (i = bp)) as [->|Hi].
    - rewrite list_lookup_insert_eq by (by eapply lookup_lt_Some). intros [= ->]. by left.
    - rewrite list_lookup_insert_ne by done. by right. }
  split.
  - intros Hc i c' Hc' Hd Hdirt. rewrite Edisk.
    destruct (Hback i c' Hc') as [[-> ->]|[Hi Hc0]]; [done|by apply (Hc i)].
  - intros Hc. apply view_intro; [done| |].
    + intros i c' Hc' Hd. destruct (Hback i c' Hc') as [[-> ->]|[Hi Hc0]].
      * rewrite view_uncached by done. by rewrite Hdat.
      * symmetry. by eapply view_cached.
    + intros dev n Hd Hno'. rewrite Edisk. symmetry. apply view_uncached.
      intros i c Hci [Hcd Hcn]. apply (Hno' i c); [|done]. rewrite Ecells.
      rewrite list_lookup_insert_ne; [done|]. intros <-. congruence.
Qed.

Lemma read_block_hit `{R : !ReadableDisk} bp b st d :
  c_buf st !! bp = Some b -> b_data b <> None -> lmfs_dev b <> NO_DEV ->
  fs_block_size st = bs -> 0 < bs ->
  disk_at (c_world st) (lmfs_dev b) (lmfs_blocknr b * bs) = Some d ->
  exists w', disk_at w' = disk_at (c_world st) /\
    read_block bp st = Done (set_bufs (<[bp := with_data (Some d) (lmfs_bytes b) b]> (c_buf st)) (set_world w' st)).
Proof.
  intros Hb Hd Hdev Ebs Hbs Hdisk. unfold read_block. rewrite (getb_done _ _ b) by done. cbn [mbind exec_bind].
  rewrite assertC_true by done. cbn [mbind exec_bind].
  destruct (b_data b) as [d0|]; [|done]. cbn [deref mbind exec_bind].
  rewrite Ebs, mul64u_spec. destruct (read_hit _ _ d0 _ _ Hdisk) as (w' & -> & Hw').
  exists w'. split; [done|]. rewrite (updb_done _ _ _ b) by done. cbn [mbind exec_bind].
  rewrite decide_False by lia. rewrite decide_False by (simpl; lia). done.
Qed.

(** ** Getting a block *)

Lemma evict_unseen bp b st l ex :
  core_inv st l ex -> c_buf st !! bp = Some b -> lmfs_bytes b = fs_block_size st ->
  fs_block_size st = bs -> can_flush st ->
  runs (evict bp st) (fun '(yid, st') => unseen st st' /\ weak_step st st' /\
    exists b', c_buf st' !! bp = Some b' /\ cell_weak b b' /\ lmfs_dev b' = NO_DEV).
Proof.
  intros Hinv Hb Hby Ebs Hmal.
  destruct (evict_spec bp b st l ex Hinv Hb Hby Hmal) as ([y st'] & Est' & Hw & Hb').
  exists (y, st'). split; [done|]. split; [|done]. revert Est'. unfold evict.
  pose proof (ci_unique _ _ _ Hinv) as Hu. pose proof (ci_bs _ _ _ Hinv) as Hbs.
  rewrite (getb_done _ _ b) by done. cbn [mbind exec_bind]. case_decide as Hd; [|by intros [= <- <-]].
  assert (Hflush : runs (if decide (lmfs_dirt b = BP_DIRTY) then flushall (lmfs_dev b) st else Done st)
    (fun st1 => unseen st st1 /\ weak_step st st1 /\
       forall b1, c_buf st1 !! bp = Some b1 -> lmfs_dirt b1 <> BP_DIRTY)).
  { case_decide as Hdirt.
    - eapply runs_mono; [eapply (flushall_all bs NR_IOREQS_pos _ l); try done; by apply can_flush_now|].
      intros st1 (w' & Ecells & Ew & Hw1 & Hin & Hout). subst w'. split_and!; [|done|].
      + eapply (unseen_flush (lmfs_dev b)); try done; lia.
      + intros b1. rewrite Ecells, (lookup_clean_in _ _ _ b); [intros [= <-]; done|done|].
        apply elem_of_dirty_queue. eauto.
    - apply runs_done. split_and!; [by split|apply weak_step_refl|]. intros b1 Hb1. congruence. }
  destruct Hflush as (st1 & -> & Hun & Hw1 & Hclean). cbn [mbind exec_bind].
  destruct (weak_lookup _ _ _ _ Hw1 Hb) as (b1 & Hb1 & Hc1).
  rewrite (getb_done _ _ b1) by done. cbn [mbind exec_bind].
  rewrite assertC_true by (destruct Hc1 as (_&_&_&_&_&->&_); by rewrite (ws_bs _ _ Hw1)).
  cbn [mbind exec_bind]. rewrite (updb_done _ _ _ b1) by done. cbn [mbind exec_bind].
  intros [= _ <-]. eapply unseen_trans; [exact Hun|]. apply unseen_drop; [|done|by apply Hclean].
  apply (ci_unique _ _ _ (core_inv_weak _ _ _ _ Hw1 Hinv)).
Qed.

Lemma detached_unseen `{R : !ReadableDisk} st l bp st2 : cache_inv st l -> detached st l bp st2 -> unseen st st2.
Proof.
  intros Hinv [_ _ Hnames Hworld _]. apply unseen_same_cells; [apply (ci_unique _ _ _ Hinv)|]. split.
  - destruct Hworld as [->| ->]; [done|apply alloc_disk].
  - apply Forall2_same_length_lookup_2; [by rewrite (Forall2_length _ _ _ Hnames)|].
    intros i b b' Hb Hb'. destruct (Forall2_lookup_l _ _ _ _ _ Hnames Hb) as (b2 & Hb2 & Hsn).
    assert (b2 = b') as -> by congruence. destruct Hsn as (En & Ed & Edt & _ & Eda).
    split_and!; try done. intros Hd. apply Eda. by eapply (core_inv_data _ _ _ Hinv).
Qed.

Definition holds st bp dev block (o : option bd) : Prop :=
  exists b, c_buf st !! bp = Some b /\ named dev block b /\ b_data b = o /\ 0 < lmfs_count b.

Lemma install_unseen `{R : !ReadableDisk} st l bp b dev block :
  NORMAL <> PREFETCH ->
  core_inv st l (Some bp) -> c_buf st !! bp = Some b -> b_data b <> None ->
  lmfs_bytes b = fs_block_size st -> lmfs_count b = 0 -> can_flush st -> fs_block_size st = bs ->
  vmcache st = false -> dev <> NO_DEV -> 0 <= block < 2 ^ 32 -> not_cached st dev block ->
  coherent st -> view st dev block <> None ->
  runs (install bp dev block NORMAL st) (fun '(bp', st') =>
    unseen st st' /\ holds st' bp' dev block (view st dev block)).
Proof.
  intros Hmode Hinv Hb Hdat Hby Hc0 Hmal Ebs Hvm Hdev Hblk Hno Hcoh Hview. unfold install.
  eapply runs_bind; [by eapply evict_unseen|]. intros [y st1] (Hun1 & Hw1 & b1 & Hb1 & Hcw1 & Hd1).
  pose proof (core_inv_weak _ _ _ _ Hw1 Hinv) as Hinv1.
  assert (Hno1 : not_cached st1 dev block).
  { intros i c' Hc' [Hcd Hcn]. destruct (weak_lookup_r _ _ _ _ Hw1 Hc') as (c & Hc & Hcw).
    destruct Hcw as (_&_&_&En&_&_&_&Ed). apply (Hno i c Hc). destruct Ed; split; congruence. }
  assert (Hdat1 : b_data b1 <> None).
  { destruct Hcw1 as (_&_&_&_&_&_&Hhd&_). unfold has_data in Hhd. by destruct (b_data b), (b_data b1). }
  rewrite <- (un_view _ _ Hun1) in Hview |- * by done.
  rewrite view_uncached in Hview |- * by done.
  destruct (disk_at (c_world st1) dev (block * bs)) as [d|] eqn:Hdisk; [|done].
  destruct (rename_spec bp dev block b1 l st1) as (h & Hh & Hren); try done.
  { intros i c' _ Hc'. by apply (Hno1 i). }
  eapply runs_bind; [exact Hren|]. intros st3 (Hinv3 & Est3).
  set (b3 := renamed dev block h b1) in *.
  assert (Hb3 : c_buf st3 !! bp = Some b3).
  { rewrite Est3. apply list_lookup_insert_eq. by eapply lookup_lt_Some. }
  assert (Ebs3 : fs_block_size st3 = bs) by (rewrite Est3; simpl; rewrite (ws_bs _ _ Hw1); done).
  assert (Hdat3 : b_data b3 <> None) by done.
  unfold fetch. rewrite decide_False by (rewrite Est3; simpl; rewrite (ws_vm _ _ Hw1), Hvm; by intros [_ ?]).
  cbn [mbind exec_bind]. rewrite decide_False by done. rewrite decide_True by done.
  destruct (read_block_hit bp b3 st3 d) as (w' & Hw' & ->); try done.
  { rewrite <- Ebs. apply (ci_bs _ _ _ Hinv). }
  { rewrite Est3. done. }
  cbn [mbind exec_bind]. apply runs_done.
  set (b4 := with_data (Some d) (lmfs_bytes b3) b3).
  set (st4 := set_bufs (<[bp := b4]> (c_buf st3)) (set_world w' st3)).
  assert (Ec4 : c_buf st4 = <[bp := b4]> (c_buf st1)).
  { simpl. rewrite Est3. simpl. apply list_insert_insert_eq. }
  split.
  - eapply unseen_trans; [exact Hun1|].
    apply (unseen_load st1 st4 bp b1 b4); try done.
    + apply (ci_unique _ _ _ Hinv1).
    + assert (Hcw4 : cell_weak b3 b4) by (by apply cell_weak_data).
      destruct (updb_weak bp (fun _ => b4) (set_world w' st3) b3 Hb3 Hcw4) as (st5 & E5 & Hw5 & _).
      rewrite (updb_done _ _ _ b3) in E5 by done. injection E5 as <-.
      apply (ci_unique _ _ _ (core_inv_weak _ _ _ _ Hw5 (core_inv_weak _ _ _ _ (weak_world st3 w') Hinv3))).
    + simpl. rewrite Hw', Est3. done.
  - exists b4. split_and!; [|done|done|].
    + rewrite Ec4. apply list_lookup_insert_eq. by eapply lookup_lt_Some.
    + destruct Hcw1 as (_&_&_&_&Ec&_). simpl. lia.
Qed.

(** ** Syncing *)

Lemma flushall_unseen dev l st :
  cache_inv st l -> fs_block_size st = bs -> dev <> NO_DEV -> can_flush st ->
  runs (flushall dev st) (fun st' => unseen st st' /\ weak_step st st' /\
    c_buf st' = clean (dirty_queue dev st) (c_buf st)).
Proof.
  intros Hinv Ebs Hdev Hmal. pose proof (ci_bs _ _ _ Hinv) as Hbs.
  eapply runs_mono; [eapply (flushall_all bs NR_IOREQS_pos _ l); try done; by apply can_flush_now|].
  intros st1 (w' & Ecells & Ew & Hw1 & Hin & Hout). subst w'. split_and!; [|done|done].
  apply (unseen_flush dev); try done; [apply (ci_unique _ _ _ Hinv)|lia].
Qed.

Definition settled b : Prop := lmfs_dev b <> NO_DEV -> lmfs_dirt b <> BP_DIRTY.

Definition sync_step st i : exec cache :=
  b ← getb st i;
  if decide (lmfs_dev b <> NO_DEV /\ lmfs_dirt b = BP_DIRTY) then flushall (lmfs_dev b) st else Done st.

(** What one or more steps of the sync loop keep. *)
Definition synced st st' : Prop :=
  unseen st st' /\ weak_step st st' /\
  forall i b b', c_buf st !! i = Some b -> c_buf st' !! i = Some b' -> settled b -> settled b'.

Lemma synced_refl st : synced st st.
Proof.
  split_and!; [by split|apply weak_step_refl|]. intros i b b' Hb Hb'. by simplify_eq.
Qed.

Lemma synced_trans st1 st2 st3 : synced st1 st2 -> synced st2 st3 -> synced st1 st3.
Proof.
  intros (Hu & Hw & Hs) (Hu' & Hw' & Hs').
  split_and!; [by eapply unseen_trans|by eapply weak_step_trans|].
  intros i b b3 Hb Hb3. destruct (weak_lookup _ _ _ _ Hw Hb) as (b2 & Hb2 & _). eauto.
Qed.

Lemma sync_step_spec l i b st :
  cache_inv st l -> fs_block_size st = bs -> can_flush st -> c_buf st !! i = Some b ->
  runs (sync_step st i) (fun st' => synced st st' /\
    forall b', c_buf st' !! i = Some b' -> settled b').
Proof.
  intros Hinv Ebs Hmal Hb. unfold sync_step. rewrite (getb_done _ _ b) by done. cbn [mbind exec_bind].
  case_decide as Hd.
  - eapply runs_mono; [apply (flushall_unseen _ l); try done; tauto|]. intros st1 (Hu & Hw & Ec). split; [split_and!; [done|done|]|].
    + intros j c c'. rewrite Ec, lookup_clean. intros Hc. rewrite Hc. cbn. intros [= <-].
      case_decide; [done|done].
    + intros b'. rewrite Ec, (lookup_clean_in _ _ _ b); [by intros [= <-]|done|].
      apply elem_of_dirty_queue. naive_solver.
  - apply runs_done. split; [apply synced_refl|]. intros b' Hb'. assert (b' = b) as -> by congruence.
    intros Hdev Hdirt. tauto.
Qed.

Lemma sync_loop_spec l js st :
  cache_inv st l -> fs_block_size st = bs -> (forall (k : Z) w, (malloc k w).1 = true) ->
  (forall i, i ∈ js -> is_Some (c_buf st !! i)) ->
  runs (fold_left (fun (acc : exec cache) i => st ← acc; sync_step st i) js (Done st)) (fun st' => synced st st' /\
    forall i b', i ∈ js -> c_buf st' !! i = Some b' -> settled b').
Proof.
  intros Hinv Ebs Hmal. revert st Hinv Ebs. induction js as [|i js IH]; intros st Hinv Ebs His; cbn [fold_left].
  - apply runs_done. split; [apply synced_refl|]. by intros ? ? ?%elem_of_nil.
  - destruct (His i) as [b Hb]; [set_solver|].
    destruct (sync_step_spec l i b st Hinv Ebs (or_intror (Hmal _)) Hb) as (st1 & E1 & Hs1 & Hi).
    cbn [mbind exec_bind]. rewrite E1. pose proof Hs1 as (_ & Hw1 & _).
    eapply runs_mono.
    + apply (IH st1); [by eapply core_inv_weak|by rewrite (ws_bs _ _ Hw1)|].
      intros j Hj. destruct (His j) as [c Hc]; [set_solver|].
      destruct (weak_lookup _ _ _ _ Hw1 Hc) as (c' & ? & _). eauto.
    + intros st2 [Hs2 Hrest]. split; [by eapply synced_trans|]. intros j b' [->|Hj]%elem_of_cons Hb'; [|eauto].
      destruct Hs2 as (_ & Hw2 & Hset). destruct (weak_lookup_r _ _ _ _ Hw2 Hb') as (c & Hc & _). eauto.
Qed.

Lemma lmfs_flushall_spec l st :
  cache_inv st l -> fs_block_size st = bs -> (forall (k : Z) w, (malloc k w).1 = true) ->
  runs (lmfs_flushall st) (fun st' => unseen st st' /\ cache_inv st' l /\
    forall i b, c_buf st' !! i = Some b -> settled b).
Proof.
  intros Hinv Ebs Hmal. eapply runs_mono.
  - apply (sync_loop_spec l); try done. intros i Hi%elem_of_seq. apply lookup_lt_is_Some. lia.
  - intros st' [(Hu & Hw & _) Hset]. split_and!; [done|by eapply core_inv_weak|].
    intros i b Hb. destruct (weak_lookup_r _ _ _ _ Hw Hb) as (c & Hc & _).
    apply (Hset i); [|done]. apply elem_of_seq. apply lookup_lt_Some in Hc. lia.
Qed.

(** The disk of a coherent state without dirty buffers js the view. *)
Lemma settled_disk st dev n : unique_blocks (c_buf st) -> coherent st -> dev <> NO_DEV ->
  (forall i b, c_buf st !! i = Some b -> settled b) ->
  disk_at (c_world st) dev (n * bs) = view st dev n.
Proof.
  intros Hu Hc Hd Hset. destruct (view_cases st dev n Hu Hd) as [(i & b & Hb & [<- <-] & ->)|[_ ->]]; [|done].
  apply (Hc i b); [done|done|by apply (Hset i b)].
Qed.

(** Releasing a block is not seen. *)
Lemma put_block_unseen bp b block_type st l :
  cache_inv st l -> c_buf st !! bp = Some b -> 0 < lmfs_count b ->
  runs (lmfs_put_block (Some bp) block_type st) (unseen st).
Proof.
  intros Hinv Hb Hpos. eapply runs_mono; [by apply put_block_spec|].
  intros st' (Hinv' & Hother & (b' & Hb' & Hp) & Hw).
  apply unseen_same_cells; [apply (ci_unique _ _ _ Hinv)|]. by eapply same_cells_recount.
Qed.
End cache_view.
