(* ===== verification/CachePool.v ===== *)
(** * The buffer pool and its size

    [lmfs_buf_pool] establishes the invariant; [cache_resize] and
    [lmfs_set_blocksize] re-establish it with the new block size. *)
From S2P Require Import Prelude DList Cache CacheInv.
Local Open Scope Z_scope.

Section cache_pool.
Context {world bd : Type} `{!MinixHdr} `{E : !MinixEnv world bd}.
Local Abbreviation cache := (cache world bd).
Local Abbreviation buf := (buf bd).
Implicit Types (st : cache) (b : buf) (bp i n : nat) (l : list nat) (m : list buf).

(** *** The linked array *)

Definition pool_buf n i : buf :=
  let nx := if decide (S i < n)%nat then Some (S i) else None in
  Buf nx (if decide (i = 0)%nat then None else Some (i - 1)%nat) nx NO_BLOCK NO_DEV 0 0 0 None.

Lemma lookup_pool n i : (i < n)%nat -> (pool_buf n <$> seq 0 n) !! i = Some (pool_buf n i).
Proof. intros Hi. by rewrite list_lookup_fmap, lookup_seq_lt. Qed.

Lemma lookup_pool_inv n i b : (pool_buf n <$> seq 0 n) !! i = Some b -> (i < n)%nat /\ b = pool_buf n i.
Proof.
  intros Hb. apply lookup_lt_Some in Hb as Hlt. rewrite length_fmap, length_seq in Hlt.
  split; [done|]. rewrite lookup_pool in Hb by done. by simplify_eq.
Qed.

Lemma pool_head i k n : (i + k = n)%nat ->
  head_or None (seq i k) = if decide (i < n)%nat then Some i else None.
Proof. intros <-. destruct k; simpl; case_decide; done || lia. Qed.

Lemma pool_dseg n i k : (i + k = n)%nat ->
  dseg (pool_buf n <$> seq 0 n) (if decide (i = 0)%nat then None else Some (i - 1)%nat) (seq i k) None.
Proof.
  revert i. induction k as [|k IH]; intros i Hi; [done|]. cbn [seq dseg].
  exists (pool_buf n i). split_and!; [apply lookup_pool; lia|done| |].
  - simpl. by rewrite (pool_head (S i) k n) by lia.
  - specialize (IH (S i) ltac:(lia)). replace (S i - 1)%nat with i in IH by lia. done.
Qed.

Lemma pool_last i k : last_or None (seq i (S k)) = Some (i + k)%nat.
Proof. rewrite seq_S. apply last_or_last. Qed.

Lemma pool_chain n : (0 < n)%nat ->
  dchain (pool_buf n <$> seq 0 n) (Some 0%nat) (Some (n - 1)%nat) (seq 0 n).
Proof.
  intros Hn. destruct n as [|n]; [lia|]. split_and!; [apply NoDup_seq|done| |].
  - rewrite pool_last. f_equal. lia.
  - by apply (pool_dseg (S n) 0).
Qed.

Lemma pool_hseg n i k : (i + k = n)%nat ->
  hseg (pool_buf n <$> seq 0 n) (if decide (i < n)%nat then Some i else None) (seq i k) None.
Proof.
  revert i. induction k as [|k IH]; intros i Hi; cbn [seq hseg].
  - by rewrite decide_False by lia.
  - rewrite decide_True by lia. split; [done|]. exists (pool_buf n i).
    split; [apply lookup_pool; lia|]. apply IH. lia.
Qed.

Lemma pool_inv n st :
  NO_BLOCK = 0 -> nr_bufs st = Z.of_nat n -> (0 < n)%nat -> Z.of_nat n < 2 ^ 32 -> 0 < fs_block_size st ->
  c_buf st = pool_buf n <$> seq 0 n -> buf_hash st = <[0%nat := Some 0%nat]> (replicate n None) ->
  front st = Some 0%nat -> rear st = Some (n - 1)%nat -> bufs_in_use st = 0 ->
  cache_inv st (seq 0 n).
Proof.
  intros Hnb En Hn Hn2 Hbs Ec Eh Ef Er Eu.
  split; rewrite ?Ec, ?Eh, ?Ef, ?Er, ?Eu, ?En, ?length_seq; try lia.
  - rewrite length_fmap, length_seq. lia.
  - by apply pool_chain.
  - split; [rewrite length_insert, length_replicate; lia|]. intros k c Hk.
    destruct (decide (k = 0%nat)) as [->|Hk0].
    + rewrite list_lookup_insert_eq in Hk by (rewrite length_replicate; lia). injection Hk as <-.
      exists (seq 0 n). split_and!; [|apply NoDup_seq|].
      * pose proof (pool_hseg n 0 n eq_refl) as Hs. by rewrite decide_True in Hs by lia.
      * intros i. rewrite elem_of_seq. split.
        -- intros Hi. split; [done|]. exists (pool_buf n i). split; [apply lookup_pool; lia|].
           unfold bucket. simpl. by rewrite Hnb, Zmod_0_l.
        -- intros [_ (b & Hb & _)]. apply lookup_pool_inv in Hb. lia.
    + rewrite list_lookup_insert_ne in Hk by done. apply lookup_replicate in Hk as [-> _].
      exists []. split_and!; [done|constructor|]. intros i. split; [by intros ?%elem_of_nil|].
      intros [_ (b & Hb & Hbk)]. apply lookup_pool_inv in Hb as [_ ->].
      unfold bucket in Hbk. simpl in Hbk. rewrite Hnb, Zmod_0_l in Hbk. lia.
  - intros i b Hb. apply lookup_pool_inv in Hb as [Hi ->].
    unfold cell_ok, mem_ok. simpl. split_and!; try lia.
    + by left.
    + rewrite elem_of_seq. lia.
  - intros i j bi bj Hi. apply lookup_pool_inv in Hi as [_ ->]. simpl. done.
Qed.

(** *** [lmfs_buf_pool] *)

Section pool.
Context (fs_sync : cache -> exec cache).

(** The allocator finds room for the two arrays. *)
Hypothesis malloc_ok : forall (k : Z) w, (malloc k w).1 = true.
Hypothesis NO_BLOCK_0 : NO_BLOCK = 0.

Lemma free_buffers_done st :
  0 < fs_block_size st -> (forall b, b ∈ c_buf st -> mem_ok (fs_block_size st) b) ->
  exists w, free_buffers st = Done (set_world w st).
Proof.
  intros Hbs Hm. unfold free_buffers. revert Hm. generalize (c_world st). 
  induction (c_buf st) as [|b m IH]; intros w Hm.
  - exists w. done.
  - assert (Hb : mem_ok (fs_block_size st) b) by (apply Hm; set_solver).
    cbn [foldl mbind exec_bind].
    destruct (b_data b) as [d|] eqn:Hd.
    + rewrite assertC_true by (destruct Hb as [[_ ?]|[-> _]]; [congruence|lia]). cbn [mbind exec_bind].
      apply IH. set_solver.
    + apply IH. set_solver.
Qed.

(** The three loops over the new array leave [pool_buf] cells. *)
Lemma pool_cells n : (0 < n)%nat ->
  (fun b => with_hash (lmfs_next b) b) <$>
    <[(n - 1)%nat := with_next None (if decide (n = 1)%nat then with_prev None (pool_cell 0) else pool_cell (n - 1))]>
      (<[0%nat := with_prev None (pool_cell 0)]> (pool_cell <$> seq 0 n))
  = (pool_buf n <$> seq 0 n : list buf).
Proof.
  intros Hn. apply list_eq. intros i. destruct (decide (i < n)%nat) as [Hi|Hi].
  - rewrite lookup_pool by done. rewrite list_lookup_fmap.
    destruct (decide (i = n - 1)%nat) as [->|Hi1].
    + rewrite list_lookup_insert_eq by (rewrite length_insert, length_fmap, length_seq; lia).
      destruct (decide (n = 1)%nat) as [->|]; [done|].
      simpl. unfold pool_buf, pool_cell. rewrite decide_False by lia. by rewrite decide_False by lia.
    + rewrite list_lookup_insert_ne by done. destruct (decide (i = 0)%nat) as [->|Hi0].
      * rewrite list_lookup_insert_eq by (rewrite length_fmap, length_seq; lia). simpl.
        unfold pool_buf. rewrite decide_True by lia. done.
      * rewrite list_lookup_insert_ne by done. rewrite list_lookup_fmap, lookup_seq_lt by done. simpl.
        unfold pool_buf, pool_cell. rewrite decide_True by lia. by rewrite decide_False.
  - rewrite !lookup_ge_None_2; [done|rewrite ?length_fmap, ?length_insert, ?length_fmap, ?length_seq; lia..].
Qed.

Lemma fresh_pool_code n st : (0 < n)%nat ->
  c_buf st = pool_cell <$> seq 0 n ->
  runs (st ← updb 0 (with_prev None) st; updb (n - 1) (with_next None) st) (fun st' =>
    exists m, st' = set_bufs m st /\
      (fun b => with_hash (lmfs_next b) b) <$> m = (pool_buf n <$> seq 0 n : list buf)).
Proof.
  intros Hn Ec. assert (Hlen : length (c_buf st) = n) by (rewrite Ec, length_fmap, length_seq; done).
  assert (H0 : c_buf st !! 0%nat = Some (pool_cell 0)).
  { rewrite Ec, list_lookup_fmap, lookup_seq_lt by done. done. }
  rewrite (updb_done _ _ _ (pool_cell 0)) by done. cbn [mbind exec_bind].
  set (last := (if decide (n = 1)%nat then with_prev None (pool_cell 0) else pool_cell (n - 1)) : buf).
  erewrite (updb_done (n - 1) _ _ last).
  - apply runs_done. exists (<[(n - 1)%nat := with_next None last]>
      (<[0%nat := with_prev None (pool_cell 0)]> (pool_cell <$> seq 0 n))).
    split; [simpl; rewrite Ec; done|]. by apply pool_cells.
  - simpl. unfold last. case_decide as H1.
    + replace (n - 1)%nat with 0%nat by lia. apply list_lookup_insert_eq. lia.
    + rewrite list_lookup_insert_ne by lia. rewrite Ec, list_lookup_fmap, lookup_seq_lt by lia. done.
Qed.

(** The file system's [fs_sync] leaves a state with the invariant. *)
Definition sync_ok st : Prop :=
  runs (fs_sync st) (fun st' => (forall b, b ∈ c_buf st' -> mem_ok (fs_block_size st') b) /\
    fs_block_size st' = fs_block_size st).

(** The pool that replaces the old one, whose settings it keeps. *)
Definition new_pool new_nr st st' : Prop :=
  cache_inv st' (seq 0 (Z.to_nat new_nr)) /\ nr_bufs st' = new_nr /\
  fs_block_size st' = fs_block_size st /\ c_buf st' = pool_buf (Z.to_nat new_nr) <$> seq 0 (Z.to_nat new_nr).

Lemma buf_pool_spec new_nr st :
  MINBUFS <= new_nr < 2 ^ 32 -> 0 < fs_block_size st -> (0 < nr_bufs st -> sync_ok st) ->
  runs (lmfs_buf_pool fs_sync new_nr st) (new_pool new_nr st).
Proof.
  intros Hnr Hbs Hsync. unfold MINBUFS in Hnr. unfold lmfs_buf_pool.
  rewrite assertC_true by (unfold MINBUFS; lia). cbn [mbind exec_bind].
  eapply (runs_bind _ _ (fun st1 => fs_block_size st1 = fs_block_size st)).
  { case_decide as Hold; [|by apply runs_done].
    eapply runs_bind; [apply Hsync; lia|]. intros st1 [Hm Ebs].
    destruct (free_buffers_done st1) as (w & ->); [lia|done|]. by apply runs_done. }
  intros st1 Ebs1. cbv zeta.
  destruct (malloc new_nr (c_world st1)) as [ok1 w1] eqn:Hm1.
  destruct (malloc new_nr w1) as [ok2 w2] eqn:Hm2.
  assert (ok1 = true) as -> by (rewrite <- (malloc_ok new_nr (c_world st1)), Hm1; done).
  assert (ok2 = true) as -> by (rewrite <- (malloc_ok new_nr w1), Hm2; done).
  cbn [andb negb].
  set (n := Z.to_nat new_nr).
  match goal with |- context [updb 0 _ ?s] => set (st2 := s) end.
  destruct (fresh_pool_code n st2) as (st3 & E3 & m & -> & Em); [lia|done|].
  destruct (updb 0 (with_prev None) st2) as [st2'|]; [|done]. cbn [mbind exec_bind] in E3 |- *.
  rewrite E3. cbn [mbind exec_bind]. apply runs_done.
  change (c_buf (set_bufs m st2)) with m. rewrite Em.
  split_and!; [|done|done|done].
  apply pool_inv; simpl; try done; lia.
Qed.

Lemma pool_resize n z st l : 0 < z -> c_buf st = pool_buf n <$> seq 0 n ->
  cache_inv st l -> cache_inv (set_block_size z st) l.
Proof.
  intros Hz Ec [? ? ? ? ? Hcells ? ?]. split; try done. intros i b Hb.
  specialize (Hcells i b Hb). simpl in Hb. rewrite Ec in Hb. apply lookup_pool_inv in Hb as [_ ->].
  destruct Hcells as (?&_&?&?&?). split_and!; try (done || tauto). by left.
Qed.

Lemma cache_resize_spec blocksize bufs st :
  0 < blocksize -> MINBUFS <= bufs < 2 ^ 32 -> 0 < fs_block_size st ->
  (forall b, b ∈ c_buf st -> lmfs_count b = 0) -> (0 < nr_bufs st -> sync_ok st) ->
  runs (cache_resize fs_sync blocksize bufs st) (new_pool bufs (set_block_size blocksize st)).
Proof.
  intros Hz Hn Hbs Hfree Hsync. unfold cache_resize. rewrite !assertC_true by lia. cbn [mbind exec_bind].
  rewrite decide_True by (apply Forall_forall; exact Hfree).
  eapply runs_bind; [by apply buf_pool_spec|]. intros st1 (Hinv & En & Ebs & Ec). apply runs_done.
  split_and!; [|done|done|done]. by eapply pool_resize.
Qed.

(** *** The size heuristic *)

Lemma i32_wrapped x : 0 <= x < 2 ^ 31 -> i32 (u32 x) = x.
Proof. intros Hx. rewrite u32_small, i32_small; lia. Qed.

Lemma u32_le x : 0 <= x -> u32 x <= x.
Proof. intros Hx. apply Z.mod_le; [done|lia]. Qed.

(** The kilobytes of memory that remain, and those of the file system. *)
Definition kb_remaining (w : world) : Z :=
  let '(_, vsi_free, vsi_pagesize, _) := vm_info_stats w in u32 (div64u (mul64u vsi_free vsi_pagesize) 1024).
Definition kb_total (btotal blocksize : Z) : Z := u32 (div64u (mul64u btotal blocksize) 1024).

Definition sensible_size (minbufs btotal blocksize : Z) (w : world) (bufs : Z) : Prop :=
  bufs = minbufs \/ bufs = 1024 \/
  (minbufs < bufs < 2 ^ 31 /\ bufs * blocksize <= kb_remaining w / 10 * 1024 /\
     bufs * blocksize <= kb_total btotal blocksize / 2 * 1024).

Lemma heuristic_spec minbufs btotal bfree blocksize major w :
  0 <= minbufs < 2 ^ 31 -> 0 < blocksize < 2 ^ 31 ->
  runs (fs_bufs_heuristic minbufs btotal bfree blocksize major w) (fun '(bufs, _) =>
    0 <= bufs < 2 ^ 31 /\ sensible_size minbufs btotal blocksize w bufs).
Proof.
  intros Hmin Hbl. unfold fs_bufs_heuristic, sensible_size, kb_remaining, kb_total. cbv zeta.
  case_decide as Hmaj.
  { apply runs_done. rewrite u32_small by lia. split; [lia|by left]. }
  destruct (vm_info_stats w) as [[[r fr] pg] w']. case_decide as Hr.
  { apply runs_done. split; [lia|]. by right; left. }
  rewrite decide_False by (rewrite u32_small; lia). apply runs_done.
  rewrite (u32_small blocksize) by lia.
  set (remain := u32 (div64u (mul64u fr pg) 1024)).
  set (total := u32 (div64u (mul64u btotal blocksize) 1024)).
  set (want := u32 (sqrt_approx _ * 40)).
  assert (0 <= remain < 2 ^ 32) by apply u32_range.
  assert (0 <= total < 2 ^ 32) by apply u32_range.
  assert (0 <= want < 2 ^ 32) by apply u32_range.
  set (kb := Z.min (remain / 10) (Z.min want (total / 2))).
  assert (Hkb : 0 <= kb).
  { unfold kb. pose proof (Z.div_pos remain 10). pose proof (Z.div_pos total 2). lia. }
  pose proof (u32_le (kb * 1024) ltac:(lia)) as Hle. pose proof (u32_range (kb * 1024)) as Hrg.
  set (q := u32 (kb * 1024) / blocksize).
  assert (Hq : q * blocksize <= kb * 1024).
  { pose proof (Z.mul_div_le (u32 (kb * 1024)) blocksize). unfold q. lia. }
  assert (Hq0 : 0 <= q < 2 ^ 32).
  { unfold q. split; [apply Z.div_pos; lia|]. apply Z.div_lt_upper_bound; nia. }
  pose proof (i32_range q) as Hi.
  assert (Hiq : i32 q <= q).
  { unfold i32. pose proof (Z.mod_le (q + 2 ^ 31) (2 ^ 32)). lia. }
  set (bufs := if decide (i32 q < minbufs) then minbufs else i32 q).
  assert (Hb : minbufs <= bufs < 2 ^ 31) by (unfold bufs; case_decide; lia).
  rewrite u32_small by lia. split; [lia|]. destruct (decide (bufs = minbufs)) as [|Hne]; [by left|].
  right; right. split; [lia|].
  assert (bufs <= q) by (unfold bufs in *; case_decide; lia).
  assert (bufs * blocksize <= kb * 1024) by nia. unfold kb in *. lia.
Qed.

(** *** [lmfs_set_blocksize] *)

Lemma pool_free n b : b ∈ (pool_buf n <$> seq 0 n) -> lmfs_count b = 0 /\ b_data b = None.
Proof. intros (i & -> & _)%list_elem_of_fmap. done. Qed.

Lemma set_blocksize_spec new_block_size major st :
  0 < new_block_size < 2 ^ 31 -> 0 < fs_block_size st ->
  (forall b, b ∈ c_buf st -> lmfs_count b = 0) -> (0 < nr_bufs st -> sync_ok st) ->
  (forall st' l, cache_inv st' l -> sync_ok st') ->
  runs (lmfs_set_blocksize fs_sync new_block_size major st) (fun st' => exists n,
    cache_inv st' (seq 0 n) /\ nr_bufs st' = Z.of_nat n /\ (10 <= n)%nat /\
    fs_block_size st' = new_block_size /\ (forall b, b ∈ c_buf st' -> lmfs_count b = 0) /\
    (vmcache st' = true -> may_use_vmcache st' = true /\ major <> MEMORY_MAJOR)).
Proof.
  intros Hz Hbs Hfree Hsync Hall. unfold lmfs_set_blocksize.
  eapply runs_bind.
  { apply cache_resize_spec; [lia|unfold MINBUFS; lia|done|done|done]. }
  intros st1 (Hinv1 & En1 & Ebs1 & Ec1).
  destruct (fs_blockstats (c_world st1)) as [[[btotal bfree] bused] w].
  eapply runs_bind; [apply heuristic_spec; lia|]. intros [bufs w'] [Hbufs Hsens].
  assert (10 <= bufs) by (destruct Hsens as [?|[?|?]]; lia).
  rewrite i32_small by lia.
  eapply runs_bind.
  { apply cache_resize_spec; [lia|unfold MINBUFS; lia|simpl; rewrite Ebs1; simpl; lia| |].
    - simpl. rewrite Ec1. intros b Hb. by apply pool_free in Hb as [? _].
    - intros _. apply (Hall _ (seq 0 (Z.to_nat MINBUFS))).
      eapply core_inv_weak; [apply weak_world|exact Hinv1]. }
  intros st2 (Hinv2 & En2 & Ebs2 & Ec2). cbv zeta.
  destruct (vm_forgetblock _ _) as [r w2].
  assert (Hres : forall v, (v = true -> may_use_vmcache st2 = true /\ major <> MEMORY_MAJOR) -> exists n,
    let st' := set_world w2 (set_vmcache v st2) in
    cache_inv st' (seq 0 n) /\ nr_bufs st' = Z.of_nat n /\ (10 <= n)%nat /\
    fs_block_size st' = new_block_size /\ (forall b, b ∈ c_buf st' -> lmfs_count b = 0) /\
    (vmcache st' = true -> may_use_vmcache st' = true /\ major <> MEMORY_MAJOR)).
  { intros v Hv. exists (Z.to_nat bufs). split_and!; try done.
    - destruct Hinv2. by split.
    - simpl. rewrite En2. lia.
    - lia.
    - simpl. rewrite Ec2. intros b Hb. by apply pool_free in Hb as [? _]. }
  case_decide as Hvm; apply runs_done.
  - apply (Hres true). intros _. tauto.
  - by apply (Hres false).
Qed.
End pool.
End cache_pool.
