(* ===== verification/CacheDemo.v ===== *)
(** * A concrete device for the block cache

    A disk of numbered positions, headers with the values of Minix, and a small
    initialised cache: the instances at which the theorems about the cache are
    evaluated. *)
From S2P Require Import Prelude DList Cache CacheInv CacheHash CacheIO CacheGet CacheMiss CacheView CachePool.
Local Open Scope Z_scope.

(** The values in the Minix headers. *)
#[export] Instance demo_hdr : MinixHdr := {|
  NO_DEV := 0; NO_BLOCK := 0; DEV_RAM := 256; MEMORY_MAJOR := 1;
  NORMAL := 0; NO_READ := 1; PREFETCH := 2;
  ONE_SHOT := 64; PARTIAL_DATA_BLOCK := 6;
  NR_IOREQS := 64; OK := 0; ENOSYS := -71; END_OF_FILE := -104; VM_BLOCKID_NONE := -1
|}.

(** The blocks written so far, by device and byte position. *)
Abbreviation disk := (gmap (Z * Z) Z).

Fixpoint write_iov (dev pos : Z) (iov : list (Z * Z)) (w : disk) : disk :=
  match iov with
  | [] => w
  | (d, n) :: iov' => write_iov dev (pos + n) iov' (<[(dev, pos) := d]> w)
  end.

Fixpoint iov_bytes (iov : list (Z * Z)) : Z :=
  match iov with [] => 0 | (_, n) :: iov' => n + iov_bytes iov' end.

Fixpoint read_iov (dev pos : Z) (iov : list (Z * Z)) (w : disk) : list Z :=
  match iov with
  | [] => []
  | (_, n) :: iov' => default 0 (w !! (dev, pos)) :: read_iov dev (pos + n) iov' w
  end.

#[export] Instance demo_env : MinixEnv disk Z := {|
  make64 hi lo := hi * 2 ^ 32 + lo;
  mul64u x y := x * y;
  div64u x y := x / y;
  sqrt_approx := Z.sqrt;
  malloc _ w := (true, w);
  alloc_contig _ w := (Some 0, w);
  free_contig _ _ w := w;
  bdev_read dev pos d n w := match w !! (dev, pos) with Some d' => (n, d', w) | None => (-5, d, w) end;
  bdev_gather dev pos iov w := (iov_bytes iov, read_iov dev pos iov w, w);
  bdev_scatter dev pos iov w := (iov_bytes iov, write_iov dev pos iov w);
  vm_yield_block_get_block _ _ d _ w := (-1, d, w);
  vm_forgetblock _ w := (0, w);
  vm_forgetblocks w := w;
  vm_info_stats w := (0, 10000, 4096, w);
  fs_blockstats w := (20000, 5000, 15000, w)
|}.

Lemma write_iov_miss (dev pos : Z) (iov : list (Z * Z)) (w : disk) (bs dev' pos' : Z) :
  Forall (fun x => x.2 = bs) iov ->
  (dev' <> dev \/ forall k, (k < length iov)%nat -> pos' <> pos + bs * Z.of_nat k) ->
  write_iov dev pos iov w !! (dev', pos') = w !! (dev', pos').
Proof.
  revert pos w. induction iov as [|[d n] iov IH]; intros pos w Hf Hne; [done|].
  apply Forall_cons in Hf as [Hn Hf]. simpl in Hn |- *. rewrite IH; [|done|].
  - apply lookup_insert_ne. intros [= <- <-]. destruct Hne as [|Hne]; [done|].
    apply (Hne 0%nat); simpl; lia.
  - destruct Hne as [|Hne]; [by left|right]. intros k Hk. specialize (Hne (S k)). simpl in Hne. lia.
Qed.

Lemma write_iov_hit (dev pos : Z) (iov : list (Z * Z)) (w : disk) (bs : Z) k (d : Z) :
  0 < bs -> Forall (fun x => x.2 = bs) iov -> iov !! k = Some (d, bs) ->
  write_iov dev pos iov w !! (dev, pos + bs * Z.of_nat k) = Some d.
Proof.
  intros Hbs. revert pos w k. induction iov as [|[d0 n] iov IH]; intros pos w k Hf Hk; [done|].
  apply Forall_cons in Hf as [Hn Hf]. simpl in Hn. subst n. destruct k as [|k]; simpl in Hk |- *.
  - simplify_eq. rewrite (write_iov_miss _ _ _ _ bs); [|done|].
    + rewrite Z.mul_0_r, Z.add_0_r. by rewrite lookup_insert_eq.
    + right. intros k _. nia.
  - rewrite <- (IH (pos + bs) (<[(dev, pos) := d0]> w) k Hf Hk). f_equal. f_equal. lia.
Qed.

#[export] Instance demo_disk : ReliableDisk 4.
Proof.
  refine {| disk_at w dev pos := w !! (dev, pos) |}.
  - done.
  - done.
  - intros dev pos iov w Hf. simpl. induction Hf as [|[d n] iov Hn Hf IH]; [done|]. simpl in *. lia.
  - intros. by apply write_iov_hit.
  - intros. by apply (write_iov_miss _ _ _ _ 4).
Defined.

#[export] Instance demo_read : ReadableDisk 4.
Proof.
  split; [|done]. intros dev pos d w d' Hd. exists w. split; [|done]. simpl in *. by rewrite Hd.
Defined.

(** The state of [cache.c] before the first call: everything zero but the block
    size. *)
Definition boot : cache disk Z :=
  Cache [] [] None None 0 0 false false 4 0 0 {[ (3, 4 * 7) := 70; (3, 4 * 8) := 80; (3, 4 * 9) := 90 ]}.

Definition no_sync (st : cache disk Z) : exec (cache disk Z) := Done st.

Definition from_done {A} (d : A) (m : exec A) : A := match m with Done a => a | Fault _ => d end.

(** Six buffers, none of them used. *)
Definition fresh : cache disk Z := from_done boot (lmfs_buf_pool no_sync 6 boot).

Lemma fresh_inv : cache_inv fresh (seq 0 6).
Proof.
  destruct (@buf_pool_spec disk Z demo_hdr demo_env no_sync (fun _ _ => eq_refl) eq_refl 6 boot) as (st & E0 & Hinv & _);
    [unfold MINBUFS; lia|done|done|].
  unfold fresh. by rewrite E0.
Qed.

(** Block 7 of device 3 has been read and is in use. *)
Definition one_used : cache disk Z := (from_done (0%nat, fresh) (lmfs_get_block 3 7 NORMAL fresh)).2.

Lemma one_used_inv : cache_inv one_used [1; 2; 3; 4; 5]%nat.
Proof.
  destruct (miss_spec fresh (seq 0 6) 0 3 7 NORMAL) as ([bp st] & E0 & -> & Hinv & _).
  - apply fresh_inv.
  - by right.
  - intros i b Hb. unfold fresh in Hb. vm_compute in Hb.
    do 6 (destruct i as [|i]; [simplify_eq/=; lia|]). done.
  - done.
  - done.
  - lia.
  - by left.
  - unfold one_used. by rewrite E0.
Qed.

(** ... and modified by its user. *)
Definition one_dirty : cache disk Z :=
  set_bufs (alter (fun b => with_dirt BP_DIRTY (with_data (Some 77) (lmfs_bytes b) b)) 0%nat (c_buf one_used)) one_used.

Lemma one_dirty_inv : cache_inv one_dirty [1; 2; 3; 4; 5]%nat.
Proof.
  eapply core_inv_weak; [|apply one_used_inv].
  destruct (updb_weak 0 (fun b => with_dirt BP_DIRTY (with_data (Some 77) (lmfs_bytes b) b)) one_used
    (from_done (pool_buf 6 0) (getb one_used 0))) as (st & E0 & Hw & _).
  - by vm_compute.
  - unfold cell_weak. by vm_compute; tauto.
  - vm_compute in E0. unfold one_dirty. injection E0 as <-. exact Hw.
Qed.

(** The modified block released. *)
Definition one_back : cache disk Z := from_done fresh (lmfs_put_block (Some 0%nat) PARTIAL_DATA_BLOCK one_dirty).

(** No buffer of a small cache answers to a name. *)
Definition free_name (st : cache disk Z) (dev n : Z) : bool :=
  forallb (fun b => negb (bool_decide (lmfs_dev b = dev /\ lmfs_blocknr b = n))) (c_buf st).

Lemma free_name_spec st dev n : free_name st dev n = true -> not_cached st dev n.
Proof.
  unfold free_name. rewrite forallb_forall. intros Hall i b Hb Hn.
  assert (Hin : In b (c_buf st)) by (apply list_elem_of_In; by eapply list_elem_of_lookup_2).
  specialize (Hall b Hin). by rewrite bool_decide_true in Hall.
Qed.

(** Coherence, decided. *)
Definition coherent_check (st : cache disk Z) : bool :=
  forallb (fun b => bool_decide (lmfs_dev b = NO_DEV \/ lmfs_dirt b = BP_DIRTY \/
    c_world st !! (lmfs_dev b, lmfs_blocknr b * 4) = b_data b)) (c_buf st).

Lemma coherent_check_spec st : coherent_check st = true -> coherent 4 st.
Proof.
  unfold coherent_check. rewrite forallb_forall. intros Hall i b Hb Hd Hdirt.
  assert (Hin : In b (c_buf st)) by (apply list_elem_of_In; by eapply list_elem_of_lookup_2).
  specialize (Hall b Hin). apply bool_decide_eq_true in Hall. tauto.
Qed.
