(* ===== verification/CacheProps.v ===== *)
(** * What the block cache guarantees

    The properties of the operations of [cache.c], proved from the lemmas of the
    component files, each with an instance on the concrete device of
    [CacheDemo]. *)
From S2P Require Import Prelude DList Cache CacheInv CacheSort CacheHash CacheIO CacheGet CacheMiss CacheView CachePool CacheDemo.
Local Open Scope Z_scope.

Section cache_props.
Context {world bd : Type} `{!MinixHdr} `{E : !MinixEnv world bd}.
Local Abbreviation cache := (cache world bd).
Local Abbreviation buf := (buf bd).
Implicit Types (st : cache) (b : buf) (bp i : nat) (l q : list nat) (m : list buf).

Lemma hit_unseen (bs : Z) `{D : !ReliableDisk (world:=world) (bd:=bd) bs} bp b st l :
  cache_inv st l -> c_buf st !! bp = Some b -> lmfs_dev b <> NO_DEV ->
  runs (hit_path bp st) (fun '(bp', st') => unseen bs st st' /\
    holds st' bp' (lmfs_dev b) (lmfs_blocknr b) (b_data b)).
Proof.
  intros Hinv Hb Hd. pose proof (ci_cells _ _ _ Hinv bp b Hb) as (Hc0 & _).
  eapply runs_mono; [by eapply hit_path_spec|].
  intros [bp' st'] (-> & Hinv' & Hw & Hother & b' & Hb' & Hp).
  pose proof (with_count_payload _ _ _ Hp) as (_ & En & Ed & Ec & _ & Eda).
  split.
  - apply unseen_same_cells; [apply (ci_unique _ _ _ Hinv)|]. by eapply same_cells_recount.
  - exists b'. split_and!; [done|by split|done|lia].
Qed.

Lemma pick_victim_none st l : cache_inv st l -> victim st l = None -> pick_victim st = Fault Panic.
Proof.
  intros Hinv Hv. pose proof Hinv as [_ _ Hbs Hch _ Hcells _ _]. pose proof Hch as (_ & Hf & _ & Hseg).
  assert (Hmem : forall i b, c_buf st !! i = Some b -> mem_ok (fs_block_size st) b).
  { intros i b Hb. by destruct (Hcells i b Hb) as (_&?&_). }
  unfold pick_victim. rewrite Hf. destruct l as [|x l]; [done|]. cbn [head_or deref mbind exec_bind].
  pose proof Hseg as (b & Hb & _). change (c_buf st !! x = Some b) in Hb.
  destruct (mem_ok_bytes _ b Hbs (Hmem _ _ Hb)) as (Hiff & Hno & _).
  unfold victim in Hv. rewrite (getb_done _ _ b) by done. cbn [mbind exec_bind].
  destruct (alloc_contig _ _) as [[d|] w]; [done|]. cbn [fst] in Hv.
  assert (Hfalse : has_data b = false).
  { destruct (has_data b) eqn:Ehd; [|done]. rewrite filter_cons_True in Hv; [done|].
    unfold has_memory. by rewrite Hb. }
  rewrite decide_True by tauto. destruct (Hno Hfalse) as [? ?].
  rewrite !assertC_true by done. cbn [mbind exec_bind].
  rewrite (find_with_memory_spec _ (x :: l) None _ (set_world w st)) by (done || exact (chain_fits _ _ Hinv)).
  change (filter (fun i => has_memory (set_world w st) i = true) (x :: l)) with
    (filter (fun i => has_memory st i = true) (x :: l)). by rewrite Hv.
Qed.

(** C1: The cache is transparent. On devices that complete their transfers and
    with VM's second-level cache switched off, [lmfs_get_block] in mode [NORMAL]
    returns, for a block that is cached or for which a buffer can be freed, a
    buffer that holds exactly the block's contents as a client sees them, and
    no block's visible contents change: what is evicted dirty has been written
    back first, and what is clean is still on the disk. *)
Theorem get_block_transparent (bs : Z) `{D : !ReliableDisk (world:=world) (bd:=bd) bs}
    `{R : !ReadableDisk bs} st l dev block :
  (0 < NR_IOREQS)%nat -> NORMAL <> PREFETCH ->
  cache_inv st l -> coherent bs st -> fs_block_size st = bs -> vmcache st = false -> can_flush st ->
  dev <> NO_DEV -> 0 <= block < 2 ^ 32 -> view bs st dev block <> None ->
  (not_cached st dev block -> victim st l <> None) ->
  runs (lmfs_get_block dev block NORMAL st) (fun '(bp, st') =>
    holds st' bp dev block (view bs st dev block) /\ coherent bs st' /\
    forall dev' n, dev' <> NO_DEV -> view bs st' dev' n = view bs st dev' n).
Proof.
  intros Hnr Hmode Hinv Hcoh Ebs Hvm Hfl Hdev Hblk Hview Hvic.
  assert (Hfin : runs (lmfs_get_block dev block NORMAL st) (fun '(bp, st') =>
    unseen bs st st' /\ holds st' bp dev block (view bs st dev block))).
  { destruct (view_cases bs st dev block (ci_unique _ _ _ Hinv) Hdev) as [(i & b & Hb & [Hd Hn] & ->)|[Hno _]].
    - rewrite (get_block_hit_code i b dev block NORMAL st l) by done. subst dev block.
      by apply (hit_unseen bs i b st l).
    - rewrite (get_block_miss_code _ _ _ _ l) by done.
      destruct (victim st l) as [bp|] eqn:Hv; [|by destruct (Hvic Hno)].
      eapply runs_bind; [by apply detach_spec|]. intros [bp' st2] (-> & Hdt).
      pose proof (detached_unseen bs st l bp st2 Hinv Hdt) as Hun.
      pose proof Hdt as [Hinv2 (En & Eb & Ev & Ed) Hnames _ (b & Hb & Hdat & Hby & Hc0)].
      rewrite <- (un_view _ _ _ Hun Hcoh dev block Hdev) in Hview |- *.
      eapply runs_mono; [eapply (install_unseen bs Hnr st2); try done|].
      + by rewrite Eb.
      + unfold can_flush. by rewrite En, Ed.
      + congruence.
      + congruence.
      + intros i c2 Hc2. destruct (Forall2_lookup_r _ _ _ _ _ Hnames Hc2) as (c & Hc & -> & -> & _).
        by apply (Hno i).
      + by apply (un_coherent _ _ _ Hun).
      + intros [bp' st'] [Hun' Hh]. split; [by eapply unseen_trans|done]. }
  eapply runs_mono; [exact Hfin|]. intros [bp st'] [Hun Hh].
  split_and!; [done|by apply (un_coherent _ _ _ Hun)|by apply (un_view _ _ _ Hun)].
Qed.

(** C2: A block that is not cached takes the place of the least recently used
    free buffer: the victim is the head of the LRU chain (or, when the head owns
    no memory and none can be allocated, the first buffer of the chain that does).
    Whatever the device answers, the call returns the victim, removed from the
    chain, named after the block, clean, with one user and with memory; all
    invariants of the cache hold again, and the other buffers keep their block
    numbers and use counts. *)
Theorem get_block_miss st l bp dev block mode :
  cache_inv st l -> can_flush st -> not_cached st dev block -> victim st l = Some bp ->
  dev <> NO_DEV -> 0 <= block < 2 ^ 32 -> search_mode mode ->
  runs (lmfs_get_block dev block mode st) (fun '(bp', st') => bp' = bp /\
    cache_inv st' (without bp l) /\
    (exists b', c_buf st' !! bp = Some b' /\ got dev block b') /\
    (forall i b, i <> bp -> c_buf st !! i = Some b -> exists b', c_buf st' !! i = Some b' /\ kept b b')).
Proof. apply miss_spec. Qed.

(** A cached block is found by [lmfs_get_block] without any I/O: the buffer
    that holds it is returned with one more user, off the LRU chain, all else
    as it was, and the invariants hold. *)
Theorem get_block_hit st l bp b dev block mode :
  cache_inv st l -> dev <> NO_DEV -> c_buf st !! bp = Some b -> named dev block b ->
  runs (lmfs_get_block dev block mode st) (fun '(bp', st') => bp' = bp /\
    cache_inv st' (without bp l) /\ c_world st' = c_world st /\
    (forall i, i <> bp -> payload <$> c_buf st' !! i = payload <$> c_buf st !! i) /\
    exists b', c_buf st' !! bp = Some b' /\ payload b' = payload (with_count (lmfs_count b + 1) b)).
Proof.
  intros Hinv Hdev Hb [Hd Hn]. rewrite (get_block_hit_code bp b _ _ _ _ l) by done.
  apply hit_path_spec; congruence.
Qed.

(** When a block is not cached and there is no free buffer, or no free buffer
    with memory while none can be allocated, [lmfs_get_block] panics; it never
    returns a buffer that is in use. *)
Theorem get_block_no_buffer st l dev block mode :
  cache_inv st l -> not_cached st dev block -> dev <> NO_DEV -> victim st l = None ->
  lmfs_get_block dev block mode st = Fault Panic.
Proof.
  intros Hinv Hno Hdev Hv. rewrite (get_block_miss_code _ _ _ _ l) by done.
  unfold detach. by rewrite (pick_victim_none _ l).
Qed.

(** C3: [lmfs_put_block] drops one use. When the last use goes, the buffer
    returns to the LRU chain: in front, to be evicted first, if it belongs to the
    RAM device or the caller asks for one-shot use, and at the rear otherwise.
    No I/O is done and the invariants are kept. *)
Theorem put_block_order bp b block_type st l :
  cache_inv st l -> c_buf st !! bp = Some b -> 0 < lmfs_count b ->
  runs (lmfs_put_block (Some bp) block_type st) (fun st' =>
    let l' := if decide (lmfs_count b = 1) then put_order block_type b bp l else l in
    cache_inv st' l' /\
    (forall i, i <> bp -> payload <$> c_buf st' !! i = payload <$> c_buf st !! i) /\
    (exists b', c_buf st' !! bp = Some b' /\ payload b' = payload (with_count (lmfs_count b - 1) b)) /\
    c_world st' = c_world st).
Proof. apply put_block_spec. Qed.

(** C4: [lmfs_flushall] is a sync. On devices that complete their transfers it
    returns with no dirty buffer left, the invariants and the visible contents
    of all blocks unchanged, and every block on the disk equal to its visible
    contents. *)
Theorem flushall_syncs (bs : Z) `{D : !ReliableDisk (world:=world) (bd:=bd) bs} st l :
  (0 < NR_IOREQS)%nat -> cache_inv st l -> coherent bs st -> fs_block_size st = bs ->
  (forall (k : Z) w, (malloc k w).1 = true) ->
  runs (lmfs_flushall st) (fun st' => cache_inv st' l /\
    (forall i b, c_buf st' !! i = Some b -> lmfs_dev b <> NO_DEV -> lmfs_dirt b <> BP_DIRTY) /\
    forall dev n, dev <> NO_DEV -> view bs st' dev n = view bs st dev n /\
      disk_at (c_world st') dev (n * bs) = view bs st dev n).
Proof.
  intros Hnr Hinv Hcoh Ebs Hmal. eapply runs_mono; [by apply (lmfs_flushall_spec bs Hnr l)|].
  intros st' (Hun & Hinv' & Hset). split_and!; [done|done|]. intros dev n Hd.
  pose proof (un_view _ _ _ Hun Hcoh dev n Hd) as Hv. split; [done|]. rewrite <- Hv.
  apply settled_disk; [apply (ci_unique _ _ _ Hinv')|by apply (un_coherent _ _ _ Hun)|done|done].
Qed.

(** [flushall dev] writes each dirty block of the device, and nothing else,
    to its place on the disk, marks exactly those buffers clean, and touches no
    other position of any device, however the blocks are grouped into scattered
    transfers. *)
Theorem flushall_writes (bs : Z) `{D : !ReliableDisk (world:=world) (bd:=bd) bs} dev st l :
  (0 < NR_IOREQS)%nat -> cache_inv st l -> fs_block_size st = bs -> dev <> NO_DEV -> can_flush st ->
  runs (flushall dev st) (fun st' =>
    c_buf st' = clean (dirty_queue dev st) (c_buf st) /\
    (forall i b, c_buf st !! i = Some b -> lmfs_dirt b = BP_DIRTY -> lmfs_dev b = dev ->
       disk_at (c_world st') dev (lmfs_blocknr b * bs) = b_data b) /\
    (forall dev' n, (forall i b, c_buf st !! i = Some b -> lmfs_dirt b = BP_DIRTY ->
         lmfs_dev b = dev -> ~ (dev' = dev /\ n = lmfs_blocknr b * bs)) ->
       disk_at (c_world st') dev' n = disk_at (c_world st) dev' n)).
Proof.
  intros Hnr Hinv Ebs Hdev Hfl. eapply runs_mono.
  { eapply (flushall_all bs Hnr dev l None st Hinv Ebs Hdev). by apply can_flush_now. }
  intros st' (w' & Ec & <- & _ & Hin & Hout). split_and!; [done| |].
  - intros i b Hb Hdirt Hd. apply (Hin i b); [|done]. apply elem_of_dirty_queue. eauto.
  - intros dev' n Hno. apply Hout. destruct (decide (dev' = dev)) as [->|]; [right|by left].
    intros i (b & Hb & Hdirt & Hd)%elem_of_dirty_queue ->. apply (Hno i b Hb Hdirt Hd).
    split; [done|]. by rewrite (blocknr_of_Some _ _ _ Hb).
Qed.

(** C5: Writing a queue of buffers ends on every device, also on one that fails or
    transfers less than it is asked for: [lmfs_rw_scattered] returns, buffers
    keep their names, use counts, links and memory (a name may be dropped), and
    so all invariants of the cache are kept. *)
Theorem rw_scattered_total dev q st l :
  cache_inv st l -> (forall i, i ∈ q -> exists b, c_buf st !! i = Some b /\ b_data b <> None) ->
  runs (lmfs_rw_scattered dev q WRITING st) (fun st' =>
    Forall2 cell_weak (c_buf st) (c_buf st') /\ cache_inv st' l).
Proof.
  intros Hinv Hq. eapply runs_mono; [by apply rw_scattered_weak|].
  intros st' Hw. split; [apply (ws_cells _ _ Hw)|by eapply core_inv_weak].
Qed.

(** C6: The Shell sort of [lmfs_rw_scattered] sorts: its result is a permutation
    of the queue in non-decreasing order of block numbers, for every queue. *)
Theorem shell_sort_sorts (key : nat -> Z) q :
  Permutation (shell_sort key q) q /\ StronglySorted (fun x y => key x <= key y) (shell_sort key q).
Proof. apply shell_sort_spec. Qed.

(** C7: [lmfs_buf_pool] sets up the cache: all buffers free and chained in array
    order, the hash table well formed, nothing cached; the buffers of the old
    pool have been synced and freed without a failing assertion. *)
Theorem buf_pool_init fs_sync new_nr st :
  (forall (k : Z) w, (malloc k w).1 = true) -> NO_BLOCK = 0 ->
  MINBUFS <= new_nr < 2 ^ 32 -> 0 < fs_block_size st -> (0 < nr_bufs st -> sync_ok fs_sync st) ->
  runs (lmfs_buf_pool fs_sync new_nr st) (fun st' =>
    cache_inv st' (seq 0 (Z.to_nat new_nr)) /\ nr_bufs st' = new_nr /\
    fs_block_size st' = fs_block_size st /\
    forall dev block, dev <> NO_DEV -> not_cached st' dev block).
Proof.
  intros Hm Hnb Hn Hbs Hs. eapply runs_mono; [by apply buf_pool_spec|].
  intros st' (Hinv & En & Eb & Ec). split_and!; try done. intros dev block Hdev i b Hb [Hd _].
  rewrite Ec in Hb. apply lookup_pool_inv in Hb as [_ ->]. by apply Hdev.
Qed.

(** [lmfs_set_blocksize] on a cache without users leaves an initialised cache
    of at least ten free buffers with the new block size; the second-level cache
    is used only if it was not disabled and the device is not a RAM disk. *)
Theorem set_blocksize_init fs_sync new_block_size major st :
  (forall (k : Z) w, (malloc k w).1 = true) -> NO_BLOCK = 0 ->
  0 < new_block_size < 2 ^ 31 -> 0 < fs_block_size st ->
  (forall b, b ∈ c_buf st -> lmfs_count b = 0) -> (0 < nr_bufs st -> sync_ok fs_sync st) ->
  (forall st' l, cache_inv st' l -> sync_ok fs_sync st') ->
  runs (lmfs_set_blocksize fs_sync new_block_size major st) (fun st' => exists n,
    cache_inv st' (seq 0 n) /\ nr_bufs st' = Z.of_nat n /\ (10 <= n)%nat /\
    fs_block_size st' = new_block_size /\ (forall b, b ∈ c_buf st' -> lmfs_count b = 0) /\
    (vmcache st' = true -> may_use_vmcache st' = true /\ major <> MEMORY_MAJOR)).
Proof. intros. by apply set_blocksize_spec. Qed.

(** The size that [fs_bufs_heuristic] proposes is never below the minimum
    (or is the default 1024 when VM gives no statistics), and otherwise the
    buffers take at most a tenth of the remaining memory and half of the file
    system, for all 32-bit statistics and despite the wrap-around of the
    intermediate 32-bit products. *)
Theorem heuristic_bounds minbufs btotal bfree blocksize major w :
  0 <= minbufs < 2 ^ 31 -> 0 < blocksize < 2 ^ 31 ->
  runs (fs_bufs_heuristic minbufs btotal bfree blocksize major w) (fun '(bufs, _) =>
    0 <= bufs < 2 ^ 31 /\ sensible_size minbufs btotal blocksize w bufs).
Proof. apply heuristic_spec. Qed.

(** After [lmfs_invalidate dev] no buffer answers to the device, the blocks of
    other devices are found as before, and the invariants are kept. *)
Theorem invalidate_device dev st l :
  cache_inv st l ->
  cache_inv (lmfs_invalidate dev st) l /\
  (dev <> NO_DEV -> forall block, not_cached (lmfs_invalidate dev st) dev block) /\
  forall i b, c_buf st !! i = Some b -> lmfs_dev b <> dev -> c_buf (lmfs_invalidate dev st) !! i = Some b.
Proof.
  intros Hinv. split_and!.
  - eapply core_inv_weak; [|exact Hinv]. split; try done. apply Forall2_fmap_r, Forall_Forall2_diag, Forall_true.
    intros b. simpl. destruct (decide (lmfs_dev b = dev)); [apply cell_weak_no_dev|apply cell_weak_refl].
  - intros Hd block i b Hb [Hbd _]. simpl in Hb. rewrite list_lookup_fmap in Hb.
    destruct (c_buf st !! i) as [c|]; [|done]. simpl in Hb. case_decide; simplify_eq/=; congruence.
  - intros i b Hb Hd. simpl. rewrite list_lookup_fmap, Hb. simpl. by rewrite decide_False.
Qed.
End cache_props.

(** ** Instances on the concrete device *)

Lemma one_used_coherent : coherent 4 one_used.
Proof. apply coherent_check_spec. by vm_compute. Qed.

Lemma one_dirty_coherent : coherent 4 one_dirty.
Proof. apply coherent_check_spec. by vm_compute. Qed.

Example get_block_transparent_witness :
  runs (lmfs_get_block 3 9 NORMAL one_dirty) (fun '(bp, st') =>
    holds st' bp 3 9 (Some 90) /\ coherent 4 st' /\
    forall dev' n, dev' <> NO_DEV -> view 4 st' dev' n = view 4 one_dirty dev' n).
Proof.
  replace (Some 90) with (view 4 one_dirty 3 9) by (by vm_compute).
  apply (get_block_transparent 4 one_dirty [1; 2; 3; 4; 5]%nat 3 9);
    [simpl; lia|done|apply one_dirty_inv|apply one_dirty_coherent|done|done|by right|done|lia|done|].
  intros _. by vm_compute.
Defined.

Example get_block_miss_witness :
  runs (lmfs_get_block 3 8 PREFETCH one_used) (fun '(bp', st') => bp' = 1%nat /\
    cache_inv st' (without 1 [1; 2; 3; 4; 5]%nat) /\
    (exists b', c_buf st' !! 1%nat = Some b' /\ got 3 8 b') /\
    (forall i b, i <> 1%nat -> c_buf one_used !! i = Some b -> exists b', c_buf st' !! i = Some b' /\ kept b b')).
Proof.
  apply (get_block_miss one_used [1; 2; 3; 4; 5]%nat 1 3 8 PREFETCH);
    [apply one_used_inv|by right|apply free_name_spec; by vm_compute|done|done|lia|by right; left].
Defined.

Example get_block_hit_witness : exists b,
  runs (lmfs_get_block 3 7 NORMAL one_used) (fun '(bp', st') => bp' = 0%nat /\
    cache_inv st' (without 0 [1; 2; 3; 4; 5]%nat) /\ c_world st' = c_world one_used /\
    (forall i, i <> 0%nat -> payload <$> c_buf st' !! i = payload <$> c_buf one_used !! i) /\
    exists b', c_buf st' !! 0%nat = Some b' /\ payload b' = payload (with_count 2 b)).
Proof.
  eexists. apply (get_block_hit one_used [1; 2; 3; 4; 5]%nat 0 (from_done (pool_buf 6 0) (getb one_used 0)));
    [apply one_used_inv|done|by vm_compute|by vm_compute].
Defined.

(** A cache of one buffer, in use. *)
Definition tiny : cache disk Z :=
  Cache [Buf None None None 7 3 0 1 4 (Some 70)] [Some 0%nat] None None 1 1 false false 4 0 0 ∅.

Lemma tiny_inv : cache_inv tiny [].
Proof.
  split; try done.
  - by repeat constructor.
  - split; [done|]. intros [|k] c Hk; simplify_eq/=. exists [0%nat]. split_and!.
    + split; [done|]. by eexists.
    + by apply NoDup_singleton.
    + intros i. rewrite list_elem_of_singleton. split; [intros ->; eauto|].
      intros [_ (b & Hb & _)]. by destruct i.
  - intros [|i] b Hb; simplify_eq/=. split_and!; simpl; try lia; [by right|done|].
    split; [by intros ?%elem_of_nil|done].
  - by intros [|i] [|j] bi bj.
Qed.

Example get_block_no_buffer_witness : lmfs_get_block 3 8 NORMAL tiny = Fault Panic.
Proof.
  apply (get_block_no_buffer tiny []); [apply tiny_inv|apply free_name_spec; by vm_compute|done|done].
Defined.

Example put_block_order_witness : exists b,
  runs (lmfs_put_block (Some 0%nat) PARTIAL_DATA_BLOCK one_dirty) (fun st' =>
    cache_inv st' [1; 2; 3; 4; 5; 0]%nat /\
    (forall i, i <> 0%nat -> payload <$> c_buf st' !! i = payload <$> c_buf one_dirty !! i) /\
    (exists b', c_buf st' !! 0%nat = Some b' /\ payload b' = payload (with_count (lmfs_count b - 1) b)) /\
    c_world st' = c_world one_dirty).
Proof.
  let b := eval vm_compute in (from_done (pool_buf 6 0) (getb one_dirty 0)) in
  exists b; eapply runs_mono;
    [apply (put_block_order 0 b PARTIAL_DATA_BLOCK one_dirty [1; 2; 3; 4; 5]%nat);
       [apply one_dirty_inv|by vm_compute|by vm_compute]|].
  intros st' Hst'. rewrite decide_True in Hst' by done.
  unfold put_order in Hst'. by rewrite decide_False in Hst' by (intros [?|Hl]; [done|by apply Hl]).
Defined.

Example flushall_syncs_witness :
  runs (lmfs_flushall one_dirty) (fun st' => cache_inv st' [1; 2; 3; 4; 5]%nat /\
    (forall i b, c_buf st' !! i = Some b -> lmfs_dev b <> NO_DEV -> lmfs_dirt b <> BP_DIRTY) /\
    forall dev n, dev <> NO_DEV -> view 4 st' dev n = view 4 one_dirty dev n /\
      disk_at (c_world st') dev (n * 4) = view 4 one_dirty dev n).
Proof.
  apply (flushall_syncs 4 one_dirty); [simpl; lia|apply one_dirty_inv|apply one_dirty_coherent|done|done].
Defined.

Example flushall_writes_witness :
  runs (flushall 3 one_dirty) (fun st' =>
    c_buf st' = clean (dirty_queue 3 one_dirty) (c_buf one_dirty) /\
    (forall i b, c_buf one_dirty !! i = Some b -> lmfs_dirt b = BP_DIRTY -> lmfs_dev b = 3 ->
       disk_at (c_world st') 3 (lmfs_blocknr b * 4) = b_data b) /\
    (forall dev' n, (forall i b, c_buf one_dirty !! i = Some b -> lmfs_dirt b = BP_DIRTY ->
         lmfs_dev b = 3 -> ~ (dev' = 3 /\ n = lmfs_blocknr b * 4)) ->
       disk_at (c_world st') dev' n = disk_at (c_world one_dirty) dev' n)).
Proof.
  apply (flushall_writes 4 3 one_dirty [1; 2; 3; 4; 5]%nat); [simpl; lia|apply one_dirty_inv|done|done|by right].
Defined.

Example rw_scattered_total_witness :
  runs (lmfs_rw_scattered 3 [0%nat] WRITING one_dirty) (fun st' =>
    Forall2 cell_weak (c_buf one_dirty) (c_buf st') /\ cache_inv st' [1; 2; 3; 4; 5]%nat).
Proof.
  apply (rw_scattered_total 3 [0%nat] one_dirty); [apply one_dirty_inv|].
  intros i ->%list_elem_of_singleton. eexists. by vm_compute.
Defined.

Lemma no_sync_ok st l : cache_inv st l -> sync_ok no_sync st.
Proof.
  intros Hinv. apply runs_done. split; [|done].
  intros b [i Hb]%list_elem_of_lookup. by destruct (ci_cells _ _ _ Hinv i b Hb) as (_&?&_).
Qed.

Example buf_pool_init_witness :
  runs (lmfs_buf_pool no_sync 8 one_used) (fun st' =>
    cache_inv st' (seq 0 8) /\ nr_bufs st' = 8 /\ fs_block_size st' = 4 /\
    forall dev block, dev <> NO_DEV -> not_cached st' dev block).
Proof.
  apply (buf_pool_init no_sync 8 one_used); [done|done|unfold MINBUFS; lia|done|].
  intros _. apply (no_sync_ok _ _ one_used_inv).
Defined.

Example set_blocksize_init_witness :
  runs (lmfs_set_blocksize no_sync 4096 3 fresh) (fun st' => exists n,
    cache_inv st' (seq 0 n) /\ nr_bufs st' = Z.of_nat n /\ (10 <= n)%nat /\
    fs_block_size st' = 4096 /\ (forall b, b ∈ c_buf st' -> lmfs_count b = 0) /\
    (vmcache st' = true -> may_use_vmcache st' = true /\ 3 <> MEMORY_MAJOR)).
Proof.
  apply (set_blocksize_init no_sync 4096 3 fresh); [done|done|lia|done| | |].
  - intros b [i Hb]%list_elem_of_lookup. unfold fresh in Hb. vm_compute in Hb.
    do 6 (destruct i as [|i]; [by simplify_eq/=|]). done.
  - intros _. apply (no_sync_ok _ _ fresh_inv).
  - apply no_sync_ok.
Defined.

Example heuristic_bounds_witness :
  runs (fs_bufs_heuristic (world := disk) 10 20000 5000 4096 3 ∅) (fun '(bufs, _) =>
    0 <= bufs < 2 ^ 31 /\ sensible_size 10 20000 4096 (∅ : disk) bufs).
Proof. apply (heuristic_bounds (world := disk) (bd := Z) 10 20000 5000 4096 3 ∅); lia. Defined.

Example invalidate_device_witness :
  cache_inv (lmfs_invalidate 3 one_used) [1; 2; 3; 4; 5]%nat /\
  (3 <> NO_DEV -> forall block, not_cached (lmfs_invalidate 3 one_used) 3 block) /\
  forall i b, c_buf one_used !! i = Some b -> lmfs_dev b <> 3 ->
    c_buf (lmfs_invalidate 3 one_used) !! i = Some b.
Proof. apply (invalidate_device 3 one_used), one_used_inv. Defined.
