(* ===== verification/Layout.v ===== *)
(** * On-disk structures: [Lab/Lab 7/dadfs/base.h]

    The structures of [base.h] as the bytes the compiler lays out for x86-64:
    little-endian fields at their offsets, padding bytes zero.  [CStruct] is the
    interface through which the file system and [mkfs] read and write arrays of
    structures in a block. *)
From S2P Require Import Prelude.
Local Open Scope Z_scope.

(** ** Bytes *)

Abbreviation bytes := (list Z).

Fixpoint le (n : nat) (z : Z) : bytes :=
  match n with O => [] | S n => z mod 256 :: le n (z / 256) end.

Fixpoint unle (l : bytes) : Z :=
  match l with [] => 0 | b :: l => b + 256 * unle l end.

Lemma length_le n z : length (le n z) = n.
Proof. revert z. induction n as [|n IH]; intros z; simpl; [done|by rewrite IH]. Qed.

Lemma unle_le n z : 0 <= z < 256 ^ Z.of_nat n -> unle (le n z) = z.
Proof.
  revert z. induction n as [|n IH]; intros z Hz.
  - simpl in Hz |- *. lia.
  - rewrite Nat2Z.inj_succ, Z.pow_succ_r in Hz by lia. simpl. rewrite IH.
    + pose proof (Z.div_mod z 256). lia.
    + split; [apply Z.div_pos; lia|apply Z.div_lt_upper_bound; lia].
Qed.

(** The [n] bytes at offset [off], and their replacement. *)
Definition slice (off n : nat) (l : bytes) : bytes := take n (drop off l).
Definition blit (off : nat) (b l : bytes) : bytes := take off l ++ b ++ drop (off + length b) l.

Lemma length_blit off b l : (off + length b <= length l)%nat -> length (blit off b l) = length l.
Proof. intros Hl. unfold blit. rewrite !length_app, length_take, length_drop. lia. Qed.

Lemma slice_take o n k l : (n <= k)%nat -> take n (slice o k l) = slice o n l.
Proof. intros Hn. unfold slice. rewrite take_take. f_equal. lia. Qed.

Lemma slice_blit off b l : (off + length b <= length l)%nat -> slice off (length b) (blit off b l) = b.
Proof.
  intros Hl. unfold slice, blit. rewrite drop_app_length' by (rewrite length_take; lia).
  by rewrite take_app_length.
Qed.

Lemma slice_blit_before off n b l off' :
  (off + n <= off')%nat -> (off' + length b <= length l)%nat ->
  slice off n (blit off' b l) = slice off n l.
Proof.
  intros H1 H2. unfold slice, blit. rewrite drop_app_le by (rewrite length_take; lia).
  rewrite take_app_le by (rewrite length_drop, length_take; lia).
  rewrite skipn_firstn_comm, take_take. f_equal. lia.
Qed.

Lemma slice_blit_after off n b l off' :
  (off' + length b <= off)%nat -> (off' + length b <= length l)%nat ->
  slice off n (blit off' b l) = slice off n l.
Proof.
  intros H1 H2. unfold slice, blit. rewrite app_assoc.
  rewrite drop_app_ge by (rewrite length_app, length_take; lia).
  rewrite drop_drop. f_equal. f_equal. rewrite length_app, length_take. lia.
Qed.

Lemma length_slice off n l : (off + n <= length l)%nat -> length (slice off n l) = n.
Proof. intros Hl. unfold slice. rewrite length_take, length_drop. lia. Qed.

(** A slice that lies inside what was written, and one that contains it. *)
Lemma slice_blit_within off o n b l : (o + n <= length b)%nat -> (off + length b <= length l)%nat ->
  slice (off + o) n (blit off b l) = slice o n b.
Proof.
  intros Hb Hl. unfold slice, blit. rewrite drop_app_ge by (rewrite length_take; lia).
  rewrite length_take, Nat.min_l by lia. replace (off + o - off)%nat with o by lia.
  rewrite drop_app_le by lia. by rewrite take_app_le by (rewrite length_drop; lia).
Qed.

Lemma slice_blit_inside off o n b l : (o <= off)%nat -> (off + length b <= o + n)%nat ->
  (o + n <= length l)%nat -> slice o n (blit off b l) = blit (off - o) b (slice o n l).
Proof.
  intros Ho Hb Hl. unfold slice, blit.
  rewrite drop_app_le by (rewrite length_take; lia). rewrite skipn_firstn_comm.
  rewrite take_app_ge by (rewrite length_take, length_drop; lia).
  rewrite length_take, length_drop, Nat.min_l by lia.
  rewrite take_app_ge by lia. f_equal; [rewrite take_take; f_equal; lia|]. f_equal.
  rewrite skipn_firstn_comm, drop_drop. f_equal; [lia|]. f_equal. lia.
Qed.

(** ** Structures and arrays of them *)

Class CStruct (A : Type) := {
  sizeof : nat;
  encode : A -> bytes;
  decode : bytes -> A;
  valid : A -> Prop
}.
Arguments sizeof A {_}.

Class CStructOk (A : Type) `{CStruct A} := {
  sizeof_pos : (0 < sizeof A)%nat;
  length_encode : forall a, valid a -> length (encode a) = sizeof A;
  decode_encode : forall a, valid a -> decode (encode a) = a
}.

(** Element [i] of a block read as an array of structures; out of range, a fault. *)
Definition get_at (A : Type) `{CStruct A} (i : nat) (blk : bytes) : exec A :=
  if decide ((i + 1) * sizeof A <= length blk)%nat
  then Done (decode (slice (i * sizeof A) (sizeof A) blk)) else Fault OutOfBounds.

Definition put_at {A : Type} `{CStruct A} (i : nat) (a : A) (blk : bytes) : exec bytes :=
  if decide ((i + 1) * sizeof A <= length blk)%nat
  then Done (blit (i * sizeof A) (encode a) blk) else Fault OutOfBounds.

Section arrays.
Context {A : Type} `{CStructOk A}.

Lemma put_at_done i (a : A) blk : ((i + 1) * sizeof A <= length blk)%nat ->
  put_at i a blk = Done (blit (i * sizeof A) (encode a) blk).
Proof. intros Hi. unfold put_at. by rewrite decide_True. Qed.

Lemma get_put_eq i (a : A) blk : valid a -> ((i + 1) * sizeof A <= length blk)%nat ->
  get_at A i (blit (i * sizeof A) (encode a) blk) = Done a.
Proof.
  intros Ha Hi. unfold get_at. pose proof (length_encode a Ha) as Hl.
  rewrite length_blit by (rewrite Hl; lia). rewrite decide_True by done.
  rewrite <- Hl at 2. rewrite slice_blit by (rewrite Hl; lia). by rewrite decode_encode.
Qed.

Lemma get_put_ne i j (a : A) blk : valid a -> i <> j -> ((j + 1) * sizeof A <= length blk)%nat ->
  get_at A i (blit (j * sizeof A) (encode a) blk) = get_at A i blk.
Proof.
  intros Ha Hij Hj. unfold get_at. pose proof (length_encode a Ha) as Hl.
  rewrite length_blit by (rewrite Hl; lia). case_decide as Hi; [|done]. do 2 f_equal.
  destruct (decide (i < j)%nat).
  - apply slice_blit_before; [nia|rewrite Hl; lia].
  - apply slice_blit_after; rewrite Hl; nia.
Qed.

Lemma get_at_frame i blk blk' : length blk' = length blk ->
  slice (i * sizeof A) (sizeof A) blk' = slice (i * sizeof A) (sizeof A) blk ->
  get_at A i blk' = get_at A i blk.
Proof. intros Hl Hs. unfold get_at. by rewrite Hl, Hs. Qed.
End arrays.

(** ** The structures of [base.h] *)

Definition DADFS_MAGIC : Z := 0x10032013.
Definition DADFS_DEFAULT_BLOCK_SIZE : nat := 4096.
Definition DADFS_FILENAME_MAXLEN : nat := 255.
Definition DADFS_START_INO : Z := 10.
Definition DADFS_RESERVED_INODES : Z := 3.
Definition DADFS_ROOTDIR_INODE_NUMBER : Z := 1.
Definition DADFS_SUPERBLOCK_BLOCK_NUMBER : Z := 0.
Definition DADFS_INODESTORE_BLOCK_NUMBER : Z := 1.
Definition DADFS_JOURNAL_INODE_NUMBER : Z := 2.
Definition DADFS_JOURNAL_BLOCK_NUMBER : Z := 2.
Definition DADFS_JOURNAL_BLOCKS : Z := 2.
Definition DADFS_ROOTDIR_DATABLOCK_NUMBER : Z := 4.
Definition DADFS_LAST_RESERVED_BLOCK : Z := DADFS_ROOTDIR_DATABLOCK_NUMBER.
Definition DADFS_LAST_RESERVED_INODE : Z := DADFS_JOURNAL_INODE_NUMBER.
Definition DADFS_MAX_FILESYSTEM_OBJECTS_SUPPORTED : Z := 64.

Record dadfs_super_block := SuperBlock {
  version : Z;
  magic : Z;
  block_size : Z;
  inodes_count : Z;
  free_blocks : Z;
  journal : Z;          (* a pointer; 0 is NULL *)
  padding : bytes
}.

(** The union is one field: the file size, or the number of children. *)
Record dadfs_inode := Inode {
  mode : Z;
  inode_no : Z;
  data_block_number : Z;
  size_or_children : Z
}.
Abbreviation file_size := size_or_children.
Abbreviation dir_children_count := size_or_children.

Record dadfs_dir_record := DirRecord {
  filename : bytes;
  rec_inode_no : Z
}.

#[export] Instance dadfs_inode_eq_dec : EqDecision dadfs_inode.
Proof. solve_decision. Defined.
#[export] Instance dadfs_super_block_eq_dec : EqDecision dadfs_super_block.
Proof. solve_decision. Defined.

Definition u64_ok (z : Z) : Prop := 0 <= z < 2 ^ 64.

#[export] Instance super_block_struct : CStruct dadfs_super_block := {|
  sizeof := 4096;
  encode s := le 8 (version s) ++ le 8 (magic s) ++ le 8 (block_size s) ++ le 8 (inodes_count s) ++
    le 8 (free_blocks s) ++ le 8 (journal s) ++ padding s;
  decode l := SuperBlock (unle (slice 0 8 l)) (unle (slice 8 8 l)) (unle (slice 16 8 l))
    (unle (slice 24 8 l)) (unle (slice 32 8 l)) (unle (slice 40 8 l)) (drop 48 l);
  valid s := u64_ok (version s) /\ u64_ok (magic s) /\ u64_ok (block_size s) /\ u64_ok (inodes_count s) /\
    u64_ok (free_blocks s) /\ u64_ok (journal s) /\ length (padding s) = Z.to_nat 4048
|}.

(** Bytes 4 to 7 are padding: [mode] is 32 bits wide. *)
#[export] Instance inode_struct : CStruct dadfs_inode := {|
  sizeof := 32;
  encode i := le 4 (mode i) ++ [0; 0; 0; 0] ++ le 8 (inode_no i) ++ le 8 (data_block_number i) ++
    le 8 (size_or_children i);
  decode l := Inode (unle (slice 0 4 l)) (unle (slice 8 8 l)) (unle (slice 16 8 l)) (unle (slice 24 8 l));
  valid i := 0 <= mode i < 2 ^ 32 /\ u64_ok (inode_no i) /\ u64_ok (data_block_number i) /\
    u64_ok (size_or_children i)
|}.

(** Byte 255 is padding. *)
#[export] Instance dir_record_struct : CStruct dadfs_dir_record := {|
  sizeof := 264;
  encode r := filename r ++ [0] ++ le 8 (rec_inode_no r);
  decode l := DirRecord (slice 0 DADFS_FILENAME_MAXLEN l) (unle (slice 256 8 l));
  valid r := length (filename r) = DADFS_FILENAME_MAXLEN /\ u64_ok (rec_inode_no r)
|}.

(** Reading a field behind the fields before it. *)
Lemma slice_here n l1 l2 : length l1 = n -> slice 0 n (l1 ++ l2) = l1.
Proof. intros <-. unfold slice. simpl. apply take_app_length. Qed.

Lemma slice_skip k off n l1 l2 : length l1 = k -> (k <= off)%nat ->
  slice off n (l1 ++ l2) = slice (off - k) n l2.
Proof. intros <- Hk. unfold slice. by rewrite drop_app_ge. Qed.

Lemma slice_all n l : length l = n -> slice 0 n l = l.
Proof. intros <-. unfold slice. simpl. by rewrite firstn_all. Qed.

(** Evaluate the field reads of an encoded structure. *)
Ltac read_field :=
  match goal with
  | |- context [slice 0 ?n (le ?n ?z ++ ?r)] => rewrite (slice_here n (le n z) r) by apply length_le
  | |- context [slice 0 ?n (le ?n ?z)] => rewrite (slice_all n (le n z)) by apply length_le
  | |- context [slice ?o ?n (le ?k ?z ++ ?r)] =>
      rewrite (slice_skip k o n (le k z) r) by (apply length_le || lia);
      let o' := eval vm_compute in (o - k)%nat in change (o - k)%nat with o'
  | |- context [slice ?o ?n ([0; 0; 0; 0] ++ ?r)] =>
      rewrite (slice_skip 4 o n [0; 0; 0; 0] r) by (done || lia);
      let o' := eval vm_compute in (o - 4)%nat in change (o - 4)%nat with o'
  end.
Ltac read_fields := repeat read_field; rewrite ?unle_le by assumption.

#[export] Instance inode_struct_ok : CStructOk dadfs_inode.
Proof.
  split; [simpl; lia|by intros i _|].
  intros [m n d s] (Hm & Hn & Hd & Hs). unfold u64_ok in *. cbn in Hm, Hn, Hd, Hs.
  unfold decode, encode, inode_struct. cbn [mode inode_no data_block_number size_or_children].
  by read_fields.
Qed.

Lemma drop_fields (l1 l2 : bytes) n : length l1 = n -> drop n (l1 ++ l2) = l2.
Proof. intros <-. apply drop_app_length. Qed.

#[export] Instance super_block_struct_ok : CStructOk dadfs_super_block.
Proof.
  split.
  - unfold sizeof, super_block_struct. apply Nat2Z.inj_lt. done.
  - intros s (_ & _ & _ & _ & _ & _ & Hp). unfold sizeof, encode, super_block_struct.
    rewrite !length_app, !length_le, Hp. done.
  - intros [v m b i f j p] (Hv & Hm & Hb & Hi & Hf & Hj & Hp). unfold u64_ok in *.
    cbn [version magic block_size inodes_count free_blocks journal padding] in *.
    unfold decode, encode, super_block_struct.
    cbn [version magic block_size inodes_count free_blocks journal padding].
    replace (drop 48 _) with p; [by read_fields|].
    rewrite !app_assoc. symmetry. apply drop_fields. by rewrite !length_app, !length_le.
Qed.

#[export] Instance dir_record_struct_ok : CStructOk dadfs_dir_record.
Proof.
  split.
  - unfold sizeof, dir_record_struct. lia.
  - intros r [Hf _]. unfold sizeof, encode, dir_record_struct. rewrite !length_app, Hf, length_le. done.
  - intros [f n] [Hf Hn]. unfold u64_ok in *. cbn [filename rec_inode_no] in *.
    unfold decode, encode, dir_record_struct. cbn [filename rec_inode_no].
    rewrite (slice_here _ f) by done. rewrite (slice_skip 255 256 8 f) by (done || lia).
    change (256 - 255)%nat with 1%nat. rewrite (slice_skip 1) by (done || lia).
    change (1 - 1)%nat with 0%nat. by read_fields.
Qed.

(** ** C strings *)

(** The characters before the first zero byte. *)
Fixpoint cstr (l : bytes) : bytes :=
  match l with [] => [] | c :: l => if decide (c = 0) then [] else c :: cstr l end.

Definition is_name (s : bytes) : Prop := Forall (fun c => 0 < c < 256) s.

Lemma cstr_app s l : is_name s -> cstr (s ++ 0 :: l) = s.
Proof.
  induction 1 as [|c s Hc Hs IH]; simpl; [done|]. rewrite decide_False by lia. by rewrite IH.
Qed.
