(* ===== verification/Dadfs.v ===== *)
(** * The dadfs kernel module: [Lab/Lab 7/dadfs/base.c]

    The state is the in-memory super block, the three mutexes and the world of
    the kernel behind them; operations run in the state-and-fault monad [M].
    The kernel's own functions (buffer cache, signals, allocation, journal,
    user copies) are the parameters [Kernel]. *)
From S2P Require Import Prelude StateM Layout.
Local Open Scope Z_scope.

(** ** What the module uses of the kernel *)

(** A mount option as [match_token] classifies it; a number that does not parse
    is [None]. *)
Inductive option_token :=
| Opt_journal_dev (arg : option Z)
| Opt_journal_path (path : bytes)
| Opt_other.

Class Kernel (W : Type) := {
  (** [sb_bread]: the contents of the block's buffer, unless reading failed. *)
  bread : Z -> W -> option bytes;
  (** Stores through [b_data], with [mark_buffer_dirty]. *)
  bwrite : Z -> bytes -> W -> W;
  (** Does a signal interrupt [mutex_lock_interruptible]? *)
  signal_pending : W -> bool * W;
  new_inode : W -> bool * W;
  kmem_cache_alloc : W -> bool * W;
  (** [copy_to_user]: is there an error? *)
  copy_to_user : bytes -> W -> bool * W;
  (** [copy_from_iter]: the bytes that were copied, at most the number asked. *)
  copy_from_iter : Z -> W -> bytes * W;
  generic_write_checks : Z -> Z -> W -> Z * W;
  jbd2_journal_start : Z -> W -> Z * W;
  jbd2_journal_get_write_access : Z -> W -> Z * W;
  jbd2_journal_dirty_metadata : Z -> W -> Z * W;
  jbd2_journal_stop : W -> Z * W;
  (** These return a journal pointer, 0 for NULL. *)
  jbd2_journal_init_dev : Z -> W -> Z * W;
  jbd2_journal_init_inode : Z -> W -> Z * W;
  jbd2_journal_load : Z -> W -> Z * W;
  jbd2_journal_destroy : Z -> W -> Z * W;
  blkdev_get_by_dev : Z -> W -> bool * W;
  match_token : bytes -> option_token;
  (** [kern_path]: the mode, device and inode number behind a path. *)
  kern_path : bytes -> W -> option (Z * Z * Z) * W;
  d_make_root : W -> bool * W
}.

(** ** State and monad *)

Inductive mutex := dadfs_sb_lock | dadfs_inodes_mgmt_lock | dadfs_directory_children_update_lock.

#[export] Instance mutex_eq_dec : EqDecision mutex.
Proof. solve_decision. Defined.

Record dadfs (W : Type) := Dadfs {
  world : W;
  held : mutex -> bool;
  s_fs_info : dadfs_super_block
}.
Arguments Dadfs {W} _ _ _. Arguments world {W} _. Arguments held {W} _ _. Arguments s_fs_info {W} _.

Abbreviation M W := (ST (dadfs W)).

(** ** Constants of the kernel headers *)

Definition EPERM : Z := -1.
Definition EINTR : Z := -4.
Definition EIO : Z := -5.
Definition ENOMEM : Z := -12.
Definition EFAULT : Z := -14.
Definition ENOTDIR : Z := -20.
Definition EINVAL : Z := -22.
Definition ENOSPC : Z := -28.
Definition S_IFMT : Z := 0xf000.
Definition S_IFDIR : Z := 0x4000.
Definition S_IFREG : Z := 0x8000.
Definition S_IFBLK : Z := 0x6000.
Definition S_ISDIR (m : Z) : bool := bool_decide (Z.land m S_IFMT = S_IFDIR).
Definition S_ISREG (m : Z) : bool := bool_decide (Z.land m S_IFMT = S_IFREG).
Definition S_ISBLK (m : Z) : bool := bool_decide (Z.land m S_IFMT = S_IFBLK).

Inductive fops := dadfs_file_operations | dadfs_dir_operations | no_operations.

(** The VFS inode, with the private copy of the on-disk inode. *)
Record inode := VInode { i_ino : Z; i_mode : Z; i_fop : fops; i_private : option dadfs_inode }.

Definition DADFS_SB {W} (s : dadfs W) : dadfs_super_block := s_fs_info s.
Definition DADFS_INODE (i : inode) : option dadfs_inode := i_private i.

Section ops.
Context {W : Type} `{K : !Kernel W}.
Local Abbreviation M := (M W).
Implicit Types (s : dadfs W).

Definition get_sb : M dadfs_super_block := fun s => Done (DADFS_SB s, s).
Definition set_sb (sb : dadfs_super_block) : M unit := fun s => Done (tt, Dadfs (world s) (held s) sb).
(** A call into the kernel. *)
Definition kcall {A} (f : W -> A * W) : M A :=
  fun s => let '(a, w) := f (world s) in Done (a, Dadfs w (held s) (s_fs_info s)).

Definition set_held (m : mutex) (v : bool) : M unit :=
  fun s => Done (tt, Dadfs (world s) (fun m' => if decide (m' = m) then v else held s m') (s_fs_info s)).

Definition is_held (m : mutex) : M bool := fun s => Done (held s m, s).

(** [mutex_lock_interruptible]: true if it was interrupted. Locking a mutex that
    is already held by this task never returns. *)
Definition mutex_lock_interruptible (m : mutex) : M bool :=
  intr ← kcall signal_pending;
  if intr : bool then mret true else
  h ← is_held m;
  if h : bool then raise Deadlock else
  _ ← set_held m true;
  mret false.

Definition mutex_unlock (m : mutex) : M unit :=
  h ← is_held m;
  if h : bool then set_held m false else raise BadUnlock.

(** [sb_bread] followed by [BUG_ON(!bh)]. *)
Definition sb_bread (n : Z) : M (option bytes) := fun s => Done (bread n (world s), s).
Definition bread_bug (n : Z) : M bytes := o ← sb_bread n; lift (deref Panic o).
Definition store (n : Z) (b : bytes) : M unit := kcall (fun w => (tt, bwrite n b w)).

(** ** Super block and inode store *)

Definition dadfs_sb_sync : M unit :=
  _ ← bread_bug DADFS_SUPERBLOCK_BLOCK_NUMBER;
  sb ← get_sb;
  store DADFS_SUPERBLOCK_BLOCK_NUMBER (encode sb).

(** The index of the inode with the number [no], from [i] on. *)
Fixpoint dadfs_inode_search (fuel : nat) (sb : dadfs_super_block) (blk : bytes) (no : Z) (i : nat)
    : exec (option nat) :=
  match fuel with
  | O => Fault OutOfFuel
  | S fuel =>
      start ← get_at dadfs_inode i blk;
      if decide (inode_no start <> no /\ Z.of_nat i < inodes_count sb)
      then dadfs_inode_search fuel sb blk no (S i)
      else Done (if decide (inode_no start = no) then Some i else None)
  end.

Definition with_inodes_count (n : Z) (sb : dadfs_super_block) : dadfs_super_block :=
  SuperBlock (version sb) (magic sb) (block_size sb) n (free_blocks sb) (journal sb) (padding sb).
Definition with_free_blocks (n : Z) (sb : dadfs_super_block) : dadfs_super_block :=
  SuperBlock (version sb) (magic sb) (block_size sb) (inodes_count sb) n (journal sb) (padding sb).
Definition with_journal (j : Z) (sb : dadfs_super_block) : dadfs_super_block :=
  SuperBlock (version sb) (magic sb) (block_size sb) (inodes_count sb) (free_blocks sb) j (padding sb).

Definition dadfs_inode_add (ino : dadfs_inode) : M unit :=
  intr ← mutex_lock_interruptible dadfs_inodes_mgmt_lock;
  if intr : bool then mret tt else
  blk ← bread_bug DADFS_INODESTORE_BLOCK_NUMBER;
  intr ← mutex_lock_interruptible dadfs_sb_lock;
  if intr : bool then mret tt else
  sb ← get_sb;
  blk ← lift (put_at (Z.to_nat (inodes_count sb)) ino blk);
  _ ← set_sb (with_inodes_count (u64 (inodes_count sb + 1)) sb);
  _ ← store DADFS_INODESTORE_BLOCK_NUMBER blk;
  _ ← dadfs_sb_sync;
  _ ← mutex_unlock dadfs_sb_lock;
  mutex_unlock dadfs_inodes_mgmt_lock.

(** [1 << i] on a 32-bit [int]: beyond bit 30 the C standard defines no result. *)
Definition shl_int (i : nat) : exec Z :=
  if decide (i < 31)%nat then Done (Z.shiftl 1 (Z.of_nat i)) else Fault Undefined.

(** The loop of [dadfs_sb_get_a_freeblock]: [n] more candidates from [i] on. *)
Fixpoint find_free (n : nat) (map : Z) (i : nat) : exec nat :=
  match n with
  | O => Done i
  | S n =>
      bit ← shl_int i;
      if decide (Z.land map bit <> 0) then Done i else find_free n map (S i)
  end.

Definition dadfs_sb_get_a_freeblock : M (Z * Z) :=
  intr ← mutex_lock_interruptible dadfs_sb_lock;
  if intr : bool then _ ← mutex_unlock dadfs_sb_lock; mret (EINTR, 0) else
  sb ← get_sb;
  i ← lift (find_free 61 (free_blocks sb) 3);
  if decide (Z.of_nat i = DADFS_MAX_FILESYSTEM_OBJECTS_SUPPORTED) then
    _ ← mutex_unlock dadfs_sb_lock; mret (ENOSPC, 0)
  else
    bit ← lift (shl_int i);
    _ ← set_sb (with_free_blocks (u64 (Z.land (free_blocks sb) (Z.lnot bit))) sb);
    _ ← dadfs_sb_sync;
    _ ← mutex_unlock dadfs_sb_lock;
    mret (0, Z.of_nat i).

Definition dadfs_sb_get_objects_count : M (Z * Z) :=
  intr ← mutex_lock_interruptible dadfs_inodes_mgmt_lock;
  if intr : bool then mret (EINTR, 0) else
  sb ← get_sb;
  _ ← mutex_unlock dadfs_inodes_mgmt_lock;
  mret (0, inodes_count sb).

(** ** Directories and inodes *)

(** The loop of [dadfs_iterate]: the entries given to [dir_emit], as the
    [MAXLEN] bytes of the name field and the inode number. *)
Fixpoint emit_records (n : nat) (i : nat) (blk : bytes) : exec (list (bytes * Z)) :=
  match n with
  | O => Done []
  | S n =>
      r ← get_at dadfs_dir_record i blk;
      rest ← emit_records n (S i) blk;
      Done ((filename r, rec_inode_no r) :: rest)
  end.

Definition dadfs_iterate (sfs_inode : dadfs_inode) (pos : Z) : M (Z * list (bytes * Z) * Z) :=
  if decide (pos <> 0) then mret (0, [], pos) else
  if S_ISDIR (mode sfs_inode) then
    blk ← bread_bug (data_block_number sfs_inode);
    entries ← lift (emit_records (Z.to_nat (dir_children_count sfs_inode)) 0 blk);
    mret (0, entries, pos + Z.of_nat (length entries) * Z.of_nat (sizeof dadfs_dir_record))
  else mret (ENOTDIR, [], pos).

(** The loop of [dadfs_get_inode] over the [n] inodes from [i] on. *)
Fixpoint find_inode (n : nat) (no : Z) (i : nat) (blk : bytes) : exec (option dadfs_inode) :=
  match n with
  | O => Done None
  | S n =>
      sfs_inode ← get_at dadfs_inode i blk;
      if decide (inode_no sfs_inode = no) then Done (Some sfs_inode) else find_inode n no (S i) blk
  end.

Definition dadfs_get_inode (no : Z) : M (option dadfs_inode) :=
  blk ← bread_bug DADFS_INODESTORE_BLOCK_NUMBER;
  sb ← get_sb;
  found ← lift (find_inode (Z.to_nat (inodes_count sb)) no 0 blk);
  match found with
  | None => mret None
  | Some sfs_inode =>
      ok ← kcall kmem_cache_alloc;
      if ok : bool then mret (Some sfs_inode) else raise NullDeref
  end.

Definition dadfs_inode_save (sfs_inode : dadfs_inode) : M Z :=
  blk ← bread_bug DADFS_INODESTORE_BLOCK_NUMBER;
  intr ← mutex_lock_interruptible dadfs_sb_lock;
  if intr : bool then mret EINTR else
  sb ← get_sb;
  found ← lift (dadfs_inode_search (S (length blk)) sb blk (inode_no sfs_inode) 0);
  match found with
  | Some i =>
      blk ← lift (put_at i sfs_inode blk);
      _ ← store DADFS_INODESTORE_BLOCK_NUMBER blk;
      _ ← mutex_unlock dadfs_sb_lock;
      mret 0
  | None =>
      _ ← mutex_unlock dadfs_sb_lock;
      mret EIO
  end.

(** ** Reading and writing files *)

(** The result, the bytes that reach the user and the new file position. *)
Definition dadfs_read (ino : dadfs_inode) (len pos : Z) : M (Z * bytes * Z) :=
  if decide (u64 pos >= file_size ino) then mret (0, [], pos) else
  bh ← sb_bread (data_block_number ino);
  match bh with
  | None => mret (0, [], pos)
  | Some buffer =>
      let nbytes := i32 (Z.min (file_size ino) len) in
      if decide (0 <= nbytes <= Z.of_nat (length buffer)) then
        let data := take (Z.to_nat nbytes) buffer in
        failed ← kcall (copy_to_user data);
        if failed : bool then mret (EFAULT, [], pos) else mret (nbytes, data, pos + nbytes)
      else raise OutOfBounds
  end.

(** [dadfs_write] as it is compiled for kernels with [current_time], that is
    for [write_iter]: [count] is [iov_iter->count] and [pos] is [ki_pos]. The
    result, the in-memory inode and the new position. *)
Definition dadfs_write (sfs_inode : dadfs_inode) (count pos : Z) : M (Z * dadfs_inode * Z) :=
  sb ← get_sb;
  handle ← kcall (jbd2_journal_start (journal sb));
  if decide (handle < 0) then mret (handle, sfs_inode, pos) else
  retval ← kcall (generic_write_checks pos count);
  if decide (i32 retval <> 0) then mret (i32 retval, sfs_inode, pos) else
  bh ← sb_bread (data_block_number sfs_inode);
  match bh with
  | None => mret (0, sfs_inode, pos)
  | Some blk =>
      retval ← kcall (jbd2_journal_get_write_access (data_block_number sfs_inode));
      if decide (retval <> 0) then mret (retval, sfs_inode, pos) else
      data ← kcall (copy_from_iter count);
      if decide (length data = 0%nat) then mret (EFAULT, sfs_inode, pos) else
      let count := count - Z.of_nat (length data) in
      if decide (pos + Z.of_nat (length data) <= Z.of_nat (length blk)) then
        _ ← store (data_block_number sfs_inode) (blit (Z.to_nat pos) data blk);
        let pos := pos + count in
        retval ← kcall (jbd2_journal_dirty_metadata (data_block_number sfs_inode));
        if decide (retval <> 0) then mret (retval, sfs_inode, pos) else
        retval ← kcall jbd2_journal_stop;
        if decide (retval <> 0) then mret (retval, sfs_inode, pos) else
        intr ← mutex_lock_interruptible dadfs_inodes_mgmt_lock;
        if intr : bool then mret (EINTR, sfs_inode, pos) else
        let sfs_inode := Inode (mode sfs_inode) (inode_no sfs_inode) (data_block_number sfs_inode) pos in
        retval ← dadfs_inode_save sfs_inode;
        _ ← mutex_unlock dadfs_inodes_mgmt_lock;
        if decide (retval <> 0) then mret (retval, sfs_inode, pos) else mret (count, sfs_inode, pos)
      else raise OutOfBounds
  end.

(** ** Creating *)

(** The record of a new child: the inode number is stored first, then [strcpy]
    writes the name and its terminating zero. *)
Definition add_record (i : nat) (no : Z) (name blk : bytes) : exec bytes :=
  let off := (i * sizeof dadfs_dir_record)%nat in
  if decide (off + 264 <= length blk /\ off + S (length name) <= length blk)%nat
  then Done (blit off (name ++ [0]) (blit (off + 256) (le 8 no) blk)) else Fault OutOfBounds.

Definition more_children (p : dadfs_inode) : dadfs_inode :=
  Inode (mode p) (inode_no p) (data_block_number p) (u64 (dir_children_count p + 1)).

(** The result, the parent's in-memory inode, and the inode that was added to
    the dentry. *)
Definition dadfs_create_fs_object (dir : dadfs_inode) (name : bytes) (mode : Z)
    : M (Z * dadfs_inode * option inode) :=
  intr ← mutex_lock_interruptible dadfs_directory_children_update_lock;
  if intr : bool then mret (EINTR, dir, None) else
  '(ret, count) ← dadfs_sb_get_objects_count;
  if decide (ret < 0) then
    _ ← mutex_unlock dadfs_directory_children_update_lock; mret (ret, dir, None) else
  if decide (count >= DADFS_MAX_FILESYSTEM_OBJECTS_SUPPORTED) then
    _ ← mutex_unlock dadfs_directory_children_update_lock; mret (ENOSPC, dir, None) else
  if negb (S_ISDIR mode) && negb (S_ISREG mode) then
    _ ← mutex_unlock dadfs_directory_children_update_lock; mret (EINVAL, dir, None) else
  ok ← kcall new_inode;
  if negb ok then
    _ ← mutex_unlock dadfs_directory_children_update_lock; mret (ENOMEM, dir, None) else
  let ino := u64 (count + DADFS_START_INO - DADFS_RESERVED_INODES + 1) in
  ok ← kcall kmem_cache_alloc;
  if negb ok then raise NullDeref else
  '(ret, block) ← dadfs_sb_get_a_freeblock;
  if decide (ret < 0) then
    _ ← mutex_unlock dadfs_directory_children_update_lock; mret (ret, dir, None) else
  let sfs_inode := Inode mode ino block 0 in
  _ ← dadfs_inode_add sfs_inode;
  blk ← bread_bug (data_block_number dir);
  blk ← lift (add_record (Z.to_nat (dir_children_count dir)) ino name blk);
  _ ← store (data_block_number dir) blk;
  intr ← mutex_lock_interruptible dadfs_inodes_mgmt_lock;
  if intr : bool then
    _ ← mutex_unlock dadfs_directory_children_update_lock; mret (EINTR, dir, None) else
  let dir := more_children dir in
  ret ← dadfs_inode_save dir;
  _ ← mutex_unlock dadfs_inodes_mgmt_lock;
  _ ← mutex_unlock dadfs_directory_children_update_lock;
  if decide (ret <> 0) then mret (ret, dir, None) else
  mret (0, dir, Some (VInode ino mode
    (if S_ISDIR mode then dadfs_dir_operations else dadfs_file_operations) (Some sfs_inode))).

Definition dadfs_mkdir (dir : dadfs_inode) (name : bytes) (mode : Z) : M (Z * dadfs_inode * option inode) :=
  dadfs_create_fs_object dir name (Z.lor S_IFDIR mode).

Definition dadfs_create (dir : dadfs_inode) (name : bytes) (mode : Z) : M (Z * dadfs_inode * option inode) :=
  dadfs_create_fs_object dir name mode.

(** ** Looking up *)

(** A VFS inode before [inode_init_owner] has no mode. *)
Definition dadfs_iget (ino : Z) : M inode :=
  found ← dadfs_get_inode (u64 ino);
  ok ← kcall new_inode;
  if negb ok then raise NullDeref else
  sfs_inode ← lift (deref NullDeref found);
  let fop := if S_ISDIR (mode sfs_inode) then dadfs_dir_operations
             else if S_ISREG (mode sfs_inode) || bool_decide (ino = DADFS_JOURNAL_INODE_NUMBER)
             then dadfs_file_operations else no_operations in
  mret (VInode ino 0 fop (Some sfs_inode)).

(** The [strcmp] of the loop: the name is the string that starts at the record. *)
Definition record_name (i : nat) (blk : bytes) : bytes := cstr (drop (i * sizeof dadfs_dir_record) blk).

Fixpoint find_record (n : nat) (name : bytes) (i : nat) (blk : bytes) : exec (option Z) :=
  match n with
  | O => Done None
  | S n =>
      r ← get_at dadfs_dir_record i blk;
      if decide (record_name i blk = name) then Done (Some (rec_inode_no r))
      else find_record n name (S i) blk
  end.

Definition dadfs_lookup (parent : dadfs_inode) (name : bytes) : M (option inode) :=
  blk ← bread_bug (data_block_number parent);
  found ← lift (find_record (Z.to_nat (dir_children_count parent)) name 0 blk);
  match found with
  | None => mret None
  | Some no =>
      ino ← dadfs_iget (i32 no);
      sfs_inode ← lift (deref NullDeref (DADFS_INODE ino));
      mret (Some (VInode (i_ino ino) (mode sfs_inode) (i_fop ino) (i_private ino)))
  end.

(** ** Mounting *)

Definition dadfs_put_super : M unit :=
  sb ← get_sb;
  _ ← (if decide (journal sb <> 0) then kcall (jbd2_journal_destroy (journal sb)) else mret 0);
  set_sb (with_journal 0 sb).

(** Both ways to load a journal end by storing its pointer. *)
Definition use_journal (j : Z) : M Z :=
  if decide (j = 0) then mret 1 else
  sb ← get_sb;
  _ ← set_sb (with_journal j sb);
  mret 0.

Definition dadfs_load_journal (devnum : Z) : M Z :=
  ok ← kcall (blkdev_get_by_dev devnum);
  if negb ok then mret 1 else
  j ← kcall (jbd2_journal_init_dev devnum);
  use_journal j.

Definition dadfs_sb_load_journal (ino : Z) : M Z :=
  j ← kcall (jbd2_journal_init_inode ino);
  use_journal j.

(** One pass of the [strsep] loop for each comma-separated option. *)
Fixpoint dadfs_parse_options (options : list bytes) : M Z :=
  match options with
  | [] => mret 0
  | p :: options =>
      if decide (p = []) then dadfs_parse_options options else
      match match_token p with
      | Opt_journal_dev None => mret 1
      | Opt_journal_dev (Some arg) =>
          ret ← dadfs_load_journal arg;
          if decide (ret <> 0) then mret ret else dadfs_parse_options options
      | Opt_journal_path path =>
          found ← kcall (kern_path path);
          '(i_mode, i_rdev, i_no) ← lift (deref Undefined found);
          ret ← (if S_ISBLK i_mode then dadfs_load_journal i_rdev else dadfs_sb_load_journal i_no);
          if decide (ret <> 0) then mret ret else dadfs_parse_options options
      | Opt_other => dadfs_parse_options options
      end
  end.

(** The result and the root inode. *)
Definition dadfs_fill_super (options : list bytes) : M (Z * option inode) :=
  blk ← bread_bug DADFS_SUPERBLOCK_BLOCK_NUMBER;
  let sb_disk := decode blk in
  if decide (magic sb_disk <> DADFS_MAGIC) then mret (EPERM, None) else
  if decide (block_size sb_disk <> Z.of_nat DADFS_DEFAULT_BLOCK_SIZE) then mret (EPERM, None) else
  _ ← set_sb (with_journal 0 sb_disk);
  ok ← kcall new_inode;
  if negb ok then raise NullDeref else
  found ← dadfs_get_inode DADFS_ROOTDIR_INODE_NUMBER;
  let root_inode := VInode DADFS_ROOTDIR_INODE_NUMBER S_IFDIR dadfs_dir_operations found in
  ok ← kcall d_make_root;
  if negb ok then mret (ENOMEM, None) else
  ret ← dadfs_parse_options options;
  if decide (ret <> 0) then mret (ret, Some root_inode) else
  sb ← get_sb;
  if decide (journal sb = 0) then
    ino ← dadfs_iget DADFS_JOURNAL_INODE_NUMBER;
    ret ← dadfs_sb_load_journal (i_ino ino);
    mret (ret, Some root_inode)
  else
    ret ← kcall (jbd2_journal_load (journal sb));
    mret (ret, Some root_inode).
End ops.
