(* ===== verification/DadfsInv.v ===== *)
(** * The invariant of a mounted dadfs, and a program logic for its operations

    [wp m s Q]: run in state [s], [m] returns, and [Q] holds of its result and
    the new state.  [fs_inv s l]: no mutex is held and the inode store holds the
    inodes [l]. *)
From S2P Require Import Prelude StateM Layout Dadfs.
Local Open Scope Z_scope.

(** What the operations rely on: buffers hold what was stored in them, and the
    other kernel functions do not change block contents. *)
Class KernelOk (W : Type) `{Kernel W} := {
  bread_eq : forall n b (w : W), bread n (bwrite n b w) = Some b;
  bread_ne : forall n m b (w : W), n <> m -> bread m (bwrite n b w) = bread m w;
  signal_frame : forall n (w : W), bread n (signal_pending w).2 = bread n w;
  new_inode_frame : forall n (w : W), bread n (new_inode w).2 = bread n w;
  kmem_frame : forall n (w : W), bread n (kmem_cache_alloc w).2 = bread n w;
  copy_frame : forall n d (w : W), bread n (copy_to_user d w).2 = bread n w
}.

(** No signals arrive, and memory is found. *)
Class Quiet (W : Type) `{Kernel W} := {
  no_signal : forall w : W, (signal_pending w).1 = false;
  new_inode_ok : forall w : W, (new_inode w).1 = true;
  kmem_ok : forall w : W, (kmem_cache_alloc w).1 = true
}.

Section wp.
Context {W : Type} `{K : !Kernel W}.
Local Abbreviation M := (M W).
Implicit Types (s : dadfs W).

Lemma wp_get_sb s (Q : dadfs_super_block -> dadfs W -> Prop) : Q (s_fs_info s) s -> wp get_sb s Q.
Proof. intros HQ. by exists (s_fs_info s, s). Qed.

Lemma wp_set_sb sb s (Q : unit -> dadfs W -> Prop) : Q tt (Dadfs (world s) (held s) sb) -> wp (set_sb sb) s Q.
Proof. intros HQ. by eexists (tt, _). Qed.

Lemma wp_bread n b s (Q : bytes -> dadfs W -> Prop) :
  bread n (world s) = Some b -> Q b s -> wp (bread_bug n) s Q.
Proof. intros Hb HQ. exists (b, s). split; [|done]. unfold bread_bug, sb_bread, mbind, st_bind. by rewrite Hb. Qed.

(** Two states with the same blocks, super block and mutexes. *)
Definition same_fs s s' : Prop :=
  (forall n, bread n (world s') = bread n (world s)) /\ s_fs_info s' = s_fs_info s /\
  forall m, held s' m = held s m.

Lemma wp_store n b s (Q : unit -> dadfs W -> Prop) :
  Q tt (Dadfs (bwrite n b (world s)) (held s) (s_fs_info s)) -> wp (store n b) s Q.
Proof. intros HQ. by eexists (tt, _). Qed.

Lemma wp_kcall {A} (f : W -> A * W) s (Q : A -> dadfs W -> Prop) :
  Q (f (world s)).1 (Dadfs (f (world s)).2 (held s) (s_fs_info s)) -> wp (kcall f) s Q.
Proof.
  intros HQ. exists ((f (world s)).1, Dadfs (f (world s)).2 (held s) (s_fs_info s)). split; [|done].
  unfold kcall. by destruct (f (world s)).
Qed.

Definition locking (m : mutex) (v : bool) (h : mutex -> bool) : mutex -> bool :=
  fun m' => if decide (m' = m) then v else h m'.

Lemma wp_lock `{Q0 : !Quiet W} m s (Q : bool -> dadfs W -> Prop) :
  held s m = false ->
  Q false (Dadfs (signal_pending (world s)).2 (locking m true (held s)) (s_fs_info s)) ->
  wp (mutex_lock_interruptible m) s Q.
Proof.
  intros Hm HQ. unfold mutex_lock_interruptible. apply wp_bind, wp_kcall. rewrite no_signal.
  apply wp_bind. exists (false, Dadfs (signal_pending (world s)).2 (held s) (s_fs_info s)).
  split; [unfold is_held; simpl; by rewrite Hm|]. apply wp_bind. eexists (tt, _). split; [done|].
  by apply wp_ret.
Qed.

Lemma lock_deadlock m s : (signal_pending (world s)).1 = false -> held s m = true ->
  mutex_lock_interruptible m s = Fault Deadlock.
Proof.
  intros Hs Hm. unfold mutex_lock_interruptible, kcall, mbind, st_bind.
  destruct (signal_pending (world s)) as [i w]. simpl in Hs. subst i. unfold is_held. cbn. by rewrite Hm.
Qed.

Lemma wp_unlock m s (Q : unit -> dadfs W -> Prop) :
  held s m = true -> Q tt (Dadfs (world s) (locking m false (held s)) (s_fs_info s)) ->
  wp (mutex_unlock m) s Q.
Proof.
  intros Hm HQ. unfold mutex_unlock. apply wp_bind. exists (true, s). split; [unfold is_held; by rewrite Hm|].
  by eexists (tt, _).
Qed.
End wp.

(** Run the operation whose turn it is. *)
Ltac wp_step :=
  lazymatch goal with
  | |- wp (_ ≫= _) _ _ => apply wp_bind
  | |- wp (mret _) _ _ => apply wp_ret
  | |- wp get_sb _ _ => apply wp_get_sb
  | |- wp (set_sb _) _ _ => apply wp_set_sb
  | |- wp (store _ _) _ _ => apply wp_store
  | |- wp (kcall _) _ _ => apply wp_kcall
  end; cbn [world held s_fs_info].
Ltac wp_lock := apply wp_lock; [done|]; cbn [world held s_fs_info].
Ltac wp_unlock := apply wp_unlock; [done|]; cbn [world held s_fs_info].

(** ** The inode store *)

Definition store_has (blk : bytes) (l : list dadfs_inode) : Prop :=
  length blk = Z.to_nat 4096 /\ forall i a, l !! i = Some a -> get_at dadfs_inode i blk = Done a.

(** The first inode with a number. *)
Definition find_no (no : Z) (l : list dadfs_inode) : option (nat * dadfs_inode) :=
  list_find (fun a => inode_no a = no) l.

Lemma find_inode_spec no blk l : store_has blk l -> forall l1 l2, l = l1 ++ l2 ->
  (forall a, a ∈ l1 -> inode_no a <> no) ->
  find_inode (length l2) no (length l1) blk = Done (snd <$> find_no no l).
Proof.
  intros [_ Hl] l1 l2. revert l1. induction l2 as [|a l2 IH]; intros l1 -> Hno; cbn [length find_inode].
  - replace (find_no no (l1 ++ [])) with (@None (nat * dadfs_inode)); [done|]. symmetry.
    apply list_find_None. rewrite app_nil_r. by apply Forall_forall.
  - rewrite (Hl (length l1) a) by (by apply list_lookup_middle). cbn [mbind exec_bind].
    case_decide as Ha.
    + replace (find_no no (l1 ++ a :: l2)) with (Some (length l1, a)); [done|]. symmetry.
      apply list_find_Some. split_and!; [by apply list_lookup_middle|done|].
      intros j y Hy Hj. apply Hno. rewrite lookup_app_l in Hy by done. by eapply list_elem_of_lookup_2.
    + specialize (IH (l1 ++ [a])). rewrite length_app in IH. simpl in IH. rewrite Nat.add_1_r in IH.
      rewrite IH; [done|by rewrite <- app_assoc|].
      intros x [?| ->%list_elem_of_singleton]%elem_of_app; [by apply Hno|done].
Qed.

Lemma inode_search_spec fuel sb blk l no k a : store_has blk l -> inodes_count sb = Z.of_nat (length l) ->
  find_no no l = Some (k, a) -> forall i, (i <= k)%nat -> (k - i < fuel)%nat ->
  dadfs_inode_search fuel sb blk no i = Done (Some k).
Proof.
  intros [_ Hl] Hc Hf. apply list_find_Some in Hf as (Hk & Hno & Hbefore).
  apply lookup_lt_Some in Hk as Hlt. induction fuel as [|fuel IH]; intros i Hi Hfu; [lia|].
  cbn [dadfs_inode_search]. destruct (decide (i = k)) as [->|Hne].
  - rewrite (Hl _ _ Hk). cbn [mbind exec_bind]. rewrite decide_False by tauto. by rewrite decide_True.
  - destruct (lookup_lt_is_Some_2 l i) as [b Hb]; [lia|]. rewrite (Hl _ _ Hb). cbn [mbind exec_bind].
    rewrite decide_True; [apply IH; lia|]. split; [|lia]. apply (Hbefore i b); [done|lia].
Qed.

Lemma store_append blk l a : store_has blk l -> valid a -> (length l < 128)%nat ->
  store_has (blit (length l * sizeof dadfs_inode) (encode a) blk) (l ++ [a]).
Proof.
  intros [Hlen Hl] Ha Hn. assert (((length l + 1) * sizeof dadfs_inode <= length blk)%nat).
  { rewrite Hlen. unfold sizeof, inode_struct. lia. }
  split.
  - rewrite length_blit; [done|]. rewrite (length_encode a Ha). lia.
  - intros i b Hb. destruct (decide (i = length l)) as [->|Hi].
    + rewrite list_lookup_middle in Hb by done. simplify_eq. by apply get_put_eq.
    + rewrite get_put_ne by (done || lia). apply Hl.
      apply lookup_app_Some in Hb as [Hb|[Hge Hb]]; [done|]. exfalso.
      apply lookup_lt_Some in Hb. simpl in Hb. lia.
Qed.

Lemma store_update blk l i a : store_has blk l -> valid a -> (i < length l <= 128)%nat ->
  store_has (blit (i * sizeof dadfs_inode) (encode a) blk) (<[i := a]> l).
Proof.
  intros [Hlen Hl] Ha Hn. assert (((i + 1) * sizeof dadfs_inode <= length blk)%nat).
  { rewrite Hlen. unfold sizeof, inode_struct. lia. }
  split.
  - rewrite length_blit; [done|]. rewrite (length_encode a Ha). lia.
  - intros j b Hb. destruct (decide (j = i)) as [->|Hj].
    + rewrite list_lookup_insert_eq in Hb by lia. simplify_eq. by apply get_put_eq.
    + rewrite get_put_ne by (done || lia). apply Hl. by rewrite list_lookup_insert_ne in Hb.
Qed.

(** ** The free map *)

Lemma land_bit map k : 0 <= k -> Z.land map (Z.shiftl 1 k) <> 0 <-> Z.testbit map k = true.
Proof.
  intros Hk. rewrite Z.shiftl_1_l. split.
  - intros Hne. destruct (Z.testbit map k) eqn:Hb; [done|]. destruct Hne. apply Z.bits_inj'. intros n Hn.
    rewrite Z.land_spec, Z.bits_0. destruct (decide (n = k)) as [->|Hnk]; [by rewrite Hb|].
    rewrite Z.pow2_bits_false by lia. apply andb_false_r.
  - intros Hb H0. assert (Ht : Z.testbit (Z.land map (2 ^ k)) k = true).
    { rewrite Z.land_spec, Hb, Z.pow2_bits_true by lia. done. }
    by rewrite H0, Z.bits_0 in Ht.
Qed.

Lemma find_free_found n map i k :
  (i <= k)%nat -> (k < i + n)%nat -> (k < 31)%nat -> Z.testbit map (Z.of_nat k) = true ->
  (forall j, (i <= j < k)%nat -> Z.testbit map (Z.of_nat j) = false) ->
  find_free n map i = Done k.
Proof.
  revert i. induction n as [|n IH]; intros i Hi Hk H31 Hbit Hclear; [lia|]. cbn [find_free].
  unfold shl_int. rewrite decide_True by lia. cbn [mbind exec_bind].
  destruct (decide (i = k)) as [->|Hne].
  - rewrite decide_True; [done|]. apply land_bit; [lia|done].
  - rewrite decide_False; [apply IH; try lia; [done|intros j Hj; apply Hclear; lia]|].
    rewrite land_bit by lia. rewrite Hclear by lia. done.
Qed.

Lemma find_free_undefined n map i :
  (i <= 31)%nat -> (31 < i + n)%nat -> (forall j, (i <= j < 31)%nat -> Z.testbit map (Z.of_nat j) = false) ->
  find_free n map i = Fault Undefined.
Proof.
  revert i. induction n as [|n IH]; intros i Hi Hn Hclear; [lia|]. cbn [find_free].
  unfold shl_int. case_decide as H31; [|done]. cbn [mbind exec_bind].
  rewrite decide_False; [apply IH; try lia; intros j Hj; apply Hclear; lia|].
  rewrite land_bit by lia. rewrite Hclear by lia. done.
Qed.

(** The map after block [k] has been taken. *)
Definition taken (k : nat) (map : Z) : Z := u64 (Z.land map (Z.lnot (Z.shiftl 1 (Z.of_nat k)))).

Lemma taken_testbit k map n : 0 <= n < 64 ->
  Z.testbit (taken k map) n = (Z.testbit map n && negb (bool_decide (n = Z.of_nat k))).
Proof.
  intros Hn. unfold taken, u64, wrap. rewrite Z.mod_pow2_bits_low by lia.
  rewrite Z.land_spec, Z.lnot_spec by lia. f_equal. f_equal. rewrite Z.shiftl_1_l.
  destruct (decide (n = Z.of_nat k)) as [->|Hne].
  - rewrite Z.pow2_bits_true by lia. by rewrite bool_decide_true.
  - rewrite Z.pow2_bits_false by lia. by rewrite bool_decide_false.
Qed.

(** ** Directory blocks *)

Definition dir_entry (blk : bytes) (i : nat) (name : bytes) (no : Z) : Prop :=
  is_name name /\ (length name <= 255)%nat /\ u64_ok no /\ (i < 15)%nat /\
  slice (i * 264) (S (length name)) blk = name ++ [0] /\ slice (i * 264 + 256) 8 blk = le 8 no.

Definition dir_has (blk : bytes) (es : list (bytes * Z)) : Prop :=
  length blk = Z.to_nat 4096 /\
  forall i name no, es !! i = Some (name, no) -> dir_entry blk i name no.

Lemma dir_entry_name blk i name no : dir_entry blk i name no -> record_name i blk = name.
Proof.
  intros (Hn & _ & _ & _ & Hs & _). unfold record_name. change (sizeof dadfs_dir_record) with 264%nat.
  rewrite <- (take_drop (S (length name)) (drop (i * 264) blk)). unfold slice in Hs. rewrite Hs.
  rewrite <- app_assoc. by apply cstr_app.
Qed.

Lemma dir_entry_get blk i name no : length blk = Z.to_nat 4096 -> dir_entry blk i name no ->
  exists r, get_at dadfs_dir_record i blk = Done r /\ rec_inode_no r = no.
Proof.
  intros Hlen (_ & _ & Hno & Hi & _ & Hs). unfold get_at. change (sizeof dadfs_dir_record) with 264%nat.
  rewrite decide_True by lia. eexists. split; [done|]. unfold decode, dir_record_struct. cbn [rec_inode_no].
  replace (slice 256 8 _) with (le 8 no); [by apply unle_le|]. rewrite <- Hs. unfold slice.
  rewrite skipn_firstn_comm, drop_drop, take_take. f_equal; lia.
Qed.

Lemma find_record_spec name blk l : dir_has blk l -> forall l1 l2, l = l1 ++ l2 ->
  (forall e, e ∈ l1 -> e.1 <> name) ->
  find_record (length l2) name (length l1) blk =
    Done ((fun p => p.2.2) <$> list_find (fun e => e.1 = name) l).
Proof.
  intros [Hlen Hl] l1 l2. revert l1. induction l2 as [|[nm no] l2 IH]; intros l1 -> Hno; cbn [length find_record].
  - replace (list_find _ (l1 ++ [])) with (@None (nat * (bytes * Z))); [done|]. symmetry.
    apply list_find_None. rewrite app_nil_r. by apply Forall_forall.
  - assert (Hmid : (l1 ++ (nm, no) :: l2) !! length l1 = Some (nm, no)) by (by apply list_lookup_middle).
    pose proof (Hl _ _ _ Hmid) as He. destruct (dir_entry_get _ _ _ _ Hlen He) as (r & -> & Hr).
    cbn [mbind exec_bind]. rewrite (dir_entry_name _ _ _ _ He). case_decide as Ha.
    + replace (list_find _ _) with (Some (length l1, (nm, no))); [by rewrite Hr|]. symmetry.
      apply list_find_Some. split_and!; [done|done|].
      intros j y Hy Hj. apply Hno. rewrite lookup_app_l in Hy by done. by eapply list_elem_of_lookup_2.
    + specialize (IH (l1 ++ [(nm, no)])). rewrite length_app in IH. simpl in IH. rewrite Nat.add_1_r in IH.
      rewrite IH; [done|by rewrite <- app_assoc|].
      intros x [?| ->%list_elem_of_singleton]%elem_of_app; [by apply Hno|done].
Qed.

Lemma add_record_spec blk es name no : dir_has blk es -> (length es < 15)%nat ->
  is_name name -> (length name <= 255)%nat -> u64_ok no ->
  exists blk', add_record (length es) no name blk = Done blk' /\ dir_has blk' (es ++ [(name, no)]).
Proof.
  intros [Hlen Hl] Hes Hn Hnl Hno. unfold add_record. change (sizeof dadfs_dir_record) with 264%nat.
  set (off := (length es * 264)%nat). assert (off + 264 <= 4096)%nat as Hoff by (unfold off; lia).
  rewrite decide_True by lia. eexists. split; [done|].
  set (blk1 := blit (off + 256) (le 8 no) blk).
  assert (Hl1 : length blk1 = Z.to_nat 4096) by (unfold blk1; rewrite length_blit; [done|rewrite length_le; lia]).
  assert (Hnm : length (name ++ [0]) = S (length name)) by (rewrite length_app; simpl; lia).
  split; [rewrite length_blit; [done|lia]|].
  intros i nm n Hi. apply lookup_snoc_Some in Hi as [[Hi He]|[-> [= <- <-]]].
  - destruct (Hl i nm n He) as (? & ? & ? & ? & Hs1 & Hs2).
    assert (i * 264 + 264 <= off)%nat by (unfold off; lia).
    split_and!; try done.
    + rewrite slice_blit_before by lia. unfold blk1. rewrite slice_blit_before by (rewrite ?length_le; lia). done.
    + rewrite slice_blit_before by lia. unfold blk1. rewrite slice_blit_before by (rewrite ?length_le; lia). done.
  - fold off. split_and!; try done.
    + rewrite <- Hnm. apply slice_blit. lia.
    + rewrite slice_blit_after by lia. pose proof (slice_blit (off + 256) (le 8 no) blk) as Hs.
      rewrite length_le in Hs. apply Hs. lia.
Qed.
