(* ===== verification/DadfsOps.v ===== *)
(** * The operations of dadfs on a well-formed file system

    Specifications of the operations of [Dadfs] for runs without signals, in
    terms of the inode list and the directory entries they abstract to. *)
From S2P Require Import Prelude StateM Layout Dadfs DadfsInv.
Local Open Scope Z_scope.

Section dadfs_ops.
Context {W : Type} `{KO : KernelOk W} `{Q0 : !Quiet W}.
Implicit Types (s : dadfs W) (a : dadfs_inode) (l : list dadfs_inode).

(** Mutexes are as they were. *)
Definition same_locks s s' : Prop := forall m, held s' m = held s m.

Lemma unlock_lock m (h : mutex -> bool) m' : h m = false -> locking m false (locking m true h) m' = h m'.
Proof. intros Hm. unfold locking. destruct (decide (m' = m)) as [->|]; done. Qed.

Lemma locking_eq m v (h : mutex -> bool) : locking m v h m = v.
Proof. unfold locking. by rewrite decide_True. Qed.

Lemma locking_ne m m' v (h : mutex -> bool) : m' <> m -> locking m v h m' = h m'.
Proof. intros Hm. unfold locking. by rewrite decide_False. Qed.

(** *** Pieces *)

Lemma sb_sync_wp s (Q : unit -> dadfs W -> Prop) :
  is_Some (bread 0 (world s)) ->
  Q tt (Dadfs (bwrite 0 (encode (s_fs_info s)) (world s)) (held s) (s_fs_info s)) ->
  wp dadfs_sb_sync s Q.
Proof.
  intros [b Hb] HQ. unfold dadfs_sb_sync. wp_step. eapply wp_bread; [exact Hb|].
  by repeat wp_step.
Qed.

Lemma objects_count_wp s : held s dadfs_inodes_mgmt_lock = false ->
  wp dadfs_sb_get_objects_count s (fun r s' => r = (0, inodes_count (s_fs_info s)) /\ same_fs s s').
Proof.
  intros Hh. unfold dadfs_sb_get_objects_count. wp_step. wp_lock. cbn. repeat wp_step.
  apply wp_unlock; [apply locking_eq|]. repeat wp_step. split; [done|]. split_and!.
  - intros n. simpl. apply signal_frame.
  - done.
  - intros m. simpl. by apply unlock_lock.
Qed.

Definition same_blocks (except : list Z) s s' : Prop :=
  forall n, n ∉ except -> bread n (world s') = bread n (world s).

Lemma freeblock_wp s b :
  held s dadfs_sb_lock = false -> is_Some (bread 0 (world s)) ->
  find_free 61 (free_blocks (s_fs_info s)) 3 = Done b -> (b < 31)%nat ->
  wp dadfs_sb_get_a_freeblock s (fun r s' => r = (0, Z.of_nat b) /\
    s_fs_info s' = with_free_blocks (taken b (free_blocks (s_fs_info s))) (s_fs_info s) /\
    same_locks s s' /\ same_blocks [0] s s' /\ is_Some (bread 0 (world s'))).
Proof.
  intros Hh Hb Hf Hlt. unfold dadfs_sb_get_a_freeblock. wp_step. wp_lock. cbn. repeat wp_step.
  eapply wp_lift; [exact Hf|]. rewrite decide_False by (unfold DADFS_MAX_FILESYSTEM_OBJECTS_SUPPORTED; lia).
  wp_step. eapply wp_lift; [unfold shl_int; by rewrite decide_True|]. repeat wp_step.
  apply sb_sync_wp; cbn [world]; [by rewrite signal_frame|]. cbn [world held s_fs_info]. wp_step.
  apply wp_unlock; [apply locking_eq|]. wp_step. split_and!; [done|done| | |].
  - intros m. simpl. by apply unlock_lock.
  - intros n Hn. simpl. rewrite bread_ne by set_solver. apply signal_frame.
  - simpl. rewrite bread_eq. eauto.
Qed.

Lemma inode_add_wp s a blk l :
  held s dadfs_sb_lock = false -> held s dadfs_inodes_mgmt_lock = false ->
  is_Some (bread 0 (world s)) -> bread 1 (world s) = Some blk -> store_has blk l ->
  inodes_count (s_fs_info s) = Z.of_nat (length l) -> (length l < 128)%nat -> valid a ->
  wp (dadfs_inode_add a) s (fun _ s' =>
    s_fs_info s' = with_inodes_count (Z.of_nat (length (l ++ [a]))) (s_fs_info s) /\
    same_locks s s' /\ same_blocks [0; 1] s s' /\ is_Some (bread 0 (world s')) /\
    exists blk', bread 1 (world s') = Some blk' /\ store_has blk' (l ++ [a])).
Proof.
  intros Hh1 Hh2 H0 H1 Hst Hc Hlt Ha. unfold dadfs_inode_add. wp_step. wp_lock. cbn. wp_step.
  eapply wp_bread; [cbn; rewrite signal_frame; exact H1|]. cbn. wp_step.
  apply wp_lock; [cbn; by rewrite locking_ne|]. cbn. repeat wp_step.
  eapply wp_lift.
  { rewrite Hc, Nat2Z.id. apply put_at_done. destruct Hst as [-> _]. unfold sizeof, inode_struct. lia. }
  repeat wp_step. apply sb_sync_wp; cbn [world].
  { rewrite bread_ne by done. by rewrite !signal_frame. }
  cbn [world held s_fs_info]. wp_step. apply wp_unlock; [apply locking_eq|].
  apply wp_unlock; [cbn; rewrite locking_ne, locking_ne, locking_eq by done; done|]. split_and!.
  - simpl. f_equal. rewrite Hc, u64_small; rewrite ?length_app; simpl; lia.
  - intros m. simpl. unfold locking. repeat case_decide; subst; done.
  - intros n Hn. simpl. rewrite !bread_ne by set_solver. by rewrite !signal_frame.
  - simpl. rewrite bread_eq. eauto.
  - eexists. simpl. rewrite bread_ne, bread_eq by done. split; [done|]. by apply store_append.
Qed.

Lemma inode_save_wp s a k a0 blk l :
  held s dadfs_sb_lock = false -> bread 1 (world s) = Some blk -> store_has blk l ->
  inodes_count (s_fs_info s) = Z.of_nat (length l) -> (length l <= 128)%nat -> valid a ->
  find_no (inode_no a) l = Some (k, a0) ->
  wp (dadfs_inode_save a) s (fun r s' => r = 0 /\ s_fs_info s' = s_fs_info s /\
    same_locks s s' /\ same_blocks [1] s s' /\
    exists blk', bread 1 (world s') = Some blk' /\ store_has blk' (<[k := a]> l)).
Proof.
  intros Hh1 H1 Hst Hc Hlt Ha Hf. pose proof Hf as (Hk & _ & _)%list_find_Some.
  apply lookup_lt_Some in Hk. pose proof Hst as [Hlen _].
  unfold dadfs_inode_save. wp_step. eapply wp_bread; [exact H1|]. wp_step. wp_lock. cbv beta iota. repeat wp_step.
  eapply wp_lift; [eapply inode_search_spec; try done; lia|]. cbv beta iota. wp_step.
  eapply wp_lift; [apply put_at_done; rewrite Hlen; unfold sizeof, inode_struct; lia|]. repeat wp_step.
  apply wp_unlock; [apply locking_eq|]. wp_step. split_and!; [done|done| | |].
  - intros m. simpl. by apply unlock_lock.
  - intros n Hn. simpl. rewrite bread_ne by set_solver. apply signal_frame.
  - eexists. simpl. rewrite bread_eq. split; [done|]. by apply store_update.
Qed.

(** ** The invariant *)

Record fs_inv s l : Prop := FsInv {
  fi_locks : forall m, held s m = false;
  fi_count : inodes_count (s_fs_info s) = Z.of_nat (length l);
  fi_max : (length l <= 64)%nat;
  fi_super : is_Some (bread 0 (world s));
  fi_store : exists blk, bread 1 (world s) = Some blk /\ store_has blk l;
  fi_valid : Forall valid l;
  (** The number that [dadfs_create_fs_object] would give next is not taken. *)
  fi_fresh : forall a, a ∈ l -> inode_no a < Z.of_nat (length l) + 8;
  fi_nodup : NoDup (inode_no <$> l);
  (** No object's data lies in the super block or the inode store. *)
  fi_data : forall a, a ∈ l -> data_block_number a <> 0 /\ data_block_number a <> 1
}.

(** The entries of a directory. *)
Definition dir_of s a (es : list (bytes * Z)) : Prop :=
  dir_children_count a = Z.of_nat (length es) /\
  exists blk, bread (data_block_number a) (world s) = Some blk /\ dir_has blk es.

Lemma find_no_nodup l k a : NoDup (inode_no <$> l) -> l !! k = Some a -> find_no (inode_no a) l = Some (k, a).
Proof.
  intros Hnd Hk. apply list_find_Some. split_and!; [done|done|]. intros j b Hb Hj Heq.
  assert (j = k); [|lia]. apply (NoDup_lookup (inode_no <$> l) j k (inode_no a)); [done| |].
  - rewrite list_lookup_fmap, Hb. simpl. by rewrite Heq.
  - by rewrite list_lookup_fmap, Hk.
Qed.

Lemma find_no_app no l l' p : find_no no l = Some p -> find_no no (l ++ l') = Some p.
Proof.
  destruct p as [k a]. intros (Hk & Hn & Hb)%list_find_Some. apply lookup_lt_Some in Hk as Hlt.
  apply list_find_Some. split_and!; [by apply lookup_app_l_Some|done|].
  intros j b Hb' Hj. apply (Hb j); [|done]. rewrite lookup_app_l in Hb' by lia. done.
Qed.

Lemma fs_inv_fresh s l : fs_inv s l -> (Z.of_nat (length l) + 8) ∉ inode_no <$> l.
Proof. intros Hinv (a & Heq & Ha)%list_elem_of_fmap. pose proof (fi_fresh _ _ Hinv a Ha). lia. Qed.

(** A directory elsewhere keeps its entries. *)
Lemma dir_of_frame s s' a es : bread (data_block_number a) (world s') = bread (data_block_number a) (world s) ->
  dir_of s a es -> dir_of s' a es.
Proof. intros Hb [? (blk & Hblk & Hd)]. split; [done|]. exists blk. by rewrite Hb. Qed.

(** ** Creating *)

(** The block that will be allocated: the lowest set bit of the free map among
    the bits 3 to 30. *)
Definition next_free (map : Z) (b : nat) : Prop :=
  (3 <= b < 31)%nat /\ Z.testbit map (Z.of_nat b) = true /\
  forall j, (3 <= j < b)%nat -> Z.testbit map (Z.of_nat j) = false.

Lemma next_free_find map b : next_free map b -> find_free 61 map 3 = Done b.
Proof. intros (Hb & Hbit & Hcl). apply find_free_found; try lia; [done|]. intros j Hj. by apply Hcl. Qed.

Definition child s l (mode : Z) (b : nat) : dadfs_inode := Inode mode (Z.of_nat (length l) + 8) (Z.of_nat b) 0.

Definition fop_of (mode : Z) : fops := if S_ISDIR mode then dadfs_dir_operations else dadfs_file_operations.

Definition created s l k (dir : dadfs_inode) es name mode b
    (r : Z * dadfs_inode * option inode) s' : Prop :=
  let new := child s l mode b in
  r = (0, more_children dir, Some (VInode (inode_no new) mode (fop_of mode) (Some new))) /\
  fs_inv s' (<[k := more_children dir]> l ++ [new]) /\
  dir_of s' (more_children dir) (es ++ [(name, inode_no new)]) /\
  free_blocks (s_fs_info s') = taken b (free_blocks (s_fs_info s)) /\
  same_blocks [0; 1; data_block_number dir] s s'.

Lemma more_children_valid dir (es : list (bytes * Z)) : valid dir -> dir_children_count dir = Z.of_nat (length es) ->
  (length es < 15)%nat -> valid (more_children dir) /\
  dir_children_count (more_children dir) = Z.of_nat (length es) + 1.
Proof.
  intros (? & ? & ? & ?) Hc Hes. unfold more_children. cbn [size_or_children].
  rewrite Hc, u64_small by lia. split; [|done].
  split_and!; cbn [mode inode_no data_block_number size_or_children]; unfold u64_ok in *; lia.
Qed.

Lemma created_inv s l k dir mode b sb' w' h' :
  fs_inv s l -> (length l < 64)%nat -> l !! k = Some dir -> valid (more_children dir) ->
  0 <= mode < 2 ^ 32 -> (3 <= b < 31)%nat ->
  (forall m, h' m = false) -> is_Some (bread 0 w') ->
  inodes_count sb' = Z.of_nat (length l + 1) ->
  (exists blk, bread 1 w' = Some blk /\ store_has blk (<[k := more_children dir]> l ++ [child s l mode b])) ->
  fs_inv (Dadfs w' h' sb') (<[k := more_children dir]> l ++ [child s l mode b]).
Proof.
  intros Hinv Hlt Hk Hv Hm Hb Hh H0 Hc Hst. pose proof (lookup_lt_Some _ _ _ Hk) as Hkl.
  assert (Hnos : inode_no <$> (<[k := more_children dir]> l ++ [child s l mode b]) =
                 (inode_no <$> l) ++ [Z.of_nat (length l) + 8]).
  { rewrite fmap_app, list_fmap_insert. cbn. f_equal.
    apply list_insert_id. by rewrite list_lookup_fmap, Hk. }
  assert (Hmem : forall x, x ∈ <[k := more_children dir]> l ++ [child s l mode b] ->
    x = more_children dir \/ x ∈ l \/ x = child s l mode b).
  { intros x [Hx| ->%list_elem_of_singleton]%elem_of_app; [|tauto].
    apply list_elem_of_lookup in Hx as [i Hx]. apply list_lookup_insert_Some in Hx as [(? & ? & ?)|[? Hx]]; [by left|].
    right; left. by eapply list_elem_of_lookup_2. }
  assert (Hdir : dir ∈ l) by (by eapply list_elem_of_lookup_2).
  split; cbn [held s_fs_info world]; try done.
  - rewrite Hc, length_app, length_insert. done.
  - rewrite length_app, length_insert. simpl. lia.
  - apply Forall_app. split; [apply Forall_insert; [apply (fi_valid _ _ Hinv)|done]|].
    apply Forall_singleton. unfold child. split_and!; cbn [Layout.mode inode_no data_block_number size_or_children]; unfold u64_ok; lia.
  - intros x Hx. rewrite length_app, length_insert. cbn [length].
    destruct (Hmem x Hx) as [->|[Hx'| ->]].
    + pose proof (fi_fresh _ _ Hinv dir Hdir). simpl. lia.
    + pose proof (fi_fresh _ _ Hinv x Hx'). lia.
    + simpl. lia.
  - rewrite Hnos. apply NoDup_app. split_and!; [apply (fi_nodup _ _ Hinv)| |apply NoDup_singleton].
    intros x Hx ->%list_elem_of_singleton. by apply (fs_inv_fresh s l Hinv).
  - intros x Hx. destruct (Hmem x Hx) as [->|[Hx'| ->]].
    + by apply (fi_data _ _ Hinv dir).
    + by apply (fi_data _ _ Hinv x).
    + simpl. lia.
Qed.

Lemma create_wp s l k dir es name mode b :
  fs_inv s l -> (length l < 64)%nat -> l !! k = Some dir -> dir_of s dir es -> (length es < 15)%nat ->
  S_ISDIR mode || S_ISREG mode = true -> 0 <= mode < 2 ^ 32 ->
  is_name name -> (length name <= 255)%nat -> next_free (free_blocks (s_fs_info s)) b ->
  wp (dadfs_create_fs_object dir name mode) s (created s l k dir es name mode b).
Proof.
  intros Hinv Hlt Hk Hdir Hes Hmode Hmr Hname Hnl Hfree.
  pose proof Hinv as [Hlocks Hcount _ Hsuper (blk1 & H1 & Hst) Hvalid Hfresh Hnd Hdata].
  pose proof Hdir as [Hdc (dblk & Hdblk & Hhas)].
  assert (Hdin : dir ∈ l) by (by eapply list_elem_of_lookup_2).
  destruct (Hdata dir Hdin) as [Hd0 Hd1].
  assert (Hvd : valid dir) by (rewrite Forall_forall in Hvalid; by apply Hvalid).
  destruct (more_children_valid dir es Hvd Hdc Hes) as [Hvm Hmc].
  unfold dadfs_create_fs_object. wp_step. apply wp_lock; [done|]. cbv beta iota. wp_step.
  set (s1 := Dadfs _ _ _).
  eapply wp_mono; [apply (objects_count_wp s1); cbn; by rewrite locking_ne|].
  intros [ret count] s2 [[= -> ->] (Hb2 & Hs2 & Hl2)]. cbv beta iota.
  rewrite decide_False by lia. change (s_fs_info s1) with (s_fs_info s). rewrite Hcount.
  rewrite decide_False by (unfold DADFS_MAX_FILESYSTEM_OBJECTS_SUPPORTED; lia).
  rewrite <- negb_orb, Hmode. cbn [negb]. wp_step. wp_step. rewrite new_inode_ok. cbn [negb].
  wp_step. wp_step. rewrite kmem_ok. cbn [negb]. wp_step.
  set (s3 := Dadfs _ _ _).
  assert (Hb3 : forall n, bread n (world s3) = bread n (world s)).
  { intros n. simpl. rewrite kmem_frame, new_inode_frame, Hb2. apply signal_frame. }
  assert (Hi3 : s_fs_info s3 = s_fs_info s) by exact Hs2.
  assert (Hl3 : forall m, held s3 m = locking dadfs_directory_children_update_lock true (held s) m) by exact Hl2.
  eapply wp_mono.
  { apply (freeblock_wp s3 b); [by rewrite Hl3, locking_ne|by rewrite Hb3| |apply Hfree].
    rewrite Hi3. by apply next_free_find. }
  intros [ret2 blkno] s4 ([= -> ->] & Hi4 & Hl4 & Hb4 & H04). cbv beta iota.
  rewrite decide_False by lia. cbv zeta.
  replace (u64 (Z.of_nat (length l) + DADFS_START_INO - DADFS_RESERVED_INODES + 1))
    with (Z.of_nat (length l) + 8) by (rewrite u64_small; unfold DADFS_START_INO, DADFS_RESERVED_INODES; lia).
  fold (child s l mode b). set (new := child s l mode b).
  assert (Hvn : valid new).
  { destruct Hfree as [Hb _]. unfold new, child.
    split_and!; cbn [Layout.mode inode_no data_block_number size_or_children]; unfold u64_ok; lia. }
  wp_step. eapply wp_mono.
  { apply (inode_add_wp s4 new blk1 l); try done.
    - by rewrite Hl4, Hl3, locking_ne.
    - by rewrite Hl4, Hl3, locking_ne.
    - rewrite Hb4 by set_solver. by rewrite Hb3.
    - rewrite Hi4, Hi3. simpl. by rewrite Hcount.
    - lia. }
  intros [] s5 (Hi5 & Hl5 & Hb5 & H05 & blk5 & H15 & Hst5).
  assert (Hother : forall n, n <> 0 -> n <> 1 -> bread n (world s5) = bread n (world s)).
  { intros n ? ?. rewrite Hb5, Hb4, Hb3 by set_solver. done. }
  wp_step. eapply wp_bread; [rewrite Hother by done; exact Hdblk|]. wp_step.
  destruct (add_record_spec dblk es name (inode_no new)) as (dblk' & Hadd & Hhas'); try done.
  { unfold new, child, u64_ok. cbn [inode_no]. lia. }
  eapply wp_lift; [rewrite Hdc, Nat2Z.id; exact Hadd|]. cbv beta. wp_step. wp_step. wp_step.
  apply wp_lock; [cbn [held]; by rewrite Hl5, Hl4, Hl3, locking_ne|]. cbv beta iota zeta. wp_step.
  set (s6 := Dadfs _ _ _).
  assert (Hb6 : forall n, bread n (world s6) =
    if decide (n = data_block_number dir) then Some dblk' else bread n (world s5)).
  { intros n. simpl. rewrite signal_frame. case_decide; [subst; apply bread_eq|by rewrite bread_ne]. }
  eapply wp_mono.
  { apply (inode_save_wp s6 (more_children dir) k dir blk5 (l ++ [new])).
    - cbn. by rewrite locking_ne, Hl5, Hl4, Hl3, locking_ne.
    - by rewrite Hb6, decide_False by done.
    - done.
    - cbn. rewrite Hi5. done.
    - rewrite length_app. simpl. lia.
    - done.
    - apply find_no_app. exact (find_no_nodup l k dir Hnd Hk). }
  intros ret3 s7 (-> & Hi7 & Hl7 & Hb7 & blk7 & H17 & Hst7). wp_step.
  apply wp_unlock; [rewrite Hl7; apply locking_eq|]. wp_step.
  apply wp_unlock; [cbn; rewrite locking_ne, Hl7 by done; cbn; by rewrite locking_ne, Hl5, Hl4, Hl3, locking_eq|].
  rewrite decide_False by tauto. wp_step.
  assert (Hkl : (k < length l)%nat) by (by eapply lookup_lt_Some).
  assert (Hi7' : s_fs_info s7 = with_inodes_count (Z.of_nat (length (l ++ [new])))
     (with_free_blocks (taken b (free_blocks (s_fs_info s))) (s_fs_info s))).
  { rewrite Hi7. cbn. by rewrite Hi5, Hi4, Hi3. }
  split_and!.
  - done.
  - apply created_inv; try done.
    + apply Hfree.
    + intros m. unfold locking. repeat case_decide; try done. rewrite Hl7. cbn.
      rewrite locking_ne by done. rewrite Hl5, Hl4, Hl3. by rewrite locking_ne.
    + rewrite Hb7, Hb6 by set_solver. by rewrite decide_False.
    + rewrite Hi7'. cbn [inodes_count with_inodes_count]. by rewrite length_app.
    + exists blk7. split; [done|]. by rewrite <- insert_app_l.
  - split; [rewrite Hmc, length_app; simpl; lia|].
    exists dblk'. split; [|done]. cbn [world].
    change (data_block_number (more_children dir)) with (data_block_number dir).
    rewrite Hb7, Hb6 by set_solver. by rewrite decide_True.
  - cbn [s_fs_info]. by rewrite Hi7'.
  - intros n Hn. cbn [world]. rewrite Hb7, Hb6 by set_solver. rewrite decide_False by set_solver.
    apply Hother; set_solver.
Qed.

(** ** Finding inodes and names *)

Lemma get_inode_wp s l no : fs_inv s l ->
  wp (dadfs_get_inode no) s (fun r s' => r = snd <$> find_no no l /\ same_fs s s').
Proof.
  intros Hinv. pose proof Hinv as [_ Hcount _ _ (blk & H1 & Hst) _ _ _ _].
  unfold dadfs_get_inode. wp_step. eapply wp_bread; [exact H1|]. repeat wp_step.
  eapply wp_lift; [rewrite Hcount, Nat2Z.id; apply (find_inode_spec no blk l Hst [] l eq_refl); set_solver|].
  destruct (find_no no l) as [[k a]|]; cbn.
  - repeat wp_step. rewrite kmem_ok. wp_step. split; [done|]. split_and!; [intros n; apply kmem_frame|done|done].
  - wp_step. split; [done|]. by split_and!.
Qed.

(** The VFS inode that stands for an on-disk inode. *)
Definition vinode (no : Z) (m : Z) a : inode :=
  VInode no m (if S_ISDIR (mode a) then dadfs_dir_operations
               else if S_ISREG (mode a) || bool_decide (no = DADFS_JOURNAL_INODE_NUMBER)
               then dadfs_file_operations else no_operations) (Some a).

Lemma iget_wp s l no k a : fs_inv s l -> find_no (u64 no) l = Some (k, a) ->
  wp (dadfs_iget no) s (fun r s' => r = vinode no 0 a /\ same_fs s s').
Proof.
  intros Hinv Hf. unfold dadfs_iget. wp_step. eapply wp_mono; [by apply (get_inode_wp s l)|].
  intros r s1 (-> & Hb1 & Hi1 & Hl1). rewrite Hf. cbn. repeat wp_step. rewrite new_inode_ok. cbn [negb].
  wp_step. eapply wp_lift; [done|]. wp_step. split; [done|]. split_and!; [|done|done].
  intros n. cbn. by rewrite new_inode_frame.
Qed.

Lemma lookup_wp s l dir es name : fs_inv s l -> dir_of s dir es ->
  (forall no, (name, no) ∈ es -> 0 <= no < 2 ^ 31 /\ is_Some (find_no no l)) ->
  wp (dadfs_lookup dir name) s (fun r s' => same_fs s s' /\
    r = p ← list_find (fun e => e.1 = name) es; q ← find_no p.2.2 l;
        Some (vinode p.2.2 (mode q.2) q.2)).
Proof.
  intros Hinv [Hc (blk & Hblk & Hhas)] Hnos. unfold dadfs_lookup. wp_step.
  eapply wp_bread; [exact Hblk|]. wp_step.
  eapply wp_lift; [rewrite Hc, Nat2Z.id; apply (find_record_spec name blk es Hhas [] es eq_refl); set_solver|].
  destruct (list_find _ es) as [[i [nm no]]|] eqn:Hf; cbn [fmap option_fmap option_map snd].
  - apply list_find_Some in Hf as (Hi & Hnm & _). simpl in Hnm. subst nm.
    destruct (Hnos no) as [Hr [[k a] Ha]]; [by eapply list_elem_of_lookup_2|].
    rewrite i32_small by lia. wp_step. eapply wp_mono.
    { apply (iget_wp s l no k a); [done|]. rewrite u64_small by lia. done. }
    intros r s1 [-> Hs1]. wp_step. eapply wp_lift; [done|]. wp_step. split; [done|]. cbn. by rewrite Ha.
  - wp_step. split; [by split_and!|done].
Qed.

(** ** Reading *)

Lemma read_wp s a blk len pos :
  bread (data_block_number a) (world s) = Some blk -> 0 <= pos < 2 ^ 63 -> 0 <= len < 2 ^ 31 ->
  0 <= file_size a <= Z.of_nat (length blk) -> (forall d w, (copy_to_user d w).1 = false) ->
  wp (dadfs_read a len pos) s (fun r s' => same_fs s s' /\
    r = if decide (pos < file_size a)
        then let n := Z.min (file_size a) len in (n, take (Z.to_nat n) blk, pos + n)
        else (0, [], pos)).
Proof.
  intros Hblk Hpos Hlen Hsize Hcopy. unfold dadfs_read. rewrite u64_small by lia.
  case_decide as He; [rewrite decide_False by lia; wp_step; split; [by split_and!|done]|].
  rewrite decide_True by lia. wp_step. exists (Some blk, s).
  split; [unfold sb_bread; by rewrite Hblk|]. cbn [fst snd].
  rewrite i32_small by lia. rewrite decide_True by lia. wp_step. wp_step. rewrite Hcopy. wp_step.
  split; [|done]. split_and!; [intros n; apply copy_frame|done|done].
Qed.

(** ** Well-formedness does not depend on the rest of the world *)

Lemma fs_inv_same s s' l : same_fs s s' -> fs_inv s l -> fs_inv s' l.
Proof.
  intros (Hb & Hi & Hl) [? ? ? ? ? ? ? ? ?]. split; rewrite ?Hi, ?Hb; try done.
  intros m. by rewrite Hl.
Qed.

Lemma fs_inv_sb s l sb : inodes_count sb = inodes_count (s_fs_info s) -> fs_inv s l ->
  fs_inv (Dadfs (world s) (held s) sb) l.
Proof. intros Hc [? ? ? ? ? ? ? ? ?]. split; try done. simpl. by rewrite Hc. Qed.

Lemma dir_of_same s s' a es : same_fs s s' -> dir_of s a es -> dir_of s' a es.
Proof. intros (Hb & _). apply dir_of_frame. apply Hb. Qed.
End dadfs_ops.
