(* ===== verification/Mkfs.v ===== *)
(** * Formatting: [Lab/Lab 7/dadfs/mkfs-dadfs.c]

    The program writes the image in file order; [write] and [lseek] on the opened
    device are the parameters [Posix].  The stack contents of the fields that
    [write_journal_inode] leaves uninitialised are arguments. *)
From S2P Require Import Prelude StateM Layout Dadfs DadfsInv DadfsOps.
From Stdlib Require Ascii String.
Local Open Scope Z_scope.

Class Posix (F : Type) := {
  write : bytes -> F -> Z * F;
  lseek_cur : Z -> F -> Z * F
}.

Definition WELCOMEFILE_DATABLOCK_NUMBER : Z := DADFS_LAST_RESERVED_BLOCK + 1.
Definition WELCOMEFILE_INODE_NUMBER : Z := DADFS_LAST_RESERVED_INODE + 1.

Definition chars (s : string) : bytes := (fun c => Z.of_nat (Ascii.nat_of_ascii c)) <$> String.list_ascii_of_string s.

(** [char welcomefile_body[]], with its terminating zero. *)
Definition welcomefile_body : bytes :=
  chars "Congratulations, I'm proud of you. Dad" ++ [10; 0].

Definition welcome_name : bytes := chars "awordfromdad".

(** [(~0) & ~(1 << DADFS_LAST_RESERVED_BLOCK)], an [int], stored in 64 bits. *)
Definition mkfs_free_blocks : Z :=
  u64 (Z.land (-1) (Z.lnot (Z.shiftl 1 DADFS_LAST_RESERVED_BLOCK))).

Definition mkfs_super_block : dadfs_super_block :=
  SuperBlock 1 DADFS_MAGIC (Z.of_nat DADFS_DEFAULT_BLOCK_SIZE) WELCOMEFILE_INODE_NUMBER mkfs_free_blocks 0
    (replicate (Z.to_nat 4048) 0).

Definition root_inode : dadfs_inode :=
  Inode S_IFDIR DADFS_ROOTDIR_INODE_NUMBER DADFS_ROOTDIR_DATABLOCK_NUMBER 1.
Definition journal_inode (mode children : Z) : dadfs_inode :=
  Inode mode DADFS_JOURNAL_INODE_NUMBER DADFS_JOURNAL_BLOCK_NUMBER children.
Definition welcome : dadfs_inode :=
  Inode S_IFREG WELCOMEFILE_INODE_NUMBER WELCOMEFILE_DATABLOCK_NUMBER (Z.of_nat (length welcomefile_body)).
Definition welcome_record : dadfs_dir_record :=
  DirRecord (welcome_name ++ replicate (DADFS_FILENAME_MAXLEN - length welcome_name) 0) WELCOMEFILE_INODE_NUMBER.

Section mkfs.
Context {F : Type} `{P : !Posix F}.
Implicit Types f : F.

(** A write that must be complete. *)
Definition write_all (b : bytes) f : Z * F :=
  let '(ret, f) := write b f in
  if decide (ret <> Z.of_nat (length b)) then (-1, f) else (0, f).

Definition seek (n : Z) f : Z * F :=
  let '(ret, f) := lseek_cur n f in if decide (ret = -1) then (-1, f) else (0, f).

(** [if (a) break; b]. *)
Definition then_do (a : F -> Z * F) (b : F -> Z * F) f : Z * F :=
  let '(r, f) := a f in if decide (r <> 0) then (r, f) else b f.

Definition write_superblock f : Z * F :=
  let '(ret, f) := write (encode mkfs_super_block) f in
  if decide (ret <> Z.of_nat DADFS_DEFAULT_BLOCK_SIZE) then (-1, f) else (0, f).
Definition write_root_inode f : Z * F := write_all (encode root_inode) f.
Definition write_journal_inode (mode children : Z) f : Z * F := write_all (encode (journal_inode mode children)) f.
Definition write_welcome_inode (i : dadfs_inode) f : Z * F :=
  then_do (write_all (encode i)) (seek (Z.of_nat DADFS_DEFAULT_BLOCK_SIZE - Z.of_nat (sizeof dadfs_inode) * 3)) f.
Definition write_journal f : Z * F := seek (Z.of_nat DADFS_DEFAULT_BLOCK_SIZE * DADFS_JOURNAL_BLOCKS) f.
Definition write_dirent (record : dadfs_dir_record) f : Z * F :=
  then_do (write_all (encode record))
    (seek (Z.of_nat DADFS_DEFAULT_BLOCK_SIZE - Z.of_nat (sizeof dadfs_dir_record))) f.
Definition write_block (block : bytes) f : Z * F := write_all block f.

(** The [do { ... } while (0)] of [main]; its result is 0 on success and 1
    otherwise. *)
Definition mkfs (mode children : Z) f : Z * F :=
  let '(r, f) :=
    then_do write_superblock (then_do write_root_inode (then_do (write_journal_inode mode children)
      (then_do (write_welcome_inode welcome) (then_do write_journal
        (then_do (write_dirent welcome_record) (write_block welcomefile_body)))))) f in
  if decide (r = 0) then (0, f) else (1, f).

(** ** A device of sufficient size *)

Class Device := {
  contents : F -> bytes;
  offset : F -> nat;
  write_ok : forall b f, (offset f + length b <= length (contents f))%nat ->
    (write b f).1 = Z.of_nat (length b) /\
    contents (write b f).2 = blit (offset f) b (contents f) /\
    offset (write b f).2 = (offset f + length b)%nat;
  lseek_ok : forall n f, 0 <= n -> (lseek_cur n f).1 = Z.of_nat (offset f) + n /\
    contents (lseek_cur n f).2 = contents f /\
    offset (lseek_cur n f).2 = (offset f + Z.to_nat n)%nat
}.
Context `{D : !Device}.

(** [runs_to m f c o]: [m] succeeds and leaves the contents [c] and the offset [o]. *)
Definition leaves (m : F -> Z * F) f (c : bytes) (o : nat) : Prop :=
  (m f).1 = 0 /\ contents (m f).2 = c /\ offset (m f).2 = o.

Lemma write_all_leaves b f : (offset f + length b <= length (contents f))%nat ->
  leaves (write_all b) f (blit (offset f) b (contents f)) (offset f + length b)%nat.
Proof.
  intros Hb. destruct (write_ok b f Hb) as (Hr & Hc & Ho). unfold leaves, write_all.
  destruct (write b f) as [r f']. simpl in *. rewrite decide_False by lia. done.
Qed.

Lemma seek_leaves n f : 0 <= n -> leaves (seek n) f (contents f) (offset f + Z.to_nat n)%nat.
Proof.
  intros Hn. destruct (lseek_ok n f Hn) as (Hr & Hc & Ho). unfold leaves, seek.
  destruct (lseek_cur n f) as [r f']. simpl in *. rewrite decide_False by lia. done.
Qed.

Lemma then_do_leaves m1 m2 f c1 o1 c2 o2 : leaves m1 f c1 o1 ->
  (forall f', contents f' = c1 -> offset f' = o1 -> leaves m2 f' c2 o2) ->
  leaves (then_do m1 m2) f c2 o2.
Proof.
  intros (Hr & Hc & Ho) H2. unfold leaves, then_do in *. destruct (m1 f) as [r f']. simpl in *.
  rewrite decide_False by lia. by apply H2.
Qed.

Lemma length_chars s : length (chars s) = String.length s.
Proof. unfold chars. rewrite length_fmap. induction s; simpl; [done|by f_equal]. Qed.

(** ** The image *)

Definition image (jmode jchildren : Z) (c : bytes) : bytes :=
  blit (Z.to_nat 20480) welcomefile_body
    (blit (Z.to_nat 16384) (encode welcome_record)
      (blit (Z.to_nat 4160) (encode welcome)
        (blit (Z.to_nat 4128) (encode (journal_inode jmode jchildren))
          (blit (Z.to_nat 4096) (encode root_inode)
            (blit 0 (encode mkfs_super_block) c))))).

Definition journal_garbage (jmode jchildren : Z) : Prop := 0 <= jmode < 2 ^ 32 /\ u64_ok jchildren.

Lemma valid_super : valid mkfs_super_block.
Proof.
  unfold valid, super_block_struct, mkfs_super_block, u64_ok.
  cbn [version magic block_size inodes_count free_blocks journal padding].
  rewrite length_replicate. split_and!; done.
Qed.

Lemma valid_root : valid root_inode.
Proof. unfold valid, inode_struct, u64_ok. by split_and!. Qed.
Lemma valid_journal jm jc : journal_garbage jm jc -> valid (journal_inode jm jc).
Proof. intros [[? ?] [? ?]]. unfold valid, inode_struct, u64_ok. by split_and!. Qed.
Lemma valid_welcome : valid welcome.
Proof. unfold valid, inode_struct, u64_ok. by split_and!. Qed.
Lemma valid_record : valid welcome_record.
Proof. unfold valid, dir_record_struct, u64_ok. by split_and!. Qed.

Lemma length_inode (a : dadfs_inode) : valid a -> length (encode a) = 32%nat.
Proof. exact (length_encode a). Qed.
Lemma length_record : length (encode welcome_record) = 264%nat.
Proof. exact (length_encode welcome_record valid_record). Qed.
Lemma length_super : length (encode mkfs_super_block) = Z.to_nat 4096.
Proof. rewrite (length_encode mkfs_super_block valid_super). done. Qed.
Lemma length_body : length welcomefile_body = 40%nat.
Proof. done. Qed.

Lemma write_all_at b f c o o' : contents f = c -> offset f = o -> (o + length b <= length c)%nat ->
  o' = (o + length b)%nat -> leaves (write_all b) f (blit o b c) o'.
Proof. intros <- <- Hb ->. by apply write_all_leaves. Qed.

Lemma seek_at n f c o o' : contents f = c -> offset f = o -> 0 <= n -> o' = (o + Z.to_nat n)%nat ->
  leaves (seek n) f c o'.
Proof. intros <- <- Hn ->. by apply seek_leaves. Qed.

Lemma superblock_at f c : contents f = c -> offset f = 0%nat -> (Z.to_nat 4096 <= length c)%nat ->
  leaves write_superblock f (blit 0 (encode mkfs_super_block) c) (Z.to_nat 4096).
Proof.
  intros Hc Ho Hl. pose proof (write_all_at (encode mkfs_super_block) f c 0 (Z.to_nat 4096)) as Hw.
  unfold write_all in Hw. rewrite length_super in Hw. apply Hw; done || lia.
Qed.

Lemma mkfs_writes jm jc f : journal_garbage jm jc -> offset f = 0%nat ->
  (Z.to_nat 24576 <= length (contents f))%nat ->
  (mkfs jm jc f).1 = 0 /\ contents (mkfs jm jc f).2 = image jm jc (contents f).
Proof.
  intros Hj Ho Hlen. set (c0 := contents f) in *.
  assert (Hmain : leaves (then_do write_superblock (then_do write_root_inode
      (then_do (write_journal_inode jm jc) (then_do (write_welcome_inode welcome) (then_do write_journal
        (then_do (write_dirent welcome_record) (write_block welcomefile_body))))))) f
      (image jm jc c0) (Z.to_nat 20520)).
  { assert (Hlr := length_inode root_inode valid_root).
    assert (Hlj := length_inode (journal_inode jm jc) (valid_journal jm jc Hj)).
    assert (Hlw := length_inode welcome valid_welcome). pose proof length_record as Hlc.
    pose proof length_super as Hls. pose proof length_body as Hlb.
    eapply then_do_leaves; [apply (superblock_at f c0); done || lia|]. intros f1 Hc1 Ho1.
    set (c1 := blit 0 _ c0) in *. assert (length c1 = length c0) as Hl1 by (apply length_blit; lia).
    eapply then_do_leaves; [apply (write_all_at _ _ _ _ (Z.to_nat 4128) Hc1 Ho1); lia|]. intros f2 Hc2 Ho2.
    set (c2 := blit _ _ c1) in *. assert (length c2 = length c0) as Hl2 by (unfold c2; rewrite length_blit; lia).
    eapply then_do_leaves; [apply (write_all_at _ _ _ _ (Z.to_nat 4160) Hc2 Ho2); lia|]. intros f3 Hc3 Ho3.
    set (c3 := blit _ _ c2) in *. assert (length c3 = length c0) as Hl3 by (unfold c3; rewrite length_blit; lia).
    eapply then_do_leaves; [eapply then_do_leaves|].
    { apply (write_all_at _ _ _ _ (Z.to_nat 4192) Hc3 Ho3); lia. }
    { intros f4 Hc4 Ho4. apply (seek_at _ _ _ _ (Z.to_nat 8192) Hc4 Ho4); done || lia. }
    intros f4 Hc4 Ho4.
    set (c4 := blit _ _ c3) in *. assert (length c4 = length c0) as Hl4 by (unfold c4; rewrite length_blit; lia).
    eapply then_do_leaves; [apply (seek_at _ _ _ _ (Z.to_nat 16384) Hc4 Ho4); done || lia|]. intros f5 Hc5 Ho5.
    eapply then_do_leaves; [eapply then_do_leaves|].
    { apply (write_all_at _ _ _ _ (Z.to_nat 16648) Hc5 Ho5); lia. }
    { intros f6 Hc6 Ho6. apply (seek_at _ _ _ _ (Z.to_nat 20480) Hc6 Ho6); done || lia. }
    intros f6 Hc6 Ho6.
    set (c6 := blit _ _ c4) in *. assert (length c6 = length c0) as Hl6 by (unfold c6; rewrite length_blit; lia).
    unfold write_block, image. fold c0 c1 c2 c3 c4 c6.
    apply (write_all_at welcomefile_body f6 c6 (Z.to_nat 20480) (Z.to_nat 20520) Hc6 Ho6); rewrite Hlb; lia. }
  destruct Hmain as (Hr & Hc & _). unfold mkfs. destruct (then_do _ _ f) as [r f']. simpl in *.
  by rewrite decide_True.
Qed.

Section image.
Context (jm jc : Z) (c : bytes).
Hypothesis Hj : journal_garbage jm jc.
Hypothesis Hc : (Z.to_nat 24576 <= length c)%nat.

Lemma image_lengths :
  length (encode root_inode) = 32%nat /\ length (encode (journal_inode jm jc)) = 32%nat /\
  length (encode welcome) = 32%nat /\ length (encode welcome_record) = 264%nat /\
  length (encode mkfs_super_block) = Z.to_nat 4096 /\ length welcomefile_body = 40%nat.
Proof.
  split_and!; [apply length_inode, valid_root|by apply length_inode, valid_journal|
    apply length_inode, valid_welcome|apply length_record|apply length_super|done].
Qed.

Ltac lens := rewrite ?length_blit by (rewrite ?length_blit by (rewrite ?length_blit by (rewrite ?length_blit by
  (rewrite ?length_blit by lia; lia); lia); lia); lia); lia.

Lemma image_length : length (image jm jc c) = length c.
Proof.
  destruct image_lengths as (Hlr & Hlj & Hlw & Hlc & Hls & Hlb). unfold image.
  rewrite length_blit; lens.
Qed.

Lemma image_super : slice 0 (Z.to_nat 4096) (image jm jc c) = encode mkfs_super_block.
Proof.
  destruct image_lengths as (Hlr & Hlj & Hlw & Hlc & Hls & Hlb). unfold image.
  rewrite !slice_blit_before by lens. rewrite <- Hls at 1. apply slice_blit. lia.
Qed.

Lemma store_has_nil (blk : bytes) : length blk = Z.to_nat 4096 -> store_has blk [].
Proof. intros Hl. split; [done|]. by intros i a Hi. Qed.

Lemma image_store : store_has (slice (Z.to_nat 4096) (Z.to_nat 4096) (image jm jc c))
  [root_inode; journal_inode jm jc; welcome].
Proof.
  destruct image_lengths as (Hlr & Hlj & Hlw & Hlc & Hls & Hlb). unfold image.
  rewrite (slice_blit_before _ _ _ _ (Z.to_nat 20480)) by lens.
  rewrite (slice_blit_before _ _ _ _ (Z.to_nat 16384)) by lens.
  rewrite (slice_blit_inside (Z.to_nat 4160)) by lens.
  rewrite (slice_blit_inside (Z.to_nat 4128)) by lens.
  rewrite (slice_blit_inside (Z.to_nat 4096)) by lens.
  set (blk := slice _ _ _).
  assert (Hb : store_has blk []) by (apply store_has_nil, length_slice; lens).
  apply (store_append _ _ root_inode) in Hb; [|apply valid_root|simpl; lia].
  apply (store_append _ _ (journal_inode jm jc)) in Hb; [|by apply valid_journal|simpl; lia].
  apply (store_append _ _ welcome) in Hb; [|apply valid_welcome|simpl; lia]. exact Hb.
Qed.

Lemma image_root_dir : dir_has (slice (Z.to_nat 16384) (Z.to_nat 4096) (image jm jc c))
  [(welcome_name, WELCOMEFILE_INODE_NUMBER)].
Proof.
  destruct image_lengths as (Hlr & Hlj & Hlw & Hlc & Hls & Hlb). unfold image.
  rewrite (slice_blit_before _ _ _ _ (Z.to_nat 20480)) by lens.
  rewrite (slice_blit_inside (Z.to_nat 16384)) by lens.
  replace (Z.to_nat 16384 - Z.to_nat 16384)%nat with 0%nat by lia.
  set (blk := slice _ _ _). assert (Hb : length blk = Z.to_nat 4096) by (apply length_slice; lens).
  split; [rewrite length_blit; lia|]. intros [|i] name no Hi; [injection Hi as <- <-|done].
  unfold dir_entry. split; [|split; [|split; [|split; [|split]]]].
  - repeat constructor; done || lia.
  - vm_compute. lia.
  - unfold u64_ok. vm_compute. by split.
  - lia.
  - change (0 * 264)%nat with (0 + 0)%nat. rewrite slice_blit_within by (rewrite Hlc; cbn; lia).
    vm_compute. reflexivity.
  - change (0 * 264 + 256)%nat with (0 + 256)%nat. rewrite slice_blit_within by (rewrite Hlc; lia).
    vm_compute. reflexivity.
Qed.

Lemma image_body : take 40 (slice (Z.to_nat 20480) (Z.to_nat 4096) (image jm jc c)) = welcomefile_body.
Proof.
  destruct image_lengths as (Hlr & Hlj & Hlw & Hlc & Hls & Hlb). unfold image.
  rewrite slice_take by lia. rewrite <- Hlb at 1. apply slice_blit. lens.
Qed.
End image.
End mkfs.
