(* ===== verification/DadfsProps.v ===== *)
(** * What dadfs guarantees, and where it does not

    The properties of [base.c] and [mkfs-dadfs.c], with instances on a kernel
    whose buffer cache is a finite map. *)
From S2P Require Import Prelude StateM Layout Dadfs DadfsInv DadfsOps Mkfs.
Local Open Scope Z_scope.

(** ** Further kernel behaviour *)

(** Mounting and the journal leave block contents alone; the root dentry and the
    journal inode are accepted. *)
Class JournalOk (W : Type) `{Kernel W} := {
  root_ok : forall w : W, (d_make_root w).1 = true;
  root_frame : forall n (w : W), bread n (d_make_root w).2 = bread n w;
  init_inode_ok : forall i (w : W), (jbd2_journal_init_inode i w).1 <> 0;
  init_inode_frame : forall n i (w : W), bread n (jbd2_journal_init_inode i w).2 = bread n w;
  start_ok : forall j (w : W), 0 <= (jbd2_journal_start j w).1;
  start_frame : forall n j (w : W), bread n (jbd2_journal_start j w).2 = bread n w;
  checks_frame : forall n p c (w : W), bread n (generic_write_checks p c w).2 = bread n w
}.

Section dadfs_props.
Context {W : Type} `{KO : KernelOk W}.
Implicit Types (s : dadfs W) (a dir : dadfs_inode) (l : list dadfs_inode) (es : list (bytes * Z)).

(** Arrays of the on-disk structures: an element that was stored is read back
    as it was, all other elements of the block are unchanged, and the length of
    the block is kept, for inodes, directory records and any structure with a
    lawful layout. *)
Theorem array_roundtrip (A : Type) `{CStructOk A} (i j : nat) (x : A) blk :
  valid x -> ((i + 1) * sizeof A <= length blk)%nat ->
  exists blk', put_at i x blk = Done blk' /\ length blk' = length blk /\
    get_at A i blk' = Done x /\ (j <> i -> get_at A j blk' = get_at A j blk).
Proof.
  intros Hx Hi. eexists. split; [by apply put_at_done|]. split_and!.
  - rewrite length_blit; [done|]. rewrite (length_encode x Hx). lia.
  - by apply get_put_eq.
  - intros Hj. by apply get_put_ne.
Qed.

(** C9: Creating a file or directory in a well-formed file system without
    signals succeeds while fewer than 64 objects exist, the directory has fewer
    than 15 entries and one of the blocks 3 to 30 is free. It takes the lowest
    free block, appends an inode with a fresh number to the inode store, appends
    the name to the directory, counts the child in the parent, changes no block
    but the super block, the inode store and the directory, and keeps the
    invariant. *)
Theorem create_spec `{Q0 : !Quiet W} s l k dir es name mode b :
  fs_inv s l -> (length l < 64)%nat -> l !! k = Some dir -> dir_of s dir es -> (length es < 15)%nat ->
  S_ISDIR mode || S_ISREG mode = true -> 0 <= mode < 2 ^ 32 ->
  is_name name -> (length name <= 255)%nat -> next_free (free_blocks (s_fs_info s)) b ->
  wp (dadfs_create_fs_object dir name mode) s (created s l k dir es name mode b).
Proof. apply create_wp. Qed.

Definition good_entry l (e : bytes * Z) : Prop := 0 <= e.2 < 2 ^ 31 /\ is_Some (find_no e.2 l).

(** C11: [dadfs_lookup] finds the first entry with the name and returns the inode
    it names, with the mode and the operations of its type; without such an
    entry it returns no inode. Nothing on disk changes. *)
Theorem lookup_spec `{Q0 : !Quiet W} s l dir es name :
  fs_inv s l -> dir_of s dir es -> Forall (good_entry l) es ->
  wp (dadfs_lookup dir name) s (fun r s' => same_fs s s' /\
    r = p ← list_find (fun e => e.1 = name) es; q ← find_no p.2.2 l;
        Some (vinode p.2.2 (mode q.2) q.2)).
Proof.
  intros Hinv Hdir Hgood. apply lookup_wp; [done|done|]. intros no Hin.
  rewrite Forall_forall in Hgood. exact (Hgood _ Hin).
Qed.

(** C10: What is created is found: after creating a name that the directory did
    not have, looking it up in the updated directory returns the new inode, and
    every other directory of the file system keeps its entries. *)
Theorem create_then_lookup `{Q0 : !Quiet W} s l k dir es name mode b :
  fs_inv s l -> (length l < 64)%nat -> l !! k = Some dir -> dir_of s dir es -> (length es < 15)%nat ->
  Forall (good_entry l) es -> name ∉ es.*1 ->
  S_ISDIR mode || S_ISREG mode = true -> 0 <= mode < 2 ^ 32 ->
  is_name name -> (length name <= 255)%nat -> next_free (free_blocks (s_fs_info s)) b ->
  wp ('(_, dir, _) ← dadfs_create_fs_object dir name mode; dadfs_lookup dir name) s (fun r s' =>
    r = Some (vinode (inode_no (child s l mode b)) mode (child s l mode b)) /\
    forall a es', a ∈ l -> data_block_number a <> data_block_number dir -> dir_of s a es' -> dir_of s' a es').
Proof.
  intros Hinv Hlt Hk Hdir Hes Hgood Hnew Hmode Hmr Hname Hnl Hfree.
  apply wp_bind. eapply wp_mono; [by eapply create_wp|].
  intros [[ret dir'] oi] s1 ([= -> -> ->] & Hinv1 & Hdir1 & Hfb & Hsame). cbv beta iota.
  set (new := child s l mode b) in *. set (l1 := <[k := more_children dir]> l ++ [new]) in *.
  assert (Hnew1 : find_no (inode_no new) l1 = Some (length l, new)).
  { apply (find_no_nodup l1); [apply (fi_nodup _ _ Hinv1)|]. unfold l1.
    rewrite lookup_app_r by (rewrite length_insert; lia). by rewrite length_insert, Nat.sub_diag. }
  eapply wp_mono.
  - apply (lookup_wp s1 l1); [done|done|]. intros no [Hin|Heq%list_elem_of_singleton]%elem_of_app.
    + rewrite Forall_forall in Hgood. destruct (Hgood _ Hin) as [Hr [[i a] Ha]]. simpl in Hr, Ha.
      split; [done|]. apply list_find_Some in Ha as (Hi & Hno & _).
      assert (Hex : exists i' a', l1 !! i' = Some a' /\ inode_no a' = no).
      { exists i. destruct (decide (i = k)) as [->|Hik].
        - exists (more_children dir). assert (a = dir) as -> by congruence. split; [|done]. unfold l1.
          apply lookup_app_l_Some. apply list_lookup_insert_eq. by eapply lookup_lt_Some.
        - exists a. split; [|done]. unfold l1. apply lookup_app_l_Some. by rewrite list_lookup_insert_ne. }
      destruct Hex as (i' & a' & Hi' & <-).
      rewrite (find_no_nodup l1 i' a'); [eauto|apply (fi_nodup _ _ Hinv1)|done].
    + apply (f_equal snd) in Heq. cbn [snd] in Heq. rewrite Heq, Hnew1. split; [|eauto]. unfold new, child. cbn [inode_no]. lia.
  - intros r s2 [Hs2 ->]. split.
    + replace (list_find _ _) with (Some (length es, (name, inode_no new))).
      { cbn [mbind option_bind snd]. by rewrite Hnew1. }
      symmetry. apply list_find_Some. split_and!; [by apply list_lookup_middle|done|].
      intros j [nm no] Hj Hlt' Heq. simpl in Heq. subst nm. apply Hnew.
      rewrite lookup_app_l in Hj by done. apply list_elem_of_fmap. exists (name, no).
      split; [done|]. by eapply list_elem_of_lookup_2.
    + intros a es' Ha Hne Hd. eapply dir_of_frame; [|exact Hd]. destruct Hs2 as (Hb & _). rewrite Hb.
      destruct (fi_data _ _ Hinv a Ha). apply Hsame. set_solver.
Qed.

(** C12: The guards of creation: with 64 objects the answer is [ENOSPC], and a mode
    that is neither a directory nor a regular file is refused with [EINVAL]; in
    both cases no block changes, no mutex stays held and the parent is as it
    was. *)
Theorem create_refused `{Q0 : !Quiet W} s l dir name mode :
  fs_inv s l -> length l = 64%nat \/ (S_ISDIR mode = false /\ S_ISREG mode = false) ->
  wp (dadfs_create_fs_object dir name mode) s (fun r s' =>
    r = (if decide (length l = 64%nat) then ENOSPC else EINVAL, dir, None) /\ same_fs s s').
Proof.
  intros Hinv Hbad. pose proof Hinv as [Hlocks Hcount Hmax _ _ _ _ _ _].
  unfold dadfs_create_fs_object. wp_step. apply wp_lock; [done|]. cbv beta iota. wp_step.
  set (s1 := Dadfs _ _ _). eapply wp_mono; [apply (objects_count_wp s1); cbn; by rewrite locking_ne|].
  intros [ret count] s2 [[= -> ->] (Hb2 & Hs2 & Hl2)]. cbv beta iota.
  rewrite decide_False by lia. change (s_fs_info s1) with (s_fs_info s). rewrite Hcount.
  assert (Hend : forall s3, s3 = Dadfs (world s2) (locking dadfs_directory_children_update_lock false (held s2)) (s_fs_info s2) ->
    same_fs s s3).
  { intros s3 ->. split_and!.
    - intros n. cbn. rewrite Hb2. apply signal_frame.
    - exact Hs2.
    - intros m. cbn. unfold locking at 1. case_decide as Hm; [by rewrite Hlocks|].
      rewrite Hl2. cbn. by rewrite locking_ne. }
  assert (Hheld : held s2 dadfs_directory_children_update_lock = true) by (rewrite Hl2; apply locking_eq).
  destruct (decide (length l = 64%nat)) as [Hfull|Hfull].
  - rewrite decide_True by (unfold DADFS_MAX_FILESYSTEM_OBJECTS_SUPPORTED; lia).
    wp_step. apply wp_unlock; [done|]. wp_step. split; [done|by apply Hend].
  - destruct Hbad as [?|[-> ->]]; [done|].
    rewrite decide_False by (unfold DADFS_MAX_FILESYSTEM_OBJECTS_SUPPORTED; lia). cbn [negb andb].
    wp_step. apply wp_unlock; [done|]. wp_step. split; [done|by apply Hend].
Qed.

(** The block allocator hands out the lowest set bit of the free map among
    the bits 3 to 30 and clears exactly that bit, all other bits and blocks but
    the super block unchanged. When those bits are all clear it does not report
    [ENOSPC]: the shift [1 << 31] of a 32-bit [int] that it evaluates next has no
    defined result, although blocks 31 to 63 may be free. *)
Theorem freeblock_spec `{Q0 : !Quiet W} s :
  held s dadfs_sb_lock = false -> is_Some (bread 0 (world s)) ->
  (forall b, next_free (free_blocks (s_fs_info s)) b ->
     wp dadfs_sb_get_a_freeblock s (fun r s' => r = (0, Z.of_nat b) /\ same_locks s s' /\
       same_blocks [0] s s' /\
       forall n, 0 <= n < 64 -> Z.testbit (free_blocks (s_fs_info s')) n =
         Z.testbit (free_blocks (s_fs_info s)) n && negb (bool_decide (n = Z.of_nat b)))) /\
  ((forall j, (3 <= j < 31)%nat -> Z.testbit (free_blocks (s_fs_info s)) (Z.of_nat j) = false) ->
     dadfs_sb_get_a_freeblock s = Fault Undefined).
Proof.
  intros Hh Hsup. split.
  - intros b Hb. eapply wp_mono.
    { apply (freeblock_wp s b); [done|done|by apply next_free_find|apply Hb]. }
    intros r s' (-> & -> & Hl & Hbl & _). split_and!; [done|done|done|].
    intros n Hn. cbn [free_blocks with_free_blocks]. by apply taken_testbit.
  - intros Hclear. unfold dadfs_sb_get_a_freeblock.
    destruct (wp_lock dadfs_sb_lock s (fun (i : bool) s1 => i = false /\ s_fs_info s1 = s_fs_info s)) as ([i s1] & Hr & [Hf Hi]);
      [done|done|].
    simpl in Hf, Hi. subst i. unfold mbind, st_bind. rewrite Hr. cbn [get_sb]. unfold get_sb, lift, DADFS_SB.
    rewrite Hi, find_free_undefined; [done|lia|lia|done].
Qed.

(** The free map that [mkfs-dadfs] writes marks the journal's second block and
    the data block of the welcome file as free: on a freshly formatted file
    system the first block that is allocated is block 3 and the second is
    block 5, which holds the welcome file. *)
Theorem mkfs_map_collides `{Q0 : !Quiet W} s :
  held s dadfs_sb_lock = false -> is_Some (bread 0 (world s)) ->
  free_blocks (s_fs_info s) = mkfs_free_blocks ->
  wp ('(_, b1) ← dadfs_sb_get_a_freeblock; '(_, b2) ← dadfs_sb_get_a_freeblock; mret (b1, b2)) s (fun r _ =>
    r.1 = DADFS_JOURNAL_BLOCK_NUMBER + DADFS_JOURNAL_BLOCKS - 1 /\
    r.2 = data_block_number welcome).
Proof.
  intros Hh Hsup Hmap. wp_step. eapply wp_mono.
  { apply (freeblock_wp s 3); [done|done| |lia]. rewrite Hmap. by vm_compute. }
  intros r s1 (-> & Hi1 & Hl1 & _ & H01). cbv beta iota. wp_step. eapply wp_mono.
  { apply (freeblock_wp s1 5); [by rewrite Hl1|done| |lia]. rewrite Hi1, Hmap. by vm_compute. }
  intros r s2 (-> & _). cbv beta iota. by wp_step.
Qed.

(** [dadfs_read] returns the first bytes of the file, as many as the file has
    or the user asked for, whatever the file position is, and advances the
    position by their number; at or behind the end it returns nothing. *)
Theorem read_prefix s a blk len pos :
  bread (data_block_number a) (world s) = Some blk -> 0 <= pos < 2 ^ 63 -> 0 <= len < 2 ^ 31 ->
  0 <= file_size a <= Z.of_nat (length blk) -> (forall d w, (copy_to_user d w).1 = false) ->
  wp (dadfs_read a len pos) s (fun r s' => same_fs s s' /\
    r = if decide (pos < file_size a)
        then let n := Z.min (file_size a) len in (n, take (Z.to_nat n) blk, pos + n)
        else (0, [], pos)).
Proof. apply read_wp. Qed.

(** [dadfs_write] stores nothing. [generic_write_checks] returns the positive
    number of bytes of an acceptable request, and the function returns at once
    on any non-zero value: the user is told that all bytes were written, while
    every block, the super block, the inode and the file position are as
    before, and the journal handle stays open. *)
Theorem write_stores_nothing `{J : !JournalOk W} s a count pos :
  0 < count < 2 ^ 31 -> (forall w : W, (generic_write_checks pos count w).1 = count) ->
  wp (dadfs_write a count pos) s (fun r s' => r = (count, a, pos) /\ same_fs s s').
Proof.
  intros Hc Hchk. unfold dadfs_write. wp_step. wp_step. wp_step. wp_step.
  rewrite decide_False by (pose proof (start_ok (journal (s_fs_info s)) (world s)); lia).
  wp_step. wp_step. rewrite Hchk, i32_small by lia. rewrite decide_True by lia. wp_step.
  split; [done|]. split_and!; [|done|done]. intros n. cbn. by rewrite checks_frame, start_frame.
Qed.

(** Signals while a mutex is awaited: an interrupted
    [dadfs_sb_get_a_freeblock] unlocks a mutex that it does not hold; when the
    second lock of [dadfs_inode_add] is interrupted the function returns
    silently, the inode is not stored, and the inode mutex stays locked, so that
    the next [dadfs_sb_get_objects_count], with which every creation starts,
    never returns. *)
Theorem interrupted_locks s a blk :
  (forall m, held s m = false) -> bread 1 (world s) = Some blk ->
  ((signal_pending (world s)).1 = true -> dadfs_sb_get_a_freeblock s = Fault BadUnlock) /\
  ((signal_pending (world s)).1 = false -> (signal_pending (signal_pending (world s)).2).1 = true ->
     wp (dadfs_inode_add a) s (fun _ s' =>
       (forall n, bread n (world s') = bread n (world s)) /\ s_fs_info s' = s_fs_info s /\
       ((signal_pending (world s')).1 = false -> dadfs_sb_get_objects_count s' = Fault Deadlock))).
Proof.
  intros Hl Hblk. split.
  - intros Hsig. unfold dadfs_sb_get_a_freeblock, mutex_lock_interruptible, kcall, mbind, st_bind.
    destruct (signal_pending (world s)) as [i w]. simpl in Hsig. subst i. cbn.
    unfold mutex_unlock, is_held, mbind, st_bind. cbn. by rewrite Hl.
  - intros Hs1 Hs2. unfold dadfs_inode_add. wp_step.
    unfold mutex_lock_interruptible at 1. wp_step. wp_step. rewrite Hs1. wp_step.
    exists (false, Dadfs (signal_pending (world s)).2 (held s) (s_fs_info s)).
    split; [unfold is_held; cbn; by rewrite Hl|]. cbn [fst snd]. wp_step.
    eexists (tt, _). split; [done|]. cbn [fst snd]. wp_step. cbn [world held s_fs_info].
    wp_step. eapply wp_bread; [cbn; rewrite signal_frame; exact Hblk|]. wp_step.
    unfold mutex_lock_interruptible at 1. wp_step. wp_step. rewrite Hs2. wp_step. wp_step.
    split_and!; [intros n; by rewrite !signal_frame|done|]. intros Hs3.
    unfold dadfs_sb_get_objects_count, mbind, st_bind. by rewrite lock_deadlock.
Qed.

(** A directory block has room for exactly 15 entries: storing the record of
    a new child with a name of at most 255 characters stays inside the block for
    the first 15 children, and overruns it from the sixteenth on. Creation does
    not check the number of children. *)
Theorem directory_capacity i no name blk :
  length blk = Z.to_nat 4096 -> (length name <= 255)%nat ->
  if decide (i < 15)%nat
  then runs (add_record i no name blk) (fun blk' => length blk' = length blk)
  else add_record i no name blk = Fault OutOfBounds.
Proof.
  intros Hb Hn. unfold add_record. change (sizeof dadfs_dir_record) with 264%nat.
  destruct (decide (i < 15)%nat) as [Hi|Hi].
  - rewrite decide_True by lia. apply runs_done.
    rewrite !length_blit; rewrite ?length_blit; rewrite ?length_app, ?length_le; simpl; lia.
  - rewrite decide_False by lia. done.
Qed.

(** A kernel whose buffers show the formatted device. *)
Definition shows_image (jm jc : Z) (c : bytes) (w : W) : Prop :=
  forall n, 0 <= n < 6 ->
    bread n w = Some (slice (Z.to_nat (n * 4096)) (Z.to_nat 4096) (image jm jc c)).

Lemma shows_block jm jc c w n o : shows_image jm jc c w -> 0 <= n < 6 -> o = n * 4096 ->
  bread n w = Some (slice (Z.to_nat o) (Z.to_nat 4096) (image jm jc c)).
Proof. intros Hw Hn ->. by apply Hw. Qed.

Lemma mounted_inv jm jc c s sb :
  journal_garbage jm jc -> (Z.to_nat 24576 <= length c)%nat -> (forall m, held s m = false) ->
  shows_image jm jc c (world s) -> inodes_count sb = 3 ->
  fs_inv (Dadfs (world s) (held s) sb) [root_inode; journal_inode jm jc; welcome].
Proof.
  intros Hj Hc Hl Hw Hsb. split; cbn [world held s_fs_info]; try done.
  - simpl. lia.
  - rewrite (shows_block _ _ _ _ 0 0 Hw) by lia. eauto.
  - eexists. split; [by apply (shows_block _ _ _ _ 1 4096 Hw)|]. by apply image_store.
  - apply Forall_cons_2, Forall_cons_2, Forall_cons_2, Forall_nil_2;
      [apply valid_root|by apply valid_journal|apply valid_welcome].
  - intros a Ha. repeat (apply elem_of_cons in Ha as [->|Ha]; [by vm_compute|]). by apply elem_of_nil in Ha.
  - by apply (bool_decide_unpack _).
  - intros a Ha. repeat (apply elem_of_cons in Ha as [->|Ha]; [by vm_compute|]). by apply elem_of_nil in Ha.
Qed.

(** Mounting a device that shows the image of [mkfs]. *)
Lemma fill_super_wp `{Q0 : !Quiet W} `{J : !JournalOk W} jm jc c s :
  journal_garbage jm jc -> (Z.to_nat 24576 <= length c)%nat ->
  (forall m, held s m = false) -> shows_image jm jc c (world s) ->
  wp (dadfs_fill_super []) s (fun r s' =>
    r = (0, Some (VInode DADFS_ROOTDIR_INODE_NUMBER S_IFDIR dadfs_dir_operations (Some root_inode))) /\
    fs_inv s' [root_inode; journal_inode jm jc; welcome] /\
    dir_of s' root_inode [(welcome_name, WELCOMEFILE_INODE_NUMBER)] /\
    bread 5 (world s') = Some (slice (Z.to_nat 20480) (Z.to_nat 4096) (image jm jc c))).
Proof.
  intros Hj Hlen Hl Hw.
  assert (H0 : bread 0 (world s) = Some (encode mkfs_super_block)).
  { rewrite (shows_block jm jc c _ 0 0 Hw) by lia.
    change (Z.to_nat 0) with 0%nat. by rewrite image_super. }
  pose proof (shows_block jm jc c _ 1 4096 Hw ltac:(lia) ltac:(lia)) as H1.
  pose proof (shows_block jm jc c _ 4 16384 Hw ltac:(lia) ltac:(lia)) as H4.
  pose proof (shows_block jm jc c _ 5 20480 Hw ltac:(lia) ltac:(lia)) as H5.
  assert (Hinv : forall sb, inodes_count sb = 3 ->
    fs_inv (Dadfs (world s) (held s) sb) [root_inode; journal_inode jm jc; welcome]).
  { intros sb Hsb. by apply (mounted_inv jm jc c). }
  unfold dadfs_fill_super. wp_step. eapply wp_bread; [exact H0|].
  rewrite (decode_encode mkfs_super_block valid_super). cbv zeta.
  rewrite decide_False by tauto. rewrite decide_False by tauto. wp_step. wp_step. wp_step. wp_step.
  rewrite new_inode_ok. cbn [negb]. set (s1 := Dadfs _ _ _).
  assert (Hs1 : forall n, bread n (world s1) = bread n (world s)) by (intros n; apply new_inode_frame).
  assert (Hinv1 : fs_inv s1 [root_inode; journal_inode jm jc; welcome]).
  { eapply fs_inv_same; [|apply (Hinv (with_journal 0 mkfs_super_block)); done]. by split_and!. }
  wp_step. eapply wp_mono; [by apply (get_inode_wp s1 _ 1 Hinv1)|]. intros found s2 [-> Hs2]. cbv beta iota zeta.
  wp_step. wp_step. rewrite root_ok. cbn [negb]. wp_step. cbn [dadfs_parse_options]. wp_step.
  rewrite decide_False by tauto. wp_step. wp_step.
  set (s3 := Dadfs _ _ _). pose proof Hs2 as (Hb2 & Hi2 & Hl2).
  assert (Hs3 : same_fs s1 s3).
  { split_and!; [intros n; cbn; by rewrite root_frame, Hb2|exact Hi2|exact Hl2]. }
  rewrite decide_True by (rewrite Hi2; done). wp_step.
  pose proof (fs_inv_same _ _ _ Hs3 Hinv1) as Hinv3.
  eapply wp_mono; [apply (iget_wp s3 _ 2 1 (journal_inode jm jc) Hinv3); done|].
  intros vi s4 [-> Hs4]. wp_step. unfold dadfs_sb_load_journal. wp_step. wp_step.
  unfold use_journal. rewrite decide_False by apply init_inode_ok.
  wp_step. wp_step. wp_step. wp_step. wp_step. wp_step.
  pose proof Hs4 as (Hb4 & Hi4 & Hl4). pose proof Hs3 as (Hb3 & Hi3 & Hl3).
  set (s5 := Dadfs _ _ _).
  assert (Hb5 : forall n, bread n (world s5) = bread n (world s)).
  { intros n. cbn. by rewrite init_inode_frame, Hb4, Hb3, Hs1. }
  assert (Hinv5 : fs_inv s5 [root_inode; journal_inode jm jc; welcome]).
  { apply (fs_inv_sb (Dadfs (jbd2_journal_init_inode (i_ino (vinode 2 0 (journal_inode jm jc))) (world s4)).2 (held s4) (s_fs_info s4)));
      [done|]. eapply fs_inv_same; [|exact Hinv3]. split_and!; [|done|done]. intros n. cbn. by rewrite init_inode_frame. }
  assert (Hdir5 : dir_of s5 root_inode [(welcome_name, WELCOMEFILE_INODE_NUMBER)]).
  { split; [done|]. eexists. split; [change (data_block_number root_inode) with 4; by rewrite Hb5|].
    by apply image_root_dir. }
  split_and!; [done|done|done|by rewrite Hb5].
Qed.

(** C8: Formatting and mounting fit together. [mkfs-dadfs] on a device of at
    least six blocks succeeds; mounting what it wrote, without options and with
    a journal that the kernel accepts, succeeds with a well-formed file system of
    three inodes whose root directory has the one entry of the welcome file,
    and looking that name up and reading it gives back the text that [mkfs]
    wrote. *)
Theorem format_mount_read `{Q0 : !Quiet W} `{J : !JournalOk W} `{P : !Posix F} `{D : !Device (F:=F)}
    jm jc (f : F) s len :
  journal_garbage jm jc -> offset f = 0%nat -> (Z.to_nat 24576 <= length (contents f))%nat ->
  (forall m, held s m = false) -> shows_image jm jc (contents f) (world s) ->
  0 <= len < 2 ^ 31 -> (forall d (w : W), (copy_to_user d w).1 = false) ->
  (mkfs jm jc f).1 = 0 /\ contents (mkfs jm jc f).2 = image jm jc (contents f) /\
  wp (dadfs_fill_super []) s (fun r s' =>
    r = (0, Some (VInode DADFS_ROOTDIR_INODE_NUMBER S_IFDIR dadfs_dir_operations (Some root_inode))) /\
    fs_inv s' [root_inode; journal_inode jm jc; welcome] /\
    dir_of s' root_inode [(welcome_name, WELCOMEFILE_INODE_NUMBER)] /\
    wp (dadfs_lookup root_inode welcome_name) s' (fun r _ =>
      r = Some (VInode WELCOMEFILE_INODE_NUMBER S_IFREG dadfs_file_operations (Some welcome))) /\
    wp (dadfs_read welcome len 0) s' (fun r _ =>
      r.1 = (Z.min 40 len, take (Z.to_nat (Z.min 40 len)) welcomefile_body))).
Proof.
  intros Hj Ho Hlen Hl Hw Hn Hcopy. destruct (mkfs_writes jm jc f Hj Ho Hlen) as [Hr Hc].
  split_and!; [done|done|].
  eapply wp_mono; [by apply (fill_super_wp jm jc (contents f))|]. intros r s' (-> & Hinv & Hdir & H5).
  split_and!; [done|done|done| |].
  - eapply wp_mono; [apply (lookup_wp s' _ _ _ _ Hinv Hdir)|].
    + intros no [= ->]%list_elem_of_singleton. split; [done|]. by eexists.
    + intros r s6 [_ ->]. by vm_compute.
  - eapply wp_mono; [apply (read_wp s' welcome (slice (Z.to_nat 20480) (Z.to_nat 4096) (image jm jc (contents f))));
      [exact H5|lia|exact Hn| |exact Hcopy]|].
    + change (file_size welcome) with 40. rewrite length_slice; [lia|].
      rewrite image_length; [lia|done|done].
    + intros r s6 [_ ->]. rewrite decide_True by done. cbn [fst]. change (file_size welcome) with 40. f_equal.
      rewrite <- (image_body jm jc (contents f)) by done. rewrite take_take. f_equal. lia.
Qed.
End dadfs_props.

(** ** A concrete kernel and device *)

(** Block buffers, and the answers to come of [signal_pending]. *)
Record kworld := KWorld { buffers : Z -> option bytes; signals : list bool }.

Definition next_signal (w : kworld) : bool * kworld :=
  match signals w with [] => (false, w) | b :: l => (b, KWorld (buffers w) l) end.

#[export] Instance signal_kernel : Kernel kworld := {|
  bread n w := buffers w n;
  bwrite n b w := KWorld (fun m => if decide (m = n) then Some b else buffers w m) (signals w);
  signal_pending := next_signal;
  new_inode w := (true, w);
  kmem_cache_alloc w := (true, w);
  copy_to_user _ w := (false, w);
  copy_from_iter _ w := ([], w);
  generic_write_checks _ count w := (count, w);
  jbd2_journal_start _ w := (1, w);
  jbd2_journal_get_write_access _ w := (0, w);
  jbd2_journal_dirty_metadata _ w := (0, w);
  jbd2_journal_stop w := (0, w);
  jbd2_journal_init_dev _ w := (1, w);
  jbd2_journal_init_inode _ w := (1, w);
  jbd2_journal_load _ w := (0, w);
  jbd2_journal_destroy _ w := (0, w);
  blkdev_get_by_dev _ w := (true, w);
  match_token _ := Opt_other;
  kern_path _ w := (None, w);
  d_make_root w := (true, w)
|}.

#[export] Instance signal_kernel_ok : KernelOk kworld.
Proof.
  split; try done; simpl.
  - intros n b w. by rewrite decide_True.
  - intros n m b w Hnm. by rewrite decide_False.
  - intros n w. unfold next_signal. by destruct (signals w).
Qed.

(** The same kernel without signals. *)
Record qworld := QWorld { qbuffers : Z -> option bytes }.

#[export] Instance quiet_kernel : Kernel qworld := {|
  bread n w := qbuffers w n;
  bwrite n b w := QWorld (fun m => if decide (m = n) then Some b else qbuffers w m);
  signal_pending w := (false, w);
  new_inode w := (true, w);
  kmem_cache_alloc w := (true, w);
  copy_to_user _ w := (false, w);
  copy_from_iter _ w := ([], w);
  generic_write_checks _ count w := (count, w);
  jbd2_journal_start _ w := (1, w);
  jbd2_journal_get_write_access _ w := (0, w);
  jbd2_journal_dirty_metadata _ w := (0, w);
  jbd2_journal_stop w := (0, w);
  jbd2_journal_init_dev _ w := (1, w);
  jbd2_journal_init_inode _ w := (1, w);
  jbd2_journal_load _ w := (0, w);
  jbd2_journal_destroy _ w := (0, w);
  blkdev_get_by_dev _ w := (true, w);
  match_token _ := Opt_other;
  kern_path _ w := (None, w);
  d_make_root w := (true, w)
|}.

#[export] Instance quiet_kernel_ok : KernelOk qworld.
Proof.
  split; try done; simpl.
  - intros n b w. by rewrite decide_True.
  - intros n m b w Hnm. by rewrite decide_False.
Qed.

#[export] Instance quiet_quiet : Quiet qworld.
Proof. by split. Qed.

#[export] Instance quiet_journal : JournalOk qworld.
Proof. by split. Qed.

(** A file with an offset. *)
Record dfile := DFile { dcontents : bytes; doffset : nat }.

#[export] Instance dfile_posix : Posix dfile := {|
  write b f := if decide (doffset f + length b <= length (dcontents f))%nat
               then (Z.of_nat (length b), DFile (blit (doffset f) b (dcontents f)) (doffset f + length b))
               else (-1, f);
  lseek_cur n f := (Z.of_nat (doffset f) + n, DFile (dcontents f) (doffset f + Z.to_nat n))
|}.

#[export] Instance dfile_device : Device (F := dfile).
Proof.
  refine {| contents := dcontents; offset := doffset |}.
  - intros b f Hb. simpl. by rewrite decide_True.
  - done.
Defined.

Definition blank : dfile := DFile (replicate (Z.to_nat 24576) 0) 0.

Lemma blank_size : (Z.to_nat 24576 <= length (contents blank))%nat.
Proof. change (contents blank) with (replicate (Z.to_nat 24576) 0). by rewrite length_replicate. Qed.

(** The freshly formatted device, with nothing held. *)
Definition formatted : qworld :=
  QWorld (fun n => if decide (0 <= n < 6) then
    Some (slice (Z.to_nat (n * 4096)) (Z.to_nat 4096) (image 0 0 (contents blank))) else None).

Lemma formatted_image : shows_image 0 0 (contents blank) formatted.
Proof. intros n Hn. exact (decide_True (P := 0 <= n < 6) _ None Hn). Qed.

Definition fs0 : dadfs qworld := Dadfs formatted (fun _ => false) mkfs_super_block.
Definition inodes0 : list dadfs_inode := [root_inode; journal_inode 0 0; welcome].

Lemma garbage0 : journal_garbage 0 0.
Proof. by split. Qed.

Lemma fs0_inv : fs_inv fs0 inodes0.
Proof.
  apply (mounted_inv 0 0 (contents blank) fs0); [apply garbage0|apply blank_size|done|apply formatted_image|done].
Qed.

Lemma fs0_root : dir_of fs0 root_inode [(welcome_name, 3)].
Proof.
  split; [done|]. eexists. split; [by apply (shows_block 0 0 _ _ 4 16384 formatted_image)|].
  exact (image_root_dir 0 0 (contents blank) garbage0 blank_size).
Qed.

Lemma fs0_good : Forall (good_entry inodes0) [(welcome_name, 3)].
Proof. repeat constructor; done. Qed.

(** The name "a.txt". *)
Definition a_txt : bytes := chars "a.txt".

Lemma a_txt_name : is_name a_txt.
Proof. repeat constructor; done. Qed.

Lemma fs0_free : next_free (free_blocks (s_fs_info fs0)) 3.
Proof. split_and!; [lia|lia|by vm_compute|]. intros j Hj. lia. Qed.

Example array_roundtrip_witness :
  exists blk', put_at 2 welcome (replicate 96 0) = Done blk' /\ length blk' = length (replicate 96 0) /\
    get_at dadfs_inode 2 blk' = Done welcome /\
    (0%nat <> 2%nat -> get_at dadfs_inode 0 blk' = get_at dadfs_inode 0 (replicate 96 0)).
Proof.
  apply (array_roundtrip dadfs_inode 2 0 welcome); [apply valid_welcome|].
  rewrite length_replicate. simpl. lia.
Defined.

Example create_spec_witness :
  wp (dadfs_create_fs_object root_inode a_txt S_IFREG) fs0
    (created fs0 inodes0 0 root_inode [(welcome_name, 3)] a_txt S_IFREG 3).
Proof.
  apply create_spec; [apply fs0_inv|simpl; lia|done|apply fs0_root|simpl; lia|done|done|apply a_txt_name|
    simpl; lia|apply fs0_free].
Defined.

Example lookup_spec_witness :
  wp (dadfs_lookup root_inode welcome_name) fs0 (fun r s' => same_fs fs0 s' /\
    r = p ← list_find (fun e => e.1 = welcome_name) [(welcome_name, 3)]; q ← find_no p.2.2 inodes0;
        Some (vinode p.2.2 (mode q.2) q.2)).
Proof. apply lookup_spec; [apply fs0_inv|apply fs0_root|apply fs0_good]. Defined.

Example create_then_lookup_witness :
  wp ('(_, dir, _) ← dadfs_create_fs_object root_inode a_txt S_IFREG; dadfs_lookup dir a_txt) fs0 (fun r s' =>
    r = Some (vinode (inode_no (child fs0 inodes0 S_IFREG 3)) S_IFREG (child fs0 inodes0 S_IFREG 3)) /\
    forall a es', a ∈ inodes0 -> data_block_number a <> data_block_number root_inode ->
      dir_of fs0 a es' -> dir_of s' a es').
Proof.
  apply (create_then_lookup fs0 inodes0 0 root_inode [(welcome_name, 3)]);
    [apply fs0_inv|simpl; lia|done|apply fs0_root|simpl; lia|apply fs0_good| |done|done|apply a_txt_name|
     simpl; lia|apply fs0_free].
  by intros ?%list_elem_of_singleton.
Defined.

Example create_refused_witness :
  wp (dadfs_create_fs_object root_inode a_txt 0x2000) fs0 (fun r s' =>
    r = (EINVAL, root_inode, None) /\ same_fs fs0 s').
Proof. apply (create_refused fs0 inodes0); [apply fs0_inv|by right]. Defined.

Example freeblock_spec_witness :
  (forall b, next_free (free_blocks (s_fs_info fs0)) b ->
     wp dadfs_sb_get_a_freeblock fs0 (fun r s' => r = (0, Z.of_nat b) /\ same_locks fs0 s' /\
       same_blocks [0] fs0 s' /\
       forall n, 0 <= n < 64 -> Z.testbit (free_blocks (s_fs_info s')) n =
         Z.testbit (free_blocks (s_fs_info fs0)) n && negb (bool_decide (n = Z.of_nat b)))) /\
  ((forall j, (3 <= j < 31)%nat -> Z.testbit (free_blocks (s_fs_info fs0)) (Z.of_nat j) = false) ->
     dadfs_sb_get_a_freeblock fs0 = Fault Undefined).
Proof. apply freeblock_spec; [done|apply (fi_super _ _ fs0_inv)]. Defined.

(** A free map with none of the bits 3 to 30. *)
Definition fs_full : dadfs qworld := Dadfs formatted (fun _ => false) (with_free_blocks (2 ^ 40) mkfs_super_block).

Example mkfs_map_collides_witness :
  wp ('(_, b1) ← dadfs_sb_get_a_freeblock; '(_, b2) ← dadfs_sb_get_a_freeblock; mret (b1, b2)) fs0 (fun r _ =>
    r.1 = 3 /\ r.2 = data_block_number welcome).
Proof. apply mkfs_map_collides; [done|apply (fi_super _ _ fs0_inv)|done]. Defined.

Example read_prefix_witness :
  wp (dadfs_read welcome 100 10) fs0 (fun r s' => same_fs fs0 s' /\
    r = (40, take 40 (slice (Z.to_nat (5 * 4096)) (Z.to_nat 4096) (image 0 0 (contents blank))), 50)).
Proof.
  apply (read_prefix fs0 welcome _ 100 10); [done|lia|lia| |done].
  change (file_size welcome) with 40. rewrite length_slice; [lia|].
  rewrite (image_length 0 0 _ garbage0 blank_size). pose proof blank_size. lia.
Defined.

Example write_stores_nothing_witness :
  wp (dadfs_write welcome 100 0) fs0 (fun r s' => r = (100, welcome, 0) /\ same_fs fs0 s').
Proof. apply write_stores_nothing; [lia|done]. Defined.

(** The second signal check is the one that interrupts. *)
Definition fs_signal : dadfs kworld :=
  Dadfs (KWorld (qbuffers formatted) [false; true]) (fun _ => false) mkfs_super_block.

Example interrupted_locks_witness :
  ((signal_pending (world fs_signal)).1 = true -> dadfs_sb_get_a_freeblock fs_signal = Fault BadUnlock) /\
  ((signal_pending (world fs_signal)).1 = false -> (signal_pending (signal_pending (world fs_signal)).2).1 = true ->
     wp (dadfs_inode_add welcome) fs_signal (fun _ s' =>
       (forall n, bread n (world s') = bread n (world fs_signal)) /\ s_fs_info s' = s_fs_info fs_signal /\
       ((signal_pending (world s')).1 = false -> dadfs_sb_get_objects_count s' = Fault Deadlock))).
Proof. eapply interrupted_locks; [done|by apply (formatted_image 1)]. Defined.

Example directory_capacity_witness :
  add_record 15 12 a_txt (replicate (Z.to_nat 4096) 0) = Fault OutOfBounds.
Proof.
  apply (directory_capacity 15 12 a_txt (replicate (Z.to_nat 4096) 0)); [apply length_replicate|simpl; lia].
Defined.

Example format_mount_read_witness :
  (mkfs 0 0 blank).1 = 0 /\ contents (mkfs 0 0 blank).2 = image 0 0 (contents blank) /\
  wp (dadfs_fill_super []) fs0 (fun r s' =>
    r = (0, Some (VInode DADFS_ROOTDIR_INODE_NUMBER S_IFDIR dadfs_dir_operations (Some root_inode))) /\
    fs_inv s' [root_inode; journal_inode 0 0; welcome] /\
    dir_of s' root_inode [(welcome_name, WELCOMEFILE_INODE_NUMBER)] /\
    wp (dadfs_lookup root_inode welcome_name) s' (fun r _ =>
      r = Some (VInode WELCOMEFILE_INODE_NUMBER S_IFREG dadfs_file_operations (Some welcome))) /\
    wp (dadfs_read welcome 100 0) s' (fun r _ =>
      r.1 = (40, take 40 welcomefile_body))).
Proof.
  apply (format_mount_read 0 0 blank fs0 100); [apply garbage0|done|apply blank_size|done|
    apply formatted_image|lia|done].
Defined.
