(* ===== verification/DadfsModule.v ===== *)
(** * Loading and unloading the dadfs module ([base.c], the end of the file)

    [dadfs_init] creates the cache of inodes and registers the file system,
    [dadfs_exit] undoes both.  The caches and the table of file systems belong to
    the kernel, a parameter; [ModuleKernelOk] is what its functions promise. *)
From S2P Require Import Prelude StateM Layout Dadfs.
Local Open Scope Z_scope.

(** A cache is an address; the result of [register_filesystem] is 0 or an error. *)
Class ModuleKernel (W : Type) := {
  kmem_cache_create : W -> option nat * W;
  kmem_cache_destroy : option nat -> W -> W;
  kmem_cache_free : option nat -> option dadfs_inode -> W -> W;
  register_filesystem : W -> Z * W;
  unregister_filesystem : W -> Z * W;
  kill_block_super : W -> W;
  (** [mount_bdev] of a device with options and a function that fills the super
      block: the root directory, or an error. *)
  mount_bdev : list bytes -> (list bytes -> M W (Z * option inode)) -> M W (inode + Z)
}.

(** The static variable of the module, and the kernel. *)
Record module (W : Type) := Module_ { sfs_inode_cachep : option nat; kernel : W }.
Arguments Module_ {W} _ _. Arguments sfs_inode_cachep {W} _. Arguments kernel {W} _.

Section module.
Context {W : Type} `{!Kernel W} `{!ModuleKernel W}.
Abbreviation MM := (ST (module W)).

Definition in_kernel {A} (f : W -> A * W) : MM A := fun s =>
  let '(a, w) := f (kernel s) in Done (a, Module_ (sfs_inode_cachep s) w).

Definition dadfs_init : MM Z :=
  c ← in_kernel kmem_cache_create;
  _ ← modify (fun s => Module_ c (kernel s));
  match c with
  | None => mret ENOMEM
  | Some _ => in_kernel register_filesystem
  end.

Definition dadfs_exit : MM unit :=
  _ ← in_kernel unregister_filesystem;
  c ← gets sfs_inode_cachep;
  in_kernel (fun w => (tt, kmem_cache_destroy c w)).

(** The private data go back to the cache, also when they are NULL. *)
Definition dadfs_destory_inode (i : inode) : MM unit :=
  c ← gets sfs_inode_cachep;
  in_kernel (fun w => (tt, kmem_cache_free c (DADFS_INODE i) w)).

Definition dadfs_kill_superblock : MM unit := in_kernel (fun w => (tt, kill_block_super w)).

Definition dadfs_mount (options : list bytes) : M W (inode + Z) := mount_bdev options dadfs_fill_super.
End module.

(** ** Loading and unloading *)

(** The caches that exist, and whether dadfs is a known file system. *)
Class ModuleKernelOk (W : Type) `{!ModuleKernel W} := {
  caches : W -> gset nat;
  known : W -> bool;
  create_ok : forall w, match kmem_cache_create w with
    | (Some c, w') => c ∉ caches w /\ caches w' = caches w ∪ {[c]} /\ known w' = known w
    | (None, w') => caches w' = caches w /\ known w' = known w
    end;
  destroy_ok : forall c w, caches (kmem_cache_destroy (Some c) w) = caches w ∖ {[c]} /\
    known (kmem_cache_destroy (Some c) w) = known w;
  register_ok : forall w, let r := register_filesystem w in
    caches r.2 = caches w /\ known r.2 = (known w || bool_decide (r.1 = 0)) /\ (known w = true -> r.1 <> 0);
  unregister_ok : forall w, let r := unregister_filesystem w in caches r.2 = caches w /\ known r.2 = false
}.

Section lifecycle.
Context {W : Type} `{!ModuleKernel W} `{!ModuleKernelOk W}.

(** A module that was loaded leaves the kernel as it was when it is unloaded.
    When the registration fails, loading fails and the cache stays behind, as
    [dadfs_exit] is not called then. *)
Lemma module_lifecycle (s : module W) : known (kernel s) = false ->
  wp dadfs_init s (fun r s' =>
    if decide (r = 0) then known (kernel s') = true /\
      wp dadfs_exit s' (fun _ s'' => caches (kernel s'') = caches (kernel s) /\ known (kernel s'') = false)
    else known (kernel s') = false /\
      (caches (kernel s') = caches (kernel s) /\ r = ENOMEM \/
       exists c, c ∉ caches (kernel s) /\ caches (kernel s') = caches (kernel s) ∪ {[c]})).
Proof.
  intros Hk. unfold dadfs_init. pose proof (create_ok (kernel s)) as Hc.
  destruct (kmem_cache_create (kernel s)) as [o w] eqn:E. apply wp_bind.
  eapply wp_done; [unfold in_kernel; by rewrite E|]. apply wp_bind, wp_modify. cbn [kernel].
  destruct o as [c|].
  - destruct Hc as (Hf & Hcs & Hkn). pose proof (register_ok w) as Hr. cbn zeta in Hr.
    destruct (register_filesystem w) as [r w'] eqn:E'. cbn in Hr. destruct Hr as (H1 & H2 & _).
    eapply wp_done; [unfold in_kernel; cbn; by rewrite E'|]. cbn [kernel]. rewrite Hkn, Hk in H2. cbn in H2. case_decide as Hd.
    + rewrite bool_decide_true in H2 by done. split; [done|].
      pose proof (unregister_ok w') as Hu. cbn zeta in Hu. destruct (unregister_filesystem w') as [u w''] eqn:E''. cbn in Hu.
      unfold dadfs_exit. apply wp_bind. eapply wp_done; [unfold in_kernel; cbn; by rewrite E''|]. apply wp_bind, wp_gets. cbn.
      eapply wp_done; [done|]. cbn. destruct (destroy_ok c w'') as [-> ->]. destruct Hu as [-> ->]. split; [|done].
      rewrite H1, Hcs. set_solver.
    + rewrite bool_decide_false in H2 by done. split; [done|]. right. exists c. by rewrite H1, Hcs.
  - apply wp_ret. rewrite decide_False by done. destruct Hc as [H1 H2]. cbn. rewrite H2. split; [done|]. by left.
Qed.
End lifecycle.

(** ** A kernel that can register nothing twice *)

#[local] Instance demo_module_kernel : ModuleKernel (gset nat * bool) := {|
  kmem_cache_create := fun '(cs, k) => (Some (fresh cs), (cs ∪ {[fresh cs]}, k));
  kmem_cache_destroy := fun c '(cs, k) => (match c with Some c => cs ∖ {[c]} | None => cs end, k);
  kmem_cache_free := fun _ _ w => w;
  register_filesystem := fun '(cs, k) => if k : bool then (-16, (cs, k)) else (0, (cs, true));
  unregister_filesystem := fun '(cs, k) => (0, (cs, false));
  kill_block_super := fun w => w;
  mount_bdev := fun _ _ => mret (inr EINVAL)
|}.

#[local] Instance demo_module_kernel_ok : ModuleKernelOk (gset nat * bool).
Proof.
  refine {| caches := fun w : gset nat * bool => w.1; known := fun w => w.2 |}.
  - intros [cs k]. split; [apply is_fresh|done].
  - by intros c [cs k].
  - by intros [cs [|]].
  - by intros [cs k].
Defined.

Example load_and_unload : exists s', dadfs_init (Module_ None ({[7%nat]} : gset nat, false)) = Done (0, s') /\
  wp dadfs_exit s' (fun _ s'' => (kernel s'').1 = {[7%nat]}).
Proof.
  destruct (module_lifecycle (ModuleKernelOk0 := demo_module_kernel_ok) (Module_ None ({[7%nat]} : gset nat, false)) eq_refl) as ([r s'] & Hrun & Hpost).
  cbn [fst snd] in Hpost. assert (r = 0) as -> by (clear Hpost; cbv in Hrun; congruence). exists s'. split; [exact Hrun|].
  destruct Hpost as [_ Hexit]. eapply wp_mono; [exact Hexit|]. intros u s'' [H _]. exact H.
Qed.
