(* ===== verification/Avl.v ===== *)
(** * Ordered trees: the interface of Minix' AVL headers

    [region.c] keeps regions and yielded blocks in trees generated by the [cavl]
    headers, which are not part of the sources.  The class states what it relies
    on: a tree is an ordered list of keyed entries, searches find neighbours in
    that order, and an iterator that stands on an entry moves to its neighbours. *)
From S2P Require Import Prelude.

(** A strict total order on keys. *)
Class KeyOrder (K : Type) := {
  key_lt : K -> K -> Prop;
  key_lt_dec :: RelDecision key_lt;
  key_eq_dec :: EqDecision K;
  key_lt_trans : forall x y z, key_lt x y -> key_lt y z -> key_lt x z;
  key_lt_irrefl : forall x, ~ key_lt x x;
  key_total : forall x y, x <> y -> key_lt x y \/ key_lt y x
}.

#[export] Instance Z_key_order : KeyOrder Z.
Proof. refine {| key_lt := Z.lt |}; lia. Defined.

(** ** The reference: ordered lists *)

Section reference.
Context {K V : Type} `{KeyOrder K}.
Implicit Types (l : list (K * V)) (k : K).

Definition ordered l : Prop := StronglySorted (fun a b => key_lt a.1 b.1) l.

Definition list_eq_at k l : option V := snd <$> head (filter (fun e => e.1 = k) l).
(** The last entry before [k], and the first one not before it. *)
Definition list_lt k l : option (K * V) := last (filter (fun e => key_lt e.1 k) l).
Definition list_ge k l : option (K * V) := head (filter (fun e => ~ key_lt e.1 k) l).
(** The last entry not behind [k], and the first one behind it. *)
Definition list_le k l : option (K * V) := last (filter (fun e => ~ key_lt k e.1) l).
Definition list_gt k l : option (K * V) := head (filter (fun e => key_lt k e.1) l).

Definition list_ins k (v : V) l : list (K * V) :=
  filter (fun e => key_lt e.1 k) l ++ (k, v) :: filter (fun e => ~ key_lt e.1 k) l.
Definition list_del k l : list (K * V) := filter (fun e => e.1 <> k) l.
End reference.

(** ** The interface *)

Class Avl (K V T : Type) `{KeyOrder K} := {
  avl_empty : T;
  avl_elems : T -> list (K * V);
  avl_search : K -> T -> option V;              (* AVL_EQUAL *)
  avl_search_lt : K -> T -> option (K * V);     (* AVL_LESS, decr_iter *)
  avl_search_gt : K -> T -> option (K * V);     (* incr_iter *)
  avl_search_ge : K -> T -> option (K * V);     (* AVL_GREATER_EQUAL *)
  avl_search_le : K -> T -> option (K * V);     (* AVL_LESS_EQUAL *)
  avl_least : T -> option (K * V);              (* start_iter_least, search_least *)
  avl_root : T -> option (K * V);               (* search_root *)
  avl_insert : K -> V -> T -> T;
  avl_remove : K -> T -> T
}.

(** An insertion whose key is present leaves the tree as it was, as [cavl]'s
    documentation says. *)
Class AvlOk (K V T : Type) `{Avl K V T} := {
  avl_ordered : forall t, ordered (avl_elems t);
  avl_empty_elems : avl_elems avl_empty = [];
  avl_search_elems : forall k t, avl_search k t = list_eq_at k (avl_elems t);
  avl_lt_elems : forall k t, avl_search_lt k t = list_lt k (avl_elems t);
  avl_gt_elems : forall k t, avl_search_gt k t = list_gt k (avl_elems t);
  avl_ge_elems : forall k t, avl_search_ge k t = list_ge k (avl_elems t);
  avl_le_elems : forall k t, avl_search_le k t = list_le k (avl_elems t);
  avl_least_elems : forall t, avl_least t = head (avl_elems t);
  avl_root_elem : forall t, match avl_root t with
    Some e => e ∈ avl_elems t | None => avl_elems t = [] end;
  avl_insert_elems : forall k v t, avl_search k t = None ->
    avl_elems (avl_insert k v t) = list_ins k v (avl_elems t);
  avl_insert_present : forall k v t, is_Some (avl_search k t) -> avl_insert k v t = t;
  avl_remove_elems : forall k t, avl_elems (avl_remove k t) = list_del k (avl_elems t)
}.

(** ** Lemmas on ordered lists *)

Section lists.
Context {K V : Type} `{KeyOrder K}.
Implicit Types (l : list (K * V)) (k : K).

Lemma ordered_app l1 l2 : ordered (l1 ++ l2) <->
  ordered l1 /\ ordered l2 /\ forall a b, a ∈ l1 -> b ∈ l2 -> key_lt a.1 b.1.
Proof.
  unfold ordered. induction l1 as [|x l1 IH]; simpl.
  - split; [|tauto]. intros Hs. split_and!; [constructor|done|]. by intros a b ?%elem_of_nil.
  - split.
    + intros [Hs Hx]%StronglySorted_inv. apply IH in Hs as (H1 & H2 & H3). rewrite Forall_app in Hx.
      destruct Hx as [Hx1 Hx2]. rewrite Forall_forall in Hx2. split_and!; [by constructor|done|].
      intros a b [->|Ha]%elem_of_cons Hb; [by apply Hx2|by apply H3].
    + intros ([Hs Hx]%StronglySorted_inv & H2 & H3). constructor.
      * apply IH. split_and!; [done..|]. intros a b Ha Hb. apply H3; [by right|done].
      * apply Forall_app. split; [done|]. apply Forall_forall. intros b Hb. apply H3; [by left|done].
Qed.

Lemma ordered_filter (P : K * V -> Prop) `{forall e, Decision (P e)} l : ordered l -> ordered (filter P l).
Proof.
  unfold ordered. induction 1 as [|x l Hl IH Hx]; [constructor|]. rewrite filter_cons.
  case_decide; [|done]. constructor; [done|]. rewrite Forall_forall in Hx |- *.
  intros y [_ Hy]%list_elem_of_filter. by apply Hx.
Qed.

(** A predicate closed towards smaller keys cuts an ordered list in two. *)
Lemma cut (P : K -> Prop) `{forall k, Decision (P k)} l : ordered l ->
  (forall x y, key_lt x y -> P y -> P x) ->
  l = filter (fun e => P e.1) l ++ filter (fun e => ~ P e.1) l.
Proof.
  intros Hs HP. induction Hs as [|x l Hl IH Hx]; [done|]. rewrite !filter_cons.
  destruct (decide (P x.1)) as [Hp|Hp].
  - rewrite decide_False by tauto. simpl. by f_equal.
  - rewrite decide_True by done. replace (filter (fun e => P e.1) l) with (@nil (K * V)).
    + simpl. f_equal. symmetry. apply filter_all. rewrite Forall_forall in Hx |- *.
      intros y Hy Hpy. eapply Hp, HP; [by apply Hx|done].
    + symmetry. apply filter_none. rewrite Forall_forall in Hx |- *.
      intros y Hy Hpy. eapply Hp, HP; [by apply Hx|done].
Qed.

(** Searching around a key splits the list at that key. *)
Lemma split_before k l : ordered l -> exists l1 l2, l = l1 ++ l2 /\
  (forall e, e ∈ l1 -> key_lt e.1 k) /\ (forall e, e ∈ l2 -> ~ key_lt e.1 k) /\
  list_lt k l = last l1 /\ list_ge k l = head l2.
Proof.
  intros Hs. eexists _, _. split; [apply (cut (fun x => key_lt x k)); [done|]|].
  - intros x y Hxy Hy. by eapply key_lt_trans.
  - split_and!; try (intros e He; apply list_elem_of_filter in He as [He _]; exact He); done.
Qed.

Lemma split_upto k l : ordered l -> exists l1 l2, l = l1 ++ l2 /\
  (forall e, e ∈ l1 -> ~ key_lt k e.1) /\ (forall e, e ∈ l2 -> key_lt k e.1) /\
  list_le k l = last l1 /\ list_gt k l = head l2.
Proof.
  intros Hs. exists (filter (fun e => ~ key_lt k e.1) l), (filter (fun e => key_lt k e.1) l).
  split; [|split_and!; try (intros e He; apply list_elem_of_filter in He as [He _]; exact He); done].
  rewrite (cut (fun x => ~ key_lt k x) l) at 1; [|done|].
  - f_equal. apply list_filter_iff. intros e. split; [apply dec_stable|tauto].
  - intros x y Hxy Hy Hx. apply Hy. by eapply key_lt_trans.
Qed.

Lemma list_eq_at_None k l : list_eq_at k l = None <-> forall v, (k, v) ∉ l.
Proof.
  unfold list_eq_at. rewrite fmap_None, head_None. split.
  - intros Hf v Hin. exact (filter_nil_not_elem_of (fun e => e.1 = k) l (k, v) Hf eq_refl Hin).
  - intros Hno. apply filter_none, Forall_forall. intros [k' v] Hin Heq. simpl in Heq. subst. by apply (Hno v).
Qed.

Lemma ordered_functional l k v v' : ordered l -> (k, v) ∈ l -> (k, v') ∈ l -> v = v'.
Proof.
  unfold ordered. induction 1 as [|x l Hl IH Hx]; [by intros ?%elem_of_nil|].
  rewrite Forall_forall in Hx. rewrite !elem_of_cons. intros [<-|Hv] [E|Hv']; simplify_eq; [done|..].
  - by destruct (key_lt_irrefl k (Hx _ Hv')).
  - destruct (key_lt_irrefl k). by specialize (Hx _ Hv).
  - by apply IH.
Qed.

Lemma head_filter_In {A} (P : A -> Prop) `{forall x, Decision (P x)} (l : list A) x :
  head (filter P l) = Some x -> P x /\ x ∈ l.
Proof.
  intros Hh. induction l as [|y l IH]; [done|]. rewrite filter_cons in Hh. case_decide; simplify_eq/=.
  - split; [done|by left].
  - destruct (IH Hh). split; [done|by right].
Qed.

Lemma list_eq_at_Some k v l : ordered l -> list_eq_at k l = Some v <-> (k, v) ∈ l.
Proof.
  intros Hs. split.
  - unfold list_eq_at. intros ([k' v'] & Hh & ->)%fmap_Some.
    apply head_filter_In in Hh as [Hk Hin]. simpl in *. by subst.
  - intros Hin. destruct (list_eq_at k l) as [v'|] eqn:E.
    + f_equal. unfold list_eq_at in E. apply fmap_Some in E as ([k' w] & Hh & E). simpl in E. subst v'.
      apply head_filter_In in Hh as [Hk Hin']. simpl in *. subst.
      by eapply ordered_functional.
    + rewrite list_eq_at_None in E. by destruct (E v).
Qed.

(** The neighbours of an entry. *)
Lemma list_lt_at l1 k v l2 : ordered (l1 ++ (k, v) :: l2) -> list_lt k (l1 ++ (k, v) :: l2) = last l1.
Proof.
  intros (_ & Hs2 & Hlt)%ordered_app. unfold list_lt. rewrite filter_app, filter_all, filter_none, app_nil_r.
  - done.
  - apply Forall_cons. split; [apply key_lt_irrefl|]. apply StronglySorted_inv in Hs2 as [_ Hs2].
    eapply Forall_impl; [exact Hs2|]. intros e He Hek. destruct (key_lt_irrefl k). exact (key_lt_trans _ _ _ He Hek).
  - apply Forall_forall. intros e He. apply (Hlt e (k, v)); [done|by left].
Qed.

Lemma list_gt_at l1 k v l2 : ordered (l1 ++ (k, v) :: l2) -> list_gt k (l1 ++ (k, v) :: l2) = head l2.
Proof.
  intros (_ & Hs2 & Hlt)%ordered_app. unfold list_gt. rewrite filter_app, filter_none.
  - apply StronglySorted_inv in Hs2 as [_ Hs2]. rewrite filter_cons_False by (simpl; apply key_lt_irrefl).
    by rewrite filter_all.
  - apply Forall_forall. intros e He Hke. destruct (key_lt_irrefl k). eapply key_lt_trans; [exact Hke|].
    apply (Hlt e (k, v)); [done|by left].
Qed.

(** Removing an entry, and inserting between the entries around a key. *)
Lemma list_del_at k v l1 l2 : ordered (l1 ++ (k, v) :: l2) -> list_del k (l1 ++ (k, v) :: l2) = l1 ++ l2.
Proof.
  intros (_ & Hs & H1)%ordered_app. apply StronglySorted_inv in Hs as [_ H2]. rewrite Forall_forall in H2.
  unfold list_del. rewrite filter_app, filter_cons_False by (cbn; tauto).
  f_equal; apply filter_all, Forall_forall; intros e He Hk; apply (key_lt_irrefl k).
  - rewrite <- Hk at 1. apply (H1 e (k, v)); [done|by left].
  - rewrite <- Hk at 2. by apply H2.
Qed.

(** Removing what was just inserted. *)
Lemma list_del_ins k v l : ordered l -> list_del k (list_ins k v l) = list_del k l.
Proof.
  intros Hl. rewrite (cut (fun x => key_lt x k) l) at 2; [|done|by intros x y; apply key_lt_trans].
  unfold list_del, list_ins. rewrite !filter_app, filter_cons_False by (cbn; tauto). done.
Qed.

Lemma list_ins_at k v l1 l2 : (forall e, e ∈ l1 -> key_lt e.1 k) -> (forall e, e ∈ l2 -> key_lt k e.1) ->
  list_ins k v (l1 ++ l2) = l1 ++ (k, v) :: l2.
Proof.
  intros H1 H2. assert (H2' : forall e, e ∈ l2 -> ~ key_lt e.1 k).
  { intros e He Hk. apply (key_lt_irrefl k). eapply key_lt_trans; [by apply H2|done]. }
  unfold list_ins. rewrite !filter_app.
  rewrite (filter_all _ l1), (filter_none _ l2), (filter_none _ l1), (filter_all _ l2); [by rewrite app_nil_r|..];
    apply Forall_forall; intros e He; auto.
Qed.

Lemma elem_of_ins k v l e : e ∈ list_ins k v l <-> e = (k, v) \/ e ∈ l.
Proof.
  unfold list_ins. rewrite elem_of_app, elem_of_cons, !list_elem_of_filter.
  destruct (decide (key_lt e.1 k)); tauto.
Qed.

Lemma elem_of_del k l e : e ∈ list_del k l <-> e.1 <> k /\ e ∈ l.
Proof. unfold list_del. by rewrite list_elem_of_filter. Qed.

Lemma ordered_del k l : ordered l -> ordered (list_del k l).
Proof. apply ordered_filter. Qed.

Lemma ordered_ins k v l : ordered l -> list_eq_at k l = None -> ordered (list_ins k v l).
Proof.
  rewrite list_eq_at_None. intros Hs Hno. unfold list_ins.
  assert (Hsr : forall b, b ∈ filter (fun e => ~ key_lt e.1 k) l -> key_lt k b.1).
  { intros [k' v'] [Hk Hb]%list_elem_of_filter. simpl in *.
    destruct (key_total k k'); [|done|done]. intros ->. by apply (Hno v'). }
  apply ordered_app. split_and!; [by apply ordered_filter| |].
  - constructor; [by apply ordered_filter|]. apply Forall_forall. intros b Hb. by apply Hsr.
  - intros a b [Ha _]%list_elem_of_filter [->|Hb]%elem_of_cons; [done|].
    eapply key_lt_trans; [done|by apply Hsr].
Qed.
End lists.

Lemma avl_search_remove {K V T} `{AvlOk K V T} k k' (t : T) :
  avl_search k (avl_remove k' t) = if decide (k = k') then None else avl_search k t.
Proof.
  rewrite !avl_search_elems, avl_remove_elems. case_decide as Hk.
  - subst. apply list_eq_at_None. intros v [Hv _]%elem_of_del. by simpl in Hv.
  - pose proof (avl_ordered t) as Hord. destruct (list_eq_at k (avl_elems t)) as [v|] eqn:E.
    + apply list_eq_at_Some; [by apply ordered_del|]. apply elem_of_del. split; [done|].
      by apply list_eq_at_Some in E.
    + apply list_eq_at_None. intros v [_ Hv]%elem_of_del. rewrite list_eq_at_None in E. by apply (E v).
Qed.

Lemma avl_search_insert {K V T} `{AvlOk K V T} k k' v (t : T) : avl_search k' t = None ->
  avl_search k (avl_insert k' v t) = if decide (k = k') then Some v else avl_search k t.
Proof.
  intros Hno. pose proof (avl_ordered t) as Hord. rewrite (avl_search_elems k (avl_insert k' v t)), avl_insert_elems by done.
  rewrite avl_search_elems in Hno. assert (Hord' := ordered_ins k' v _ Hord Hno). case_decide as Hk.
  - subst. apply list_eq_at_Some; [done|]. apply elem_of_ins. by left.
  - rewrite avl_search_elems. destruct (list_eq_at k (avl_elems t)) as [w|] eqn:E.
    + apply list_eq_at_Some; [done|]. apply elem_of_ins. right. by apply list_eq_at_Some in E.
    + apply list_eq_at_None. intros w [[= <- _]|Hw]%elem_of_ins; [done|].
      rewrite list_eq_at_None in E. by apply (E w).
Qed.

(** ** Lists implement the interface *)

(** An ordered association list, the order being part of the type. *)
Definition alist (K V : Type) `{KeyOrder K} : Type := { l : list (K * V) | ordered l }.

Section alist.
Context {K V : Type} `{KeyOrder K}.

Definition alist_insert (k : K) (v : V) (t : alist K V) : alist K V :=
  match list_eq_at k (`t) as o return list_eq_at k (`t) = o -> alist K V with
  | Some _ => fun _ => t
  | None => fun E => list_ins k v (`t) ↾ ordered_ins k v (`t) (proj2_sig t) E
  end eq_refl.

#[export] Instance alist_avl : Avl K V (alist K V) := {|
  avl_empty := [] ↾ SSorted_nil _;
  avl_elems t := `t;
  avl_search k t := list_eq_at k (`t);
  avl_search_lt k t := list_lt k (`t);
  avl_search_gt k t := list_gt k (`t);
  avl_search_ge k t := list_ge k (`t);
  avl_search_le k t := list_le k (`t);
  avl_least t := head (`t);
  avl_root t := head (`t);
  avl_insert := alist_insert;
  avl_remove k t := list_del k (`t) ↾ ordered_del k (`t) (proj2_sig t)
|}.

#[export] Instance alist_ok : AvlOk K V (alist K V).
Proof.
  split; try done.
  - intros [l Hl]. done.
  - intros [l Hl]. simpl. destruct l as [|e l]; simpl; [done|by left].
  - intros k v t. simpl. unfold alist_insert. generalize (ordered_ins k v (`t) (proj2_sig t)).
    by destruct (list_eq_at k (`t)).
  - intros k v t. simpl. unfold alist_insert. generalize (ordered_ins k v (`t) (proj2_sig t)).
    destruct (list_eq_at k (`t)); [done|]. by intros ? [? ?].
Qed.
End alist.
