(* ===== verification/Region.v ===== *)
(** * Minix' memory regions: the state and the operations of [region.c]

    A process has an ordered tree of virtual regions; a region has an array with
    one [phys_region] pointer (or NULL) per page.  Regions, [phys_region]s and
    blocks are heap objects: the state holds one map per kind of object, and a
    pointer is a key of its map.  The calls of the checks under [#if SANITYCHECKS],
    a debugging configuration, are left out of the operations. *)
From S2P Require Import Prelude StateM Avl.
Open Scope Z_scope.

(** The page size of the i386. *)
Definition VM_PAGE_SIZE : Z := 4096.

Record phys_block := PhysBlock { phys : Z; refcount : Z }.
Record phys_region := PhysRegion { ph : nat; offset : Z }.
Record vir_region := VirRegion {
  vaddr : Z; vr_length : Z; physblocks : list (option nat); vr_flags : Z;
  memtype : nat; remaps : Z; vr_id : Z; parent : nat
}.

Record block_id := BlockId { owner : Z; bid : Z }.
Record yielded_t := Yielded {
  id : block_id; physaddr : Z; pages : Z; younger : option nat; older : option nat
}.

Record vmproc (RT : Type) := VmProc {
  vm_endpoint : Z; vm_regions_avl : RT; vm_region_top : Z; vm_yielded : Z
}.
Arguments VmProc {RT} _ _ _ _. Arguments vm_endpoint {RT} _. Arguments vm_regions_avl {RT} _.
Arguments vm_region_top {RT} _. Arguments vm_yielded {RT} _.

(** The heap objects, the process table and the static variables of [region.c]
    ([next_id] is the counter of [region_new]); [world] is everything else. *)
Record vm (W RT YT : Type) := Vm {
  world : W;
  regions : gmap nat vir_region;
  phys_regions : gmap nat phys_region;
  phys_blocks : gmap nat phys_block;
  procs : list (vmproc RT);
  nodes : gmap nat yielded_t;
  vm_yielded_blocks : Z -> YT;
  lru_youngest : option nat;
  lru_oldest : option nat;
  next_id : Z;
  avl_inited : bool
}.
Arguments Vm {W RT YT} _ _ _ _ _ _ _ _ _ _ _. Arguments world {W RT YT} _.
Arguments regions {W RT YT} _. Arguments phys_regions {W RT YT} _. Arguments phys_blocks {W RT YT} _.
Arguments procs {W RT YT} _. Arguments nodes {W RT YT} _. Arguments vm_yielded_blocks {W RT YT} _ _.
Arguments lru_youngest {W RT YT} _. Arguments lru_oldest {W RT YT} _. Arguments next_id {W RT YT} _.
Arguments avl_inited {W RT YT} _.

(** ** Field updates *)

Definition with_vaddr (v : Z) (r : vir_region) :=
  VirRegion v (vr_length r) (physblocks r) (vr_flags r) (memtype r) (remaps r) (vr_id r) (parent r).
Definition with_length (n : Z) (r : vir_region) :=
  VirRegion (vaddr r) n (physblocks r) (vr_flags r) (memtype r) (remaps r) (vr_id r) (parent r).
Definition with_physblocks (l : list (option nat)) (r : vir_region) :=
  VirRegion (vaddr r) (vr_length r) l (vr_flags r) (memtype r) (remaps r) (vr_id r) (parent r).
Definition with_flags (f : Z) (r : vir_region) :=
  VirRegion (vaddr r) (vr_length r) (physblocks r) f (memtype r) (remaps r) (vr_id r) (parent r).
Definition with_parent (p : nat) (r : vir_region) :=
  VirRegion (vaddr r) (vr_length r) (physblocks r) (vr_flags r) (memtype r) (remaps r) (vr_id r) p.
Definition with_offset (o : Z) (r : phys_region) := PhysRegion (ph r) o.
Definition with_phys (p : Z) (b : phys_block) := PhysBlock p (refcount b).

Section state.
Context {W RT YT : Type}.
Implicit Types (s : vm W RT YT) (vp : vmproc RT).

Definition with_tree (t : RT) vp := VmProc (vm_endpoint vp) t (vm_region_top vp) (vm_yielded vp).
Definition with_top v vp := VmProc (vm_endpoint vp) (vm_regions_avl vp) v (vm_yielded vp).
Definition with_yielded n vp := VmProc (vm_endpoint vp) (vm_regions_avl vp) (vm_region_top vp) n.

Definition with_regions m s := Vm (world s) m (phys_regions s) (phys_blocks s) (procs s) (nodes s)
  (vm_yielded_blocks s) (lru_youngest s) (lru_oldest s) (next_id s) (avl_inited s).
Definition with_phys_regions m s := Vm (world s) (regions s) m (phys_blocks s) (procs s) (nodes s)
  (vm_yielded_blocks s) (lru_youngest s) (lru_oldest s) (next_id s) (avl_inited s).
Definition with_phys_blocks m s := Vm (world s) (regions s) (phys_regions s) m (procs s) (nodes s)
  (vm_yielded_blocks s) (lru_youngest s) (lru_oldest s) (next_id s) (avl_inited s).
Definition with_procs (l : list (vmproc RT)) s := Vm (world s) (regions s) (phys_regions s) (phys_blocks s) l (nodes s)
  (vm_yielded_blocks s) (lru_youngest s) (lru_oldest s) (next_id s) (avl_inited s).
Definition with_nodes m s := Vm (world s) (regions s) (phys_regions s) (phys_blocks s) (procs s) m
  (vm_yielded_blocks s) (lru_youngest s) (lru_oldest s) (next_id s) (avl_inited s).
Definition with_buckets (f : Z -> YT) s := Vm (world s) (regions s) (phys_regions s) (phys_blocks s) (procs s)
  (nodes s) f (lru_youngest s) (lru_oldest s) (next_id s) (avl_inited s).
Definition with_lru y o s := Vm (world s) (regions s) (phys_regions s) (phys_blocks s) (procs s)
  (nodes s) (vm_yielded_blocks s) y o (next_id s) (avl_inited s).
Definition with_next_id n s := Vm (world s) (regions s) (phys_regions s) (phys_blocks s) (procs s)
  (nodes s) (vm_yielded_blocks s) (lru_youngest s) (lru_oldest s) n (avl_inited s).
Definition with_inited b s := Vm (world s) (regions s) (phys_regions s) (phys_blocks s) (procs s)
  (nodes s) (vm_yielded_blocks s) (lru_youngest s) (lru_oldest s) (next_id s) b.
End state.

(** ** The monad *)

Abbreviation M W RT YT := (ST (vm W RT YT)).

Section monad.
Context {W RT YT : Type}.
Abbreviation M := (M W RT YT).
Abbreviation vm := (vm W RT YT).

(** Following a pointer to an object that is not on the heap is undefined. *)
Definition get_vr (p : nat) : M vir_region := s ← gets regions; derefs Undefined (s !! p).
Definition put_vr (p : nat) (r : vir_region) : M unit := modify (fun s => with_regions (<[p := r]> (regions s)) s).
Definition free_vr (p : nat) : M unit := modify (fun s => with_regions (delete p (regions s)) s).
Definition get_pr (p : nat) : M phys_region := s ← gets phys_regions; derefs Undefined (s !! p).
Definition put_pr (p : nat) (r : phys_region) : M unit :=
  modify (fun s => with_phys_regions (<[p := r]> (phys_regions s)) s).
Definition free_pr (p : nat) : M unit := modify (fun s => with_phys_regions (delete p (phys_regions s)) s).
Definition get_pb (p : nat) : M phys_block := s ← gets phys_blocks; derefs Undefined (s !! p).
Definition put_pb (p : nat) (b : phys_block) : M unit :=
  modify (fun s => with_phys_blocks (<[p := b]> (phys_blocks s)) s).
Definition get_proc (n : nat) : M (vmproc RT) := s ← gets procs; derefs OutOfBounds (s !! n).
Definition put_proc (n : nat) (vp : vmproc RT) : M unit := modify (fun s => with_procs (<[n := vp]> (procs s)) s).
Definition get_tree (n : nat) : M RT := vp ← get_proc n; mret (vm_regions_avl vp).
Definition put_tree (n : nat) (t : RT) : M unit := vp ← get_proc n; put_proc n (with_tree t vp).

(** [for (off = ...; off < lim; off += VM_PAGE_SIZE)], with a bound that is read
    each time; the body can return from the function. *)
Fixpoint for_pages {R} (fuel : nat) (off : Z) (lim : M Z) (body : Z -> M (option R)) : M (option R) :=
  match fuel with
  | O => raise OutOfFuel
  | S fuel =>
      l ← lim;
      if decide (off < l) then
        r ← body off;
        match r with
        | Some _ => mret r
        | None => for_pages fuel (u32 (off + VM_PAGE_SIZE)) lim body
        end
      else mret None
  end.

(** Enough steps for the pages of [off, lim). *)
Definition page_fuel (off lim : Z) : nat := S (S (Z.to_nat ((lim - off) / VM_PAGE_SIZE))).
End monad.

(** ** What the rest of the VM server provides *)

(** Functions that a kind of memory may define, [None] being NULL. *)
Record mem_type (W RT YT : Type) := MemType {
  ev_new : option (nat -> M W RT YT Z);
  ev_delete : option (nat -> M W RT YT unit);
  ev_pagefault : option (nat -> nat -> nat -> Z -> M W RT YT Z);
  ev_copy : option (nat -> nat -> M W RT YT Z);
  ev_resize : option (nat -> nat -> Z -> M W RT YT Z);
  writable : option (nat -> M W RT YT Z);
  regionid : option (nat -> M W RT YT Z);
  mt_refcount : option (nat -> M W RT YT Z)
}.
Arguments ev_new {W RT YT} _. Arguments ev_delete {W RT YT} _. Arguments ev_pagefault {W RT YT} _.
Arguments ev_copy {W RT YT} _. Arguments ev_resize {W RT YT} _. Arguments writable {W RT YT} _.
Arguments regionid {W RT YT} _. Arguments mt_refcount {W RT YT} _.

(** Constants of Minix' headers. *)
Class VmHdr := {
  ENOMEM : Z; EINVAL : Z; EFAULT : Z; ESRCH : Z; SUSPEND : Z;
  VR_WRITABLE : Z; VR_PHYS64K : Z; VR_LOWER16MB : Z; VR_LOWER1MB : Z; VR_CONTIG : Z;
  VR_SHARED : Z; VR_UNINITIALIZED : Z; VR_ANON : Z; VR_DIRECT : Z;
  PAF_CLEAR : Z; PAF_CONTIG : Z; PAF_ALIGN64K : Z; PAF_LOWER16MB : Z; PAF_LOWER1MB : Z;
  PTF_WRITE : Z; PTF_READ : Z; PTF_PRESENT : Z; PTF_USER : Z; WMF_OVERWRITE : Z;
  MF_PREALLOC : Z; MAP_NONE : Z; NO_MEM : Z; PROT_WRITE : Z; VM_PROC_NR : Z;
  VM_BLOCKID_NONE : Z; VM_DATATOP : Z
}.
Definition OK : Z := 0.

(** Functions of other files: [pb.c], [pagetable.c], [alloc.c], the memory types,
    the slab allocator ([calloc] and [realloc] are asked whether they succeed). *)
Class VmServer (W RT YT : Type) := {
  mem_types : nat -> mem_type W RT YT;
  SLABALLOC : M W RT YT (option nat);
  calloc : M W RT YT bool;
  pb_new : Z -> M W RT YT (option nat);
  pb_free : nat -> M W RT YT unit;
  pb_reference : nat -> Z -> nat -> M W RT YT (option nat);
  pb_unreferenced : nat -> nat -> bool -> M W RT YT unit;
  pt_writemap : nat -> Z -> Z -> Z -> Z -> Z -> M W RT YT Z;
  alloc_mem : Z -> Z -> M W RT YT Z;
  free_mem : Z -> Z -> M W RT YT unit;
  sys_abscopy : Z -> Z -> Z -> M W RT YT Z;
  vm_isokendpt : Z -> M W RT YT (option nat);
  get_vm_self_pages : M W RT YT Z;
  kernel_allocated : M W RT YT (Z * Z);
  vm_allocated_bytes : M W RT YT Z;
  hash_i_64 : Z -> Z -> Z;
  ABS2CLICK : Z -> Z;
  CLICK2ABS : Z -> Z
}.
