(* ===== verification/RegionOps.v ===== *)
(** * Minix' memory regions: the operations on regions ([region.c]) *)
From S2P Require Import Prelude StateM Avl Region.
Open Scope Z_scope.

Section region.
Context {W RT YT : Type} `{!Avl Z nat RT} `{!VmHdr} `{!VmServer W RT YT}.
Abbreviation M := (M W RT YT).
Abbreviation vm := (vm W RT YT).
Implicit Types (vmp region r : nat) (v minv maxv len : Z).

(** ** Pages of a region *)

Definition physblock_get region (off : Z) : M (option nat) :=
  r ← get_vr region;
  _ ← asserts (off mod VM_PAGE_SIZE = 0);
  _ ← asserts (0 <= off < vr_length r);
  foundregion ← derefs OutOfBounds (physblocks r !! Z.to_nat (off / VM_PAGE_SIZE));
  match foundregion with
  | Some p => pr ← get_pr p; _ ← asserts (offset pr = off); mret (Some p)
  | None => mret None
  end.

Definition physblock_set region (off : Z) (newphysr : option nat) : M unit :=
  r ← get_vr region;
  _ ← asserts (off mod VM_PAGE_SIZE = 0);
  _ ← asserts (0 <= off < vr_length r);
  let i := Z.to_nat (off / VM_PAGE_SIZE) in
  old ← derefs OutOfBounds (physblocks r !! i);
  _ ← match newphysr with
      | Some p => _ ← asserts (old = None); pr ← get_pr p; asserts (offset pr = off)
      | None => asserts (old <> None)
      end;
  put_vr region (with_physblocks (<[i := newphysr]> (physblocks r)) r).

Definition phys_slot len : M Z :=
  _ ← asserts (len mod VM_PAGE_SIZE = 0); mret (len / VM_PAGE_SIZE).

(** [int physregions(vr)] *)
Fixpoint count_pages (fuel : nat) region (voffset n : Z) : M Z :=
  match fuel with
  | O => raise OutOfFuel
  | S fuel =>
      vr ← get_vr region;
      if decide (voffset < vr_length vr) then
        p ← physblock_get region voffset;
        count_pages fuel region (u32 (voffset + VM_PAGE_SIZE)) (if p is Some _ then n + 1 else n)
      else mret n
  end.
Definition physregions region : M Z :=
  vr ← get_vr region; count_pages (page_fuel 0 (vr_length vr)) region 0 0.

(** ** Neighbours *)

Definition getnextvr region : M (option nat) :=
  vr ← get_vr region;
  t ← get_tree (parent vr);
  _ ← asserts (avl_search (vaddr vr) t = Some region);
  match avl_search_gt (vaddr vr) t with
  | None => mret None
  | Some (_, next) =>
      nextvr ← get_vr next;
      _ ← asserts (parent vr = parent nextvr);
      _ ← asserts (vaddr vr < vaddr nextvr);
      _ ← asserts (u32 (vaddr vr + vr_length vr) <= vaddr nextvr);
      mret (Some next)
  end.

(** [physr] tells whether the caller passes a place for the [phys_region]. *)
Definition map_lookup vmp (off : Z) (physr : bool) : M (option (nat * option nat)) :=
  t ← get_tree vmp;
  match avl_search_le off t with
  | Some (_, r) =>
      vr ← get_vr r;
      if decide (off >= vaddr vr /\ off < u32 (vaddr vr + vr_length vr)) then
        if physr then
          p ← physblock_get r (off - vaddr vr);
          _ ← match p with
              | Some q => pr ← get_pr q; asserts (offset pr = off - vaddr vr)
              | None => mret tt
              end;
          mret (Some (r, p))
        else mret (Some (r, None))
      else mret None
  | None => mret None
  end.

(** ** Finding a place for a region *)

Definition SLOT_FAIL : Z := 2 ^ 32 - 1.

(** [FREEVRANGE_TRY]: the highest place in the part of the range that lies in
    [minv, maxv). *)
Definition FREEVRANGE_TRY minv maxv len (rangestart rangeend : Z) : option Z :=
  let frstart := Z.max rangestart minv in
  let frend := Z.min rangeend maxv in
  if decide (frend > frstart /\ frend - frstart >= len) then Some (frend - len) else None.

(** [FREEVRANGE]: first with a page left free at both ends. *)
Definition FREEVRANGE minv maxv len (start endv : Z) : option Z :=
  match FREEVRANGE_TRY minv maxv len (u32 (start + VM_PAGE_SIZE)) (u32 (endv - VM_PAGE_SIZE)) with
  | Some startv => Some startv
  | None => FREEVRANGE_TRY minv maxv len start endv
  end.

(** The end of the region an iterator stands on, or 0. *)
Definition region_end (e : option (Z * nat)) : M Z :=
  match e with
  | Some (_, p) => vr ← get_vr p; mret (u32 (vaddr vr + vr_length vr))
  | None => mret 0
  end.

(** The loop over the gaps, downwards. *)
Fixpoint find_gap (fuel : nat) (t : RT) (iter : option (Z * nat)) minv maxv len : M (option Z) :=
  match fuel with
  | O => raise OutOfFuel
  | S fuel =>
      match iter with
      | None => mret None
      | Some (k, p) =>
          vr ← get_vr p;
          let next := avl_search_lt k t in
          nextend ← region_end next;
          match FREEVRANGE minv maxv len nextend (vaddr vr) with
          | Some startv => mret (Some startv)
          | None => find_gap fuel t next minv maxv len
          end
      end
  end.

(** The gap behind the last region if no region starts at [maxv] or behind it,
    then the gaps below. *)
Definition search_gaps (t : RT) minv maxv len : M (option Z) :=
  let after := avl_search_ge maxv t in
  let iter := if after is Some _ then after else avl_search_lt maxv t in
  found ← (if after is Some _ then mret None
           else lastend ← region_end iter; mret (FREEVRANGE minv maxv len lastend VM_DATATOP));
  if found is Some _ then mret found
  else find_gap (S (length (avl_elems t))) t iter minv maxv len.

Definition region_find_slot_range vmp minv maxv len : M Z :=
  _ ← asserts (len > 0);
  let maxv' := if decide (maxv = 0) then u32 (minv + len) else maxv in
  if decide (maxv = 0 /\ maxv' <= minv) then mret SLOT_FAIL else
  _ ← asserts (len mod VM_PAGE_SIZE = 0);
  _ ← asserts (minv < maxv');
  if decide (u32 (minv + len) > maxv') then mret SLOT_FAIL else
  t ← get_tree vmp;
  found ← search_gaps t minv maxv' len;
  match found with
  | None => mret SLOT_FAIL
  | Some startv =>
      _ ← asserts (startv >= minv);
      _ ← asserts (startv < maxv');
      _ ← asserts (u32 (startv + len) <= maxv');
      vp ← get_proc vmp;
      _ ← put_proc vmp (with_top (u32 (startv + len)) vp);
      mret startv
  end.

Definition region_find_slot vmp minv maxv len : M Z :=
  vp ← get_proc vmp;
  let hint := vm_region_top vp in
  v ← (if decide (maxv <> 0 /\ hint < maxv /\ hint >= minv)
       then region_find_slot_range vmp minv hint len else mret SLOT_FAIL);
  if decide (v <> SLOT_FAIL) then mret v else region_find_slot_range vmp minv maxv len.

(** ** New regions *)

Definition region_new vmp startv len flags (mt : nat) : M (option nat) :=
  slots ← phys_slot len;
  newregion ← SLABALLOC;
  match newregion with
  | None => mret None
  | Some p =>
      n ← gets next_id;
      _ ← modify (with_next_id (u32 (n + 1)));
      ok ← calloc;
      if (ok : bool) then
        _ ← put_vr p (VirRegion startv len (replicate (Z.to_nat slots) None) flags mt 0 n vmp);
        mret (Some p)
      else mret None
  end.

(** ** Freeing *)

Definition map_subfree region start len : M Z :=
  let endv := u32 (start + len) in
  r ← for_pages (R := Z) (page_fuel start endv) start (mret endv) (fun voffset =>
    p ← physblock_get region voffset;
    match p with
    | None => mret (None : option Z)
    | Some pr =>
        q ← get_pr pr;
        _ ← asserts (offset q >= start);
        _ ← asserts (offset q < endv);
        _ ← pb_unreferenced region pr true;
        _ ← free_pr pr;
        mret None
    end);
  mret (default OK r).

Definition mem_type_of region : M (mem_type W RT YT) :=
  r ← get_vr region; mret (mem_types (memtype r)).

Definition map_free region : M Z :=
  vr ← get_vr region;
  r ← map_subfree region 0 (vr_length vr);
  if decide (r <> OK) then mret r else
  mt ← mem_type_of region;
  _ ← match ev_delete mt with Some f => f region | None => mret tt end;
  _ ← free_vr region;
  mret OK.

(** [while ((r = region_search_root(...)))]; [free_yielded_proc] follows in the
    code and is the argument [rest]. *)
Fixpoint free_regions (fuel : nat) vmp : M unit :=
  match fuel with
  | O => raise OutOfFuel
  | S fuel =>
      t ← get_tree vmp;
      match avl_root t with
      | None => mret tt
      | Some (k, r) =>
          vr ← get_vr r;
          _ ← put_tree vmp (avl_remove (vaddr vr) t);
          _ ← map_free r;
          free_regions fuel vmp
      end
  end.

Definition map_free_proc {A} (free_yielded_proc : nat -> M A) vmp : M Z :=
  t ← get_tree vmp;
  _ ← free_regions (S (length (avl_elems t))) vmp;
  _ ← put_tree vmp avl_empty;
  _ ← free_yielded_proc vmp;
  mret OK.

(** ** Page faults *)

Definition pr_writable region pr : M bool :=
  vr ← get_vr region;
  f ← derefs AssertFail (writable (mem_types (memtype vr)));
  if decide (Z.land (vr_flags vr) VR_WRITABLE = 0) then mret false else
  w ← f pr; mret (bool_decide (w <> 0)).

Definition map_ph_writept vmp region pr : M Z :=
  p ← get_pr pr;
  pb ← get_pb (ph p);
  vr ← get_vr region;
  _ ← asserts (vaddr vr mod VM_PAGE_SIZE = 0);
  _ ← asserts (offset p mod VM_PAGE_SIZE = 0);
  _ ← asserts (refcount pb > 0);
  w ← pr_writable region pr;
  let rw := if (w : bool) then PTF_WRITE else PTF_READ in
  r ← pt_writemap vmp (u32 (vaddr vr + offset p)) (phys pb) VM_PAGE_SIZE
        (Z.lor (Z.lor PTF_PRESENT PTF_USER) rw) WMF_OVERWRITE;
  if decide (r <> OK) then mret ENOMEM else mret OK.

(** The second half of [map_pf], with the page's [phys_region] in place. *)
Definition pf_resolve vmp region ph (write : Z) : M Z :=
  mt ← mem_type_of region;
  wr ← derefs AssertFail (writable mt);
  need ← (if decide (write = 0) then mret true else w ← wr ph; mret (bool_decide (w = 0)));
  r ← (if need : bool then
         pf ← derefs AssertFail (ev_pagefault mt);
         r ← pf vmp region ph write;
         if decide (r = SUSPEND) then raise Panic else mret r
       else mret OK);
  if decide (r <> OK) then _ ← pb_unreferenced region ph true; mret r else
  r ← map_ph_writept vmp region ph;
  mret r.

(** The page is absent: it gets a block that has no frame yet. *)
Definition pf_new vmp region (off write : Z) : M Z :=
  pb ← pb_new MAP_NONE;
  match pb with
  | None => mret ENOMEM
  | Some pb =>
      p ← pb_reference pb off region;
      match p with
      | None => _ ← pb_free pb; mret ENOMEM
      | Some ph => pf_resolve vmp region ph write
      end
  end.

Definition map_pf vmp region (off write : Z) : M Z :=
  let off := off - off mod VM_PAGE_SIZE in
  vr ← get_vr region;
  _ ← asserts (off >= 0);
  _ ← asserts (off < vr_length vr);
  _ ← asserts (vaddr vr mod VM_PAGE_SIZE = 0);
  _ ← asserts (~ (write <> 0 /\ Z.land (vr_flags vr) VR_WRITABLE = 0));
  p ← physblock_get region off;
  match p with
  | Some ph => pf_resolve vmp region ph write
  | None => pf_new vmp region off write
  end.

Definition map_handle_memory vmp region start_offset len (write : Z) : M Z :=
  _ ← asserts (len > 0);
  let lim := u32 (start_offset + len) in
  _ ← asserts (lim > start_offset);
  r ← for_pages (R := Z) (page_fuel start_offset lim) start_offset (mret lim) (fun off =>
    r ← map_pf vmp region off write;
    mret (if decide (r <> OK) then Some r else None));
  mret (default OK r).

(** ** Walking the regions of a process *)

(** [while ((vr = region_get_iter(&iter))) { body; region_incr_iter(&iter); }] *)
Fixpoint for_regions {R} (fuel : nat) vmp (iter : option (Z * nat)) (body : nat -> M (option R)) : M (option R) :=
  match fuel with
  | O => raise OutOfFuel
  | S fuel =>
      match iter with
      | None => mret None
      | Some (k, vr) =>
          r ← body vr;
          match r with
          | Some _ => mret r
          | None => t ← get_tree vmp; for_regions fuel vmp (avl_search_gt k t) body
          end
      end
  end.
Definition all_regions {R} vmp (body : nat -> M (option R)) : M (option R) :=
  t ← get_tree vmp; for_regions (S (length (avl_elems t))) vmp (avl_least t) body.

Definition map_pin_memory vmp : M Z :=
  r ← all_regions vmp (fun vr =>
    v ← get_vr vr;
    r ← map_handle_memory vmp vr 0 (vr_length v) 1;
    if decide (r <> OK) then raise Panic else mret (None : option Z));
  mret (default OK r).

Definition region_length vr : M Z := v ← get_vr vr; mret (vr_length v).

Definition map_writept vmp : M Z :=
  r ← all_regions vmp (fun vr =>
    n ← region_length vr;
    for_pages (R := Z) (page_fuel 0 n) 0 (region_length vr) (fun p =>
      q ← physblock_get vr p;
      match q with
      | None => mret None
      | Some ph => r ← map_ph_writept vmp vr ph; mret (if decide (r <> OK) then Some r else None)
      end));
  mret (default OK r).

Definition map_setparent vmp : M unit :=
  _ ← all_regions vmp (fun vr =>
    v ← get_vr vr; _ ← put_vr vr (with_parent vmp v); mret (None : option unit));
  mret tt.
(** ** Mapping *)

Definition map_page_region vmp minv maxv len flags (mapflags : Z) (mt : nat) : M (option nat) :=
  _ ← asserts (len mod VM_PAGE_SIZE = 0);
  startv ← region_find_slot vmp minv maxv len;
  if decide (startv = SLOT_FAIL) then mret None else
  p ← region_new vmp startv len flags mt;
  match p with
  | None => mret None
  | Some newregion =>
      m ← mem_type_of newregion;
      r ← match ev_new m with Some f => f newregion | None => mret OK end;
      if decide (r <> OK) then mret None else
      r ← (if decide (Z.land mapflags MF_PREALLOC <> 0)
           then map_handle_memory vmp newregion 0 len 1 else mret OK);
      if decide (r <> OK) then _ ← free_vr newregion; mret None else
      vr ← get_vr newregion;
      _ ← put_vr newregion (with_flags (Z.land (vr_flags vr) (Z.lnot VR_UNINITIALIZED)) vr);
      t ← get_tree vmp;
      _ ← put_tree vmp (avl_insert (vaddr vr) newregion t);
      mret (Some newregion)
  end.

(** ** Copying *)

Definition vrallocflags (flags : Z) : Z :=
  let set f a flags := if decide (Z.land flags f <> 0) then Z.lor a else fun x => x in
  let clear := if decide (Z.land flags VR_UNINITIALIZED = 0) then Z.lor PAF_CLEAR else fun x => x in
  clear (set VR_CONTIG PAF_CONTIG flags (set VR_LOWER1MB PAF_LOWER1MB flags
    (set VR_LOWER16MB PAF_LOWER16MB flags (set VR_PHYS64K PAF_ALIGN64K flags 0)))).

(** The loop ends when [len] bytes are copied; each step copies at least one. *)
Fixpoint copy_abs2region_loop (fuel : nat) (abs : Z) destregion (off len : Z) : M Z :=
  match fuel with
  | O => raise OutOfFuel
  | S fuel =>
      if decide (len > 0) then
        p ← physblock_get destregion off;
        match p with
        | None => mret EFAULT
        | Some ph' =>
            pr ← get_pr ph';
            _ ← asserts (offset pr <= off);
            if decide (u32 (offset pr + VM_PAGE_SIZE) <= off) then mret EFAULT else
            let suboffset := off - offset pr in
            _ ← asserts (suboffset < VM_PAGE_SIZE);
            let sublen := if decide (len > VM_PAGE_SIZE - suboffset) then VM_PAGE_SIZE - suboffset else len in
            _ ← asserts (suboffset + sublen <= VM_PAGE_SIZE);
            pb ← get_pb (ph pr);
            if decide (refcount pb <> 1) then mret EFAULT else
            r ← sys_abscopy abs (u32 (phys pb + suboffset)) sublen;
            if decide (r <> OK) then mret EFAULT else
            copy_abs2region_loop fuel (u32 (abs + sublen)) destregion (u32 (off + sublen)) (len - sublen)
        end
      else mret OK
  end.
Definition copy_abs2region (abs : Z) destregion (off len : Z) : M Z :=
  _ ← get_vr destregion; copy_abs2region_loop (S (Z.to_nat len)) abs destregion off len.

Definition map_clone_ph_block vmp region ph' : M (option nat) :=
  pr ← get_pr ph';
  pb ← get_pb (ph pr);
  _ ← asserts (refcount pb > 1);
  let off := offset pr in
  let physaddr := phys pb in
  _ ← pb_unreferenced region ph' true;
  _ ← free_pr ph';
  vr ← get_vr region;
  let allocflags := vrallocflags (Z.lor (vr_flags vr) VR_UNINITIALIZED) in
  _ ← asserts ((off = 0 /\ vr_length vr = VM_PAGE_SIZE) \/ Z.land allocflags PAF_CONTIG = 0);
  _ ← asserts (Z.land allocflags PAF_CLEAR = 0);
  r ← map_pf vmp region off 1;
  if decide (r <> OK) then mret None else
  r ← copy_abs2region physaddr region off VM_PAGE_SIZE;
  if decide (r <> OK) then raise Panic else
  newpr ← physblock_get region off;
  p ← derefs AssertFail newpr;
  mret (Some p).

(** The loop of [map_copy_region] over the page numbers; [true] on success. *)
Fixpoint copy_pages (fuel : nat) vr newvr (p : Z) : M bool :=
  match fuel with
  | O => raise OutOfFuel
  | S fuel =>
      v ← get_vr vr;
      slots ← phys_slot (vr_length v);
      if decide (p < slots) then
        q ← physblock_get vr (p * VM_PAGE_SIZE);
        match q with
        | None => copy_pages fuel vr newvr (p + 1)
        | Some q =>
            pr ← get_pr q;
            newph ← pb_reference (ph pr) (offset pr) newvr;
            match newph with
            | None => mret false
            | Some _ => copy_pages fuel vr newvr (p + 1)
            end
        end
      else mret true
  end.

Definition map_copy_region (vmp vr : nat) : M (option nat) :=
  v ← get_vr vr;
  p ← region_new (parent v) (vaddr v) (vr_length v) (vr_flags v) (memtype v);
  match p with
  | None => mret None
  | Some newvr =>
      mt ← mem_type_of vr;
      r ← match ev_copy mt with Some f => f vr newvr | None => mret OK end;
      if decide (r <> OK) then _ ← map_free newvr; mret None else
      ok ← copy_pages (page_fuel 0 (vr_length v)) vr newvr 0;
      if (ok : bool) then mret (Some newvr) else _ ← map_free newvr; mret None
  end.

Definition map_proc_copy_from {A} (free_yielded_proc : nat -> M A) (dst src : nat) (start_src_vr : option nat) : M Z :=
  t ← get_tree src;
  start ← derefs AssertFail (if start_src_vr is Some r then Some r else snd <$> avl_least t);
  v ← get_vr start;
  _ ← asserts (parent v = src);
  _ ← asserts (avl_search (vaddr v) t = Some start);
  r ← for_regions (S (length (avl_elems t))) src (Some (vaddr v, start)) (fun vr =>
    newvr ← map_copy_region dst vr;
    match newvr with
    | None => _ ← map_free_proc free_yielded_proc dst; mret (Some ENOMEM)
    | Some newvr =>
        n ← get_vr newvr;
        _ ← put_vr newvr (with_parent dst n);
        td ← get_tree dst;
        _ ← put_tree dst (avl_insert (vaddr n) newvr td);
        v ← get_vr vr;
        _ ← asserts (vr_length v = vr_length n);
        mret None
    end);
  match r with
  | Some r => mret r
  | None => _ ← map_writept src; _ ← map_writept dst; mret OK
  end.

Definition map_proc_copy {A} (free_yielded_proc : nat -> M A) (dst src : nat) : M Z :=
  _ ← put_tree dst avl_empty; map_proc_copy_from free_yielded_proc dst src None.

(** ** Growing and shrinking *)

Definition map_region_extend_upto_v vmp v : M Z :=
  let off := u32 (u32 (v + (VM_PAGE_SIZE - 1)) / VM_PAGE_SIZE * VM_PAGE_SIZE) in
  t ← get_tree vmp;
  match avl_search_lt off t with
  | None => mret ENOMEM
  | Some (_, r) =>
      vr ← get_vr r;
      if decide (u32 (vaddr vr + vr_length vr) >= v) then mret OK else
      _ ← asserts (vaddr vr <= off);
      newslots ← phys_slot (off - vaddr vr);
      prevslots ← phys_slot (vr_length vr);
      _ ← asserts (newslots >= prevslots);
      ok ← calloc;
      if negb ok then mret ENOMEM else
      _ ← put_vr r (with_physblocks (take (Z.to_nat prevslots) (physblocks vr) ++
                     replicate (Z.to_nat (newslots - prevslots)) None) vr);
      nextvr ← getnextvr r;
      _ ← match nextvr with
          | Some n => nv ← get_vr n; asserts (off <= vaddr nv)
          | None => mret tt
          end;
      blocked ← match nextvr with
                | Some n => nv ← get_vr n; mret (bool_decide (vaddr nv < off))
                | None => mret false
                end;
      if (blocked : bool) then mret ENOMEM else
      mt ← mem_type_of r;
      match ev_resize mt with
      | None => mret ENOMEM
      | Some f => f vmp r (off - vaddr vr)
      end
  end.

(** The loop of [map_unmap_region] that moves the offsets down by [len]. *)
Definition shift_offsets r off len : M Z :=
  n ← region_length r;
  x ← for_pages (R := Z) (page_fuel off n) off (region_length r) (fun voffset =>
    p ← physblock_get r voffset;
    match p with
    | None => mret None
    | Some pr =>
        q ← get_pr pr;
        _ ← asserts (offset q >= off);
        _ ← put_pr pr (with_offset (u32 (offset q - len)) q);
        mret None
    end);
  mret (default OK x).

Definition map_unmap_region vmp r off len : M Z :=
  freeslots ← phys_slot len;
  vr ← get_vr r;
  if decide (u32 (off + len) > vr_length vr \/ len mod VM_PAGE_SIZE <> 0) then mret EINVAL else
  let regionstart := u32 (vaddr vr + off) in
  _ ← map_subfree r off len;
  vr ← get_vr r;
  _ ← (if decide (off = 0) then
         t ← get_tree vmp;
         _ ← put_tree vmp (avl_remove (vaddr vr) t);
         _ ← put_vr r (with_length (vr_length vr - len) (with_vaddr (u32 (vaddr vr + len)) vr));
         remslots ← phys_slot (vr_length vr - len);
         t ← get_tree vmp;
         _ ← put_tree vmp (avl_insert (u32 (vaddr vr + len)) r t);
         _ ← shift_offsets r off len;
         if decide (remslots <> 0) then
           vr ← get_vr r;
           let l := physblocks vr in
           if decide (Z.of_nat (length l) < freeslots + remslots) then raise OutOfBounds else
           put_vr r (with_physblocks (take (Z.to_nat remslots) (drop (Z.to_nat freeslots) l) ++
             drop (Z.to_nat remslots) l) vr)
         else mret tt
       else if decide (u32 (off + len) = vr_length vr) then
         put_vr r (with_length (vr_length vr - len) vr)
       else mret tt);
  vr ← get_vr r;
  _ ← (if decide (vr_length vr = 0) then
         t ← get_tree vmp;
         _ ← put_tree vmp (avl_remove (vaddr vr) t);
         _ ← map_free r; mret tt
       else mret tt);
  x ← pt_writemap vmp regionstart MAP_NONE len 0 WMF_OVERWRITE;
  mret (if decide (x <> OK) then ENOMEM else OK).
(** ** Information *)

(** [*r] is written when the caller passes a place for it. *)
Definition map_get_phys vmp (addr : Z) (r : bool) : M (Z * option Z) :=
  found ← map_lookup vmp addr false;
  match found with
  | None => mret (EINVAL, None)
  | Some (vr, _) =>
      v ← get_vr vr;
      if decide (vaddr v <> addr) then mret (EINVAL, None) else
      match regionid (mem_types (memtype v)) with
      | None => mret (EINVAL, None)
      | Some f => if r then x ← f vr; mret (OK, Some x) else mret (OK, None)
      end
  end.

Definition map_get_ref vmp (addr : Z) (cnt : bool) : M (Z * option Z) :=
  found ← map_lookup vmp addr false;
  match found with
  | None => mret (EINVAL, None)
  | Some (vr, _) =>
      v ← get_vr vr;
      match mt_refcount (mem_types (memtype v)) with
      | None => mret (EINVAL, None)
      | Some f =>
          if decide (vaddr v <> addr) then mret (EINVAL, None) else
          if cnt then x ← f vr; mret (OK, Some (u8 x)) else mret (OK, None)
      end
  end.

(** [struct vm_usage_info] *)
Record usage := Usage { vui_total : Z; vui_common : Z; vui_shared : Z }.

Definition get_usage_info_kernel : M usage :=
  k ← kernel_allocated; mret (Usage (u32 (k.1 + k.2)) 0 0).
Definition get_usage_info_vm : M usage :=
  k ← vm_allocated_bytes; p ← get_vm_self_pages; mret (Usage (u32 (k + p * VM_PAGE_SIZE)) 0 0).

Definition count_page (vr : vir_region) (pb : phys_block) (vui : usage) : usage :=
  let common := bool_decide (refcount pb > 1) in
  let shared := common && bool_decide (Z.land (vr_flags vr) VR_SHARED <> 0) in
  Usage (u32 (vui_total vui + VM_PAGE_SIZE))
    (if common then u32 (vui_common vui + VM_PAGE_SIZE) else vui_common vui)
    (if shared then u32 (vui_shared vui + VM_PAGE_SIZE) else vui_shared vui).

Fixpoint usage_pages (fuel : nat) (r : nat) (voffset : Z) (vui : usage) : M usage :=
  match fuel with
  | O => raise OutOfFuel
  | S fuel =>
      vr ← get_vr r;
      if decide (voffset < vr_length vr) then
        p ← physblock_get r voffset;
        vui ← match p with
              | None => mret vui
              | Some q => pr ← get_pr q; pb ← get_pb (ph pr); mret (count_page vr pb vui)
              end;
        usage_pages fuel r (u32 (voffset + VM_PAGE_SIZE)) vui
      else mret vui
  end.

Fixpoint usage_regions (fuel : nat) (t : RT) (iter : option (Z * nat)) (vui : usage) : M usage :=
  match fuel with
  | O => raise OutOfFuel
  | S fuel =>
      match iter with
      | None => mret vui
      | Some (k, r) =>
          n ← region_length r;
          vui ← usage_pages (page_fuel 0 n) r 0 vui;
          usage_regions fuel t (avl_search_gt k t) vui
      end
  end.

Definition get_usage_info vmp : M usage :=
  vp ← get_proc vmp;
  let t := vm_regions_avl vp in
  if decide (vm_endpoint vp = VM_PROC_NR) then get_usage_info_vm else
  if decide (vm_endpoint vp < 0) then get_usage_info_kernel else
  usage_regions (S (length (avl_elems t))) t (avl_least t) (Usage 0 0 0).

(** [struct vm_region_info] *)
Record region_info := RegionInfo { vri_addr : Z; vri_prot : Z; vri_length : Z }.

(** The first and the last page present in a region. *)
Fixpoint used_pages (fuel : nat) (r : nat) (voffset : Z) (ph1 ph2 : option nat) : M (option nat * option nat) :=
  match fuel with
  | O => raise OutOfFuel
  | S fuel =>
      vr ← get_vr r;
      if decide (voffset < vr_length vr) then
        p ← physblock_get r voffset;
        let ph1 := if p is Some _ then (if ph1 is Some _ then ph1 else p) else ph1 in
        let ph2 := if p is Some _ then p else ph2 in
        used_pages fuel r (u32 (voffset + VM_PAGE_SIZE)) ph1 ph2
      else mret (ph1, ph2)
  end.

(** The loop of [get_region_info]: what each step writes into the caller's array
    ([None]: nothing), and the final [next].  A region without pages is left
    with [continue], which counts the step but does not move the iterator. *)
Fixpoint region_infos (fuel : nat) (t : RT) (iter : option (Z * nat)) (next : Z) : M (list (option region_info) * Z) :=
  match fuel with
  | O => mret ([], next)
  | S fuel =>
      match iter with
      | None => mret ([], next)
      | Some (k, r) =>
          vr ← get_vr r;
          let next := u32 (vaddr vr + vr_length vr) in
          pages ← used_pages (page_fuel 0 (vr_length vr)) r 0 None None;
          match pages with
          | (Some p1, Some p2) =>
              q1 ← get_pr p1;
              q2 ← get_pr p2;
              let i := RegionInfo (u32 (vaddr vr + offset q1)) 0
                         (u32 (offset q2 + VM_PAGE_SIZE - offset q1)) in
              rest ← region_infos fuel t (avl_search_gt k t) next;
              mret (Some i :: rest.1, rest.2)
          | _ =>
              _ ← asserts (pages = (None, None));
              rest ← region_infos fuel t iter next;
              mret (None :: rest.1, rest.2)
          end
      end
  end.

(** The result, what was written, and [*nextp]. *)
Definition get_region_info vmp (max : nat) (next : Z) : M (Z * list (option region_info) * Z) :=
  match max with
  | O => mret (0, [], next)
  | _ =>
      t ← get_tree vmp;
      match avl_search_ge next t with
      | None => mret (0, [], next)
      | iter => x ← region_infos max t iter next; mret (Z.of_nat (length x.1), x.1, x.2)
      end
  end.

Definition get_clean_phys_region vmp v : M (option (nat * nat)) :=
  found ← map_lookup vmp v true;
  match found with
  | Some (region, Some ph') =>
      vr ← get_vr region;
      _ ← asserts (v >= vaddr vr);
      _ ← asserts (v < u32 (vaddr vr + vr_length vr));
      pr ← get_pr ph';
      pb ← get_pb (ph pr);
      _ ← asserts (refcount pb > 0);
      p ← (if decide (refcount pb > 1) then map_clone_ph_block vmp region ph' else mret (Some ph'));
      match p with
      | None => mret None
      | Some p =>
          pr ← get_pr p;
          pb ← get_pb (ph pr);
          _ ← asserts (refcount pb = 1);
          mret (Some (p, region))
      end
  | _ => mret None
  end.
End region.
