(* ===== verification/RegionSlot.v ===== *)
(** * The layout of a process, and the search for a free range *)
From S2P Require Import Prelude StateM Avl Region RegionOps.
Open Scope Z_scope.

(** ** Layouts *)

(** The range [a, a + len) does not meet the region. *)
Definition apart (a len : Z) (r : vir_region) : Prop :=
  a + len <= vaddr r \/ vaddr r + vr_length r <= a.

(** Regions in increasing order, none empty, none overlapping, in [lo, hi). *)
Fixpoint stacked (lo hi : Z) (l : list vir_region) : Prop :=
  match l with
  | [] => lo <= hi
  | r :: l => lo <= vaddr r /\ 0 < vr_length r /\ stacked (vaddr r + vr_length r) hi l
  end.

Definition top_of (lo : Z) (l : list vir_region) : Z :=
  default lo ((fun r => vaddr r + vr_length r) <$> last l).

Lemma stacked_app lo hi l1 l2 : stacked lo hi (l1 ++ l2) ->
  stacked lo (top_of lo l1) l1 /\ stacked (top_of lo l1) hi l2.
Proof.
  revert lo. induction l1 as [|r l1 IH]; intros lo; simpl; [unfold top_of; simpl; intros H; split; [lia|exact H]|].
  intros (H1 & H2 & H3). apply IH in H3 as [H3 H4].
  replace (top_of lo (r :: l1)) with (top_of (vaddr r + vr_length r) l1); [done|].
  unfold top_of. rewrite last_cons. by destruct (last l1).
Qed.

Lemma stacked_le lo hi l : stacked lo hi l -> lo <= hi.
Proof. revert lo. induction l as [|r l IH]; simpl; [done|]. intros lo (? & ? & ?%IH). lia. Qed.

Lemma stacked_in lo hi l r : stacked lo hi l -> r ∈ l ->
  lo <= vaddr r /\ 0 < vr_length r /\ vaddr r + vr_length r <= hi.
Proof.
  revert lo. induction l as [|x l IH]; intros lo; [by intros _ ?%elem_of_nil|].
  intros (H1 & H2 & H3) [->|Hr]%elem_of_cons.
  - apply stacked_le in H3. lia.
  - destruct (IH _ H3 Hr). lia.
Qed.

Lemma top_of_snoc lo l r : top_of lo (l ++ [r]) = vaddr r + vr_length r.
Proof. unfold top_of. by rewrite last_snoc. Qed.

(** Above the last region of a stack, and the gap in front of a region. *)
Lemma stack_top lo hi l : 0 <= lo -> stacked lo hi l ->
  0 <= top_of 0 l <= hi /\ forall a len, top_of 0 l <= a -> forall y, y ∈ l -> apart a len y.
Proof.
  intros Hlo Hst. rewrite <- (app_nil_r l) in Hst. apply stacked_app in Hst as [Hst1 H2%stacked_le].
  pose proof (stacked_le _ _ _ Hst1). destruct l as [|z l _] using rev_ind.
  - split; [unfold top_of in *; simpl in *; lia|]. by intros a len _ y ?%elem_of_nil.
  - rewrite top_of_snoc in *. split; [lia|]. intros a len Ha y Hy.
    destruct (stacked_in _ _ _ y Hst1 Hy). right. lia.
Qed.

Lemma gap_before lo hi l1 r l2 : 0 <= lo -> stacked lo hi (l1 ++ r :: l2) ->
  lo <= vaddr r /\ 0 < vr_length r /\ vaddr r + vr_length r <= hi /\
  0 <= top_of 0 l1 <= vaddr r /\ (forall a len, top_of 0 l1 <= a -> forall y, y ∈ l1 -> apart a len y) /\
  (forall a len, a + len <= vaddr r -> forall y, y ∈ r :: l2 -> apart a len y).
Proof.
  intros Hlo Hst. pose proof (stacked_in _ _ _ r Hst ltac:(set_solver)) as (H1 & H2 & H3).
  apply stacked_app in Hst as [Hst1 (H4 & _ & H5)].
  destruct (stack_top _ _ _ Hlo Hst1) as [H6 H7].
  assert (Hst' : stacked lo (vaddr r) l1).
  { revert H4 Hst1. generalize (top_of lo l1). generalize lo. clear. induction l1 as [|y l1 IH]; simpl; [lia|].
    intros lo t Hle (? & ? & ?). split_and!; [done..|]. by eapply IH. }
  destruct (stack_top _ _ _ Hlo Hst') as [H8 _].
  split_and!; try (done || lia).
  intros a len Ha y [->|Hy]%elem_of_cons; [by left|].
  destruct (stacked_in _ _ _ y H5 Hy). left. lia.
Qed.

Lemma stacked_behind lo hi l1 r l2 y : stacked lo hi (l1 ++ r :: l2) -> y ∈ l2 -> vaddr r + vr_length r <= vaddr y.
Proof. intros [_ (_ & _ & H)]%stacked_app Hy. by destruct (stacked_in _ _ _ y H Hy). Qed.

Section layout.
Context {W RT YT : Type} `{!Avl Z nat RT} `{!AvlOk Z nat RT} `{!VmHdr} `{!VmServer W RT YT}.
Implicit Types (s : vm W RT YT) (l : list (nat * vir_region)).

Definition entry (x : nat * vir_region) : Z * nat := (vaddr x.2, x.1).

(** The process [vmp] has the regions [l]; nothing is mapped below [lo]. *)
Record has_regions (lo : Z) s (vmp : nat) (vp : vmproc RT) l : Prop := HasRegions {
  hr_proc : procs s !! vmp = Some vp;
  hr_elems : avl_elems (vm_regions_avl vp) = entry <$> l;
  hr_heap : forall x, x ∈ l -> regions s !! x.1 = Some x.2;
  hr_stacked : stacked lo VM_DATATOP l.*2
}.

Lemma get_vr_done s p r : regions s !! p = Some r -> get_vr p s = Done (r, s).
Proof. intros Hp. unfold get_vr, mbind, st_bind, gets. by rewrite Hp. Qed.

Lemma get_proc_done s n vp : procs s !! n = Some vp -> get_proc n s = Done (vp, s).
Proof. intros Hp. unfold get_proc, mbind, st_bind, gets. by rewrite Hp. Qed.

Lemma wp_get_vr s p r (Q : vir_region -> vm W RT YT -> Prop) : regions s !! p = Some r -> Q r s -> wp (get_vr p) s Q.
Proof. intros Hp. by apply wp_done, get_vr_done. Qed.

Lemma wp_get_proc s n vp (Q : vmproc RT -> vm W RT YT -> Prop) : procs s !! n = Some vp -> Q vp s -> wp (get_proc n) s Q.
Proof. intros Hp. by apply wp_done, get_proc_done. Qed.

Lemma wp_get_tree s n vp (Q : RT -> vm W RT YT -> Prop) :
  procs s !! n = Some vp -> Q (vm_regions_avl vp) s -> wp (get_tree n) s Q.
Proof. intros Hp HQ. unfold get_tree. apply wp_bind, (wp_get_proc _ _ vp); [done|]. by apply wp_ret. Qed.

Lemma wp_put_tree s n vp t (Q : unit -> vm W RT YT -> Prop) :
  procs s !! n = Some vp -> Q tt (with_procs (<[n := with_tree t vp]> (procs s)) s) -> wp (put_tree n t) s Q.
Proof. intros Hp HQ. unfold put_tree. apply wp_bind, (wp_get_proc _ _ vp); [done|]. by apply wp_modify. Qed.

(** ** One gap *)

Lemma free_range_try minv maxv len rs re : 0 < len ->
  match FREEVRANGE_TRY minv maxv len rs re with
  | Some a => minv <= a /\ a + len <= maxv /\ rs <= a /\ a + len <= re
  | None => forall a, minv <= a -> a + len <= maxv -> rs <= a -> a + len <= re -> False
  end.
Proof. intros Hlen. unfold FREEVRANGE_TRY. case_decide; [lia|]. intros a. lia. Qed.

Lemma free_range minv maxv len start endv :
  0 < len -> 0 <= start -> start + VM_PAGE_SIZE < 2 ^ 32 -> VM_PAGE_SIZE <= endv < 2 ^ 32 ->
  match FREEVRANGE minv maxv len start endv with
  | Some a => minv <= a /\ a + len <= maxv /\ start <= a /\ a + len <= endv
  | None => forall a, minv <= a -> a + len <= maxv -> start <= a -> a + len <= endv -> False
  end.
Proof.
  intros Hlen Hs Hs' He. unfold FREEVRANGE, VM_PAGE_SIZE in *. rewrite !u32_small by lia.
  pose proof (free_range_try minv maxv len (start + 4096) (endv - 4096) Hlen) as Ht.
  destruct (FREEVRANGE_TRY _ _ _ _ _); [lia|]. by apply free_range_try.
Qed.

(** ** The walk over the gaps *)

Lemma region_end_last s l lo hi : 0 <= lo -> hi < 2 ^ 32 -> stacked lo hi l.*2 ->
  (forall x, x ∈ l -> regions s !! x.1 = Some x.2) ->
  region_end (last (entry <$> l)) s = Done (top_of 0 l.*2, s).
Proof.
  intros Hlo Hhi Hst Hh. unfold top_of. rewrite !fmap_last. destruct (last l) as [x|] eqn:E; [|done].
  apply last_Some_elem_of in E. simpl.
  destruct (stacked_in _ _ _ x.2 Hst) as (? & ? & ?); [by apply list_elem_of_fmap_2|].
  erewrite bind_done by (apply get_vr_done, Hh, E). cbn. rewrite u32_small by lia. done.
Qed.

(** The tree of a process and its heap, as far as the searches are concerned. *)
Definition tree_of s (t : RT) l : Prop :=
  avl_elems t = entry <$> l /\ forall x, x ∈ l -> regions s !! x.1 = Some x.2.

Lemma search_lt_at s t l1 x l2 : tree_of s t (l1 ++ x :: l2) ->
  avl_search_lt (vaddr x.2) t = last (entry <$> l1).
Proof.
  intros [Hel _]. pose proof (avl_ordered t) as Hord. rewrite avl_lt_elems.
  rewrite Hel, fmap_app, fmap_cons in *. exact (list_lt_at _ _ _ _ Hord).
Qed.

Lemma tree_of_last s t l1 l2 lo hi : tree_of s t (l1 ++ l2) -> 0 <= lo -> hi < 2 ^ 32 ->
  stacked lo hi (l1 ++ l2).*2 -> region_end (last (entry <$> l1)) s = Done (top_of 0 l1.*2, s).
Proof.
  intros [_ Hh] Hlo Hhi Hst. rewrite fmap_app in Hst. apply stacked_app in Hst as [Hst1 Hst2%stacked_le].
  eapply region_end_last; [exact Hlo| |exact Hst1|set_solver]. lia.
Qed.

Lemma find_gap_spec s t minv maxv len lo hi l1 x l2 fuel :
  tree_of s t (l1 ++ x :: l2) -> stacked lo hi (l1 ++ x :: l2).*2 ->
  VM_PAGE_SIZE <= lo -> hi < 2 ^ 32 - VM_PAGE_SIZE -> 0 < len -> 0 <= minv -> (S (length l1) < fuel)%nat ->
  exists o, find_gap fuel t (Some (entry x)) minv maxv len s = Done (o, s) /\
  match o with
  | Some a => minv <= a /\ a + len <= maxv /\ a + len <= vaddr x.2 /\ forall y, y ∈ l1.*2 -> apart a len y
  | None => forall a, minv <= a -> a + len <= maxv -> a + len <= vaddr x.2 ->
      (forall y, y ∈ l1.*2 -> apart a len y) -> False
  end.
Proof.
  intros Ht Hst Hlo Hhi Hlen Hmin. revert x l2 fuel Ht Hst. unfold VM_PAGE_SIZE in *.
  induction l1 as [|w l1 IH] using rev_ind; intros x l2 [|fuel] Ht Hst Hf; try lia; cbn [find_gap entry].
  all: rewrite (bind_done _ _ _ _ _ (get_vr_done s _ _ (proj2 Ht x ltac:(set_solver)))).
  all: rewrite (search_lt_at _ _ _ _ _ Ht).
  all: erewrite bind_done by (eapply tree_of_last; [exact Ht| | |exact Hst]; lia).
  all: pose proof Hst as Hst'; rewrite fmap_app, fmap_cons in Hst';
    apply gap_before in Hst' as (H1 & H2 & H3 & H4 & H5 & H6); [|lia].
  all: match goal with |- context [FREEVRANGE _ _ _ ?z _] =>
    pose proof (free_range minv maxv len z (vaddr x.2) Hlen) as Hg end.
  all: unfold VM_PAGE_SIZE in Hg; destruct (FREEVRANGE _ _ _ _ _) as [a|].
  all: specialize (Hg ltac:(lia) ltac:(lia) ltac:(lia)).
  - eexists. split; [done|]. split_and!; [lia..|]. intros y Hy. apply H5; [lia|done].
  - destruct fuel as [|fuel]; [simpl in Hf; lia|]. eexists. split; [done|].
    intros a Ha1 Ha2 Ha3 _. apply (Hg a); [lia|lia|unfold top_of; simpl; lia|lia].
  - eexists. split; [done|]. split_and!; [lia..|]. intros y Hy. apply H5; [lia|done].
  - rewrite fmap_last, last_snoc. cbn [fmap option_fmap option_map].
    destruct (IH w (x :: l2) fuel) as (o & Ho & HQ).
    { by rewrite <- app_assoc in Ht. } { by rewrite <- app_assoc in Hst. }
    { rewrite length_app in Hf. simpl in Hf. lia. }
    exists o. split; [exact Ho|]. rewrite fmap_app in H5, Hg, Hst, H4 |- *.
    change ([w].*2) with [w.2] in *. rewrite top_of_snoc in *.
    pose proof (stacked_in _ _ _ w.2 Hst ltac:(set_solver)) as (_ & Hw & _).
    destruct o as [a|].
    + destruct HQ as (? & ? & ? & HQ). split_and!; [lia..|].
      intros y [Hy| ->%list_elem_of_singleton]%elem_of_app; [by apply HQ|by left].
    + intros a Ha1 Ha2 Ha3 Hap. destruct (Hap w.2) as [Hl|Hr]; [set_solver| |by apply (Hg a)].
      apply (HQ a); [done..|]. intros y Hy. apply Hap. set_solver.
Qed.

Lemma tree_of_split s t l k : tree_of s t l -> exists l1 l2, l = l1 ++ l2 /\
  (forall x, x ∈ l1 -> vaddr x.2 < k) /\ (forall x, x ∈ l2 -> k <= vaddr x.2) /\
  avl_search_lt k t = last (entry <$> l1) /\ avl_search_ge k t = head (entry <$> l2).
Proof.
  intros [Hel _]. destruct (split_before k (avl_elems t) (avl_ordered t)) as (e1 & e2 & He & Hlt & Hge & Hl & Hg).
  rewrite <- avl_lt_elems in Hl. rewrite <- avl_ge_elems in Hg. rewrite Hel in He.
  apply fmap_app_inv in He as (l1 & l2 & -> & -> & ->). exists l1, l2. split_and!; try done.
  - intros x Hx. apply (Hlt (entry x)). by apply list_elem_of_fmap_2.
  - intros x Hx. apply (list_elem_of_fmap_2 entry) in Hx. apply Hge in Hx. simpl in Hx. lia.
Qed.

(** What a search in [minv, maxv) may return for a process with the regions [l]. *)
Definition place minv maxv len (l : list vir_region) (o : option Z) : Prop :=
  match o with
  | Some a => minv <= a /\ a + len <= maxv /\ a + len <= VM_DATATOP /\ forall r, r ∈ l -> apart a len r
  | None => forall a, minv <= a -> a + len <= maxv -> a + len <= VM_DATATOP ->
      (forall r, r ∈ l -> apart a len r) -> False
  end.

Lemma search_gaps_spec s t minv maxv len lo l :
  tree_of s t l -> stacked lo VM_DATATOP l.*2 -> VM_PAGE_SIZE <= lo -> VM_DATATOP < 2 ^ 32 - VM_PAGE_SIZE ->
  0 < len -> 0 <= minv ->
  exists o, search_gaps t minv maxv len s = Done (o, s) /\ place minv maxv len l.*2 o.
Proof.
  intros Ht Hst Hlo Htop Hlen Hmin. unfold search_gaps.
  destruct (tree_of_split _ _ _ maxv Ht) as (l1 & l2 & -> & Hlt & Hge & -> & ->).
  assert (Hlen1 : length (avl_elems t) = length (l1 ++ l2)) by (by rewrite (proj1 Ht), length_fmap).
  rewrite Hlen1. pose proof (stacked_le _ _ _ Hst). unfold VM_PAGE_SIZE in *.
  destruct l2 as [|x l2]; cbn [fmap list_fmap head].
  - rewrite app_nil_r in *. destruct (stack_top lo VM_DATATOP l1.*2) as [Htop1 Hap]; [lia|done|].
    erewrite bind_done by (erewrite bind_done by (eapply (tree_of_last _ _ l1 []);
      rewrite ?app_nil_r; [exact Ht| | |exact Hst]; lia); done).
    pose proof (free_range minv maxv len (top_of 0 l1.*2) VM_DATATOP Hlen) as Hg. unfold VM_PAGE_SIZE in Hg.
    specialize (Hg ltac:(lia) ltac:(lia) ltac:(lia)). destruct (FREEVRANGE _ _ _ _ _) as [a|].
    { exists (Some a). split; [done|]. split_and!; [lia..|]. apply Hap. lia. }
    destruct l1 as [|x l1 _] using rev_ind.
    { exists None. split; [done|]. intros a ? ? ? _. apply (Hg a); [lia|lia|unfold top_of; simpl; lia|lia]. }
    rewrite fmap_last, last_snoc. cbn [fmap option_fmap option_map].
    destruct (find_gap_spec s t minv maxv len lo VM_DATATOP l1 x [] (S (length (l1 ++ [x]))))
      as (o & -> & Ho); [done|done|done|done|done|done|rewrite length_app; simpl; lia|].
    exists o. split; [done|]. rewrite fmap_app in *. change ([x].*2) with [x.2] in *. rewrite top_of_snoc in *.
    apply gap_before in Hst as (H1 & H2 & H3 & H4 & H5 & H6); [|lia].
    destruct o as [a|].
    + destruct Ho as (? & ? & ? & Ho). split_and!; [lia..|].
      intros y [Hy|Hy]%elem_of_app; [by apply Ho|by eapply H6].
    + intros a ? ? ? Hall. destruct (Hall x.2) as [Hl|Hr]; [set_solver| |by apply (Hg a)].
      apply (Ho a); [done..|]. intros y Hy. apply Hall. set_solver.
  - rewrite bind_done with (a := None) (s' := s) by done.
    destruct (find_gap_spec s t minv maxv len lo VM_DATATOP l1 x l2 (S (length (l1 ++ x :: l2))))
      as (o & -> & Ho); [done|done|done|done|done|done|rewrite length_app; simpl; lia|].
    exists o. split; [done|]. rewrite fmap_app, fmap_cons in *.
    apply gap_before in Hst as (H1 & H2 & H3 & H4 & H5 & H6); [|lia].
    destruct o as [a|].
    + destruct Ho as (? & ? & ? & Ho). split_and!; [lia..|].
      intros y [Hy|Hy]%elem_of_app; [by apply Ho|by eapply H6].
    + intros a ? ? ? Hall. specialize (Hge x ltac:(set_solver)). apply (Ho a); [lia..|].
      intros y Hy. apply Hall. set_solver.
Qed.

(** ** The search *)

(** The end of the range searched: 0 asks for the range right behind [minv]. *)
Definition search_end minv maxv len : Z := if decide (maxv = 0) then minv + len else maxv.

(** The search failed, and there is no place; or it found one, which becomes the
    hint of the next search. *)
Definition slot_result s vmp vp (l : list vir_region) minv maxv len (v : Z) (s' : vm W RT YT) : Prop :=
  (v = SLOT_FAIL /\ s' = s /\ place minv (search_end minv maxv len) len l None) \/
  (s' = with_procs (<[vmp := with_top (v + len) vp]> (procs s)) s /\
   place minv (search_end minv maxv len) len l (Some v)).

(** A request the function accepts: 32-bit numbers, whole pages, [minv] below [maxv]. *)
Definition request minv maxv len : Prop :=
  0 < len < 2 ^ 32 /\ len mod VM_PAGE_SIZE = 0 /\ 0 <= minv < 2 ^ 32 /\ 0 <= maxv < 2 ^ 32 /\
  (maxv = 0 \/ minv < maxv).

Lemma find_slot_range_spec s vmp vp lo l minv maxv len :
  has_regions lo s vmp vp l -> VM_PAGE_SIZE <= lo -> VM_DATATOP < 2 ^ 32 - VM_PAGE_SIZE ->
  request minv maxv len ->
  wp (region_find_slot_range vmp minv maxv len) s (slot_result s vmp vp l.*2 minv maxv len).
Proof.
  intros [Hp Hel Hh Hst] Hlo Htop (Hlen & Hmod & Hmin & Hmax & Hor). unfold region_find_slot_range.
  apply wp_bind, wp_asserts; [lia|]. set (maxv' := if decide (maxv = 0) then u32 (minv + len) else maxv).
  assert (Hend : maxv' = search_end minv maxv len \/ maxv = 0 /\ 2 ^ 32 <= minv + len /\ maxv' <= minv).
  { unfold maxv', search_end. case_decide; [|by left].
    destruct (decide (minv + len < 2 ^ 32)); [left; apply u32_small; lia|right].
    unfold u32, wrap. pose proof (Z.mod_unique_pos (minv + len) (2 ^ 32) 1 (minv + len - 2 ^ 32)). lia. }
  assert (Hfail : search_end minv maxv len < minv + len \/ VM_DATATOP < minv + len ->
    slot_result s vmp vp l.*2 minv maxv len SLOT_FAIL s).
  { intros Hl. left. split_and!; [done|done|]. intros a Ha. lia. }
  assert (Hsmall : maxv = 0 -> minv + len < 2 ^ 32 -> search_end minv maxv len = minv + len).
  { intros. unfold search_end. by rewrite decide_True. }
  assert (Hbig : maxv <> 0 -> search_end minv maxv len = maxv).
  { intros. unfold search_end. by rewrite decide_False. }
  case_decide as Hwrap.
  { apply wp_ret, Hfail. unfold VM_PAGE_SIZE in Htop. destruct (decide (minv + len < 2 ^ 32)); [|lia].
    destruct Hend as [E|]; [|lia]. rewrite Hsmall in E; lia. }
  apply wp_bind, wp_asserts; [done|]. apply wp_bind, wp_asserts; [lia|].
  destruct Hend as [E|]; [|lia]. rewrite E in *. clear maxv' E.
  case_decide as Hroom.
  { apply wp_ret, Hfail. pose proof (Z.mod_le (minv + len) (2 ^ 32)). unfold u32, wrap in Hroom. lia. }
  apply wp_bind, (wp_get_tree _ _ vp); [done|]. apply wp_bind.
  destruct (search_gaps_spec s (vm_regions_avl vp) minv (search_end minv maxv len) len lo l)
    as (o & Ho & Hpl); [by split|done|done|done|lia|lia|].
  eapply wp_done; [exact Ho|]. destruct o as [a|]; [|apply wp_ret; left; done].
  destruct Hpl as (Ha1 & Ha2 & Ha3 & Hap). unfold VM_PAGE_SIZE in *.
  apply wp_bind, wp_asserts; [lia|]. apply wp_bind, wp_asserts; [lia|].
  rewrite u32_small by lia. apply wp_bind, wp_asserts; [lia|].
  apply wp_bind, (wp_get_proc _ _ vp); [done|]. apply wp_bind, wp_modify, wp_ret.
  right. split; [done|]. by split_and!.
Qed.

(** With the hint of the last search. *)
Lemma find_slot_done s vmp vp lo l minv maxv len :
  has_regions lo s vmp vp l -> VM_PAGE_SIZE <= lo -> VM_DATATOP < 2 ^ 32 - VM_PAGE_SIZE ->
  request minv maxv len -> vm_region_top vp < 2 ^ 32 -> maxv = 0 \/ vm_region_top vp <> minv ->
  wp (region_find_slot vmp minv maxv len) s (slot_result s vmp vp l.*2 minv maxv len).
Proof.
  intros Hl Hlo Htop Hreq Hhint Hne. unfold region_find_slot.
  apply wp_bind, (wp_get_proc _ _ vp); [apply Hl|]. apply wp_bind.
  pose proof (find_slot_range_spec s vmp vp lo l minv maxv len Hl Hlo Htop Hreq) as Hfull.
  case_decide as Hh; [|apply wp_ret; by rewrite decide_False by tauto].
  destruct Hreq as (Hlen & Hmod & Hmin & Hmax & Hor).
  eapply wp_mono; [apply (find_slot_range_spec s vmp vp lo l minv (vm_region_top vp) len); [done..|]|].
  { split_and!; try done; lia. }
  intros a s' [(-> & -> & _)|(-> & Hpl)]; [by rewrite decide_False by tauto|].
  unfold place, search_end in Hpl. rewrite decide_False in Hpl by lia. destruct Hpl as (? & ? & ? & Hap).
  rewrite decide_True by (unfold SLOT_FAIL, VM_PAGE_SIZE in *; lia). apply wp_ret. right. split; [done|].
  unfold place, search_end. rewrite decide_False by lia. split_and!; [lia..|done].
Qed.

(** What is found in whole pages is a page address. *)
Definition paged (a : Z) : Prop := a mod VM_PAGE_SIZE = 0.

Lemma paged_u32 a : paged a -> paged (u32 a).
Proof.
  unfold paged, VM_PAGE_SIZE, u32, wrap. intros Ha. by rewrite <- (Znumtheory.Zmod_div_mod 4096 (2 ^ 32)) by (done || by exists (2 ^ 20)).
Qed.

Lemma paged_add a b : paged a -> paged b -> paged (a + b).
Proof. unfold paged. intros Ha Hb. by rewrite Z.add_mod, Ha, Hb by done. Qed.

Lemma paged_sub a b : paged a -> paged b -> paged (a - b).
Proof. unfold paged. intros Ha Hb. by rewrite Zminus_mod, Ha, Hb. Qed.

Lemma free_range_paged minv maxv len start endv a : paged maxv -> paged len -> paged endv ->
  FREEVRANGE minv maxv len start endv = Some a -> paged a.
Proof.
  intros Hm Hl He. assert (Htry : forall rs re, paged re -> FREEVRANGE_TRY minv maxv len rs re = Some a -> paged a).
  { intros rs re Hre. unfold FREEVRANGE_TRY. case_decide; [|done]. intros [= <-]. apply paged_sub; [|done].
    by destruct (Z.min_spec re maxv) as [[_ ->]|[_ ->]]. }
  unfold FREEVRANGE. destruct (FREEVRANGE_TRY _ _ _ _ _) as [b|] eqn:E; [intros [= ->]; eapply Htry; [|exact E]|by apply Htry].
  by apply paged_u32, paged_sub.
Qed.

Lemma get_vr_inv s p r s' : get_vr p s = Done (r, s') -> regions s !! p = Some r /\ s' = s.
Proof.
  unfold get_vr. intros (m & s1 & [= -> ->]%gets_inv & H1)%bind_inv.
  destruct (regions s !! p); [|done]. by apply ret_inv in H1 as [= -> ->].
Qed.

Lemma get_proc_inv s p vp s' : get_proc p s = Done (vp, s') -> procs s !! p = Some vp /\ s' = s.
Proof.
  unfold get_proc. intros (m & s1 & [= -> ->]%gets_inv & H1)%bind_inv.
  destruct (procs s !! p); [|done]. by apply ret_inv in H1 as [= -> ->].
Qed.

Lemma region_end_frame s e v s' : region_end e s = Done (v, s') -> s' = s.
Proof.
  destruct e as [[k p]|]; [|by intros [= _ ->]%ret_inv]. cbn [region_end].
  by intros (r & s1 & [_ ->]%get_vr_inv & [= _ ->]%ret_inv)%bind_inv.
Qed.

Lemma find_gap_inv s minv maxv len t fuel : forall iter o s', find_gap fuel t iter minv maxv len s = Done (o, s') ->
  s' = s /\ forall a, o = Some a -> exists p r start, regions s !! p = Some r /\ FREEVRANGE minv maxv len start (vaddr r) = Some a.
Proof.
  induction fuel as [|fuel IH]; intros iter o s' Hx; [done|]. cbn [find_gap] in Hx.
  destruct iter as [[k p]|]; [|by apply ret_inv in Hx as [= -> ->]].
  apply bind_inv in Hx as (r & s1 & [Hr ->]%get_vr_inv & Hx). apply bind_inv in Hx as (ne & s2 & ->%region_end_frame & Hx).
  destruct (FREEVRANGE _ _ _ ne _) as [b|] eqn:E; [|by apply IH in Hx].
  apply ret_inv in Hx as [= -> ->]. split; [done|]. intros a [= <-]. by exists p, r, ne.
Qed.

(** What a search that returns gives. *)
Lemma search_gaps_inv s t minv maxv len o s' : search_gaps t minv maxv len s = Done (o, s') ->
  s' = s /\ forall a, o = Some a -> exists endv start, FREEVRANGE minv maxv len start endv = Some a /\
    (endv = VM_DATATOP \/ exists p r, regions s !! p = Some r /\ endv = vaddr r).
Proof.
  unfold search_gaps. intros (f & s1 & H1 & Hx)%bind_inv.
  assert (s1 = s /\ forall a, f = Some a -> exists start, FREEVRANGE minv maxv len start VM_DATATOP = Some a) as [-> Hf].
  { destruct (avl_search_ge maxv t); [by apply ret_inv in H1 as [= -> ->]|].
    apply bind_inv in H1 as (v & s2 & ->%region_end_frame & [= -> ->]%ret_inv). split; [done|]. intros a Ha. by exists v. }
  destruct f as [b|].
  - apply ret_inv in Hx as [= -> ->]. split; [done|]. intros a Ha. destruct (Hf a Ha) as [start Hs]. exists VM_DATATOP, start. by split; [|left].
  - apply find_gap_inv in Hx as [-> Hx]. split; [done|]. intros a Ha. destruct (Hx a Ha) as (p & r & start & Hr & Hs).
    exists (vaddr r), start. split; [done|]. right. by exists p, r.
Qed.

Lemma find_slot_range_paged s vmp minv maxv len v s' : paged minv -> paged maxv -> paged len -> paged VM_DATATOP ->
  (forall p r, regions s !! p = Some r -> paged (vaddr r)) ->
  region_find_slot_range vmp minv maxv len s = Done (v, s') -> regions s' = regions s /\ (v <> SLOT_FAIL -> paged v).
Proof.
  intros Hmin Hmax Hl Hd Hp Hx. unfold region_find_slot_range in Hx. apply bind_inv in Hx as (? & ? & [_ [= -> ->]]%asserts_inv & Hx).
  case_decide; [by apply ret_inv in Hx as [= -> ->]|]. set (maxv' := if decide (maxv = 0) then u32 (minv + len) else maxv) in *.
  assert (Hm' : paged maxv') by (unfold maxv'; destruct (decide (maxv = 0)); [by apply paged_u32, paged_add|done]).
  clearbody maxv'.
  do 2 (apply bind_inv in Hx as (? & ? & [_ [= -> ->]]%asserts_inv & Hx)). case_decide; [by apply ret_inv in Hx as [= -> ->]|].
  apply bind_inv in Hx as (t & ? & Ht & Hx). unfold get_tree in Ht. apply bind_inv in Ht as (vp & ? & [_ ->]%get_proc_inv & [= -> ->]%ret_inv).
  apply bind_inv in Hx as (o & ? & [-> Ho]%search_gaps_inv & Hx). destruct o as [a|]; [|by apply ret_inv in Hx as [= -> ->]].
  do 3 (apply bind_inv in Hx as (? & ? & [_ [= -> ->]]%asserts_inv & Hx)).
  apply bind_inv in Hx as (vp' & ? & [_ ->]%get_proc_inv & Hx). apply bind_inv in Hx as (u & s6 & Hu & [= -> ->]%ret_inv).
  injection Hu as _ <-. split; [done|]. intros _. destruct (Ho a eq_refl) as (endv & start & Hs & He).
  eapply free_range_paged; [exact Hm'|exact Hl| |exact Hs]. destruct He as [->|(p & r & Hr & ->)]; [done|by eapply Hp].
Qed.

Lemma find_slot_paged s vmp vp minv maxv len v s' : procs s !! vmp = Some vp -> paged (vm_region_top vp) ->
  paged minv -> paged maxv -> paged len -> paged VM_DATATOP -> (forall p r, regions s !! p = Some r -> paged (vaddr r)) ->
  region_find_slot vmp minv maxv len s = Done (v, s') -> v <> SLOT_FAIL -> paged v.
Proof.
  intros Hvp Htop Hmin Hmax Hl Hd Hp Hx Hv. unfold region_find_slot in Hx. rewrite (bind_done _ _ _ _ _ (get_proc_done _ _ _ Hvp)) in Hx.
  apply bind_inv in Hx as (w & s1 & H1 & Hx). assert (Hw : regions s1 = regions s /\ (w <> SLOT_FAIL -> paged w)).
  { destruct (decide (maxv <> 0 /\ _)); [by apply find_slot_range_paged in H1|]. by apply ret_inv in H1 as [= -> ->]. }
  destruct Hw as [Hr Hw]. case_decide; [apply ret_inv in Hx as [= -> ->]; by apply Hw|].
  apply find_slot_range_paged in Hx; try done; [by apply Hx|by rewrite Hr].
Qed.

(** ** Looking an address up *)

Lemma tree_of_search_le s t l1 x l2 k : tree_of s t (l1 ++ x :: l2) ->
  vaddr x.2 <= k -> (forall y, y ∈ l2 -> k < vaddr y.2) -> avl_search_le k t = Some (entry x).
Proof.
  intros [Hel _] Hx Hl2. pose proof (avl_ordered t) as Hord. rewrite avl_le_elems. rewrite Hel in *.
  rewrite fmap_app, fmap_cons in *. apply ordered_app in Hord as (_ & _ & Hlt).
  unfold list_le. rewrite filter_app, filter_cons_True by (simpl; lia).
  rewrite (filter_none _ (entry <$> l2)); [by rewrite last_snoc|].
  apply Forall_forall. intros e (y & -> & Hy)%list_elem_of_fmap. specialize (Hl2 _ Hy). simpl. lia.
Qed.

Lemma tree_of_search_le_none s t l k : tree_of s t l -> (forall y, y ∈ l -> k < vaddr y.2) ->
  avl_search_le k t = None.
Proof.
  intros [Hel _] Hl. rewrite avl_le_elems, Hel. unfold list_le. rewrite filter_none; [done|].
  apply Forall_forall. intros e (y & -> & Hy)%list_elem_of_fmap. specialize (Hl _ Hy). simpl. lia.
Qed.

(** A region's array: one entry per page, each a page at its own offset. *)
Definition pages_ok s (r : vir_region) : Prop :=
  vr_length r mod VM_PAGE_SIZE = 0 /\ vr_length r <= Z.of_nat (length (physblocks r)) * VM_PAGE_SIZE /\
  forall (i : nat) p, physblocks r !! i = Some (Some p) -> Z.of_nat i * VM_PAGE_SIZE < vr_length r ->
    exists q, phys_regions s !! p = Some q /\ offset q = Z.of_nat i * VM_PAGE_SIZE.

(** The entry for the page at [off]. *)
Definition page_at (r : vir_region) (off : Z) : option nat :=
  mjoin (physblocks r !! Z.to_nat (off / VM_PAGE_SIZE)).

Lemma physblock_get_done s region r off : regions s !! region = Some r -> pages_ok s r ->
  off mod VM_PAGE_SIZE = 0 -> 0 <= off < vr_length r ->
  physblock_get region off s = Done (page_at r off, s).
Proof.
  intros Hr (Hmod & Hlen & Hpg) Ho Hb. unfold physblock_get, page_at, VM_PAGE_SIZE in *.
  assert (Hoff : off = off / 4096 * 4096) by (pose proof (Z.div_mod off 4096); lia).
  assert (Hi : Z.of_nat (Z.to_nat (off / 4096)) = off / 4096) by (apply Z2Nat.id, Z.div_pos; lia).
  destruct (lookup_lt_is_Some_2 (physblocks r) (Z.to_nat (off / 4096))) as [o Hlk]; [lia|].
  rewrite (bind_done _ _ _ _ _ (get_vr_done _ _ _ Hr)).
  assert (Has : forall (P : Prop) `{Decision P}, P -> asserts P s = Done (tt, s)).
  { intros P ? HP. unfold asserts. by rewrite decide_True. }
  rewrite (bind_done _ _ _ _ _ (Has _ _ Ho)), (bind_done _ _ _ _ _ (Has _ _ Hb)). rewrite Hlk.
  erewrite bind_done by done. destruct o as [p|]; [|done].
  destruct (Hpg _ _ Hlk) as (q & Hq & Hqo); [lia|].
  assert (Hget : get_pr p s = Done (q, s)) by (unfold get_pr, mbind, st_bind, gets; by rewrite Hq).
  rewrite (bind_done _ _ _ _ _ Hget).
  erewrite bind_done by (apply Has; lia). done.
Qed.

Lemma page_at_offset s r off p : pages_ok s r -> off mod VM_PAGE_SIZE = 0 -> 0 <= off < vr_length r ->
  page_at r off = Some p -> exists q, phys_regions s !! p = Some q /\ offset q = off.
Proof.
  intros (Hmod & Hlen & Hpg) Ho Hb Hpa. unfold page_at, VM_PAGE_SIZE in *.
  assert (Hoff : off = off / 4096 * 4096) by (pose proof (Z.div_mod off 4096); lia).
  assert (Hi : Z.of_nat (Z.to_nat (off / 4096)) = off / 4096) by (apply Z2Nat.id, Z.div_pos; lia).
  destruct (physblocks r !! Z.to_nat (off / 4096)) as [[q|]|] eqn:E; simplify_eq/=.
  destruct (Hpg _ _ E) as (q & Hq & Hqo); [lia|]. exists q. split; [done|]. lia.
Qed.

Lemma tree_of_le_cases s t l k : tree_of s t l ->
  avl_search_le k t = None \/ exists x, x ∈ l /\ avl_search_le k t = Some (entry x) /\ vaddr x.2 <= k.
Proof.
  intros [Hel _]. rewrite avl_le_elems, Hel. unfold list_le.
  destruct (last _) as [e|] eqn:E; [right|by left].
  apply last_Some_elem_of, list_elem_of_filter in E as [Hk (x & -> & Hx)%list_elem_of_fmap].
  exists x. split_and!; [done|done|]. simpl in Hk. lia.
Qed.
End layout.
