(* ===== verification/RegionUnmap.v ===== *)
(** * Shrinking a region: [map_subfree] and [map_unmap_region] *)
From S2P Require Import Prelude StateM Avl Region RegionOps RegionSlot.
Open Scope Z_scope.

(** Making page [i] of a region absent. *)
Definition drop_page (i : nat) (r : vir_region) : vir_region :=
  with_physblocks (<[i := None]> (physblocks r)) r.

(** What the region code relies on in other files: [pb_unreferenced] takes the
    [phys_region] of a page out of the region's array and touches no other
    region, no other [phys_region] and no process; [pt_writemap] writes page
    tables only. *)
Class PbOk (W RT YT : Type) `{!VmServer W RT YT} := {
  pb_unreferenced_ok : forall (s : vm W RT YT) region p r q i,
    regions s !! region = Some r -> phys_regions s !! p = Some q ->
    offset q = Z.of_nat i * VM_PAGE_SIZE -> physblocks r !! i = Some (Some p) ->
    exists s', pb_unreferenced region p true s = Done (tt, s') /\
      regions s' = <[region := drop_page i r]> (regions s) /\
      delete p (phys_regions s') = delete p (phys_regions s) /\ procs s' = procs s;
  pt_writemap_ok : forall (s : vm W RT YT) vmp va pa len fl wmf,
    exists x s', pt_writemap vmp va pa len fl wmf s = Done (x, s') /\
      regions s' = regions s /\ phys_regions s' = phys_regions s /\ procs s' = procs s
}.

Section unmap.
Context {W RT YT : Type} `{!Avl Z nat RT} `{!AvlOk Z nat RT} `{!VmHdr} `{!VmServer W RT YT} `{!PbOk W RT YT}.
Implicit Types (s : vm W RT YT).

(** ** The page loop *)

(** A loop over the pages [i] to [n] whose body goes on or ends it. *)
Lemma wp_for_pages_exit {R} (Inv : nat -> vm W RT YT -> Prop) (Exit : R -> vm W RT YT -> Prop) lim
    (body : Z -> ST (vm W RT YT) (option R)) n :
  Z.of_nat n * VM_PAGE_SIZE < 2 ^ 32 ->
  (forall j s, (j <= n)%nat -> Inv j s -> lim s = Done (Z.of_nat n * VM_PAGE_SIZE, s)) ->
  (forall j s, (j < n)%nat -> Inv j s ->
     wp (body (Z.of_nat j * VM_PAGE_SIZE)) s (fun r s' => match r with Some e => Exit e s' | None => Inv (S j) s' end)) ->
  forall i s fuel, (i <= n)%nat -> (n - i < fuel)%nat -> Inv i s ->
  wp (for_pages fuel (Z.of_nat i * VM_PAGE_SIZE) lim body) s (fun r s' => match r with Some e => Exit e s' | None => Inv n s' end).
Proof.
  intros Hn Hlim Hbody i s fuel. revert i s. unfold VM_PAGE_SIZE in *.
  induction fuel as [|fuel IH]; intros i s Hi Hf Hinv; [lia|]. cbn [for_pages].
  apply wp_bind. eapply wp_done; [by apply (Hlim i)|]. case_decide as Hd.
  - apply wp_bind. eapply wp_mono; [apply (Hbody i); [lia|done]|]. intros [e|] s' Hinv'; [by apply wp_ret|].
    unfold VM_PAGE_SIZE.
    replace (u32 (Z.of_nat i * 4096 + 4096)) with (Z.of_nat (S i) * 4096) by (rewrite u32_small; lia).
    apply IH; [lia|lia|done].
  - apply wp_ret. replace n with i by lia. done.
Qed.

(** The same for a body that never ends it. *)
Lemma wp_for_pages {R} (Inv : nat -> vm W RT YT -> Prop) lim (body : Z -> ST (vm W RT YT) (option R)) n :
  Z.of_nat n * VM_PAGE_SIZE < 2 ^ 32 ->
  (forall j s, (j <= n)%nat -> Inv j s -> lim s = Done (Z.of_nat n * VM_PAGE_SIZE, s)) ->
  (forall j s, (j < n)%nat -> Inv j s ->
     wp (body (Z.of_nat j * VM_PAGE_SIZE)) s (fun r s' => r = None /\ Inv (S j) s')) ->
  forall i s fuel, (i <= n)%nat -> (n - i < fuel)%nat -> Inv i s ->
  wp (for_pages fuel (Z.of_nat i * VM_PAGE_SIZE) lim body) s (fun r s' => r = None /\ Inv n s').
Proof.
  intros Hn Hlim Hbody i s fuel Hi Hf Hinv. eapply wp_mono.
  - apply (wp_for_pages_exit Inv (fun _ _ => False) lim body n Hn Hlim); try done.
    intros j s' Hj Hinv'. eapply wp_mono; [by apply Hbody|]. by intros r s'' [-> ?].
  - intros [e|] s' H'; [done|by split].
Qed.

Lemma page_fuel_enough i n : (i <= n)%nat ->
  (n - i < page_fuel (Z.of_nat i * VM_PAGE_SIZE) (Z.of_nat n * VM_PAGE_SIZE))%nat.
Proof.
  intros Hi. unfold page_fuel, VM_PAGE_SIZE.
  replace (Z.of_nat n * 4096 - Z.of_nat i * 4096) with ((Z.of_nat n - Z.of_nat i) * 4096) by lia.
  rewrite Z.div_mul by lia. lia.
Qed.

(** ** Freeing the pages of a range *)

(** The region with the pages [a] to [b] absent. *)
Definition cleared (a b : nat) (r : vir_region) : vir_region :=
  with_physblocks (imap (fun i o => if decide (a <= i < b)%nat then None else o) (physblocks r)) r.

Lemma cleared_lookup a b r i :
  physblocks (cleared a b r) !! i = (fun o => if decide (a <= i < b)%nat then None else o) <$> physblocks r !! i.
Proof. unfold cleared. simpl. by rewrite list_lookup_imap. Qed.

Lemma cleared_none a r : cleared a a r = r.
Proof.
  destruct r. unfold cleared. simpl. unfold with_physblocks. simpl. f_equal. apply list_eq. intros i.
  rewrite list_lookup_imap. destruct (_ !! i); simpl; [|done]. by rewrite decide_False by lia.
Qed.

Lemma cleared_drop a b r : (a <= b)%nat -> drop_page b (cleared a b r) = cleared a (S b) r.
Proof.
  intros Hab. unfold drop_page, cleared, with_physblocks. simpl. f_equal. apply list_eq. intros i.
  rewrite list_lookup_imap. destruct (decide (i = b)) as [->|Hne].
  - destruct (decide (b < length (physblocks r))%nat) as [Hl|Hl].
    + rewrite list_lookup_insert_eq by (by rewrite length_imap).
      destruct (lookup_lt_is_Some_2 _ _ Hl) as [o ->]. simpl. by rewrite decide_True by lia.
    + rewrite list_insert_ge by (rewrite length_imap; lia). rewrite list_lookup_imap.
      rewrite (lookup_ge_None_2 _ b) by lia. done.
  - rewrite list_lookup_insert_ne by done. rewrite list_lookup_imap.
    destruct (physblocks r !! i); simpl; [|done].
    destruct (decide (a <= i < b)%nat); [by rewrite decide_True by lia|by rewrite decide_False by lia].
Qed.

Lemma cleared_same a b r : physblocks r !! b = Some None -> (a <= b)%nat -> cleared a (S b) r = cleared a b r.
Proof.
  intros Hb Hab. rewrite <- cleared_drop by done. unfold drop_page. rewrite list_insert_id.
  - done.
  - rewrite cleared_lookup, Hb. simpl. by destruct (decide _).
Qed.

(** The state while the pages [a] to [b] of [region], which was [r] in [s0], are
    freed: only their [phys_region]s are gone. *)
Record freeing s0 region r a b s : Prop := Freeing {
  fr_regions : regions s = <[region := cleared a b r]> (regions s0);
  fr_le : (a <= b)%nat;
  fr_procs : procs s = procs s0;
  fr_pages : forall p, (forall i, (a <= i < b)%nat -> physblocks r !! i <> Some (Some p)) ->
    phys_regions s !! p = phys_regions s0 !! p
}.

(** [n] pages, all at their own offsets. *)
Definition n_pages s (r : vir_region) (n : nat) : Prop :=
  vr_length r = Z.of_nat n * VM_PAGE_SIZE /\ (n <= length (physblocks r))%nat /\
  forall (i : nat) p, (i < n)%nat -> physblocks r !! i = Some (Some p) ->
    exists q, phys_regions s !! p = Some q /\ offset q = Z.of_nat i * VM_PAGE_SIZE.

Lemma n_pages_ok s r n : n_pages s r n -> pages_ok s r.
Proof.
  intros (Hl & Hn & Hpg). unfold pages_ok, VM_PAGE_SIZE in *. rewrite Hl. split_and!.
  - apply Z_mod_mult.
  - lia.
  - intros i p Hi Hlt. apply Hpg; [lia|done].
Qed.

(** Reading the array up to the assertion on the page's offset. *)
Lemma physblock_get_entry s region r n i o : regions s !! region = Some r ->
  vr_length r = Z.of_nat n * VM_PAGE_SIZE -> (i < n)%nat -> physblocks r !! i = Some o ->
  physblock_get region (Z.of_nat i * VM_PAGE_SIZE) s =
    match o with
    | Some p => (pr ← get_pr p; _ ← asserts (offset pr = Z.of_nat i * VM_PAGE_SIZE); mret (Some p)) s
    | None => Done (None, s)
    end.
Proof.
  intros Hr Hl Hi Ho. unfold physblock_get, VM_PAGE_SIZE in *. rewrite (bind_done _ _ _ _ _ (get_vr_done _ _ _ Hr)).
  rewrite (bind_done _ _ _ _ _ (asserts_true _ s ltac:(apply Z_mod_mult))).
  rewrite (bind_done _ _ _ _ _ (asserts_true (0 <= Z.of_nat i * 4096 < vr_length r) s ltac:(lia))).
  rewrite Z.div_mul, Nat2Z.id, Ho by lia. by destruct o.
Qed.

Lemma get_pr_done s p q : phys_regions s !! p = Some q -> get_pr p s = Done (q, s).
Proof. intros Hp. unfold get_pr, mbind, st_bind, gets. by rewrite Hp. Qed.

Lemma physblock_get_one s region r n i o : regions s !! region = Some r ->
  vr_length r = Z.of_nat n * VM_PAGE_SIZE -> (i < n)%nat -> physblocks r !! i = Some o ->
  (forall p, o = Some p -> exists q, phys_regions s !! p = Some q /\ offset q = Z.of_nat i * VM_PAGE_SIZE) ->
  physblock_get region (Z.of_nat i * VM_PAGE_SIZE) s = Done (o, s).
Proof.
  intros Hr Hl Hi Ho Hq. rewrite (physblock_get_entry _ _ _ _ _ _ Hr Hl Hi Ho). destruct o as [p|]; [|done].
  destruct (Hq p eq_refl) as (q & Hlk & Hqo). rewrite (bind_done _ _ _ _ _ (get_pr_done _ _ _ Hlk)).
  by rewrite (bind_done _ _ _ _ _ (asserts_true _ s Hqo)).
Qed.

(** A page that is not at its offset stops the code. *)
Lemma physblock_get_stale s region r n i p q : regions s !! region = Some r ->
  vr_length r = Z.of_nat n * VM_PAGE_SIZE -> (i < n)%nat -> physblocks r !! i = Some (Some p) ->
  phys_regions s !! p = Some q -> offset q <> Z.of_nat i * VM_PAGE_SIZE ->
  physblock_get region (Z.of_nat i * VM_PAGE_SIZE) s = Fault AssertFail.
Proof.
  intros Hr Hl Hi Ho Hq Hqo. rewrite (physblock_get_entry _ _ _ _ _ _ Hr Hl Hi Ho).
  rewrite (bind_done _ _ _ _ _ (get_pr_done _ _ _ Hq)). by apply bind_fault, asserts_false.
Qed.

Lemma physblock_get_nth s region r n i o : regions s !! region = Some r -> n_pages s r n -> (i < n)%nat ->
  physblocks r !! i = Some o -> physblock_get region (Z.of_nat i * VM_PAGE_SIZE) s = Done (o, s).
Proof.
  intros Hr (Hl & Hn & Hpg) Hi Ho. eapply physblock_get_one; [done..|]. intros p ->. by apply Hpg.
Qed.

(** The freed pages stay apart from the others: a pointer is at one offset. *)
Lemma n_pages_inj s r n i j p : n_pages s r n -> (i < n)%nat -> (j < n)%nat ->
  physblocks r !! i = Some (Some p) -> physblocks r !! j = Some (Some p) -> i = j.
Proof.
  intros (_ & _ & Hpg) Hi Hj H1 H2. destruct (Hpg i p Hi H1) as (q & Hq & Hqo).
  destruct (Hpg j p Hj H2) as (q' & Hq' & Hqo'). unfold VM_PAGE_SIZE in *. simplify_eq. lia.
Qed.

Lemma freeing_n_pages s0 region r a b n s : freeing s0 region r a b s -> n_pages s0 r n -> (b <= n)%nat ->
  n_pages s (cleared a b r) n.
Proof.
  intros Hf Hn Hb. pose proof Hn as (Hl & Hlen & Hpg). split_and!; [done| |].
  - unfold cleared. simpl. by rewrite length_imap.
  - intros i p Hi Hlk. rewrite cleared_lookup in Hlk.
    destruct (physblocks r !! i) as [o|] eqn:Ho; simplify_eq/=. case_decide as Hab; simplify_eq.
    destruct (Hpg i p Hi Ho) as (q & Hq & Hqo). exists q. split; [|done].
    rewrite (fr_pages _ _ _ _ _ _ Hf); [done|]. intros j Hj Hjp. apply Hab.
    rewrite (n_pages_inj s0 r n i j p Hn Hi ltac:(lia) Ho Hjp). done.
Qed.

Lemma freeing_refl s region r a : regions s !! region = Some r -> freeing s region r a a s.
Proof. intros Hr. split; [|done|done|done]. by rewrite cleared_none, insert_id. Qed.

Lemma wp_get_pr s p q (Q : phys_region -> vm W RT YT -> Prop) : phys_regions s !! p = Some q -> Q q s -> wp (get_pr p) s Q.
Proof. intros Hp HQ. apply (wp_done _ _ q s); [|done]. unfold get_pr, mbind, st_bind, gets. by rewrite Hp. Qed.

(** One page is freed. *)
Lemma freeing_step s0 region r a j p s q : freeing s0 region r a j s ->
  physblocks r !! j = Some (Some p) -> phys_regions s !! p = Some q -> offset q = Z.of_nat j * VM_PAGE_SIZE ->
  wp (pb_unreferenced region p true) s (fun _ s1 =>
    freeing s0 region r a (S j) (with_phys_regions (delete p (phys_regions s1)) s1)).
Proof.
  intros Hf Ho Hq Hqo. destruct Hf as [Hreg Hle Hpr Hpg].
  destruct (pb_unreferenced_ok s region p (cleared a j r) q j) as (s1 & E & Hreg1 & Hph1 & Hpr1); [|done|done| |].
  - rewrite Hreg. apply lookup_insert_eq.
  - rewrite cleared_lookup, Ho. simpl. by rewrite decide_False by lia.
  - apply (wp_done _ _ tt s1); [done|]. split; simpl.
    + by rewrite Hreg1, Hreg, insert_insert_eq, cleared_drop.
    + lia.
    + by rewrite Hpr1.
    + intros p' Hp'. rewrite Hph1, lookup_delete_ne.
      * apply Hpg. intros i Hi. apply Hp'. lia.
      * intros ->. apply (Hp' j); [lia|done].
Qed.

Lemma subfree_spec s region r n a b : regions s !! region = Some r -> n_pages s r n ->
  vr_length r < 2 ^ 32 -> (a <= b <= n)%nat ->
  wp (map_subfree region (Z.of_nat a * VM_PAGE_SIZE) (Z.of_nat (b - a) * VM_PAGE_SIZE)) s
    (fun x s' => x = OK /\ freeing s region r a b s').
Proof.
  intros Hr Hn Hlen Hab. unfold map_subfree. assert (Hl := proj1 Hn). unfold VM_PAGE_SIZE in Hl.
  replace (u32 (Z.of_nat a * VM_PAGE_SIZE + Z.of_nat (b - a) * VM_PAGE_SIZE)) with (Z.of_nat b * VM_PAGE_SIZE)
    by (unfold VM_PAGE_SIZE; rewrite u32_small; lia).
  apply wp_bind. eapply wp_mono.
  { apply (wp_for_pages (freeing s region r a) _ _ b); [unfold VM_PAGE_SIZE; lia|done| |lia|apply page_fuel_enough; lia|].
    - intros j s' Hj Hf. pose proof (fr_le _ _ _ _ _ _ Hf) as Hle.
      destruct (lookup_lt_is_Some_2 (physblocks r) j) as [o Ho]; [destruct Hn; lia|].
      assert (Hn' : n_pages s' (cleared a j r) n) by (eapply freeing_n_pages; [done|done|lia]).
      assert (Ho' : physblocks (cleared a j r) !! j = Some o).
      { rewrite cleared_lookup, Ho. simpl. by rewrite decide_False by lia. }
      apply wp_bind. eapply wp_done.
      { eapply physblock_get_nth; [|exact Hn'| |exact Ho']; [|lia].
        rewrite (fr_regions _ _ _ _ _ _ Hf). apply lookup_insert_eq. }
      destruct o as [p|].
      + destruct Hn' as (_ & _ & Hpg). destruct (Hpg j p ltac:(lia) Ho') as (q & Hq & Hqo).
        apply wp_bind, (wp_get_pr _ _ q); [done|]. rewrite Hqo. unfold VM_PAGE_SIZE.
        apply wp_bind, wp_asserts; [lia|]. apply wp_bind, wp_asserts; [lia|].
        apply wp_bind. eapply wp_mono; [by eapply freeing_step|].
        intros [] s1 Hf1. by apply wp_bind, wp_modify, wp_ret.
      + apply wp_ret. split; [done|]. destruct Hf as [Hreg _ Hpr Hpg]. split; [|lia|done|].
        * by rewrite cleared_same.
        * intros p Hp. apply Hpg. intros i Hi. apply Hp. lia.
    - by apply freeing_refl. }
  intros x s' [-> Hf]. by apply wp_ret.
Qed.

(** ** Moving the offsets *)

(** The state while the pages [b] to [j] of [region] get their offsets lowered by
    [b] pages. *)
Record shifting s0 (r : vir_region) b j s : Prop := Shifting {
  sh_regions : regions s = regions s0;
  sh_procs : procs s = procs s0;
  sh_moved : forall i p q, (b <= i < j)%nat -> physblocks r !! i = Some (Some p) ->
    phys_regions s0 !! p = Some q ->
    phys_regions s !! p = Some (with_offset (Z.of_nat (i - b) * VM_PAGE_SIZE) q);
  sh_other : forall p, (forall i, (b <= i < j)%nat -> physblocks r !! i <> Some (Some p)) ->
    phys_regions s !! p = phys_regions s0 !! p
}.

Lemma shift_step s r n b j s' p q :
  n_pages s r n -> shifting s r b j s' -> (b <= j < n)%nat -> vr_length r < 2 ^ 32 ->
  physblocks r !! j = Some (Some p) -> phys_regions s !! p = Some q -> offset q = Z.of_nat j * VM_PAGE_SIZE ->
  shifting s r b (S j) (with_phys_regions
    (<[p := with_offset (u32 (offset q - Z.of_nat b * VM_PAGE_SIZE)) q]> (phys_regions s')) s').
Proof.
  intros Hn [Hreg Hpr Hmv Hoth] Hj Hlen Hp Hq Hqo. assert (Hl := proj1 Hn). unfold VM_PAGE_SIZE in *.
  split; simpl; [done|done| |].
  - intros i p' q' Hi Hp' Hq'. destruct (decide (i = j)) as [->|Hne].
    + simplify_eq. rewrite lookup_insert_eq. replace (u32 _) with (Z.of_nat (j - b) * 4096) by (rewrite u32_small; lia). done.
    + rewrite lookup_insert_ne; [apply Hmv; [lia|done|done]|].
      intros <-. apply Hne. apply (n_pages_inj s r n i j p Hn); [lia|lia|done|done].
  - intros p' Hp'. rewrite lookup_insert_ne.
    + apply Hoth. intros i Hi. apply Hp'. lia.
    + intros <-. apply (Hp' j); [lia|done].
Qed.

Lemma shift_spec s region r n b : regions s !! region = Some r -> n_pages s r n -> vr_length r < 2 ^ 32 ->
  (forall i, (i < b)%nat -> (i < n)%nat -> physblocks r !! i = Some None) ->
  wp (shift_offsets region 0 (Z.of_nat b * VM_PAGE_SIZE)) s (fun _ s' => shifting s r b n s').
Proof.
  intros Hr Hn Hlen Hnone. assert (Hl := proj1 Hn). unfold VM_PAGE_SIZE in Hl.
  assert (Hrl : forall s', regions s' !! region = Some r -> region_length region s' = Done (Z.of_nat n * VM_PAGE_SIZE, s')).
  { intros s' Hr'. unfold region_length. rewrite (bind_done _ _ _ _ _ (get_vr_done _ _ _ Hr')). by rewrite Hl. }
  unfold shift_offsets. apply wp_bind. eapply wp_done; [by apply Hrl|]. apply wp_bind. eapply wp_mono.
  { change 0 with (Z.of_nat 0 * VM_PAGE_SIZE) at 2 3.
    apply (wp_for_pages (shifting s r b) _ _ n); [unfold VM_PAGE_SIZE; lia| | |lia|apply page_fuel_enough; lia|].
    - intros j s' _ Hs. apply Hrl. by rewrite (sh_regions _ _ _ _ _ Hs).
    - intros j s' Hj Hs. pose proof Hs as [Hreg Hpr Hmv Hoth].
      destruct (lookup_lt_is_Some_2 (physblocks r) j) as [o Ho]; [destruct Hn; lia|].
      assert (Hpage : forall p, o = Some p -> exists q, phys_regions s !! p = Some q /\
        phys_regions s' !! p = Some q /\ offset q = Z.of_nat j * VM_PAGE_SIZE).
      { intros p ->. destruct (proj2 (proj2 Hn) j p Hj Ho) as (q & Hq & Hqo). exists q.
        rewrite Hoth; [done|]. intros i Hi Hip. pose proof (n_pages_inj s r n i j p Hn). naive_solver lia. }
      apply wp_bind. eapply wp_done.
      { eapply physblock_get_one; [by rewrite Hreg|exact Hl|exact Hj|exact Ho|].
        intros p Hop. destruct (Hpage p Hop) as (q & _ & ? & ?). by exists q. }
      destruct o as [p|].
      + destruct (Hpage p eq_refl) as (q & Hq & Hq' & Hqo).
        assert (b <= j)%nat. { destruct (decide (b <= j)%nat); [done|]. rewrite Hnone in Ho; [done|lia|done]. }
        apply wp_bind, (wp_get_pr _ _ q); [done|]. apply wp_bind, wp_asserts; [rewrite Hqo; unfold VM_PAGE_SIZE; lia|].
        apply wp_bind, wp_modify, wp_ret. split; [done|]. by eapply shift_step.
      + apply wp_ret. split; [done|]. split; [done|done| |].
        * intros i p q Hi Hip. apply Hmv; [|done]. destruct (decide (i = j)) as [->|]; [congruence|lia].
        * intros p Hp. apply Hoth. intros i Hi. apply Hp. lia.
    - split; [done|done|lia|done]. }
  intros x s' [-> Hs]. by apply wp_ret.
Qed.

(** ** [map_unmap_region] *)

Lemma wp_pt_writemap s vmp va pa len fl wmf (Q : Z -> vm W RT YT -> Prop) :
  (forall x s', regions s' = regions s -> phys_regions s' = phys_regions s -> procs s' = procs s -> Q x s') ->
  wp (pt_writemap vmp va pa len fl wmf) s Q.
Proof.
  intros HQ. destruct (pt_writemap_ok s vmp va pa len fl wmf) as (x & s' & E & H1 & H2 & H3).
  eapply wp_done; [exact E|by apply HQ].
Qed.

Lemma wp_phys_slot n s (Q : Z -> vm W RT YT -> Prop) : Q (Z.of_nat n) s -> wp (phys_slot (Z.of_nat n * VM_PAGE_SIZE)) s Q.
Proof.
  intros HQ. unfold phys_slot, VM_PAGE_SIZE. apply wp_bind, wp_asserts; [apply Z_mod_mult|].
  apply wp_ret. by rewrite Z.div_mul by lia.
Qed.

(** The region after a call with a later start: shorter if its end is cut off. *)
Definition cut_region (a b n : nat) (r : vir_region) : vir_region :=
  if decide (b = n) then with_length (Z.of_nat a * VM_PAGE_SIZE) (cleared a b r) else cleared a b r.

Lemma unmap_later s vmp p r n a b : regions s !! p = Some r -> n_pages s r n -> vr_length r < 2 ^ 32 ->
  (0 < a <= b)%nat -> (b <= n)%nat ->
  wp (map_unmap_region vmp p (Z.of_nat a * VM_PAGE_SIZE) (Z.of_nat (b - a) * VM_PAGE_SIZE)) s (fun x s' =>
    (x = OK \/ x = ENOMEM) /\ regions s' = <[p := cut_region a b n r]> (regions s) /\
    n_pages s' (cut_region a b n r) (if decide (b = n) then a else n) /\ procs s' = procs s).
Proof.
  intros Hr Hn Hlen Ha Hb. assert (Hl := proj1 Hn). unfold map_unmap_region.
  apply wp_bind, wp_phys_slot. apply wp_bind, (wp_get_vr _ _ r); [done|].
  replace (u32 (Z.of_nat a * VM_PAGE_SIZE + Z.of_nat (b - a) * VM_PAGE_SIZE)) with (Z.of_nat b * VM_PAGE_SIZE)
    by (unfold VM_PAGE_SIZE in *; rewrite u32_small; lia).
  rewrite decide_False by (rewrite Hl; unfold VM_PAGE_SIZE; rewrite Z_mod_mult; lia).
  apply wp_bind. eapply wp_mono; [apply (subfree_spec s p r n a b); done || lia|]. intros x s1 [-> Hf].
  pose proof (freeing_n_pages _ _ _ _ _ _ _ Hf Hn ltac:(lia)) as Hn1.
  assert (Hr1 : regions s1 !! p = Some (cleared a b r)) by (rewrite (fr_regions _ _ _ _ _ _ Hf); apply lookup_insert_eq).
  apply wp_bind, (wp_get_vr _ _ (cleared a b r)); [done|].
  rewrite decide_False by (unfold VM_PAGE_SIZE; lia). change (vr_length (cleared a b r)) with (vr_length r).
  set (s2 := with_regions (<[p := cut_region a b n r]> (regions s1)) s1).
  assert (Hcut : wp (if decide (Z.of_nat b * VM_PAGE_SIZE = vr_length r)
      then put_vr p (with_length (vr_length r - Z.of_nat (b - a) * VM_PAGE_SIZE) (cleared a b r)) else mret tt) s1
      (fun _ s' => s' = s2)).
  { unfold s2, cut_region. rewrite Hl. destruct (decide (b = n)) as [->|Hne].
    - rewrite decide_True by done. apply wp_modify. do 4 f_equal. unfold VM_PAGE_SIZE. lia.
    - rewrite decide_False by (unfold VM_PAGE_SIZE; lia). apply wp_ret. rewrite insert_id by done. by destruct s1. }
  apply wp_bind. eapply wp_mono; [exact Hcut|]. intros _ s' ->. clear Hcut.
  assert (Hr2 : regions s2 !! p = Some (cut_region a b n r)) by apply lookup_insert_eq.
  apply wp_bind, (wp_get_vr _ _ (cut_region a b n r)); [done|].
  assert (Hne : vr_length (cut_region a b n r) <> 0).
  { unfold cut_region. case_decide; cbn [vr_length with_length cleared with_physblocks]; rewrite ?Hl; unfold VM_PAGE_SIZE; lia. }
  rewrite decide_False by done.
  apply wp_bind, wp_ret. apply wp_bind, wp_pt_writemap. intros x s3 H1 H2 H3. apply wp_ret.
  split_and!.
  - case_decide; [by right|by left].
  - rewrite H1. unfold s2. simpl. by rewrite (fr_regions _ _ _ _ _ _ Hf), insert_insert_eq.
  - destruct Hn1 as (? & ? & Hpg). unfold n_pages, cut_region. rewrite H2.
    destruct (decide (b = n)) as [->|]; [|done]. split_and!; [done|simpl in *; lia|].
    intros i q Hi Hq. apply Hpg; [lia|done].
  - rewrite H3. apply (fr_procs _ _ _ _ _ _ Hf).
Qed.

(** The region after [b] of its [n] pages are cut off at the start. *)
Definition moved_region (b n : nat) (r : vir_region) : vir_region :=
  with_length (Z.of_nat (n - b) * VM_PAGE_SIZE) (with_vaddr (u32 (vaddr r + Z.of_nat b * VM_PAGE_SIZE)) (cleared 0 b r)).
Definition start_region (b n : nat) (r : vir_region) : vir_region :=
  let l := physblocks (moved_region b n r) in
  with_physblocks (take (n - b) (drop b l) ++ drop (n - b) l) (moved_region b n r).

Lemma moved_n_pages s r b n : n_pages s (cleared 0 b r) n -> n_pages s (moved_region b n r) (n - b).
Proof. intros (Hl & Hlen & Hpg). split_and!; [done|simpl in *; lia|]. intros i p Hi. apply Hpg. lia. Qed.

Lemma start_lookup b n r i : (i < n - b)%nat -> (n <= length (physblocks r))%nat ->
  physblocks (start_region b n r) !! i = physblocks r !! (b + i)%nat.
Proof.
  intros Hi Hn. unfold start_region. cbn [physblocks with_physblocks].
  change (physblocks (moved_region b n r)) with (physblocks (cleared 0 b r)).
  rewrite lookup_app_l by (rewrite length_take, length_drop; simpl; rewrite length_imap; lia).
  rewrite lookup_take_lt by done. rewrite lookup_drop, cleared_lookup.
  destruct (physblocks r !! (b + i)%nat); simpl; [|done]. by rewrite decide_False by lia.
Qed.

(** What a call that cuts off the first [b] pages leaves behind: the later pages
    keep their [phys_region]s, of which those below the new length are moved. *)
Record started s vmp p vp r b n s' : Prop := Started {
  st_regions : regions s' = <[p := start_region b n r]> (regions s);
  st_procs : procs s' = <[vmp := with_tree (avl_insert (u32 (vaddr r + Z.of_nat b * VM_PAGE_SIZE)) p
    (avl_remove (vaddr r) (vm_regions_avl vp))) vp]> (procs s);
  st_pages : forall i pg q, (b <= i < n)%nat -> physblocks r !! i = Some (Some pg) -> phys_regions s !! pg = Some q ->
    phys_regions s' !! pg = Some (if decide (i < n - b)%nat then with_offset (Z.of_nat (i - b) * VM_PAGE_SIZE) q else q)
}.

Lemma shifted_pages s0 s s1 p r n b i pg q : n_pages s0 r n -> freeing s0 p r 0 b s -> phys_regions s1 = phys_regions s ->
  (b <= i < n)%nat -> physblocks r !! i = Some (Some pg) -> phys_regions s0 !! pg = Some q ->
  forall s2, shifting s1 (moved_region b n r) b (n - b) s2 ->
  phys_regions s2 !! pg = Some (if decide (i < n - b)%nat then with_offset (Z.of_nat (i - b) * VM_PAGE_SIZE) q else q).
Proof.
  intros Hn Hf Hph Hi Hpg Hq s2 [_ _ Hmv Hoth].
  assert (Hq1 : phys_regions s1 !! pg = Some q).
  { rewrite Hph, (fr_pages _ _ _ _ _ _ Hf); [done|]. intros j Hj Hjp.
    pose proof (n_pages_inj s0 r n i j pg Hn ltac:(lia) ltac:(lia) Hpg Hjp). lia. }
  assert (Hlk : forall j pg', physblocks (moved_region b n r) !! j = Some (Some pg') -> physblocks r !! j = Some (Some pg')).
  { intros j pg'. change (physblocks (moved_region b n r)) with (physblocks (cleared 0 b r)). rewrite cleared_lookup.
    destruct (physblocks r !! j); simpl; [|done]. by destruct (decide _). }
  destruct (decide (i < n - b)%nat).
  - apply (Hmv i pg q); [lia| |done].
    change (physblocks (moved_region b n r)) with (physblocks (cleared 0 b r)). rewrite cleared_lookup, Hpg.
    simpl. by rewrite decide_False by lia.
  - rewrite Hoth; [done|]. intros j Hj Hjp%Hlk.
    pose proof (n_pages_inj s0 r n i j pg Hn ltac:(lia) ltac:(lia) Hpg Hjp). lia.
Qed.

Lemma unmap_start s vmp p vp r n b : regions s !! p = Some r -> n_pages s r n -> vr_length r < 2 ^ 32 ->
  procs s !! vmp = Some vp -> (0 < b < n)%nat ->
  wp (map_unmap_region vmp p 0 (Z.of_nat b * VM_PAGE_SIZE)) s (fun x s' =>
    (x = OK \/ x = ENOMEM) /\ started s vmp p vp r b n s').
Proof.
  intros Hr Hn Hlen Hvp Hb. assert (Hl := proj1 Hn). unfold map_unmap_region.
  apply wp_bind, wp_phys_slot. apply wp_bind, (wp_get_vr _ _ r); [done|].
  replace (u32 (0 + Z.of_nat b * VM_PAGE_SIZE)) with (Z.of_nat b * VM_PAGE_SIZE)
    by (unfold VM_PAGE_SIZE in *; rewrite u32_small; lia).
  rewrite decide_False by (rewrite Hl; unfold VM_PAGE_SIZE; rewrite Z_mod_mult; lia).
  pose proof (subfree_spec s p r n 0 b Hr Hn Hlen ltac:(lia)) as Hsub. rewrite Nat.sub_0_r in Hsub.
  apply wp_bind. eapply wp_mono; [exact Hsub|]. intros x s1 [-> Hf].
  pose proof (freeing_n_pages _ _ _ _ _ _ _ Hf Hn ltac:(lia)) as Hn1.
  assert (Hr1 : regions s1 !! p = Some (cleared 0 b r)) by (rewrite (fr_regions _ _ _ _ _ _ Hf); apply lookup_insert_eq).
  apply wp_bind, (wp_get_vr _ _ (cleared 0 b r)); [done|]. rewrite decide_True by done.
  change (vr_length (cleared 0 b r)) with (vr_length r). change (vaddr (cleared 0 b r)) with (vaddr r).
  replace (vr_length r - Z.of_nat b * VM_PAGE_SIZE) with (Z.of_nat (n - b) * VM_PAGE_SIZE) by (unfold VM_PAGE_SIZE in *; lia).
  apply wp_bind, wp_bind, (wp_get_tree _ _ vp); [by rewrite (fr_procs _ _ _ _ _ _ Hf)|].
  apply wp_bind, (wp_put_tree _ _ vp); [by rewrite (fr_procs _ _ _ _ _ _ Hf)|].
  apply wp_bind, wp_modify, wp_bind, wp_phys_slot.
  apply wp_bind, (wp_get_tree _ _ (with_tree (avl_remove (vaddr r) (vm_regions_avl vp)) vp)).
  { simpl. apply list_lookup_insert_eq. rewrite (fr_procs _ _ _ _ _ _ Hf). by eapply lookup_lt_Some. }
  apply wp_bind, (wp_put_tree _ _ (with_tree (avl_remove (vaddr r) (vm_regions_avl vp)) vp)).
  { simpl. apply list_lookup_insert_eq. rewrite (fr_procs _ _ _ _ _ _ Hf). by eapply lookup_lt_Some. }
  match goal with |- wp _ ?t _ => set (s3 := t) end.
  assert (Hr3 : regions s3 !! p = Some (moved_region b n r)) by apply lookup_insert_eq.
  apply wp_bind. eapply wp_mono.
  { apply (shift_spec s3 p (moved_region b n r) (n - b) b Hr3 (moved_n_pages s1 r b n Hn1)).
    - change (vr_length (moved_region b n r)) with (Z.of_nat (n - b) * VM_PAGE_SIZE). unfold VM_PAGE_SIZE in *. lia.
    - intros i Hi _. change (physblocks (moved_region b n r)) with (physblocks (cleared 0 b r)).
      destruct (lookup_lt_is_Some_2 (physblocks r) i) as [o Ho]; [destruct Hn; lia|].
      rewrite cleared_lookup, Ho. simpl. by rewrite decide_True by lia. }
  intros y s4 Hs4. pose proof Hs4 as [Hreg4 Hpr4 _ _].
  assert (Hr4 : regions s4 !! p = Some (moved_region b n r)) by by rewrite Hreg4.
  rewrite decide_True by lia. apply wp_bind, (wp_get_vr _ _ (moved_region b n r)); [done|].
  rewrite decide_False by (destruct Hn1 as (_ & Hn1 & _); simpl in *; lia). rewrite !Nat2Z.id.
  apply wp_modify. match goal with |- wp _ ?t _ => set (s5 := t) end.
  assert (Hr5 : regions s5 !! p = Some (start_region b n r)) by apply lookup_insert_eq.
  apply wp_bind, (wp_get_vr _ _ (start_region b n r)); [done|].
  change (vr_length (start_region b n r)) with (Z.of_nat (n - b) * VM_PAGE_SIZE).
  rewrite decide_False by (unfold VM_PAGE_SIZE; lia).
  apply wp_bind, wp_ret, wp_bind, wp_pt_writemap. intros z s6 H1 H2 H3. apply wp_ret.
  split; [case_decide; [by right|by left]|]. split.
  - rewrite H1. unfold s5. simpl. rewrite Hreg4. unfold s3. simpl.
    by rewrite (fr_regions _ _ _ _ _ _ Hf), !insert_insert_eq.
  - rewrite H3. unfold s5. simpl. rewrite Hpr4. unfold s3. simpl.
    by rewrite (fr_procs _ _ _ _ _ _ Hf), list_insert_insert_eq.
  - intros i pg q Hi Hpg Hq. rewrite H2. unfold s5. simpl.
    by eapply (shifted_pages s s1 s3).
Qed.

(** ** A whole region *)

Lemma wp_subfree_empty s p r : regions s !! p = Some r -> vr_length r = 0 ->
  wp (map_subfree p 0 (vr_length r)) s (fun x s' => x = OK /\ regions s' = regions s /\ procs s' = procs s).
Proof.
  intros Hr Hl. assert (Hn : n_pages s r 0) by (split_and!; [done|lia|lia]).
  pose proof (subfree_spec s p r 0 0 0 Hr Hn ltac:(lia) ltac:(lia)) as Hs. rewrite Hl.
  eapply wp_mono; [exact Hs|]. intros x s' [-> Hf]. split_and!; [done| |apply (fr_procs _ _ _ _ _ _ Hf)].
  rewrite (fr_regions _ _ _ _ _ _ Hf), cleared_none. by apply insert_id.
Qed.

Lemma wp_map_free_empty s p r : regions s !! p = Some r -> vr_length r = 0 ->
  ev_delete (mem_types (memtype r)) = None ->
  wp (map_free p) s (fun x s' => regions s' = delete p (regions s) /\ procs s' = procs s).
Proof.
  intros Hr Hl Hev. unfold map_free. apply wp_bind, (wp_get_vr _ _ r); [done|].
  apply wp_bind. eapply wp_mono; [by apply (wp_subfree_empty s p r)|]. intros x s1 (-> & Hreg & Hpr).
  rewrite decide_False by tauto.
  apply wp_bind. unfold mem_type_of. apply wp_bind, (wp_get_vr _ _ r); [by rewrite Hreg|]. apply wp_ret.
  rewrite Hev. apply wp_bind, wp_ret, wp_bind, wp_modify, wp_ret. simpl. by rewrite Hreg.
Qed.

(** The tree after the removals and the insertion of a whole region that ends
    where another one starts. *)
Definition whole_tree (t : RT) (r : vir_region) (p : nat) : RT :=
  let k := u32 (vaddr r + vr_length r) in avl_remove k (avl_insert k p (avl_remove (vaddr r) t)).

(** Whatever starts there leaves the tree, too. *)
Lemma whole_tree_elems t r p : avl_elems (whole_tree t r p) = list_del (u32 (vaddr r + vr_length r)) (list_del (vaddr r) (avl_elems t)).
Proof.
  unfold whole_tree. rewrite avl_remove_elems. destruct (avl_search (u32 (vaddr r + vr_length r)) (avl_remove (vaddr r) t)) eqn:E.
  - by rewrite avl_insert_present, avl_remove_elems by done.
  - rewrite avl_insert_elems by done. rewrite list_del_ins by apply avl_ordered. by rewrite avl_remove_elems.
Qed.

Lemma unmap_whole s vmp p vp r n : regions s !! p = Some r -> n_pages s r n -> vr_length r < 2 ^ 32 ->
  procs s !! vmp = Some vp -> (0 < n)%nat -> ev_delete (mem_types (memtype r)) = None ->
  wp (map_unmap_region vmp p 0 (vr_length r)) s (fun x s' =>
    regions s' = delete p (regions s) /\
    procs s' = <[vmp := with_tree (whole_tree (vm_regions_avl vp) r p) vp]> (procs s)).
Proof.
  intros Hr Hn Hlen Hvp Hb Hev. assert (Hl := proj1 Hn). unfold map_unmap_region.
  pose proof (subfree_spec s p r n 0 n Hr Hn Hlen ltac:(lia)) as Hsub. rewrite Nat.sub_0_r in Hsub.
  rewrite Hl. apply wp_bind, wp_phys_slot. apply wp_bind, (wp_get_vr _ _ r); [done|].
  replace (u32 (0 + Z.of_nat n * VM_PAGE_SIZE)) with (Z.of_nat n * VM_PAGE_SIZE)
    by (unfold VM_PAGE_SIZE in *; rewrite u32_small; lia).
  rewrite decide_False by (rewrite Hl; unfold VM_PAGE_SIZE; rewrite Z_mod_mult; lia).
  apply wp_bind. eapply wp_mono; [exact Hsub|]. intros x s1 [-> Hf].
  pose proof (freeing_n_pages _ _ _ _ _ _ _ Hf Hn ltac:(lia)) as Hn1.
  pose proof (fr_procs _ _ _ _ _ _ Hf) as Hpr1.
  assert (Hlt : (vmp < length (procs s1))%nat) by (rewrite Hpr1; by eapply lookup_lt_Some).
  assert (Hr1 : regions s1 !! p = Some (cleared 0 n r)) by (rewrite (fr_regions _ _ _ _ _ _ Hf); apply lookup_insert_eq).
  apply wp_bind, (wp_get_vr _ _ (cleared 0 n r)); [done|]. rewrite decide_True by done.
  change (vr_length (cleared 0 n r)) with (vr_length r). change (vaddr (cleared 0 n r)) with (vaddr r).
  replace (vr_length r - Z.of_nat n * VM_PAGE_SIZE) with (Z.of_nat (n - n) * VM_PAGE_SIZE) by (unfold VM_PAGE_SIZE in *; lia).
  apply wp_bind, wp_bind, (wp_get_tree _ _ vp); [by rewrite Hpr1|].
  apply wp_bind, (wp_put_tree _ _ vp); [by rewrite Hpr1|].
  apply wp_bind, wp_modify, wp_bind, wp_phys_slot.
  apply wp_bind, (wp_get_tree _ _ (with_tree (avl_remove (vaddr r) (vm_regions_avl vp)) vp)); [by apply list_lookup_insert_eq|].
  apply wp_bind, (wp_put_tree _ _ (with_tree (avl_remove (vaddr r) (vm_regions_avl vp)) vp)); [by apply list_lookup_insert_eq|].
  match goal with |- wp _ ?t _ => set (s3 := t) end.
  assert (Hr3 : regions s3 !! p = Some (moved_region n n r)) by apply lookup_insert_eq.
  assert (Hvp3 : exists vp3, procs s3 !! vmp = Some vp3 /\ vp3 =
      with_tree (avl_insert (u32 (vaddr r + Z.of_nat n * VM_PAGE_SIZE)) p (avl_remove (vaddr r) (vm_regions_avl vp))) vp)
    by (eexists; split; [apply list_lookup_insert_eq; simpl; by rewrite length_insert|done]).
  destruct Hvp3 as (vp3 & Hvp3 & Evp3).
  assert (Hlen3 : vr_length (moved_region n n r) = 0) by (simpl; by rewrite Nat.sub_diag).
  apply wp_bind. eapply wp_mono.
  { apply (shift_spec s3 p (moved_region n n r) (n - n) n Hr3 (moved_n_pages s1 r n n Hn1)); [by rewrite Hlen3|lia]. }
  intros y s4 [Hreg4 Hpr4 _ _]. rewrite decide_False by lia. apply wp_ret.
  apply wp_bind, (wp_get_vr _ _ (moved_region n n r)); [by rewrite Hreg4|]. rewrite decide_True by done.
  apply wp_bind, wp_bind. apply (wp_get_tree _ _ vp3); [by rewrite Hpr4|].
  apply wp_bind. apply (wp_put_tree _ _ vp3); [by rewrite Hpr4|].
  apply wp_bind. eapply wp_mono.
  { apply (wp_map_free_empty _ p (moved_region n n r)); [simpl; by rewrite Hreg4|done|done]. }
  intros z s5 [Hreg5 Hpr5]. apply wp_ret, wp_bind, wp_pt_writemap. intros w s6 H1 H2 H3. apply wp_ret.
  rewrite H1, H3, Hreg5, Hpr5. simpl. rewrite Hreg4, Hpr4. unfold s3. simpl.
  rewrite (fr_regions _ _ _ _ _ _ Hf), Hpr1, !list_insert_insert_eq, !delete_insert_eq.
  split; [done|]. unfold whole_tree. by rewrite Hl, Evp3.
Qed.
End unmap.
