(* ===== verification/Yielded.v ===== *)
(** * Yielded blocks ([region.c]): the operations

    A process can yield memory to the VM server and ask for it back.  The blocks
    are found by (owner, id) in a hash table of trees, and hang in a chain from
    the youngest to the oldest, from whose end [free_yielded] takes memory. *)
From S2P Require Import Prelude StateM DList Avl Region RegionOps.
Open Scope Z_scope.

(** Minix' 64-bit integer library. *)
Class Cmp64 := {
  make64 : Z -> Z -> Z;
  cmp64 : Z -> Z -> Z;
  cmp64_lt : forall i j, cmp64 i j < 0 <-> i < j;
  cmp64_eq : forall i j, cmp64 i j = 0 <-> i = j
}.

#[export] Instance block_id_eq_dec : EqDecision block_id.
Proof. solve_decision. Defined.

Section cmp.
Context `{!Cmp64}.

Definition yielded_block_cmp (id1 id2 : block_id) : Z :=
  if decide (owner id1 < owner id2) then -1 else
  if decide (owner id1 > owner id2) then 1 else
  cmp64 (bid id1) (bid id2).

Lemma yielded_block_cmp_lt a b : yielded_block_cmp a b < 0 <->
  owner a < owner b \/ owner a = owner b /\ bid a < bid b.
Proof.
  unfold yielded_block_cmp. repeat case_decide; try lia.
  rewrite cmp64_lt. lia.
Qed.

(** The order of the yielded blocks' trees. *)
#[export] Instance block_id_order : KeyOrder block_id.
Proof.
  refine {| key_lt := fun a b => yielded_block_cmp a b < 0 |}.
  - intros x y. apply _.
  - intros x y z. rewrite !yielded_block_cmp_lt. lia.
  - intros x. rewrite yielded_block_cmp_lt. lia.
  - intros [o1 b1] [o2 b2] Hne. rewrite !yielded_block_cmp_lt. simpl.
    destruct (Z.lt_trichotomy o1 o2) as [?|[->|?]]; [lia| |lia].
    destruct (Z.lt_trichotomy b1 b2) as [?|[->|?]]; [lia|done|lia].
Defined.
End cmp.

(** ** The chain *)

Definition with_younger (p : option nat) (n : yielded_t) :=
  Yielded (id n) (physaddr n) (pages n) p (older n).
Definition with_older (p : option nat) (n : yielded_t) :=
  Yielded (id n) (physaddr n) (pages n) (younger n) p.

(** From the youngest block, [older] is the successor. *)
#[export] Instance yielded_link : Link yielded_t (block_id * Z * Z).
Proof.
  refine {| nxt := older; prv := younger; payload n := (id n, physaddr n, pages n);
            set_nxt := with_older; set_prv := with_younger |}; done.
Defined.

Definition YIELD_HASHSIZE : Z := 65536.

Section yielded.
Context {W RT YT : Type} `{!Cmp64} `{!Avl Z nat RT} `{!Avl block_id nat YT} `{!VmHdr} `{!VmServer W RT YT}.
Abbreviation M := (M W RT YT).
Abbreviation vm := (vm W RT YT).
Implicit Types (s : vm) (vmp node : nat).

Definition get_node node : M yielded_t := m ← gets nodes; derefs Undefined (m !! node).
Definition put_node node (n : yielded_t) : M unit := modify (fun s => with_nodes (<[node := n]> (nodes s)) s).
Definition set_youngest (p : option nat) : M unit := modify (fun s => with_lru p (lru_oldest s) s).
Definition set_oldest (p : option nat) : M unit := modify (fun s => with_lru (lru_youngest s) p s).

Definition map_region_init : M unit :=
  b ← gets avl_inited;
  _ ← asserts (b = false);
  _ ← modify (with_buckets (fun _ => avl_empty));
  modify (with_inited true).

(** The index of the tree of a block, and [get_yielded_avl], which returns the tree's
    address; a tree is known by its index here. *)
Definition yielded_hash (i : block_id) : Z := hash_i_64 (owner i) (bid i) mod YIELD_HASHSIZE.
Definition get_yielded_avl (i : block_id) : M Z :=
  b ← gets avl_inited;
  _ ← asserts (b = true);
  let h := yielded_hash i in
  _ ← asserts (h >= 0);
  _ ← asserts (h < YIELD_HASHSIZE);
  mret h.
Definition get_bucket (h : Z) : M YT := f ← gets vm_yielded_blocks; mret (f h).
Definition put_bucket (h : Z) (t : YT) : M unit :=
  modify (fun s => with_buckets (fun i => if decide (i = h) then t else vm_yielded_blocks s i) s).

Definition yielded_search (avl : Z) (i : block_id) : M (option nat) :=
  t ← get_bucket avl; mret (avl_search i t).

(** [lrucheck]: the loop visits the blocks from [list] on. *)
Fixpoint lrucheck_from (fuel : nat) (list : option nat) : M unit :=
  match fuel with
  | O => raise OutOfFuel
  | S fuel =>
      match list with
      | None => mret tt
      | Some p =>
          n ← get_node p;
          y ← gets lru_youngest;
          o ← gets lru_oldest;
          _ ← match younger n with
              | Some q => w ← get_node q; asserts (older w = Some p)
              | None => asserts (y = Some p)
              end;
          _ ← match older n with
              | Some q => w ← get_node q; asserts (younger w = Some p)
              | None => asserts (o = Some p)
              end;
          lrucheck_from fuel (older n)
      end
  end.
Definition lrucheck (fuel : nat) : M unit :=
  y ← gets lru_youngest;
  o ← gets lru_oldest;
  if decide (y = None /\ o = None) then mret tt else
  yn ← (p ← derefs NullDeref y; get_node p);
  on ← (p ← derefs NullDeref o; get_node p);
  _ ← asserts (younger yn = None);
  _ ← asserts (older on = None);
  lrucheck_from fuel y.

(** The first half of [freeyieldednode]. *)
Definition lru_unlink node : M unit :=
  n ← get_node node;
  _ ← match younger n with
      | Some y => w ← get_node y; _ ← asserts (older w = Some node); put_node y (with_older (older n) w)
      | None => y ← gets lru_youngest; _ ← asserts (y = Some node); set_youngest (older n)
      end;
  match older n with
  | Some o => w ← get_node o; _ ← asserts (younger w = Some node); put_node o (with_younger (younger n) w)
  | None => o ← gets lru_oldest; _ ← asserts (o = Some node); set_oldest (younger n)
  end.

Definition freeyieldednode node (freemem : bool) : M Z :=
  _ ← lru_unlink node;
  n ← get_node node;
  p ← vm_isokendpt (owner (id n));
  p ← derefs Panic p;
  avl ← get_yielded_avl (id n);
  t ← get_bucket avl;
  _ ← asserts (avl_search (id n) t = Some node);
  _ ← put_bucket avl (avl_remove (id n) t);
  vp ← get_proc p;
  _ ← asserts (vm_yielded vp > 0);
  _ ← put_proc p (with_yielded (vm_yielded vp - 1) vp);
  _ ← (if freemem then free_mem (ABS2CLICK (physaddr n)) (pages n) else mret tt);
  _ ← modify (fun s => with_nodes (delete node (nodes s)) s);
  mret VM_PAGE_SIZE.

Fixpoint free_yielded_loop (fuel : nat) (max_bytes freed : Z) : M Z :=
  match fuel with
  | O => raise OutOfFuel
  | S fuel =>
      o ← gets lru_oldest;
      match o with
      | Some node =>
          if decide (freed < max_bytes) then
            n ← freeyieldednode node true;
            free_yielded_loop fuel max_bytes (u32 (freed + n))
          else mret freed
      | None => mret freed
      end
  end.
Definition free_yielded (max_bytes : Z) : M Z :=
  m ← gets nodes; free_yielded_loop (S (size m)) max_bytes 0.

(** The blocks of one tree that belong to [owner]; the iterator is restarted
    after each removal. *)
Fixpoint free_bucket (fuel : nat) (h own : Z) (iter : option (block_id * nat)) (total : Z) : M Z :=
  match fuel with
  | O => raise OutOfFuel
  | S fuel =>
      match iter with
      | None => mret total
      | Some (k, yb) =>
          n ← get_node yb;
          t ← get_bucket h;
          let next := avl_search_gt k t in
          if decide (owner (id n) <> own) then free_bucket fuel h own next total else
          f ← freeyieldednode yb true;
          match next with
          | None => mret (u32 (total + f))
          | Some (k', yb') =>
              w ← get_node yb';
              t ← get_bucket h;
              _ ← asserts (avl_search (id w) t = Some yb');
              free_bucket fuel h own (Some (id w, yb')) (u32 (total + f))
          end
      end
  end.
Fixpoint free_buckets (fuel : nat) vmp (h total : Z) : M Z :=
  match fuel with
  | O => mret total
  | S fuel =>
      vp ← get_proc vmp;
      if decide (vm_yielded vp > 0) then
        t ← get_bucket h;
        total ← free_bucket (S (length (avl_elems t))) h (vm_endpoint vp) (avl_least t) total;
        free_buckets fuel vmp (h + 1) total
      else mret total
  end.
Definition free_yielded_proc vmp : M Z := free_buckets (Z.to_nat YIELD_HASHSIZE) vmp 0 0.

(** ** Getting a block back *)

(** The loop of [getblock]: the region gets the pages of the block, and its own
    are freed.  An early return gives the result. *)
Fixpoint get_pages (n : nat) vmp (va phaddr : Z) : M (option Z) :=
  match n with
  | O => mret None
  | S n =>
      found ← get_clean_phys_region vmp va;
      match found with
      | None => mret (Some EINVAL)
      | Some (p, region) =>
          pr ← get_pr p;
          pb ← get_pb (ph pr);
          _ ← asserts (refcount pb = 1);
          _ ← free_mem (ABS2CLICK (phys pb)) 1;
          _ ← put_pb (ph pr) (with_phys phaddr pb);
          r ← map_ph_writept vmp region p;
          if decide (r <> OK) then raise Panic else
          get_pages n vmp (u32 (va + VM_PAGE_SIZE)) (u32 (phaddr + VM_PAGE_SIZE))
      end
  end.

Definition getblock vmp (i va npages : Z) : M Z :=
  vp ← get_proc vmp;
  let blockid := BlockId (vm_endpoint vp) i in
  avl ← get_yielded_avl blockid;
  yb ← yielded_search avl blockid;
  match yb with
  | None => mret ESRCH
  | Some yb =>
      n ← get_node yb;
      if decide (pages n <> npages) then mret EFAULT else
      r ← get_pages (Z.to_nat npages) vmp va (physaddr n);
      match r with
      | Some e => mret e
      | None => _ ← freeyieldednode yb false; mret OK
      end
  end.

(** ** Yielding a block *)

(** The loop that checks the pages: the error, or the first and the last
    [phys_region]. *)
Fixpoint check_pages (n : nat) vmp (v : Z) (first prev : option nat) : M (Z + (option nat * option nat)) :=
  match n with
  | O => mret (inr (first, prev))
  | S n =>
      found ← map_lookup vmp v true;
      match found with
      | Some (region, Some p) =>
          vr ← get_vr region;
          if decide (Z.land (vr_flags vr) VR_ANON = 0) then mret (inl EFAULT) else
          pr ← get_pr p;
          pb ← get_pb (ph pr);
          if decide (refcount pb <> 1) then mret (inl EFAULT) else
          apart ← match prev with
                  | Some q => qr ← get_pr q; qb ← get_pb (ph qr);
                      mret (bool_decide (phys pb <> u32 (phys qb + VM_PAGE_SIZE)))
                  | None => mret false
                  end;
          if (apart : bool) then mret (inl EINVAL) else
          check_pages n vmp (u32 (v + VM_PAGE_SIZE)) (if first is Some _ then first else Some p) (Some p)
      | _ => mret (inl EINVAL)
      end
  end.

(** The loop that gives the region its new pages. *)
Fixpoint renew_pages (n : nat) vmp (v new_phaddr : Z) : M unit :=
  match n with
  | O => mret tt
  | S n =>
      found ← map_lookup vmp v true;
      match found with
      | Some (region, Some p) =>
          pr ← get_pr p;
          pb ← get_pb (ph pr);
          _ ← asserts (refcount pb = 1);
          _ ← put_pb (ph pr) (with_phys new_phaddr pb);
          r ← map_ph_writept vmp region p;
          if decide (r <> OK) then raise Panic else
          renew_pages n vmp (u32 (v + VM_PAGE_SIZE)) (u32 (new_phaddr + VM_PAGE_SIZE))
      | _ => raise AssertFail
      end
  end.

(** The last part of [yieldblock]: the new block becomes the youngest. *)
Definition remember newyb : M unit :=
  y ← gets lru_youngest;
  _ ← match y with
      | Some q => w ← get_node q; put_node q (with_younger (Some newyb) w)
      | None => set_oldest (Some newyb)
      end;
  n ← get_node newyb;
  _ ← put_node newyb (with_older y n);
  set_youngest (Some newyb).

Definition yieldblock vmp (i vaddr npages : Z) : M Z :=
  vp ← get_proc vmp;
  let blockid := BlockId (vm_endpoint vp) i in
  avl ← get_yielded_avl blockid;
  old ← yielded_search avl blockid;
  if decide (is_Some old) then mret EINVAL else
  if decide (vaddr mod VM_PAGE_SIZE <> 0 \/ npages < 1) then mret EFAULT else
  checked ← check_pages (Z.to_nat npages) vmp vaddr None None;
  match checked with
  | inl e => mret e
  | inr (first, last) =>
      newyb ← SLABALLOC;
      match newyb with
      | None => mret ENOMEM
      | Some newyb =>
          last ← (p ← derefs NullDeref last; pr ← get_pr p; get_pb (ph pr));
          _ ← asserts (phys last mod VM_PAGE_SIZE = 0);
          mem_clicks ← alloc_mem npages PAF_CLEAR;
          if decide (mem_clicks = NO_MEM) then mret ENOMEM else
          first ← (p ← derefs NullDeref first; pr ← get_pr p; get_pb (ph pr));
          _ ← put_node newyb (Yielded blockid (phys first) npages None None);
          _ ← renew_pages (Z.to_nat npages) vmp vaddr (CLICK2ABS mem_clicks);
          t ← get_bucket avl;
          _ ← put_bucket avl (avl_insert blockid newyb t);
          vp ← get_proc vmp;
          _ ← put_proc vmp (with_yielded (vm_yielded vp + 1) vp);
          _ ← remember newyb;
          mret OK
      end
  end.

(** ** Messages *)

Definition do_forgetblocks (m_source : Z) : M Z :=
  n ← vm_isokendpt m_source;
  vmp ← derefs Panic n;
  _ ← free_yielded_proc vmp;
  mret OK.

Definition do_forgetblock (m_source idlo idhi : Z) : M Z :=
  n ← vm_isokendpt m_source;
  vmp ← derefs Panic n;
  vp ← get_proc vmp;
  let blockid := BlockId (vm_endpoint vp) (make64 idlo idhi) in
  avl ← get_yielded_avl blockid;
  yb ← yielded_search avl blockid;
  _ ← match yb with
      | Some yb => _ ← freeyieldednode yb true; mret tt
      | None => mret tt
      end;
  mret OK.

Definition do_yieldblockgetblock (m_source len yieldlo yieldhi getlo gethi vaddr : Z) : M Z :=
  n ← vm_isokendpt m_source;
  vmp ← derefs Panic n;
  let npages := len / VM_PAGE_SIZE in
  if decide (len mod VM_PAGE_SIZE <> 0 \/ npages < 1) then mret EFAULT else
  let yieldid := make64 yieldlo yieldhi in
  let getid := make64 getlo gethi in
  _ ← (if decide (cmp64 yieldid VM_BLOCKID_NONE <> 0)
       then yieldblock vmp yieldid vaddr npages else mret OK);
  if decide (cmp64 getid VM_BLOCKID_NONE <> 0) then getblock vmp getid vaddr npages else mret ESRCH.

(** [get_stats_info]: the number of blocks in the chain. *)
Fixpoint count_cached (fuel : nat) (yb : option nat) (n : Z) : M Z :=
  match fuel with
  | O => raise OutOfFuel
  | S fuel =>
      match yb with
      | None => mret n
      | Some p => w ← get_node p; count_cached fuel (older w) (n + 1)
      end
  end.
Definition get_stats_info : M Z :=
  m ← gets nodes; y ← gets lru_youngest; count_cached (S (size m)) y 0.
End yielded.
