(* ===== verification/YieldedInv.v ===== *)
(** * The invariant of the yielded blocks, and removing one *)
From S2P Require Import Prelude StateM DList Avl Region RegionOps RegionSlot Yielded.
Open Scope Z_scope.

Definition with_world {W RT YT} (w : W) (s : vm W RT YT) : vm W RT YT :=
  Vm w (regions s) (phys_regions s) (phys_blocks s) (procs s) (nodes s) (vm_yielded_blocks s)
    (lru_youngest s) (lru_oldest s) (next_id s) (avl_inited s).

(** What the code relies on: freeing memory changes the allocator only, and
    [vm_isokendpt] finds the process of an endpoint. *)
Class MemOk (W RT YT : Type) `{!VmServer W RT YT} := {
  release : Z -> Z -> W -> W;
  free_mem_ok : forall (s : vm W RT YT) click n, free_mem click n s = Done (tt, with_world (release click n (world s)) s);
  isokendpt_ok : forall (s : vm W RT YT) e, exists o, vm_isokendpt e s = Done (o, s) /\
    match o with
    | Some k => exists vp, procs s !! k = Some vp /\ vm_endpoint vp = e
    | None => forall k vp, procs s !! k = Some vp -> vm_endpoint vp <> e
    end
}.

Section inv.
Context {W RT YT : Type} `{!Cmp64} `{!Avl Z nat RT} `{!Avl block_id nat YT} `{!AvlOk block_id nat YT}
  `{!VmHdr} `{!VmServer W RT YT} `{!MemOk W RT YT}.
Implicit Types (s : vm W RT YT) (l : list nat).

(** The owner of a node, and the number of nodes of an owner. *)
Definition owner_of (m : gmap nat yielded_t) (p : nat) : option Z := owner ∘ id <$> m !! p.
Definition owned (m : gmap nat yielded_t) (e : Z) l : nat := length (filter (fun p => owner_of m p = Some e) l).

(** The blocks [l], from the youngest to the oldest: they form the chain, are
    found in the tree of their id and nowhere else, and are counted at their
    owner, an existing process. *)
Record yielded_inv s l : Prop := YieldedInv {
  yi_chain : dchain (nodes s) (lru_youngest s) (lru_oldest s) l;
  yi_dom : forall p, is_Some (nodes s !! p) -> p ∈ l;
  yi_found : forall p n, nodes s !! p = Some n ->
    avl_search (id n) (vm_yielded_blocks s (yielded_hash (id n))) = Some p;
  yi_back : forall h i p, avl_search i (vm_yielded_blocks s h) = Some p ->
    exists n, nodes s !! p = Some n /\ id n = i /\ yielded_hash i = h;
  yi_endpoint : forall k k' vp vp', procs s !! k = Some vp -> procs s !! k' = Some vp' ->
    vm_endpoint vp = vm_endpoint vp' -> k = k';
  yi_owner : forall p n, nodes s !! p = Some n -> exists k vp, procs s !! k = Some vp /\ vm_endpoint vp = owner (id n);
  yi_count : forall k vp, procs s !! k = Some vp -> vm_yielded vp = Z.of_nat (owned (nodes s) (vm_endpoint vp) l);
  yi_inited : avl_inited s = true
}.

Lemma get_node_done s p n : nodes s !! p = Some n -> get_node p s = Done (n, s).
Proof. intros Hp. unfold get_node, mbind, st_bind, gets. by rewrite Hp. Qed.

Lemma get_yielded_avl_done s i : avl_inited s = true -> get_yielded_avl i s = Done (yielded_hash i, s).
Proof.
  intros Hin. unfold get_yielded_avl. rewrite (bind_done _ _ _ (avl_inited s) s) by done.
  rewrite (bind_done _ _ _ _ _ (asserts_true _ s Hin)). cbv zeta.
  assert (0 <= yielded_hash i < YIELD_HASHSIZE) as [H1 H2] by by apply Z.mod_pos_bound.
  assert (H1' : yielded_hash i >= 0) by lia.
  rewrite (bind_done _ _ _ _ _ (asserts_true _ s H1')).
  by rewrite (bind_done _ _ _ _ _ (asserts_true _ s H2)).
Qed.

(** Nothing is yielded once the server has started. *)
Lemma map_region_init_spec s : avl_inited s = false -> nodes s = ∅ -> lru_youngest s = None -> lru_oldest s = None ->
  (forall k k' vp vp', procs s !! k = Some vp -> procs s !! k' = Some vp' -> vm_endpoint vp = vm_endpoint vp' -> k = k') ->
  (forall k vp, procs s !! k = Some vp -> vm_yielded vp = 0) ->
  wp map_region_init s (fun _ s' => yielded_inv s' []).
Proof.
  intros Hin Hn Hy Ho Hep Hcnt. unfold map_region_init. apply wp_bind, wp_gets, wp_bind, wp_asserts; [done|].
  apply wp_bind, wp_modify, wp_modify. split; cbn; rewrite ?Hn, ?Hy, ?Ho; try done.
  - split_and!; [constructor|done..].
  - by intros p [n ?].
  - intros h i p Hs. by rewrite avl_search_elems, avl_empty_elems in Hs.
Qed.

(** ** The chain *)

(** The assertions of [freeyieldednode] hold on a chain, and what is left is the
    removal of the list library. *)
Lemma lru_unlink_spec s l1 x l2 : dchain (nodes s) (lru_youngest s) (lru_oldest s) (l1 ++ x :: l2) ->
  exists m y o, lru_unlink x s = Done (tt, with_lru y o (with_nodes m s)) /\
    dchain m y o (l1 ++ l2) /\ same_nodes (nodes s) m /\ m !! x = nodes s !! x.
Proof.
  intros Hch. destruct (unlink_spec _ _ _ _ _ _ Hch) as (m & y & o & E & Hch' & Hsame & Hfr).
  exists m, y, o. split_and!; [|done|done|].
  - destruct (dchain_neighbours _ _ _ _ _ _ Hch) as (v & Hv & Hp & Hn). cbn [sget gmap_store] in Hv, Hp, Hn.
    cbn [prv nxt yielded_link] in Hp, Hn.
    unfold unlink in E. cbn [sget sset gmap_store prv nxt set_prv set_nxt yielded_link] in E.
    rewrite Hv in E. cbn [deref mbind exec_bind] in E.
    unfold lru_unlink. rewrite (bind_done _ _ _ _ _ (get_node_done _ _ _ Hv)).
    assert (Hstep : exists m1 y1, (match younger v with
        | Some q => w ← deref NullDeref (nodes s !! q); Done (<[q := with_older (older v) w]> (nodes s), lru_youngest s)
        | None => Done (nodes s, older v)
        end : exec (gmap nat yielded_t * option nat)) = Done (m1, y1) /\
      (match younger v with
       | Some y => w ← get_node y; _ ← asserts (older w = Some x); put_node y (with_older (older v) w)
       | None => y ← gets lru_youngest; _ ← asserts (y = Some x); set_youngest (older v)
       end) s = Done (tt, with_lru y1 (lru_oldest s) (with_nodes m1 s)) /\
      forall q w, nodes s !! q = Some w -> exists w', m1 !! q = Some w' /\ younger w' = younger w).
    { destruct (younger v) as [q|].
      - destruct Hp as (w & Hw & Hwx). rewrite Hw. cbn [deref mbind exec_bind]. eexists _, _. split; [done|]. split.
        + rewrite (bind_done _ _ _ _ _ (get_node_done _ _ _ Hw)), (bind_done _ _ _ _ _ (asserts_true _ s Hwx)).
          by destruct s.
        + intros q' w' Hw'. destruct (decide (q = q')) as [->|].
          * rewrite lookup_insert_eq. simplify_eq. by eexists.
          * rewrite lookup_insert_ne by done. by exists w'.
      - eexists _, _. split; [done|]. split; [|by eauto].
        rewrite (bind_done _ _ s (lru_youngest s) s) by done. rewrite (bind_done _ _ _ _ _ (asserts_true _ s Hp)).
        by destruct s. }
    destruct Hstep as (m1 & y1 & E1 & E1' & Hkeep). rewrite E1 in E. cbn [mbind exec_bind] in E.
    rewrite (bind_done _ _ _ _ _ E1'). destruct (older v) as [q|].
    + destruct Hn as (w & Hw & Hwx). destruct (Hkeep q w Hw) as (w' & Hw' & Hyw). rewrite Hw' in E.
      cbn [deref mbind exec_bind] in E. simplify_eq.
      erewrite bind_done by (apply get_node_done; exact Hw').
      erewrite bind_done by (apply asserts_true; congruence). done.
    + cbn [mbind exec_bind] in E. simplify_eq. erewrite bind_done by done. erewrite bind_done by (apply asserts_true; exact Hn). done.
  - apply Hfr. destruct Hch as (Hnd & _). apply NoDup_app in Hnd as (_ & H1 & H2).
    apply NoDup_cons in H2 as [H2 _]. set_solver.
Qed.

(** ** Removing a block *)

(** Link updates leave ids, addresses and sizes alone. *)
Lemma same_nodes_node m m' p n' : same_nodes m m' -> m' !! p = Some n' ->
  exists n, m !! p = Some n /\ id n' = id n /\ physaddr n' = physaddr n /\ pages n' = pages n.
Proof.
  intros Hs Hp. specialize (Hs p). cbn [sget gmap_store] in Hs. rewrite Hp in Hs.
  destruct (m !! p) as [n|]; simplify_eq/=. exists n. unfold payload in Hs. simpl in Hs. by simplify_eq.
Qed.

Lemma same_nodes_owner m m' p : same_nodes m m' -> owner_of m' p = owner_of m p.
Proof.
  intros Hs. unfold owner_of. destruct (m' !! p) as [n'|] eqn:E.
  - destruct (same_nodes_node _ _ _ _ Hs E) as (n & -> & Hid & _). simpl. by rewrite Hid.
  - specialize (Hs p). cbn [sget gmap_store] in Hs. rewrite E in Hs. by destruct (m !! p).
Qed.

Lemma owned_ext m m' e l : (forall p, p ∈ l -> owner_of m' p = owner_of m p) -> owned m' e l = owned m e l.
Proof.
  unfold owned. induction l as [|p l IH]; intros Hl; [done|]. rewrite !filter_cons, (Hl p) by set_solver.
  specialize (IH ltac:(set_solver)). case_decide; simpl; congruence.
Qed.

Lemma owned_middle m e l1 x l2 :
  owned m e (l1 ++ x :: l2) = (owned m e (l1 ++ l2) + if decide (owner_of m x = Some e) then 1 else 0)%nat.
Proof. unfold owned. rewrite !filter_app, filter_cons, !length_app. case_decide; simpl; lia. Qed.

(** The state after the removal of the block [x], node [n], of process [k]. *)
Definition removed s (x : nat) (n : yielded_t) k vp m y o (w : W) : vm W RT YT :=
  Vm w (regions s) (phys_regions s) (phys_blocks s)
    (<[k := with_yielded (vm_yielded vp - 1) vp]> (procs s)) (delete x m)
    (fun i => if decide (i = yielded_hash (id n)) then avl_remove (id n) (vm_yielded_blocks s (yielded_hash (id n)))
              else vm_yielded_blocks s i) y o (next_id s) (avl_inited s).

Lemma removed_search s x n k vp m y o w i h : avl_search i (vm_yielded_blocks (removed s x n k vp m y o w) h) =
  if decide (h = yielded_hash (id n) /\ i = id n) then None else avl_search i (vm_yielded_blocks s h).
Proof.
  simpl. destruct (decide (h = yielded_hash (id n))) as [->|Hne].
  - rewrite avl_search_remove. destruct (decide (i = id n)); [by rewrite decide_True|by rewrite decide_False by tauto].
  - by rewrite decide_False by tauto.
Qed.

Lemma removed_procs s x n k vp m y o w k' vp' : procs s !! k = Some vp ->
  procs (removed s x n k vp m y o w) !! k' = Some vp' ->
  exists vp0, procs s !! k' = Some vp0 /\ vm_endpoint vp' = vm_endpoint vp0 /\
    vm_yielded vp' = if decide (k' = k) then vm_yielded vp0 - 1 else vm_yielded vp0.
Proof.
  simpl. intros Hk Hk'. destruct (decide (k' = k)) as [->|Hne].
  - rewrite list_lookup_insert_eq in Hk' by (by eapply lookup_lt_Some). simplify_eq. by exists vp.
  - rewrite list_lookup_insert_ne in Hk' by done. by exists vp'.
Qed.

Lemma removed_inv s l1 x l2 n k vp m y o w : yielded_inv s (l1 ++ x :: l2) -> nodes s !! x = Some n ->
  procs s !! k = Some vp -> vm_endpoint vp = owner (id n) ->
  dchain m y o (l1 ++ l2) -> same_nodes (nodes s) m ->
  yielded_inv (removed s x n k vp m y o w) (l1 ++ l2).
Proof.
  intros [Hch Hdom Hfound Hback Hep Hown Hcnt Hin] Hn Hk He Hch' Hsame.
  assert (Hx : x ∉ l1 ++ l2).
  { destruct Hch as (Hnd & _). apply NoDup_app in Hnd as (_ & H1 & H2). apply NoDup_cons in H2 as [H2 _]. set_solver. }
  assert (Hnode : forall p n', delete x m !! p = Some n' -> p <> x /\ exists n0, nodes s !! p = Some n0 /\ id n' = id n0).
  { intros p n' Hp. apply lookup_delete_Some in Hp as [Hne Hp].
    destruct (same_nodes_node _ _ _ _ Hsame Hp) as (n0 & ? & ? & _). eauto. }
  split.
  - eapply dchain_frame; [|exact Hch']. intros p Hp. unfold links. simpl. by rewrite lookup_delete_ne by set_solver.
  - intros p [n' (Hne & n0 & Hp & _)%Hnode]. specialize (Hdom p ltac:(eauto)). set_solver.
  - intros p n' (Hne & n0 & Hp & Hid)%Hnode. rewrite removed_search, Hid. rewrite decide_False; [by apply Hfound|].
    intros [_ Heq]. pose proof (Hfound _ _ Hp) as H1. rewrite Heq, (Hfound _ _ Hn) in H1. congruence.
  - intros h i p Hs. rewrite removed_search in Hs. case_decide as Hc; [done|].
    destruct (Hback _ _ _ Hs) as (n0 & Hp & Hid & Hh).
    assert (Hne : x <> p). { intros ->. simplify_eq. tauto. }
    pose proof (Hsame p) as Hpay. cbn [sget gmap_store] in Hpay. rewrite Hp in Hpay.
    destruct (m !! p) as [n'|] eqn:E; [|done].
    destruct (same_nodes_node _ _ _ _ Hsame E) as (n1 & ? & Hid' & _). simplify_eq.
    exists n'. split_and!; [|done|done]. simpl. by rewrite lookup_delete_ne.
  - intros k1 k2 vp1 vp2 H1 H2. apply (removed_procs _ _ _ _ _ _ _ _ _ _ _ Hk) in H1 as (w1 & H1 & -> & _).
    apply (removed_procs _ _ _ _ _ _ _ _ _ _ _ Hk) in H2 as (w2 & H2 & -> & _). by apply (Hep _ _ _ _ H1 H2).
  - intros p n' (Hne & n0 & Hp & ->)%Hnode. destruct (Hown _ _ Hp) as (k' & vp' & Hk' & He').
    destruct (decide (k' = k)) as [->|Hkk].
    + exists k, (with_yielded (vm_yielded vp - 1) vp). simplify_eq. split; [|done]. simpl.
      apply list_lookup_insert_eq. by eapply lookup_lt_Some.
    + exists k', vp'. split; [|done]. simpl. by rewrite list_lookup_insert_ne.
  - intros k' vp' Hk'. apply (removed_procs _ _ _ _ _ _ _ _ _ _ _ Hk) in Hk' as (w' & Hk' & -> & ->).
    pose proof (Hcnt _ _ Hk') as Hc. rewrite owned_middle in Hc.
    replace (owned (nodes (removed s x n k vp m y o w)) (vm_endpoint w') (l1 ++ l2))
      with (owned (nodes s) (vm_endpoint w') (l1 ++ l2)).
    2: { symmetry. apply owned_ext. intros p Hp. rewrite <- (same_nodes_owner _ _ _ Hsame). unfold owner_of. simpl.
         by rewrite lookup_delete_ne by set_solver. }
    assert (Hox : owner_of (nodes s) x = Some (vm_endpoint vp)) by (unfold owner_of; rewrite Hn; simpl; congruence).
    destruct (decide (k' = k)) as [->|Hkk].
    + simplify_eq. rewrite decide_True in Hc by done. lia.
    + rewrite decide_False in Hc; [lia|]. rewrite Hox. intros [= E]. by apply Hkk, (Hep _ _ _ _ Hk' Hk).
  - done.
Qed.

(** The mapped memory, and what identifies the processes, is the same. *)
Definition same_memory s s' : Prop :=
  regions s' = regions s /\ phys_regions s' = phys_regions s /\ phys_blocks s' = phys_blocks s /\
  forall k, vm_regions_avl <$> procs s' !! k = vm_regions_avl <$> procs s !! k /\
    vm_endpoint <$> procs s' !! k = vm_endpoint <$> procs s !! k.

(** Removing a block, and giving its memory back if asked to. *)
Lemma freeyieldednode_exact s l1 x l2 n freemem : yielded_inv s (l1 ++ x :: l2) -> nodes s !! x = Some n ->
  wp (freeyieldednode x freemem) s (fun r s' => r = VM_PAGE_SIZE /\ yielded_inv s' (l1 ++ l2) /\
    (forall p, p <> x -> payload <$> nodes s' !! p = payload <$> nodes s !! p) /\
    world s' = (if freemem then release (ABS2CLICK (physaddr n)) (pages n) (world s) else world s) /\
    same_memory s s' /\ nodes s' !! x = None /\
    vm_yielded_blocks s' (yielded_hash (id n)) = avl_remove (id n) (vm_yielded_blocks s (yielded_hash (id n)))).
Proof.
  intros Hinv Hn. pose proof Hinv as [Hch Hdom Hfound Hback Hep Hown Hcnt Hin].
  destruct (lru_unlink_spec s l1 x l2 Hch) as (m & y & o & E & Hch' & Hsame & Hmx).
  destruct (Hown _ _ Hn) as (k & vp & Hk & He).
  unfold freeyieldednode. apply wp_bind. eapply wp_done; [exact E|].
  apply wp_bind. eapply wp_done; [apply get_node_done; simpl; by rewrite Hmx|].
  set (s1 := with_lru y o (with_nodes m s)).
  destruct (isokendpt_ok s1 (owner (id n))) as (ok & Eok & Hok).
  apply wp_bind. eapply wp_done; [exact Eok|]. apply wp_bind.
  destruct ok as [k'|]; [|by destruct (Hok k vp)]. destruct Hok as (vp' & Hk' & He').
  assert (k' = k) as -> by (apply (Hep _ _ vp' vp Hk' Hk); congruence). simpl in Hk'. simplify_eq.
  eapply wp_derefs; [done|]. apply wp_bind. eapply wp_done; [by apply get_yielded_avl_done|]. unfold get_bucket, put_bucket.
  apply wp_bind, wp_bind, wp_gets, wp_ret. apply wp_bind, wp_asserts; [by apply Hfound|].
  apply wp_bind, wp_modify. apply wp_bind, (wp_get_proc _ _ vp); [done|].
  apply wp_bind, wp_asserts.
  { rewrite (Hcnt _ _ Hk), owned_middle, decide_True; [lia|]. unfold owner_of. rewrite Hn. simpl. congruence. }
  apply wp_bind, wp_modify. apply wp_bind.
  set (w := if freemem then release (ABS2CLICK (physaddr n)) (pages n) (world s) else world s).
  match goal with |- wp _ ?t _ => apply (wp_mono _ _ (fun _ s' => s' = with_world w t)) end.
  { destruct freemem; [eapply wp_done; [apply free_mem_ok|done]|by apply wp_ret]. }
  intros [] s2 ->. apply wp_bind, wp_modify, wp_ret. split; [done|]. split_and!.
  - exact (removed_inv s l1 x l2 n k vp m y o w Hinv Hn Hk He Hch' Hsame).
  - intros p Hp. simpl. rewrite lookup_delete_ne by done. apply Hsame.
  - done.
  - split_and!; [done..|]. intros j. simpl. destruct (decide (j = k)) as [->|Hne].
    + rewrite list_lookup_insert_eq by (by eapply lookup_lt_Some). by rewrite Hk.
    + by rewrite list_lookup_insert_ne.
  - simpl. apply lookup_delete_eq.
  - simpl. by rewrite decide_True.
Qed.

Lemma freeyieldednode_spec s l1 x l2 n freemem : yielded_inv s (l1 ++ x :: l2) -> nodes s !! x = Some n ->
  wp (freeyieldednode x freemem) s (fun r s' => r = VM_PAGE_SIZE /\ yielded_inv s' (l1 ++ l2) /\
    (forall p, p <> x -> payload <$> nodes s' !! p = payload <$> nodes s !! p) /\
    world s' = (if freemem then release (ABS2CLICK (physaddr n)) (pages n) (world s) else world s) /\
    same_memory s s').
Proof.
  intros Hinv Hn. eapply wp_mono; [by apply freeyieldednode_exact|]. intros r s' (H1 & H2 & H3 & H4 & H5 & _). done.
Qed.
End inv.
