(* ===== verification/YieldedFree.v ===== *)
(** * Freeing the yielded blocks of a process: [free_yielded_proc] ([region.c]) *)
From S2P Require Import Prelude StateM DList Avl Region RegionOps RegionSlot Yielded YieldedInv.
Open Scope Z_scope.

Section free.
Context {W RT YT : Type} `{!Cmp64} `{!Avl Z nat RT} `{!Avl block_id nat YT} `{!AvlOk block_id nat YT}
  `{!VmHdr} `{!VmServer W RT YT} `{!MemOk W RT YT}.
Implicit Types (s : vm W RT YT) (l : list nat).

(** Giving back the memory of some nodes, in order. *)
Definition release_node (m : gmap nat yielded_t) (w : W) (p : nat) : W :=
  match m !! p with
  | Some n => release (ABS2CLICK (physaddr n)) (pages n) w
  | None => w
  end.

Lemma release_ext (m m' : gmap nat yielded_t) l w : (forall p, p ∈ l -> payload <$> m' !! p = payload <$> m !! p) ->
  foldl (release_node m') w l = foldl (release_node m) w l.
Proof.
  revert w. induction l as [|p l IH]; intros w Hl; [done|]. simpl. rewrite IH by set_solver. f_equal.
  specialize (Hl p ltac:(set_solver)). unfold release_node. destruct (m' !! p) as [a|], (m !! p) as [b|]; [|done..].
  by injection Hl as _ -> ->.
Qed.


(** The blocks of the owner [e], and the others. *)
Definition mine s (e : Z) l : list nat := filter (fun p => owner_of (nodes s) p = Some e) l.
Definition others s (e : Z) l : list nat := filter (fun p => owner_of (nodes s) p <> Some e) l.

(** The state [s] of the blocks [l] without the blocks [gone] of [e]. *)
Record thinned s l e (gone : list nat) s' : Prop := Thinned {
  th_inv : yielded_inv s' (filter (fun p => p ∉ gone) l);
  th_gone : NoDup gone /\ forall p, p ∈ gone -> p ∈ mine s e l;
  th_nodes : forall p, p ∉ gone -> payload <$> nodes s' !! p = payload <$> nodes s !! p;
  th_world : world s' = foldl (release_node (nodes s)) (world s) gone;
  th_memory : same_memory s s'
}.

Lemma same_memory_trans s1 s2 s3 : same_memory s1 s2 -> same_memory s2 s3 -> same_memory s1 s3.
Proof.
  intros (H1 & H2 & H3 & H4) (H5 & H6 & H7 & H8). split_and!; [congruence..|].
  intros k. destruct (H4 k), (H8 k). split; congruence.
Qed.

Lemma thinned_refl s l e : yielded_inv s l -> thinned s l e [] s.
Proof.
  intros Hinv. split; try done.
  - rewrite filter_all; [done|]. apply Forall_forall. intros p _. apply not_elem_of_nil.
  - split; [constructor|]. by intros p ?%elem_of_nil.
Qed.

Lemma payload_owner s s' p : payload <$> nodes s' !! p = payload <$> nodes s !! p -> owner_of (nodes s') p = owner_of (nodes s) p.
Proof.
  unfold owner_of. intros Hp. destruct (nodes s' !! p) as [a|], (nodes s !! p) as [b|]; cbn in Hp; [|done..].
  injection Hp as Hid _ _. cbn. by rewrite Hid.
Qed.

Lemma filter_gone_split x gone l : NoDup l -> x ∈ l -> x ∉ gone -> exists l1 l2,
  filter (fun p => p ∉ gone) l = l1 ++ x :: l2 /\ filter (fun p => p ∉ gone ++ [x]) l = l1 ++ l2.
Proof.
  intros Hnd Hx Hg. apply list_elem_of_split in Hx as (a & b & ->).
  exists (filter (fun p => p ∉ gone) a), (filter (fun p => p ∉ gone) b).
  apply NoDup_app in Hnd as (_ & Ha & Hb). apply NoDup_cons in Hb as [Hb _].
  assert (Hsame : forall c : list nat, x ∉ c -> filter (fun p => p ∉ gone ++ [x]) c = filter (fun p => p ∉ gone) c).
  { induction c as [|y c IH]; intros Hc; [done|]. rewrite !filter_cons. rewrite IH by set_solver.
    destruct (decide (y ∉ gone)) as [Hy|Hy].
    - rewrite decide_True; [done|]. set_solver.
    - rewrite decide_False; [done|]. set_solver. }
  rewrite !filter_app, !filter_cons. rewrite (decide_True (P := x ∉ gone)) by done. rewrite decide_False by set_solver.
  split; [done|]. f_equal; apply Hsame; [|done]. intros Hin. apply (Ha x Hin). by left.
Qed.

(** One block of [e] is freed. *)
Lemma thinned_step s l e gone s1 x n : yielded_inv s l -> thinned s l e gone s1 -> nodes s1 !! x = Some n -> owner (id n) = e ->
  wp (freeyieldednode x true) s1 (fun r s2 => r = VM_PAGE_SIZE /\ thinned s l e (gone ++ [x]) s2 /\
    (forall p, p <> x -> payload <$> nodes s2 !! p = payload <$> nodes s1 !! p) /\ nodes s2 !! x = None /\
    vm_yielded_blocks s2 (yielded_hash (id n)) = avl_remove (id n) (vm_yielded_blocks s1 (yielded_hash (id n)))).
Proof.
  intros Hinv [Hi [Hnd Hg] Hn Hw Hm] Hx He. pose proof (yi_dom _ _ Hi x ltac:(eauto)) as Hxl.
  apply list_elem_of_filter in Hxl as [Hxg Hxl].
  destruct (filter_gone_split x gone l) as (l1 & l2 & E1 & E2); [by destruct (yi_chain _ _ Hinv)|done|done|].
  rewrite E1 in Hi. eapply wp_mono; [by apply (freeyieldednode_exact s1 l1 x l2 n true)|].
  intros r s2 (-> & Hi2 & Hpay & Hw2 & Hm2 & Hgone & Htree). split; [done|]. split; [|done]. split.
  - by rewrite E2.
  - split.
    + apply NoDup_app. split; [done|]. split; [|apply NoDup_singleton]. by intros p Hp ->%list_elem_of_singleton.
    + intros p [Hp| ->%list_elem_of_singleton]%elem_of_app; [by apply Hg|]. apply list_elem_of_filter. split; [|done].
      rewrite <- (payload_owner _ _ _ (Hn x Hxg)). unfold owner_of. rewrite Hx. cbn. by rewrite He.
  - intros p Hp. rewrite Hpay by set_solver. apply Hn. set_solver.
  - rewrite foldl_app, Hw2, <- Hw. cbn. unfold release_node. specialize (Hn x Hxg). rewrite Hx in Hn.
    destruct (nodes s !! x) as [n0|]; [|done]. by injection Hn as _ -> ->.
  - by eapply same_memory_trans.
Qed.

(** What the tree of a bucket holds. *)
Lemma bucket_node s l h k p : yielded_inv s l -> (k, p) ∈ avl_elems (vm_yielded_blocks s h) ->
  exists n, nodes s !! p = Some n /\ id n = k /\ yielded_hash k = h.
Proof.
  intros Hinv Hin. apply (yi_back _ _ Hinv). rewrite avl_search_elems. apply list_eq_at_Some; [apply avl_ordered|done].
Qed.

Lemma node_bucket s l p n : yielded_inv s l -> nodes s !! p = Some n ->
  (id n, p) ∈ avl_elems (vm_yielded_blocks s (yielded_hash (id n))).
Proof.
  intros Hinv Hp. pose proof (yi_found _ _ Hinv p n Hp) as Hs. rewrite avl_search_elems in Hs.
  by apply list_eq_at_Some in Hs; [|apply avl_ordered].
Qed.

Lemma u32_add_idemp a b : u32 (u32 a + b) = u32 (a + b).
Proof. apply Z.add_mod_idemp_l. done. Qed.

(** The total that is reported. *)
Definition freed_bytes (gone : list nat) : Z := u32 (Z.of_nat (length gone) * VM_PAGE_SIZE).

Lemma freed_bytes_snoc gone x : u32 (freed_bytes gone + VM_PAGE_SIZE) = freed_bytes (gone ++ [x]).
Proof. unfold freed_bytes. rewrite u32_add_idemp, length_app. f_equal. cbn. lia. Qed.

(** The loop over one tree, whose entries before the iterator are not of [e]. *)
Lemma free_bucket_spec s l e h : yielded_inv s l -> forall rest kept gone s1 fuel,
  thinned s l e gone s1 -> avl_elems (vm_yielded_blocks s1 h) = kept ++ rest ->
  (forall x, x ∈ kept -> owner x.1 <> e) -> (length rest < fuel)%nat ->
  wp (free_bucket fuel h e (head rest) (freed_bytes gone)) s1 (fun r s2 => exists gone',
    r = freed_bytes gone' /\ thinned s l e gone' s2 /\ (forall p, p ∈ gone -> p ∈ gone') /\
    forall p n, nodes s2 !! p = Some n -> yielded_hash (id n) = h -> owner (id n) <> e).
Proof.
  intros Hinv. induction rest as [|[k yb] rest IH]; intros kept gone s1 [|fuel] Hth Hel Hk Hf; cbn in Hf; try lia; cbn [free_bucket head].
  { apply wp_ret. exists gone. split_and!; try done. intros p n Hp Hh Ho.
    pose proof (node_bucket s1 _ p n (th_inv _ _ _ _ _ Hth) Hp) as Hin. rewrite Hh, Hel, app_nil_r in Hin. by apply (Hk _ Hin). }
  destruct (bucket_node s1 _ h k yb (th_inv _ _ _ _ _ Hth)) as (n & Hn & Hid & Hh); [rewrite Hel; apply elem_of_app; right; by left|].
  pose proof (avl_ordered (vm_yielded_blocks s1 h)) as Hord. rewrite Hel in Hord.
  apply wp_bind. eapply wp_done; [by apply get_node_done|]. unfold get_bucket.
  apply wp_bind, wp_bind, wp_gets, wp_ret. rewrite avl_gt_elems, Hel, (list_gt_at _ _ _ _ Hord). case_decide as Ho.
  { apply (IH (kept ++ [(k, yb)])); [done|by rewrite <- app_assoc| |lia].
    intros x [Hx| ->%list_elem_of_singleton]%elem_of_app; [by apply Hk|]. cbn. by rewrite <- Hid. }
  apply wp_bind. eapply wp_mono; [by apply (thinned_step s l e gone s1 yb n)|].
  intros r s2 (-> & Hth2 & Hpay & Hgone & Htree). rewrite Hid, Hh in Htree.
  assert (Hel2 : avl_elems (vm_yielded_blocks s2 h) = kept ++ rest) by (by rewrite Htree, avl_remove_elems, Hel, list_del_at).
  destruct rest as [|[k' yb'] rest]; cbn [head].
  - apply wp_ret. exists (gone ++ [yb]). rewrite (freed_bytes_snoc gone yb). split; [done|]. split; [done|]. split; [intros q Hq; apply elem_of_app; by left|].
    intros p n2 Hp Hh2 Ho2. pose proof (node_bucket s2 _ p n2 (th_inv _ _ _ _ _ Hth2) Hp) as Hin.
    rewrite Hh2, Hel2, app_nil_r in Hin. by apply (Hk _ Hin).
  - destruct (bucket_node s2 _ h k' yb' (th_inv _ _ _ _ _ Hth2)) as (n' & Hn' & Hid' & _); [rewrite Hel2; apply elem_of_app; right; by left|].
    apply wp_bind. eapply wp_done; [by apply get_node_done|]. rewrite Hid'.
    apply wp_bind, wp_bind, wp_gets, wp_ret. apply wp_bind, wp_asserts.
    { rewrite avl_search_elems. apply list_eq_at_Some; [apply avl_ordered|]. rewrite Hel2. apply elem_of_app. right. by left. }
    rewrite (freed_bytes_snoc gone yb). eapply wp_mono; [apply (IH kept (gone ++ [yb])); [done|done|done|cbn in *; lia]|].
    intros r s3 (gone' & -> & Hth3 & Hsub & Hno). exists gone'. split_and!; try done. set_solver.
Qed.

(** A block in [s2] was there before. *)
Lemma thinned_node s l e gone s1 p n : thinned s l e gone s1 -> nodes s1 !! p = Some n ->
  p ∉ gone /\ exists n0, nodes s !! p = Some n0 /\ id n0 = id n.
Proof.
  intros Hth Hp. pose proof (yi_dom _ _ (th_inv _ _ _ _ _ Hth) p ltac:(eauto)) as Hin.
  apply list_elem_of_filter in Hin as [Hg _]. split; [done|]. pose proof (th_nodes _ _ _ _ _ Hth p Hg) as Hpay.
  rewrite Hp in Hpay. destruct (nodes s !! p) as [n0|]; [|done]. exists n0. split; [done|]. by injection Hpay as -> _ _.
Qed.

Lemma hash_range i : 0 <= yielded_hash i < YIELD_HASHSIZE.
Proof. unfold yielded_hash. by apply Z.mod_pos_bound. Qed.

(** The loop over the trees: those below [h] hold no block of [e]. *)
Lemma free_buckets_spec s l k vp : yielded_inv s l -> procs s !! k = Some vp ->
  forall fuel h gone s1, Z.of_nat fuel + h = YIELD_HASHSIZE -> 0 <= h -> thinned s l (vm_endpoint vp) gone s1 ->
  (forall p n, nodes s1 !! p = Some n -> yielded_hash (id n) < h -> owner (id n) <> vm_endpoint vp) ->
  wp (free_buckets fuel k h (freed_bytes gone)) s1 (fun r s2 => exists gone', r = freed_bytes gone' /\
    thinned s l (vm_endpoint vp) gone' s2 /\ forall p n, nodes s2 !! p = Some n -> owner (id n) <> vm_endpoint vp).
Proof.
  intros Hinv Hk. induction fuel as [|fuel IH]; intros h gone s1 Hfu Hh Hth Hlow; cbn [free_buckets].
  { apply wp_ret. exists gone. split_and!; try done. intros p n Hp. apply (Hlow p n Hp). pose proof (hash_range (id n)). lia. }
  destruct (th_memory _ _ _ _ _ Hth) as (_ & _ & _ & Hpr). destruct (Hpr k) as [_ Hep]. rewrite Hk in Hep.
  destruct (procs s1 !! k) as [vp1|] eqn:Hk1; [|done]. injection Hep as Hep.
  apply wp_bind, (wp_get_proc _ _ vp1); [done|]. case_decide as Hy.
  - unfold get_bucket. apply wp_bind, wp_bind, wp_gets, wp_ret. rewrite Hep, avl_least_elems. apply wp_bind.
    eapply wp_mono; [apply (free_bucket_spec s l (vm_endpoint vp) h Hinv _ [] gone s1); [done|done|by intros x ?%elem_of_nil|lia]|].
    intros r s2 (gone' & -> & Hth2 & Hsub & Hno). apply IH; [lia|lia|done|].
    intros p n Hp Hlt Ho. destruct (decide (yielded_hash (id n) = h)) as [Heq|Hne]; [by apply (Hno p n)|].
    destruct (thinned_node _ _ _ _ _ _ _ Hth2 Hp) as (Hg & n0 & Hn0 & Hid0).
    assert (Hg1 : p ∉ gone) by (intros Hin; by apply Hg, Hsub).
    pose proof (th_nodes _ _ _ _ _ Hth p Hg1) as Hpay. rewrite Hn0 in Hpay. destruct (nodes s1 !! p) as [n1|] eqn:E1; [|done].
    injection Hpay as Hid1 _ _. apply (Hlow p n1 E1); rewrite Hid1, Hid0; [lia|done].
  - apply wp_ret. exists gone. split_and!; try done. intros p n Hp Ho.
    pose proof (yi_count _ _ (th_inv _ _ _ _ _ Hth) k vp1 Hk1) as Hc. rewrite Hep in Hc.
    assert (p ∈ filter (fun q => owner_of (nodes s1) q = Some (vm_endpoint vp)) (filter (fun p => p ∉ gone) l)) as Hin.
    { apply list_elem_of_filter. split; [unfold owner_of; rewrite Hp; cbn; by rewrite Ho|]. apply (yi_dom _ _ (th_inv _ _ _ _ _ Hth)). eauto. }
    unfold owned in Hc. destruct (filter (fun q => owner_of _ q = _) _); [by apply elem_of_nil in Hin|]. cbn in Hc. lia.
Qed.

(** [free_yielded_proc] frees exactly the blocks of the process: the others stay,
    in their order in the chain. *)
Lemma free_yielded_proc_spec s l k vp : yielded_inv s l -> procs s !! k = Some vp ->
  wp (free_yielded_proc k) s (fun r s' => yielded_inv s' (others s (vm_endpoint vp) l) /\ same_memory s s' /\
    exists gone, gone ≡ₚ mine s (vm_endpoint vp) l /\ r = freed_bytes gone /\
      world s' = foldl (release_node (nodes s)) (world s) gone).
Proof.
  intros Hinv Hk. unfold free_yielded_proc. change 0 with (freed_bytes []) at 2.
  eapply wp_mono; [apply (free_buckets_spec s l k vp Hinv Hk); [unfold YIELD_HASHSIZE; lia|done|by apply thinned_refl|]|].
  { intros p n Hp Hlt. pose proof (hash_range (id n)). lia. }
  intros r s' (gone & -> & Hth & Hno). assert (Hth' := Hth). destruct Hth' as [Hi [Hnd Hg] Hn Hw Hm].
  assert (Hall : forall p, p ∈ l -> p ∉ gone <-> owner_of (nodes s) p <> Some (vm_endpoint vp)).
  { intros p Hp. split.
    - intros Hpg Ho. rewrite <- (payload_owner _ _ _ (Hn p Hpg)) in Ho. unfold owner_of in Ho.
      apply fmap_Some in Ho as (n & Hpn & Ho). by apply (Hno p n Hpn).
    - intros Ho Hpg. apply Ho. by apply Hg, list_elem_of_filter in Hpg as [? _]. }
  split; [|split; [done|]].
  - assert (E : filter (fun p => p ∉ gone) l = others s (vm_endpoint vp) l); [|by rewrite <- E].
    unfold others. clear -Hall. induction l as [|p l IH]; [done|]. rewrite !filter_cons, IH by (intros q Hq; apply Hall; by right).
    destruct (decide (p ∉ gone)) as [H1|H1]; [rewrite decide_True|rewrite decide_False]; try done; by rewrite <- Hall by by left.
  - exists gone. split_and!; try done. apply NoDup_Permutation; [done| |].
    + apply NoDup_filter. by destruct (yi_chain _ _ Hinv).
    + intros p. split; [apply Hg|]. intros [Ho Hp]%list_elem_of_filter. destruct (decide (p ∈ gone)) as [|Hpg]; [done|].
      by apply Hall in Hpg.
Qed.

(** A process without blocks. *)
Lemma free_yielded_proc_none s k vp : procs s !! k = Some vp -> vm_yielded vp = 0 -> free_yielded_proc k s = Done (0, s).
Proof.
  intros Hk Hy. unfold free_yielded_proc. destruct (Z.to_nat YIELD_HASHSIZE) eqn:E; [done|]. cbn [free_buckets].
  rewrite (bind_done _ _ _ _ _ (get_proc_done _ _ _ Hk)). by rewrite decide_False by lia.
Qed.
End free.
