(* ===== verification/YieldBlock.v ===== *)
(** * Yielding a block and getting it back ([region.c])

    [yieldblock] takes the frames of a range of pages into a new block and gives
    the range fresh ones; [getblock] frees the frames of a range and gives it
    those of a block.  [window] says what is mapped in the range. *)
From S2P Require Import Prelude StateM DList Avl Region RegionOps RegionSlot RegionUnmap Yielded YieldedInv.
Open Scope Z_scope.

(** ** Further behaviour of the rest of the server *)

(** The allocators change nothing but their own data, a new object is not in
    use; writing a page table changes the tables only, and fails when a new one is
    needed and there is no room for it; the memory types know whether a page is
    writable. *)
Class YieldOk (W RT YT : Type) `{!VmServer W RT YT} := {
  slaballoc_ok : forall (s : vm W RT YT), exists o w, SLABALLOC s = Done (o, with_world w s) /\
    forall p, o = Some p -> nodes s !! p = None;
  alloc_mem_ok : forall (s : vm W RT YT) n fl, exists c w, alloc_mem n fl s = Done (c, with_world w s);
  tables_full : Prop;
  writemap_ok : forall (s : vm W RT YT) vmp va pa len fl wmf, exists x w,
    pt_writemap vmp va pa len fl wmf s = Done (x, with_world w s) /\ (x <> OK -> tables_full);
  writable_ok : forall m, exists f, writable (mem_types m) = Some f /\
    forall p (s : vm W RT YT), exists x, f p s = Done (x, s)
}.

Section yieldblock.
Context {W RT YT : Type} `{!Cmp64} `{!Avl Z nat RT} `{!Avl block_id nat YT} `{!AvlOk block_id nat YT}
  `{!VmHdr} `{!VmServer W RT YT} `{!MemOk W RT YT} `{!YieldOk W RT YT}.
Implicit Types (s : vm W RT YT) (l : list nat).

(** ** Functions that only read the mappings *)

(** The regions, their pages and the trees that find them are the same. *)
Definition same_maps s s' : Prop := regions s' = regions s /\ phys_regions s' = phys_regions s /\
  forall k, vm_regions_avl <$> procs s' !! k = vm_regions_avl <$> procs s !! k.

Definition reads {A} (m : M W RT YT A) : Prop := forall s s', same_maps s s' ->
  (exists a, m s = Done (a, s) /\ m s' = Done (a, s')) \/ (exists f, m s = Fault f /\ m s' = Fault f).

Lemma same_maps_trans s1 s2 s3 : same_maps s1 s2 -> same_maps s2 s3 -> same_maps s1 s3.
Proof.
  intros (H1 & H2 & H3) (H4 & H5 & H6). split; [congruence|]. split; [congruence|].
  intros k. by rewrite H6, H3.
Qed.

Lemma reads_ret {A} (a : A) : reads (mret a).
Proof. intros s s' _. left. by exists a. Qed.

Lemma reads_bind {A B} (m : M W RT YT A) (k : A -> M W RT YT B) : reads m -> (forall a, reads (k a)) -> reads (m ≫= k).
Proof.
  intros Hm Hk s s' Hs. destruct (Hm s s' Hs) as [(a & H1 & H2)|(f & H1 & H2)].
  - rewrite (bind_done _ _ _ _ _ H1), (bind_done _ _ _ _ _ H2). by apply Hk.
  - right. exists f. by rewrite (bind_fault _ _ _ _ H1), (bind_fault _ _ _ _ H2).
Qed.

Lemma reads_derefs {A} f (o : option A) : reads (derefs f o).
Proof. destruct o as [a|]; intros s s' _; [left; by exists a|right; by exists f]. Qed.

Lemma reads_asserts (P : Prop) `{Decision P} : reads (asserts P).
Proof. intros s s' _. unfold asserts. case_decide; [left; by exists tt|right; by exists AssertFail]. Qed.

Lemma reads_get_vr p : reads (get_vr p).
Proof.
  intros s s' (Hr & _). unfold get_vr, mbind, st_bind, gets. rewrite Hr.
  destruct (regions s !! p) as [r|]; [left; by exists r|right; by exists Undefined].
Qed.

Lemma reads_get_pr p : reads (get_pr p).
Proof.
  intros s s' (_ & Hp & _). unfold get_pr, mbind, st_bind, gets. rewrite Hp.
  destruct (phys_regions s !! p) as [r|]; [left; by exists r|right; by exists Undefined].
Qed.

Lemma reads_get_tree n : reads (get_tree n).
Proof.
  intros s s' (_ & _ & Ht). specialize (Ht n). unfold get_tree, get_proc, mbind, st_bind, gets.
  destruct (procs s !! n) as [vp|], (procs s' !! n) as [vp'|]; simplify_eq/=;
    [left; exists (vm_regions_avl vp); by rewrite Ht|right; by exists OutOfBounds].
Qed.

Lemma reads_map_lookup vmp v b : reads (map_lookup vmp v b).
Proof.
  unfold map_lookup. apply reads_bind; [apply reads_get_tree|]. intros t.
  destruct (avl_search_le v t) as [[k r]|]; [|apply reads_ret].
  apply reads_bind; [apply reads_get_vr|]. intros vr. case_decide; [|apply reads_ret].
  destruct b; [|apply reads_ret]. apply reads_bind.
  - unfold physblock_get. apply reads_bind; [apply reads_get_vr|]. intros vr'.
    do 2 (apply reads_bind; [apply reads_asserts|]; intros _). apply reads_bind; [apply reads_derefs|].
    intros [p|]; [|apply reads_ret]. apply reads_bind; [apply reads_get_pr|]. intros pr.
    apply reads_bind; [apply reads_asserts|]. intros _. apply reads_ret.
  - intros o. apply reads_bind; [|intros _; apply reads_ret]. destruct o as [q|]; [|apply reads_ret].
    apply reads_bind; [apply reads_get_pr|]. intros pr. apply reads_asserts.
Qed.

Lemma map_lookup_frame s s' vmp v b x : same_maps s s' ->
  map_lookup vmp v b s = Done (x, s) -> map_lookup vmp v b s' = Done (x, s').
Proof.
  intros Hs Hx. destruct (reads_map_lookup vmp v b s s' Hs) as [(a & H1 & H2)|(f & H1 & H2)]; congruence.
Qed.

(** ** What is mapped in a range *)

(** [n] consecutive frames from [a]. *)
Fixpoint frames (a : Z) (n : nat) : list Z :=
  match n with O => [] | S n => a :: frames (u32 (a + VM_PAGE_SIZE)) n end.

(** The pages of the range from [v] are the [phys_region]s and the blocks [pgs],
    each block used once; they lie in one anonymous region. *)
Record window s (vmp region : nat) (v : Z) (pgs : list (nat * nat)) : Prop := {
  w_region : exists r, regions s !! region = Some r /\ Z.land (vr_flags r) VR_ANON <> 0 /\
    vaddr r mod VM_PAGE_SIZE = 0 /\ 0 <= vaddr r <= v /\
    v + Z.of_nat (length pgs) * VM_PAGE_SIZE <= vaddr r + vr_length r < 2 ^ 32;
  w_page : forall i p b, pgs !! i = Some (p, b) ->
    map_lookup vmp (v + Z.of_nat i * VM_PAGE_SIZE) true s = Done (Some (region, Some p), s) /\
    exists q, phys_regions s !! p = Some q /\ ph q = b /\ offset q mod VM_PAGE_SIZE = 0
}.

(** The blocks of the pages are in the frames [fr], each used once. *)
Definition in_frames s (pgs : list (nat * nat)) (fr : list Z) : Prop :=
  Forall2 (fun pg a => phys_blocks s !! pg.2 = Some (PhysBlock a 1)) pgs fr.

Lemma window_cons s vmp region v p b pgs : window s vmp region v ((p, b) :: pgs) ->
  window s vmp region (u32 (v + VM_PAGE_SIZE)) pgs.
Proof.
  intros [(r & Hr & Hfl & Hal & Hv & Hlen) Hpg]. cbn [length] in Hlen. unfold VM_PAGE_SIZE in *.
  rewrite u32_small by lia. split.
  - exists r. unfold VM_PAGE_SIZE. split_and!; (done || lia).
  - intros i p' b' Hi. specialize (Hpg (S i) p' b' Hi). unfold VM_PAGE_SIZE.
    by replace (v + 4096 + Z.of_nat i * 4096) with (v + Z.of_nat (S i) * 4096) by lia.
Qed.

Lemma window_frame s s' vmp region v pgs : same_maps s s' -> window s vmp region v pgs -> window s' vmp region v pgs.
Proof.
  intros Hs [(r & Hr) Hpg]. pose proof Hs as (H1 & H2 & _). split.
  - exists r. by rewrite H1.
  - intros i p b Hi. destruct (Hpg i p b Hi) as [Hl Hq]. rewrite H2. split; [by eapply map_lookup_frame|done].
Qed.

Lemma window_page s vmp region v p b pgs : window s vmp region v ((p, b) :: pgs) ->
  map_lookup vmp v true s = Done (Some (region, Some p), s) /\
  exists q, phys_regions s !! p = Some q /\ ph q = b /\ offset q mod VM_PAGE_SIZE = 0.
Proof. intros [_ Hpg]. specialize (Hpg 0%nat p b eq_refl). by rewrite Z.add_0_r in Hpg. Qed.

Lemma wp_get_pb s b c (Q : phys_block -> vm W RT YT -> Prop) :
  phys_blocks s !! b = Some c -> Q c s -> wp (get_pb b) s Q.
Proof. intros Hp HQ. eapply wp_done; [|exact HQ]. unfold get_pb, mbind, st_bind, gets. by rewrite Hp. Qed.

(** Block [b] in frame [a], and another world: what a page is given. *)
Definition reframe (b : nat) (a : Z) (w : W) s : vm W RT YT :=
  with_world w (with_phys_blocks (<[b := PhysBlock a 1]> (phys_blocks s)) s).

Lemma same_maps_reframe b a w s : same_maps s (reframe b a w s).
Proof. done. Qed.

(** What [map_ph_writept] returns: it fails when there is no room for a page table. *)
Definition entered (x : Z) : Prop := x = OK \/ tables_full /\ x = ENOMEM.

(** The page table entry of a page of the window is written. *)
Lemma map_ph_writept_spec s vmp region v p b pgs a : window s vmp region v ((p, b) :: pgs) ->
  phys_blocks s !! b = Some (PhysBlock a 1) ->
  wp (map_ph_writept vmp region p) s (fun r s' => entered r /\ exists w, s' = with_world w s).
Proof.
  intros Hw Hb. destruct (window_page _ _ _ _ _ _ _ Hw) as (_ & q & Hq & Hqb & Hqo).
  destruct Hw as [(r & Hr & Hfl & Hal & Hv & Hlen) _]. unfold map_ph_writept.
  apply wp_bind, (wp_get_pr _ _ q); [done|]. rewrite Hqb. apply wp_bind, (wp_get_pb _ _ (PhysBlock a 1)); [done|].
  apply wp_bind, (wp_get_vr _ _ r); [done|]. do 3 (apply wp_bind, wp_asserts; [done|]).
  apply wp_bind. apply (wp_mono _ _ (fun _ s' => s' = s)).
  { unfold pr_writable. apply wp_bind, (wp_get_vr _ _ r); [done|].
    destruct (writable_ok (memtype r)) as (f & Hf & Hok). apply wp_bind. eapply wp_derefs; [exact Hf|].
    case_decide; [by apply wp_ret|]. destruct (Hok p s) as [x Hx].
    apply wp_bind. eapply wp_done; [exact Hx|]. by apply wp_ret. }
  intros wr s' ->. cbn zeta.
  match goal with |- wp (pt_writemap ?n ?va ?pa ?len ?fl ?wm ≫= _) _ _ =>
    destruct (writemap_ok s n va pa len fl wm) as (x & w & Hwm & Hx) end.
  apply wp_bind. eapply wp_done; [exact Hwm|]. unfold entered. case_decide; apply wp_ret; (split; [|by exists w]); auto.
Qed.

(** ** The loops over the pages *)

(** There is room for page tables: the code panics when there is none. *)
Hypothesis Htables : ~ tables_full.

Lemma entered_ok x : entered x -> x = OK.
Proof. intros [->|[Hf _]]; [done|by destruct Htables]. Qed.

(** All but the world and the contents of physical blocks is the same. *)
Definition same_rest s s' : Prop :=
  regions s' = regions s /\ phys_regions s' = phys_regions s /\ procs s' = procs s /\ nodes s' = nodes s /\
  vm_yielded_blocks s' = vm_yielded_blocks s /\ lru_youngest s' = lru_youngest s /\ lru_oldest s' = lru_oldest s /\
  avl_inited s' = avl_inited s.

Lemma same_rest_refl s : same_rest s s.
Proof. done. Qed.

Lemma same_rest_trans s1 s2 s3 : same_rest s1 s2 -> same_rest s2 s3 -> same_rest s1 s3.
Proof. intros (?&?&?&?&?&?&?&?) (?&?&?&?&?&?&?&?). split_and!; congruence. Qed.

Lemma same_rest_maps s s' : same_rest s s' -> same_maps s s'.
Proof. intros (? & ? & Hp & _). split_and!; [done..|]. intros k. by rewrite Hp. Qed.

(** The pages of the window have new frames, and no other block is touched. *)
Definition reframed s s' (pgs : list (nat * nat)) (a : Z) : Prop :=
  same_rest s s' /\ in_frames s' pgs (frames a (length pgs)) /\
  forall b, b ∉ pgs.*2 -> phys_blocks s' !! b = phys_blocks s !! b.

Lemma in_frames_ext s s' pgs fr : (forall b, b ∈ pgs.*2 -> phys_blocks s' !! b = phys_blocks s !! b) ->
  in_frames s pgs fr -> in_frames s' pgs fr.
Proof.
  intros Hb Hf. unfold in_frames in *. induction Hf as [|pg a pgs fr Ha _ IH]; [constructor|].
  constructor; [rewrite Hb; [done|set_solver]|]. apply IH. intros b Hin. apply Hb. set_solver.
Qed.

Lemma reframed_cons s w s' p b pgs a : NoDup ((p, b) :: pgs).*2 ->
  reframed (reframe b a w s) s' pgs (u32 (a + VM_PAGE_SIZE)) -> reframed s s' ((p, b) :: pgs) a.
Proof.
  cbn. intros [Hb Hnd]%NoDup_cons (Hrest & Hfr & Hout). split_and!.
  - by eapply same_rest_trans; [|exact Hrest].
  - constructor; [|done]. cbn. rewrite Hout by done. cbn. apply lookup_insert_eq.
  - intros c Hc. rewrite Hout by set_solver. cbn. apply lookup_insert_ne. set_solver.
Qed.

Lemma in_frames_reframe s b a w pgs fr : b ∉ pgs.*2 -> in_frames s pgs fr -> in_frames (reframe b a w s) pgs fr.
Proof. intros Hb. apply in_frames_ext. intros c Hc. cbn. apply lookup_insert_ne. set_solver. Qed.

Lemma renew_pages_spec pgs : forall s vmp region v a fr,
  window s vmp region v pgs -> in_frames s pgs fr -> NoDup pgs.*2 ->
  wp (renew_pages (length pgs) vmp v a) s (fun _ s' => reframed s s' pgs a).
Proof.
  induction pgs as [|[p b] pgs IH]; intros s vmp region v a fr Hw Hfr Hnd; cbn [length renew_pages].
  { apply wp_ret. split_and!; [done|constructor|done]. }
  pose proof (window_page _ _ _ _ _ _ _ Hw) as (Hlk & q & Hq & Hqb & _).
  inversion Hfr as [|pg c pgs' fr' Hb Hfr']; subst. cbn in Hb, Hnd. pose proof Hnd as [Hbn Hnd']%NoDup_cons.
  apply wp_bind. eapply wp_done; [exact Hlk|]. apply wp_bind, (wp_get_pr _ _ q); [done|].
  apply wp_bind, (wp_get_pb _ _ (PhysBlock c 1)); [done|]. apply wp_bind, wp_asserts; [done|].
  apply wp_bind, wp_modify. apply wp_bind. eapply wp_mono.
  { apply (map_ph_writept_spec _ _ _ v p (ph q) pgs a); [by eapply window_frame; [|exact Hw]|]. apply lookup_insert_eq. }
  intros r s' [->%entered_ok [w ->]]. rewrite decide_False by (intros Hne; by apply Hne).
  eapply wp_mono; [apply (IH (reframe (ph q) a w s) vmp region _ _ fr')|].
  - eapply window_cons. by eapply window_frame; [|exact Hw].
  - by apply in_frames_reframe.
  - done.
  - intros u s' Hs'. by apply (reframed_cons s w).
Qed.

Lemma get_clean_spec s vmp region v p b pgs a : window s vmp region v ((p, b) :: pgs) ->
  phys_blocks s !! b = Some (PhysBlock a 1) ->
  wp (get_clean_phys_region vmp v) s (fun r s' => r = Some (p, region) /\ s' = s).
Proof.
  intros Hw Hb. pose proof (window_page _ _ _ _ _ _ _ Hw) as (Hlk & q & Hq & Hqb & _).
  destruct Hw as [(r & Hr & _ & _ & Hv & Hlen) _]. cbn [length] in Hlen. unfold VM_PAGE_SIZE in Hlen.
  unfold get_clean_phys_region. apply wp_bind. eapply wp_done; [exact Hlk|].
  apply wp_bind, (wp_get_vr _ _ r); [done|]. apply wp_bind, wp_asserts; [lia|].
  apply wp_bind, wp_asserts; [rewrite u32_small by lia; lia|].
  apply wp_bind, (wp_get_pr _ _ q); [done|]. rewrite Hqb.
  apply wp_bind, (wp_get_pb _ _ (PhysBlock a 1)); [done|]. apply wp_bind, wp_asserts; [done|]. cbn [refcount].
  rewrite decide_False by lia. apply wp_bind, wp_ret. apply wp_bind, (wp_get_pr _ _ q); [done|]. rewrite Hqb.
  apply wp_bind, (wp_get_pb _ _ (PhysBlock a 1)); [done|]. apply wp_bind, wp_asserts; [done|]. by apply wp_ret.
Qed.

Lemma get_pages_spec pgs : forall s vmp region v a fr,
  window s vmp region v pgs -> in_frames s pgs fr -> NoDup pgs.*2 ->
  wp (get_pages (length pgs) vmp v a) s (fun r s' => r = None /\ reframed s s' pgs a).
Proof.
  induction pgs as [|[p b] pgs IH]; intros s vmp region v a fr Hw Hfr Hnd; cbn [length get_pages].
  { apply wp_ret. split; [done|]. split_and!; [done|constructor|done]. }
  pose proof (window_page _ _ _ _ _ _ _ Hw) as (Hlk & q & Hq & Hqb & _).
  inversion Hfr as [|pg c pgs' fr' Hb Hfr']; subst. cbn in Hb, Hnd. pose proof Hnd as [Hbn Hnd']%NoDup_cons.
  apply wp_bind. eapply wp_mono; [by eapply get_clean_spec|]. intros r s' [-> ->].
  apply wp_bind, (wp_get_pr _ _ q); [done|]. apply wp_bind, (wp_get_pb _ _ (PhysBlock c 1)); [done|].
  apply wp_bind, wp_asserts; [done|]. apply wp_bind. eapply wp_done; [apply free_mem_ok|].
  apply wp_bind, wp_modify. apply wp_bind. eapply wp_mono.
  { apply (map_ph_writept_spec _ _ _ v p (ph q) pgs a); [by eapply window_frame; [|exact Hw]|]. apply lookup_insert_eq. }
  intros r s' [->%entered_ok [w ->]]. rewrite decide_False by (intros Hne; by apply Hne).
  eapply wp_mono; [apply (IH (reframe (ph q) a w s) vmp region _ _ fr')|].
  - eapply window_cons. by eapply window_frame; [|exact Hw].
  - by apply in_frames_reframe.
  - done.
  - intros x s' [-> Hs']. split; [done|]. by apply (reframed_cons s w).
Qed.

(** The checks of [yieldblock] accept consecutive frames. *)
Lemma check_pages_spec pgs : forall s vmp region v a first prev,
  window s vmp region v pgs -> in_frames s pgs (frames a (length pgs)) ->
  (forall q, prev = Some q -> exists qr c, phys_regions s !! q = Some qr /\
     phys_blocks s !! ph qr = Some c /\ a = u32 (phys c + VM_PAGE_SIZE)) ->
  wp (check_pages (length pgs) vmp v first prev) s (fun r s' => s' = s /\
    r = inr (if first is Some _ then first else fst <$> head pgs, last_or prev (fst <$> pgs))).
Proof.
  induction pgs as [|[p b] pgs IH]; intros s vmp region v a first prev Hw Hfr Hprev; cbn [length check_pages].
  { apply wp_ret. by destruct first. }
  pose proof (window_page _ _ _ _ _ _ _ Hw) as (Hlk & q & Hq & Hqb & _).
  pose proof (w_region _ _ _ _ _ Hw) as (r & Hr & Hfl & _).
  inversion Hfr as [|pg c pgs' fr' Hb Hfr']; subst. cbn in Hb.
  apply wp_bind. eapply wp_done; [exact Hlk|]. apply wp_bind, (wp_get_vr _ _ r); [done|].
  rewrite decide_False by done. apply wp_bind, (wp_get_pr _ _ q); [done|].
  apply wp_bind, (wp_get_pb _ _ (PhysBlock a 1)); [done|]. cbn [refcount phys].
  rewrite decide_False by (intros Hne; by apply Hne).
  apply wp_bind. apply (wp_mono _ _ (fun x s' => x = false /\ s' = s)).
  { destruct prev as [q'|]; [|by apply wp_ret]. destruct (Hprev q' eq_refl) as (qr & c & Hqr & Hc & ->).
    apply wp_bind, (wp_get_pr _ _ qr); [done|]. apply wp_bind, (wp_get_pb _ _ c); [done|]. apply wp_ret.
    split; [|done]. apply bool_decide_eq_false_2. intros Hne. by apply Hne. }
  intros x s' [-> ->]. eapply wp_mono.
  { apply (IH s vmp region _ (u32 (a + VM_PAGE_SIZE))); [by eapply window_cons|done|].
    intros q' [= <-]. exists q, (PhysBlock a 1). done. }
  intros res s' [-> ->]. split; [done|]. by destruct first, pgs as [|[]].
Qed.

(** The last frame of an aligned row is aligned. *)
Lemma in_frames_aligned pgs : forall s a p b, a mod VM_PAGE_SIZE = 0 -> in_frames s pgs (frames a (length pgs)) ->
  last pgs = Some (p, b) -> exists c, phys_blocks s !! b = Some c /\ phys c mod VM_PAGE_SIZE = 0.
Proof.
  induction pgs as [|pg pgs IH]; intros s a p b Ha Hfr Hl; [done|].
  inversion Hfr as [|pg' c pgs' fr' Hb Hfr']; subst. destruct pgs as [|pg2 pgs].
  - injection Hl as ->. by exists (PhysBlock a 1).
  - apply (IH s (u32 (a + VM_PAGE_SIZE)) p b); [|done|done]. unfold u32, wrap, VM_PAGE_SIZE in *.
    rewrite Z.mod_mod_divide by (by exists (2 ^ 20)).
    rewrite Z.add_mod, Ha by done. done.
Qed.

(** ** The new block *)

Lemma remember_spec s l x n : dchain (nodes s) (lru_youngest s) (lru_oldest s) l -> x ∉ l ->
  nodes s !! x = Some n -> younger n = None ->
  exists m o, remember x s = Done (tt, with_lru (Some x) o (with_nodes m s)) /\
    dchain m (Some x) o (x :: l) /\ same_nodes (nodes s) m.
Proof.
  intros Hch Hx Hn Hy. destruct (push_front_spec _ _ _ _ _ _ Hch Hx Hn) as (m & o & E & Hch' & Hsame & _).
  exists m, o. split; [|done]. destruct Hch as (_ & Hhd & _ & Hseg). cbn [sget gmap_store] in *.
  assert (Hv : set_nxt (lru_youngest s) (set_prv None n) = with_older (lru_youngest s) n).
  { destruct n. cbn in Hy. subst. done. }
  unfold push_front in E. cbn [sget sset gmap_store] in E. rewrite Hn in E. cbn [deref mbind exec_bind] in E.
  rewrite Hv in E. unfold remember. erewrite bind_done by done.
  destruct (lru_youngest s) as [q|] eqn:Hq.
  - destruct l as [|q' l]; [done|]. injection Hhd as <-. assert (Hqx : q <> x) by set_solver.
    rewrite lookup_insert_ne in E by done. destruct (nodes s !! q) as [w|] eqn:Hw; [|done]. injection E as <- <-.
    erewrite bind_done by (erewrite bind_done by (by apply get_node_done); done).
    erewrite bind_done by (apply get_node_done; cbn; rewrite lookup_insert_ne by done; exact Hn).
    erewrite bind_done by done. cbn. unfold set_youngest, modify, with_lru, with_nodes. cbn.
    by rewrite insert_insert_ne.
  - injection E as <- <-. erewrite bind_done by done.
    erewrite bind_done by (apply get_node_done; exact Hn). by erewrite bind_done by done.
Qed.

(** A new youngest block [x], node [n], of process [k]. *)
Section inserted.
Context (s s' : vm W RT YT) (l : list nat) (x : nat) (n : yielded_t) (k : nat) (vp : vmproc RT).
Hypothesis Hinv : yielded_inv s l.
Hypothesis Hx : nodes s !! x = None.
Hypothesis Hno : avl_search (id n) (vm_yielded_blocks s (yielded_hash (id n))) = None.
Hypothesis Hk : procs s !! k = Some vp.
Hypothesis He : vm_endpoint vp = owner (id n).
Hypothesis Hprocs : procs s' = <[k := with_yielded (vm_yielded vp + 1) vp]> (procs s).
Hypothesis Hbuckets : forall h, vm_yielded_blocks s' h = if decide (h = yielded_hash (id n))
  then avl_insert (id n) x (vm_yielded_blocks s h) else vm_yielded_blocks s h.
Hypothesis Hsame : same_nodes (<[x := n]> (nodes s)) (nodes s').
Hypothesis Hinited : avl_inited s' = avl_inited s.

Lemma inserted_node p n' : nodes s' !! p = Some n' ->
  p = x /\ id n' = id n \/ p <> x /\ exists n0, nodes s !! p = Some n0 /\ id n' = id n0.
Proof.
  intros Hp. destruct (same_nodes_node _ _ _ _ Hsame Hp) as (n0 & Hn0 & Hid & _).
  destruct (decide (p = x)) as [->|Hne].
  - rewrite lookup_insert_eq in Hn0. simplify_eq. by left.
  - rewrite lookup_insert_ne in Hn0 by done. right. eauto.
Qed.

Lemma inserted_kept p n0 : <[x := n]> (nodes s) !! p = Some n0 -> exists n', nodes s' !! p = Some n' /\ id n' = id n0.
Proof.
  intros Hp. pose proof (Hsame p) as Hpay. cbn [sget gmap_store] in Hpay. rewrite Hp in Hpay.
  destruct (nodes s' !! p) as [n'|] eqn:E; [|done]. exists n'. split; [done|].
  unfold payload in Hpay. simpl in Hpay. congruence.
Qed.

Lemma inserted_search i h : avl_search i (vm_yielded_blocks s' h) =
  if decide (h = yielded_hash (id n) /\ i = id n) then Some x else avl_search i (vm_yielded_blocks s h).
Proof.
  rewrite Hbuckets. destruct (decide (h = yielded_hash (id n))) as [->|Hne].
  - rewrite avl_search_insert by done.
    destruct (decide (i = id n)); [by rewrite decide_True|by rewrite decide_False by tauto].
  - by rewrite decide_False by tauto.
Qed.

Lemma inserted_proc k' vp' : procs s' !! k' = Some vp' -> exists vp0, procs s !! k' = Some vp0 /\
  vm_endpoint vp' = vm_endpoint vp0 /\ vm_yielded vp' = if decide (k' = k) then vm_yielded vp0 + 1 else vm_yielded vp0.
Proof.
  intros Hk'. rewrite Hprocs in Hk'. destruct (decide (k' = k)) as [->|Hne].
  - rewrite list_lookup_insert_eq in Hk' by (by eapply lookup_lt_Some). simplify_eq. by exists vp.
  - rewrite list_lookup_insert_ne in Hk' by done. by exists vp'.
Qed.

Lemma inserted_proc_kept k' vp0 : procs s !! k' = Some vp0 ->
  exists vp', procs s' !! k' = Some vp' /\ vm_endpoint vp' = vm_endpoint vp0.
Proof.
  intros Hk'. rewrite Hprocs. destruct (decide (k' = k)) as [->|Hne].
  - rewrite list_lookup_insert_eq by (by eapply lookup_lt_Some). simplify_eq. by eexists.
  - rewrite list_lookup_insert_ne by done. eauto.
Qed.

Lemma inserted_owned e : owned (nodes s') e (x :: l) =
  (owned (nodes s) e l + if decide (owner (id n) = e) then 1 else 0)%nat.
Proof.
  assert (Hxl : x ∉ l).
  { intros Hin. destruct (dchain_mem _ _ _ _ _ (yi_chain _ _ Hinv) Hin) as [v Hv]. cbn [sget gmap_store] in Hv. congruence. }
  assert (Ho : forall p, owner_of (nodes s') p = owner_of (<[x := n]> (nodes s)) p).
  { intros p. by apply same_nodes_owner. }
  pose proof (owned_middle (nodes s') e [] x l) as Hm. cbn [app] in Hm. rewrite Hm, Ho.
  rewrite (owned_ext (nodes s) (nodes s')).
  - f_equal. unfold owner_of. rewrite lookup_insert_eq. cbn.
    destruct (decide (owner (id n) = e)) as [->|Hne]; [by rewrite decide_True|]. rewrite decide_False; [done|]. by intros [= ?].
  - intros p Hp. rewrite Ho. unfold owner_of. rewrite lookup_insert_ne; [done|]. by intros <-.
Qed.

Lemma inserted_inv : dchain (nodes s') (lru_youngest s') (lru_oldest s') (x :: l) -> yielded_inv s' (x :: l).
Proof.
  intros Hch'. pose proof Hinv as [_ Hdom Hfound Hback Hep Hown Hcnt Hin]. split.
  - done.
  - intros p [n' [[-> _]|(Hne & n0 & Hp & _)]%inserted_node]; [set_solver|]. specialize (Hdom p ltac:(eauto)). set_solver.
  - intros p n' Hp. rewrite inserted_search. destruct (inserted_node _ _ Hp) as [[-> Hid]|(Hne & n0 & Hp0 & Hid)].
    + by rewrite decide_True by (by rewrite Hid).
    + rewrite Hid. rewrite decide_False; [by apply Hfound|]. intros [_ Hii]. rewrite <- Hii, (Hfound _ _ Hp0) in Hno. done.
  - intros h i p Hs. rewrite inserted_search in Hs. case_decide as Hc.
    + destruct Hc as [-> ->]. injection Hs as <-. destruct (inserted_kept x n) as (n' & Hn' & Hid); [apply lookup_insert_eq|].
      exists n'. done.
    + destruct (Hback _ _ _ Hs) as (n0 & Hp & Hid & Hh). destruct (inserted_kept p n0) as (n' & Hn' & Hid').
      { rewrite lookup_insert_ne; [done|]. by intros ->; rewrite Hx in Hp. }
      exists n'. split_and!; [done|congruence|done].
  - intros k1 k2 vp1 vp2 (w1 & H1 & -> & _)%inserted_proc (w2 & H2 & -> & _)%inserted_proc. by apply (Hep _ _ _ _ H1 H2).
  - intros p n' Hp. destruct (inserted_node _ _ Hp) as [[-> Hid]|(Hne & n0 & Hp0 & Hid)].
    + destruct (inserted_proc_kept _ _ Hk) as (vp' & Hk' & He'). exists k, vp'. split; [done|]. congruence.
    + destruct (Hown _ _ Hp0) as (k' & vp0 & Hk' & He'). destruct (inserted_proc_kept _ _ Hk') as (vp' & Hk'' & He'').
      exists k', vp'. split; [done|]. congruence.
  - intros k' vp' (vp0 & Hk' & -> & ->)%inserted_proc. rewrite (Hcnt _ _ Hk'), inserted_owned.
    destruct (decide (k' = k)) as [->|Hkk].
    + simplify_eq. rewrite decide_True by congruence. lia.
    + rewrite decide_False; [lia|]. intros E. apply Hkk, (Hep _ _ _ _ Hk' Hk). congruence.
  - congruence.
Qed.
End inserted.

(** ** [yieldblock] and [getblock] *)

Lemma last_page (pgs : list (nat * nat)) : pgs <> [] -> exists p b, last pgs = Some (p, b) /\ last_or None (fst <$> pgs) = Some p.
Proof.
  intros Hne. destruct pgs as [|[p b] pgs _] using rev_ind; [done|]. exists p, b.
  rewrite last_snoc, fmap_app. split; [done|]. apply last_or_last.
Qed.

Lemma in_window_pr s vmp region v pgs i p b : window s vmp region v pgs -> pgs !! i = Some (p, b) ->
  exists q, phys_regions s !! p = Some q /\ ph q = b.
Proof. intros [_ Hpg] Hi. destruct (Hpg i p b Hi) as (_ & q & Hq & Hb & _). eauto. Qed.

(** What the caller sees of a successful [yieldblock]: block [x] is new, and the
    window has other frames. *)
Definition yielded_as s s' (l : list nat) x (bi : block_id) k region v pgs a : Prop :=
  yielded_inv s' (x :: l) /\ nodes s !! x = None /\
  payload <$> nodes s' !! x = Some (bi, a, Z.of_nat (length pgs)) /\
  (forall p, p <> x -> payload <$> nodes s' !! p = payload <$> nodes s !! p) /\
  (forall j, vm_endpoint <$> procs s' !! j = vm_endpoint <$> procs s !! j) /\
  window s' k region v pgs /\ (exists c, in_frames s' pgs (frames c (length pgs))) /\
  forall b, b ∉ pgs.*2 -> phys_blocks s' !! b = phys_blocks s !! b.

(** The last steps: the block is entered in its tree and in the chain. *)
Lemma enter_spec s l k vp x n : yielded_inv (with_nodes (delete x (nodes s)) s) l ->
  nodes s !! x = Some n -> younger n = None -> procs s !! k = Some vp -> vm_endpoint vp = owner (id n) ->
  avl_search (id n) (vm_yielded_blocks s (yielded_hash (id n))) = None ->
  wp (t ← get_bucket (yielded_hash (id n));
      _ ← put_bucket (yielded_hash (id n)) (avl_insert (id n) x t);
      vp ← get_proc k;
      _ ← put_proc k (with_yielded (vm_yielded vp + 1) vp);
      _ ← remember x;
      mret OK) s (fun r s' => r = OK /\ yielded_inv s' (x :: l) /\ same_nodes (nodes s) (nodes s') /\
    same_maps s s' /\ phys_blocks s' = phys_blocks s /\
    procs s' = <[k := with_yielded (vm_yielded vp + 1) vp]> (procs s)).
Proof.
  intros Hinv Hn Hy Hk He Hno. set (s0 := with_nodes (delete x (nodes s)) s) in *.
  assert (Hxl : x ∉ l).
  { intros Hin. destruct (dchain_mem _ _ _ _ _ (yi_chain _ _ Hinv) Hin) as [v Hv]. cbn in Hv. by rewrite lookup_delete_eq in Hv. }
  unfold get_bucket, put_bucket. apply wp_bind, wp_bind, wp_gets, wp_ret. apply wp_bind, wp_modify.
  apply wp_bind, (wp_get_proc _ _ vp); [done|]. apply wp_bind, wp_modify. cbn zeta.
  match goal with |- wp _ ?t _ => set (s1 := t) end.
  destruct (remember_spec s1 l x n) as (m & o & E & Hch & Hsame); [|done|exact Hn|done|].
  { eapply dchain_frame; [|exact (yi_chain _ _ Hinv)]. intros p Hp. unfold links. cbn.
    rewrite lookup_delete_ne; [done|]. by intros <-. }
  apply wp_bind. eapply wp_done; [exact E|]. apply wp_ret. split; [done|]. split_and!; [|done| |done|done].
  - apply (inserted_inv s0 _ l x n k vp); try done.
    + cbn. apply lookup_delete_eq.
    + intros h. cbn. case_decide as Hh; [by subst|done].
    + cbn. by rewrite insert_delete_id.
  - split_and!; [done..|]. intros j. cbn. destruct (decide (j = k)) as [->|Hne].
    + rewrite list_lookup_insert_eq by (by eapply lookup_lt_Some). by rewrite Hk.
    + by rewrite list_lookup_insert_ne.
Qed.

Lemma yielded_inv_ext s s' l : nodes s' = nodes s -> lru_youngest s' = lru_youngest s -> lru_oldest s' = lru_oldest s ->
  vm_yielded_blocks s' = vm_yielded_blocks s -> procs s' = procs s -> avl_inited s' = avl_inited s -> yielded_inv s l -> yielded_inv s' l.
Proof. intros Hn Hy Ho Hb Hp Hi []. split; rewrite ?Hn, ?Hy, ?Ho, ?Hb, ?Hp, ?Hi; done. Qed.

Lemma yielded_search_done s h i : yielded_search h i s = Done (avl_search i (vm_yielded_blocks s h), s).
Proof. done. Qed.

(** From the new node on nothing can fail. *)
Lemma yield_tail_spec s l k vp i region v pgs a fr x c : yielded_inv s l -> procs s !! k = Some vp ->
  let bi := BlockId (vm_endpoint vp) i in
  avl_search bi (vm_yielded_blocks s (yielded_hash bi)) = None -> nodes s !! x = None ->
  window s k region v pgs -> in_frames s pgs fr -> NoDup pgs.*2 ->
  wp (_ ← put_node x (Yielded bi a (Z.of_nat (length pgs)) None None);
      _ ← renew_pages (length pgs) k v c;
      t ← get_bucket (yielded_hash bi);
      _ ← put_bucket (yielded_hash bi) (avl_insert bi x t);
      vp ← get_proc k;
      _ ← put_proc k (with_yielded (vm_yielded vp + 1) vp);
      _ ← remember x;
      mret OK) s (fun r s' => r = OK /\ yielded_as s s' l x bi k region v pgs a).
Proof.
  intros Hinv Hk bi Hno Hx Hw Hfr Hnd. set (n := Yielded bi a (Z.of_nat (length pgs)) None None).
  set (s2 := with_nodes (<[x := n]> (nodes s)) s). apply wp_bind, wp_modify.
  apply wp_bind. eapply wp_mono.
  { apply (renew_pages_spec pgs s2 k region v c fr); [by eapply window_frame; [|exact Hw]|done|done]. }
  intros u s3 (Hrest & Hfr3 & Hout). pose proof Hrest as (Hreg & Hprs & Hpr & Hns & Hbk & Hy & Ho & Hin).
  eapply wp_mono.
  { apply (enter_spec s3 l k vp x n); [| |done| |done|].
    - eapply yielded_inv_ext; [..|exact Hinv]; cbn; try done.
      rewrite Hns. cbn. by apply delete_insert_id.
    - rewrite Hns. apply lookup_insert_eq.
    - by rewrite Hpr.
    - by rewrite Hbk. }
  intros r s' (-> & Hinv' & Hsame & Hmaps & Hpb & Hprocs). split; [done|].
  rewrite Hns in Hsame. rewrite Hpr in Hprocs. cbn in Hprocs. split_and!.
  - done.
  - done.
  - pose proof (Hsame x) as Hpay. cbn [sget gmap_store] in Hpay. cbn in Hpay. rewrite lookup_insert_eq in Hpay. by rewrite Hpay.
  - intros p Hp. pose proof (Hsame p) as Hpay. cbn [sget gmap_store] in Hpay. cbn in Hpay.
    by rewrite lookup_insert_ne in Hpay.
  - intros j. rewrite Hprocs. destruct (decide (j = k)) as [->|Hjk].
    + rewrite list_lookup_insert_eq by (by eapply lookup_lt_Some). by rewrite Hk.
    + by rewrite list_lookup_insert_ne.
  - eapply window_frame; [|exact Hw]. eapply same_maps_trans; [|exact Hmaps].
    by apply (same_rest_maps s2).
  - exists c. eapply in_frames_ext; [|exact Hfr3]. intros b _. by rewrite Hpb.
  - intros b Hb. rewrite Hpb. by apply Hout.
Qed.

Lemma yieldblock_spec s l k vp i region v pgs a : yielded_inv s l -> procs s !! k = Some vp ->
  let bi := BlockId (vm_endpoint vp) i in
  avl_search bi (vm_yielded_blocks s (yielded_hash bi)) = None ->
  v mod VM_PAGE_SIZE = 0 -> a mod VM_PAGE_SIZE = 0 -> pgs <> [] ->
  window s k region v pgs -> in_frames s pgs (frames a (length pgs)) -> NoDup pgs.*2 ->
  wp (yieldblock k i v (Z.of_nat (length pgs))) s (fun r s' =>
    (r = ENOMEM /\ exists w, s' = with_world w s) \/
    (r = OK /\ exists x, yielded_as s s' l x bi k region v pgs a)).
Proof.
  intros Hinv Hk bi Hno Hv Ha Hne Hw Hfr Hnd. unfold yieldblock.
  apply wp_bind, (wp_get_proc _ _ vp); [done|]. apply wp_bind. eapply wp_done; [by apply get_yielded_avl_done, Hinv|].
  apply wp_bind. eapply wp_done; [apply yielded_search_done|].
  fold bi. rewrite Hno. rewrite decide_False by (by intros [? ?]).
  assert (Hlen : (0 < length pgs)%nat) by (destruct pgs; [done|cbn; lia]).
  rewrite decide_False by lia. rewrite Nat2Z.id. apply wp_bind. eapply wp_mono.
  { by apply (check_pages_spec pgs s k region v a None None). }
  intros r s' [-> ->]. destruct (last_page pgs Hne) as (p & b & Hlast & ->).
  destruct (slaballoc_ok s) as (o & w1 & Hslab & Hfresh). apply wp_bind. eapply wp_done; [exact Hslab|].
  destruct o as [x|]; [|apply wp_ret; left; split; [done|by exists w1]]. specialize (Hfresh x eq_refl).
  destruct (in_frames_aligned pgs s a p b Ha Hfr Hlast) as (c & Hc & Hcal).
  rewrite last_lookup in Hlast. destruct (in_window_pr _ _ _ _ _ _ _ _ Hw Hlast) as (q & Hq & Hqb).
  apply wp_bind, wp_bind. eapply wp_derefs; [done|]. apply wp_bind, (wp_get_pr _ _ q); [done|]. rewrite Hqb.
  apply (wp_get_pb _ _ c); [done|]. apply wp_bind, wp_asserts; [done|].
  destruct (alloc_mem_ok (with_world w1 s) (Z.of_nat (length pgs)) PAF_CLEAR) as (clk & w2 & Halloc).
  apply wp_bind. eapply wp_done; [exact Halloc|]. case_decide; [apply wp_ret; left; split; [done|by exists w2]|].
  destruct pgs as [|[p0 b0] pgs'] eqn:Hpgs; [done|]. rewrite <- Hpgs in *.
  assert (Hhead : fst <$> head pgs = Some p0) by (by subst). rewrite Hhead.
  destruct (in_window_pr _ _ _ _ _ 0%nat p0 b0 Hw ltac:(by subst)) as (q0 & Hq0 & Hqb0).
  assert (Hb0 : phys_blocks s !! b0 = Some (PhysBlock a 1)).
  { rewrite Hpgs in Hfr. inversion Hfr. done. }
  apply wp_bind, wp_bind. eapply wp_derefs; [done|]. apply wp_bind, (wp_get_pr _ _ q0); [done|]. rewrite Hqb0.
  apply (wp_get_pb _ _ (PhysBlock a 1)); [done|]. eapply wp_mono.
  { apply (yield_tail_spec (with_world w2 s) l k vp i region v pgs a (frames a (length pgs)) x); try done.
    - by eapply yielded_inv_ext; [..|exact Hinv].
    - by eapply window_frame; [|exact Hw]. }
  intros r s' [-> Hs']. right. split; [done|]. exists x. exact Hs'.
Qed.

Lemma getblock_spec s l1 x l2 k vp i region v pgs a fr : yielded_inv s (l1 ++ x :: l2) -> procs s !! k = Some vp ->
  let bi := BlockId (vm_endpoint vp) i in
  payload <$> nodes s !! x = Some (bi, a, Z.of_nat (length pgs)) ->
  window s k region v pgs -> in_frames s pgs fr -> NoDup pgs.*2 ->
  wp (getblock k i v (Z.of_nat (length pgs))) s (fun r s' => r = OK /\ yielded_inv s' (l1 ++ l2) /\
    (forall p, p <> x -> payload <$> nodes s' !! p = payload <$> nodes s !! p) /\
    (forall j, vm_endpoint <$> procs s' !! j = vm_endpoint <$> procs s !! j) /\
    window s' k region v pgs /\ in_frames s' pgs (frames a (length pgs)) /\
    forall b, b ∉ pgs.*2 -> phys_blocks s' !! b = phys_blocks s !! b).
Proof.
  intros Hinv Hk bi Hpay Hw Hfr Hnd. destruct (nodes s !! x) as [n|] eqn:Hn; [|done].
  unfold payload in Hpay. simpl in Hpay. injection Hpay as Hid Hpa Hpg.
  unfold getblock. apply wp_bind, (wp_get_proc _ _ vp); [done|].
  apply wp_bind. eapply wp_done; [by apply get_yielded_avl_done, Hinv|].
  apply wp_bind. eapply wp_done; [apply yielded_search_done|]. fold bi. rewrite <- Hid, (yi_found _ _ Hinv x n Hn).
  apply wp_bind. eapply wp_done; [by apply get_node_done|]. rewrite Hpg. rewrite decide_False by (intros Hne; by apply Hne).
  rewrite Hpa, Nat2Z.id. apply wp_bind. eapply wp_mono; [by apply (get_pages_spec pgs s k region v a fr)|].
  intros r s1 (-> & Hrest & Hfr1 & Hout). pose proof Hrest as (_ & _ & Hpr & Hns & Hbk & Hy & Ho & Hin).
  apply wp_bind. eapply wp_mono.
  { apply (freeyieldednode_spec s1 l1 x l2 n false); [by eapply yielded_inv_ext; [..|exact Hinv]|by rewrite Hns]. }
  intros r s' (_ & Hinv' & Hpay' & _ & Hreg & Hprs & Hpb & Hprocs). apply wp_ret.
  split; [done|]. split; [done|]. split; [intros p Hp; rewrite Hpay' by done; by rewrite Hns|].
  split; [intros j; destruct (Hprocs j) as [_ ->]; by rewrite Hpr|]. split; [|split].
  - eapply window_frame; [|exact Hw]. eapply same_maps_trans; [by apply same_rest_maps|].
    split_and!; [done..|]. intros j. apply Hprocs.
  - eapply in_frames_ext; [|exact Hfr1]. intros b _. by rewrite Hpb.
  - intros b Hb. rewrite Hpb. by apply Hout.
Qed.
End yieldblock.
