(* ===== verification/RegionFree.v ===== *)
(** * Freeing regions: [map_subfree], [map_free], [map_free_proc] ([region.c])

    A physical block counts the pages that refer to it and goes with the last of
    them.  Freeing a region frees its pages and takes one reference for each. *)
From S2P Require Import Prelude StateM DList Avl Region RegionOps RegionSlot RegionUnmap Yielded YieldedInv.
Open Scope Z_scope.

(** ** References to blocks *)

Definition one_more (b : phys_block) : phys_block := PhysBlock (phys b) (refcount b + 1).

(** A block loses a reference, the last one with the block. *)
Definition drop_ref (b : nat) (m : gmap nat phys_block) : gmap nat phys_block :=
  match m !! b with
  | Some blk => if decide (refcount blk = 1) then delete b m else <[b := PhysBlock (phys blk) (refcount blk - 1)]> m
  | None => m
  end.

Definition bump (bs : list nat) (m : gmap nat phys_block) : gmap nat phys_block :=
  foldl (fun m b => alter one_more b m) m bs.
Definition unbump (bs : list nat) (m : gmap nat phys_block) : gmap nat phys_block :=
  foldl (fun m b => drop_ref b m) m bs.

(** How often [b] is in a list of references. *)
Definition uses (b : nat) (bs : list nat) : Z := Z.of_nat (length (filter (fun x => x = b) bs)).

Lemma uses_cons b x bs : uses b (x :: bs) = (if decide (x = b) then 1 else 0) + uses b bs.
Proof. unfold uses. rewrite filter_cons. case_decide; cbn [length]; lia. Qed.

Lemma uses_app b bs1 bs2 : uses b (bs1 ++ bs2) = uses b bs1 + uses b bs2.
Proof. unfold uses. rewrite filter_app, length_app. lia. Qed.

Lemma uses_nonneg b bs : 0 <= uses b bs.
Proof. unfold uses. lia. Qed.

Lemma uses_pos b bs : b ∈ bs -> 0 < uses b bs.
Proof. intros (bs1 & bs2 & ->)%list_elem_of_split. rewrite uses_app, uses_cons, decide_True by done. pose proof (uses_nonneg b bs1). pose proof (uses_nonneg b bs2). lia. Qed.

Lemma uses_none b bs : b ∉ bs -> uses b bs = 0.
Proof.
  intros Hb. unfold uses. rewrite filter_none; [done|]. apply Forall_forall. by intros x Hx ->.
Qed.

Lemma uses_perm b bs bs' : bs ≡ₚ bs' -> uses b bs = uses b bs'.
Proof. intros Hp. unfold uses. by rewrite Hp. Qed.

Lemma bump_lookup bs m b :
  bump bs m !! b = (fun blk => PhysBlock (phys blk) (refcount blk + uses b bs)) <$> m !! b.
Proof.
  revert m. induction bs as [|x bs IH]; intros m; cbn.
  - destruct (m !! b) as [[]|]; cbn; [|done]. unfold uses. cbn. by rewrite Z.add_0_r.
  - change (foldl _ _ bs) with (bump bs (alter one_more x m)). rewrite IH, uses_cons, lookup_alter. case_decide as Hx.
    + subst. destruct (m !! b) as [[]|]; cbn; [|done]. f_equal. f_equal. lia.
    + destruct (m !! b) as [[]|]; cbn; [|done]. f_equal.
Qed.

Lemma bump_app bs1 bs2 m : bump (bs1 ++ bs2) m = bump bs2 (bump bs1 m).
Proof. apply foldl_app. Qed.

Lemma unbump_app bs1 bs2 m : unbump (bs1 ++ bs2) m = unbump bs2 (unbump bs1 m).
Proof. apply foldl_app. Qed.

(** The blocks have the references [bs]. *)
Definition counted (bs : list nat) (m : gmap nat phys_block) : Prop :=
  forall b, b ∈ bs -> exists blk, m !! b = Some blk /\ uses b bs <= refcount blk.

Lemma drop_ref_lookup b c m : drop_ref b m !! c =
  if decide (b = c) then
    m !! c ≫= fun blk => if decide (refcount blk = 1) then None else Some (PhysBlock (phys blk) (refcount blk - 1))
  else m !! c.
Proof.
  unfold drop_ref. case_decide as Hd.
  - subst. destruct (m !! c) as [blk|] eqn:E; [|done]. cbn. case_decide; [apply lookup_delete_eq|apply lookup_insert_eq].
  - destruct (m !! b) as [blk|]; [|done]. case_decide; [by apply lookup_delete_ne|by apply lookup_insert_ne].
Qed.

Lemma counted_cons b bs m : counted (b :: bs) m -> (exists blk, m !! b = Some blk /\ 0 < refcount blk) /\ counted bs (drop_ref b m).
Proof.
  intros Hc. destruct (Hc b) as (blk & Hb & Hu); [by left|]. rewrite uses_cons, decide_True in Hu by done.
  pose proof (uses_nonneg b bs). split; [exists blk; split; [done|lia]|].
  intros c Hin. rewrite drop_ref_lookup. destruct (Hc c) as (blk' & Hc' & Hu'); [by right|]. rewrite uses_cons in Hu'.
  case_decide as Hd; [|by exists blk'].
  subst c. rewrite Hb in Hc'. injection Hc' as <-. rewrite Hb. cbn.
  assert (0 < uses b bs).
  { unfold uses. assert (b ∈ filter (fun x => x = b) bs) as Hf by by apply list_elem_of_filter.
    destruct (filter _ bs); [by apply elem_of_nil in Hf|cbn; lia]. }
  rewrite decide_False by lia. eexists. split; [done|]. cbn. lia.
Qed.

Lemma counted_app bs1 bs2 m : counted (bs1 ++ bs2) m -> counted bs1 m /\ counted bs2 (unbump bs1 m).
Proof.
  intros Hc. split.
  - intros b Hb. destruct (Hc b) as (blk & Hlk & Hu); [by apply elem_of_app; left|]. exists blk. split; [done|].
    rewrite uses_app in Hu. pose proof (uses_nonneg b bs2). lia.
  - revert m Hc. induction bs1 as [|x bs1 IH]; intros m Hc; [done|]. cbn. apply IH. by apply counted_cons.
Qed.

Lemma counted_perm bs bs' m : bs ≡ₚ bs' -> counted bs m -> counted bs' m.
Proof.
  intros Hp Hc b Hb. destruct (Hc b) as (blk & Hlk & Hu); [by rewrite Hp|]. exists blk. by rewrite <- (uses_perm _ _ _ Hp).
Qed.

Lemma unbump_lookup bs m b : counted bs m -> unbump bs m !! b =
  if decide (b ∈ bs) then
    m !! b ≫= fun blk => if decide (refcount blk = uses b bs) then None else Some (PhysBlock (phys blk) (refcount blk - uses b bs))
  else m !! b.
Proof.
  revert m. induction bs as [|x bs IH]; intros m Hc; cbn; [by rewrite decide_False by apply not_elem_of_nil|].
  apply counted_cons in Hc as [(blk & Hx & Hpos) Hc]. change (foldl _ _ bs) with (unbump bs (drop_ref x m)).
  rewrite (IH _ Hc), drop_ref_lookup, uses_cons. destruct (decide (x = b)) as [->|Hne].
  - rewrite (decide_True (P := b ∈ b :: bs)) by by left. rewrite Hx. cbn.
    destruct (decide (refcount blk = 1)) as [H1|H1].
    + assert (Hb : b ∉ bs).
      { intros Hb. destruct (Hc b Hb) as (blk' & Hlk & _). rewrite drop_ref_lookup, decide_True, Hx in Hlk by done. cbn in Hlk.
        by rewrite decide_True in Hlk. }
      rewrite decide_False by done. by rewrite decide_True by (rewrite (uses_none _ _ Hb); lia).
    + case_decide as Hb; cbn.
      * destruct (decide (refcount blk - 1 = uses b bs)); [by rewrite decide_True by lia|].
        rewrite decide_False by lia. do 2 f_equal. lia.
      * rewrite (uses_none _ _ Hb), decide_False by lia. do 2 f_equal.
  - destruct (decide (b ∈ bs)) as [Hb|Hb].
    + rewrite decide_True by by right. done.
    + rewrite decide_False; [done|]. by intros [->|?]%elem_of_cons.
Qed.

Lemma unbump_perm bs bs' m : bs ≡ₚ bs' -> counted bs m -> unbump bs m = unbump bs' m.
Proof.
  intros Hp Hc. apply map_eq. intros b. rewrite !unbump_lookup by (done || by eapply counted_perm).
  rewrite (uses_perm _ _ _ Hp). destruct (decide (b ∈ bs)) as [Hb|Hb].
  - rewrite decide_True by by rewrite <- Hp. done.
  - rewrite decide_False by by rewrite <- Hp. done.
Qed.

(** Taking references back gives the blocks that were there. *)
Lemma unbump_bump bs m : (forall b, b ∈ bs -> exists blk, m !! b = Some blk /\ 0 < refcount blk) -> unbump bs (bump bs m) = m.
Proof.
  intros Hm. apply map_eq. intros b. rewrite unbump_lookup.
  - rewrite bump_lookup. case_decide as Hb.
    + destruct (Hm b Hb) as ([a c] & -> & Hpos). cbn in *. rewrite decide_False by lia. do 2 f_equal. lia.
    + rewrite (uses_none _ _ Hb). destruct (m !! b) as [[]|]; cbn; [|done]. by rewrite Z.add_0_r.
  - intros c Hc. destruct (Hm c Hc) as (blk & Hlk & Hpos). rewrite bump_lookup, Hlk. eexists. split; [done|]. cbn. lia.
Qed.

(** Objects leave the heap. *)
Definition forget {A} (ps : list nat) (m : gmap nat A) : gmap nat A := foldl (fun m p => delete p m) m ps.

Lemma forget_lookup {A} ps (m : gmap nat A) p : forget ps m !! p = if decide (p ∈ ps) then None else m !! p.
Proof.
  revert m. induction ps as [|q ps IH]; intros m; cbn; [by rewrite decide_False by apply not_elem_of_nil|].
  change (foldl _ _ ps) with (forget ps (delete q m)). rewrite IH. destruct (decide (p ∈ ps)) as [Hp|Hp].
  - by rewrite decide_True by by right.
  - destruct (decide (p = q)) as [->|Hne].
    + rewrite lookup_delete_eq, decide_True by by left. done.
    + rewrite lookup_delete_ne by done. rewrite decide_False; [done|]. by intros [->|?]%elem_of_cons.
Qed.

Lemma forget_app {A} ps qs (m : gmap nat A) : forget (ps ++ qs) m = forget qs (forget ps m).
Proof. apply foldl_app. Qed.

Lemma forget_perm {A} ps qs (m : gmap nat A) : ps ≡ₚ qs -> forget ps m = forget qs m.
Proof.
  intros Hp. apply map_eq. intros p. rewrite !forget_lookup. destruct (decide (p ∈ ps)) as [Hin|Hin].
  - by rewrite decide_True by by rewrite <- Hp.
  - by rewrite decide_False by by rewrite <- Hp.
Qed.

(** ** The rest of the server *)

(** [pb_unreferenced] takes a page from its region and its block a reference, and
    frees the block with the last one; the [phys_region] is left to the caller.
    A memory type that has its own [ev_delete] keeps its own data only. *)
Class UnrefOk (W RT YT : Type) `{!VmServer W RT YT} := {
  unref_ok : forall (s : vm W RT YT) region p r q i blk,
    regions s !! region = Some r -> phys_regions s !! p = Some q ->
    offset q = Z.of_nat i * VM_PAGE_SIZE -> physblocks r !! i = Some (Some p) ->
    phys_blocks s !! ph q = Some blk -> 0 < refcount blk ->
    exists w q', pb_unreferenced region p true s = Done (tt,
      with_world w (with_regions (<[region := drop_page i r]> (regions s))
        (with_phys_regions (<[p := q']> (phys_regions s))
          (with_phys_blocks (drop_ref (ph q) (phys_blocks s)) s))));
  ev_delete_ok : forall m f, ev_delete (mem_types m) = Some f ->
    forall p (s : vm W RT YT), exists w, f p s = Done (tt, with_world w s)
}.

Section free.
Context {W RT YT : Type} `{!Avl Z nat RT} `{!AvlOk Z nat RT} `{!VmHdr} `{!VmServer W RT YT}.
Implicit Types (s : vm W RT YT) (l : list (nat * vir_region)).

(** The pages present among the first [n] of a region, and their blocks. *)
Definition page_ptrs (n : nat) (r : vir_region) : list nat := omap (fun o : option nat => o) (take n (physblocks r)).
Definition refs s (n : nat) (r : vir_region) : list nat :=
  omap (fun o : option nat => o ≫= fun p => ph <$> phys_regions s !! p) (take n (physblocks r)).

Lemma refs_snoc s n r o : physblocks r !! n = Some o ->
  refs s (S n) r = refs s n r ++ match o ≫= fun p => ph <$> phys_regions s !! p with Some b => [b] | None => [] end.
Proof.
  intros Ho. unfold refs. rewrite (take_S_r _ _ _ Ho), omap_app. cbn. by destruct (o ≫= _).
Qed.

Lemma page_ptrs_snoc n r o : physblocks r !! n = Some o -> page_ptrs (S n) r = page_ptrs n r ++ option_list o.
Proof. intros Ho. unfold page_ptrs. rewrite (take_S_r _ _ _ Ho), omap_app. cbn. by destruct o. Qed.

Lemma elem_of_page_ptrs n r p : p ∈ page_ptrs n r <-> exists i, (i < n)%nat /\ physblocks r !! i = Some (Some p).
Proof.
  unfold page_ptrs. rewrite list_elem_of_omap. split.
  - intros (o & (i & Hi & Hlt)%elem_of_take & ->). by exists i.
  - intros (i & Hlt & Hi). exists (Some p). split; [|done]. apply elem_of_take. by exists i.
Qed.

Lemma refs_ext s s' n r : (forall p, p ∈ page_ptrs n r -> phys_regions s' !! p = phys_regions s !! p) -> refs s' n r = refs s n r.
Proof.
  unfold refs, page_ptrs. generalize (take n (physblocks r)) as os. induction os as [|[p|] os IH]; cbn; [done| |done].
  intros Hp. rewrite (Hp p) by by left. rewrite IH by (intros q Hq; apply Hp; by right). done.
Qed.

Lemma n_pages_nodup s r n : n_pages s r n -> NoDup (page_ptrs n r).
Proof.
  intros Hn. assert (Hk : forall k, (k <= n)%nat -> NoDup (page_ptrs k r)); [|by apply Hk].
  induction k as [|k IH]; intros Hk; [constructor|]. assert (Hn' := Hn). destruct Hn' as (_ & Hlb & _).
  destruct (lookup_lt_is_Some_2 (physblocks r) k) as [o Ho]; [lia|]. rewrite (page_ptrs_snoc _ _ _ Ho).
  destruct o as [p|]; cbn; [|rewrite app_nil_r; apply IH; lia]. apply NoDup_app. split; [apply IH; lia|]. split; [|apply NoDup_singleton].
  intros p' (i & Hi & Hip)%elem_of_page_ptrs ->%list_elem_of_singleton.
  pose proof (n_pages_inj s r n i k p Hn ltac:(lia) ltac:(lia) Hip Ho). lia.
Qed.

(** Absent pages at the end. *)
Lemma absent_tail s k n r : (forall i, (k <= i < n)%nat -> physblocks r !! i = Some None) -> (k <= n)%nat ->
  page_ptrs n r = page_ptrs k r /\ refs s n r = refs s k r.
Proof.
  intros Hno. induction n as [|n IH]; intros Hk; [by replace k with O by lia|].
  destruct (decide (k = S n)) as [->|]; [done|]. assert (Ho := Hno n ltac:(lia)).
  rewrite (page_ptrs_snoc _ _ _ Ho), (refs_snoc _ _ _ _ Ho). cbn. rewrite !app_nil_r. apply IH; [intros i Hi; apply Hno; lia|lia].
Qed.

(** [n] pages, which the blocks count. *)
Definition freeable s (n : nat) (r : vir_region) : Prop :=
  n_pages s r n /\ vr_length r < 2 ^ 32 /\ counted (refs s n r) (phys_blocks s).

(** The heap without the first [k] pages of a region. *)
Definition freed s region (r : vir_region) (k : nat) (w : W) : vm W RT YT :=
  with_world w (with_regions (<[region := cleared 0 k r]> (regions s))
    (with_phys_regions (forget (page_ptrs k r) (phys_regions s))
      (with_phys_blocks (unbump (refs s k r) (phys_blocks s)) s))).

Lemma vm_ext s s' : world s = world s' -> regions s = regions s' -> phys_regions s = phys_regions s' ->
  phys_blocks s = phys_blocks s' -> procs s = procs s' -> nodes s = nodes s' ->
  vm_yielded_blocks s = vm_yielded_blocks s' -> lru_youngest s = lru_youngest s' -> lru_oldest s = lru_oldest s' ->
  next_id s = next_id s' -> avl_inited s = avl_inited s' -> s = s'.
Proof. destruct s, s'. cbn. by intros -> -> -> -> -> -> -> -> -> -> ->. Qed.

Lemma freed_zero s region r : regions s !! region = Some r -> freed s region r 0 (world s) = s.
Proof. intros Hr. unfold freed. rewrite cleared_none. cbn. rewrite insert_id by done. by destruct s. Qed.

Lemma freed_absent s region r k w : physblocks r !! k = Some None -> freed s region r (S k) w = freed s region r k w.
Proof.
  intros Ho. unfold freed. rewrite (page_ptrs_snoc _ _ _ Ho), (refs_snoc _ _ _ _ Ho), cleared_same by (done || lia).
  cbn. by rewrite !app_nil_r.
Qed.

Lemma counted_prefix s k n r : counted (refs s n r) (phys_blocks s) -> (k <= n)%nat ->
  exists rest, refs s n r = refs s k r ++ rest /\ counted rest (unbump (refs s k r) (phys_blocks s)).
Proof.
  intros Hc Hk. exists (omap (fun o : option nat => o ≫= fun p => ph <$> phys_regions s !! p) (drop k (take n (physblocks r)))).
  assert (E : refs s n r = refs s k r ++ omap (fun o : option nat => o ≫= fun p => ph <$> phys_regions s !! p) (drop k (take n (physblocks r)))).
  { unfold refs. rewrite <- omap_app, <- (take_drop k (take n (physblocks r))) at 1. by rewrite take_take, Nat.min_l by lia. }
  split; [exact E|]. rewrite E in Hc. by apply counted_app.
Qed.

(** A page that is still there. *)
Lemma freed_page s region r n k w p q : n_pages s r n -> (k < n)%nat -> physblocks r !! k = Some (Some p) ->
  phys_regions s !! p = Some q -> phys_regions (freed s region r k w) !! p = Some q.
Proof.
  intros Hn Hk Hp Hq. cbn. rewrite forget_lookup, decide_False; [done|].
  intros (i & Hi & Hip)%elem_of_page_ptrs. pose proof (n_pages_inj s r n i k p Hn ltac:(lia) Hk Hip Hp). lia.
Qed.

Context `{!UnrefOk W RT YT}.

Lemma subfree_exact s region r n : regions s !! region = Some r -> freeable s n r ->
  wp (map_subfree region 0 (vr_length r)) s (fun x s' => x = OK /\ exists w, s' = freed s region r n w).
Proof.
  intros Hr (Hn & Hlen & Hc). assert (Hn' := Hn). destruct Hn' as (Hl & Hlb & Hoff). unfold map_subfree. rewrite Hl in *.
  replace (u32 (0 + Z.of_nat n * VM_PAGE_SIZE)) with (Z.of_nat n * VM_PAGE_SIZE) by (unfold VM_PAGE_SIZE in *; rewrite u32_small; lia).
  change 0 with (Z.of_nat 0 * VM_PAGE_SIZE) at 1 2 3. apply wp_bind. eapply wp_mono.
  { apply (wp_for_pages (fun k s' => exists w, s' = freed s region r k w) _ _ n); [done|done| |lia|apply (page_fuel_enough 0 n); lia|].
    - intros k s' Hk [w ->]. destruct (lookup_lt_is_Some_2 (physblocks r) k) as [o Ho]; [lia|].
      assert (Hcl : physblocks (cleared 0 k r) !! k = Some o) by (rewrite cleared_lookup, Ho; cbn; by rewrite decide_False by lia).
      assert (Hreg : regions (freed s region r k w) !! region = Some (cleared 0 k r)) by apply lookup_insert_eq.
      apply wp_bind. eapply wp_done.
      { eapply (physblock_get_one _ _ (cleared 0 k r) n); [done|done|done|exact Hcl|]. intros p ->.
        destruct (Hoff k p Hk Ho) as (q & Hq & Hqo). exists q. split; [by eapply freed_page|done]. }
      destruct o as [p|]; [|apply wp_ret; split; [done|exists w; by rewrite freed_absent]].
      destruct (Hoff k p Hk Ho) as (q & Hq & Hqo). assert (Hq' := freed_page s region r n k w p q Hn Hk Ho Hq).
      destruct (counted_prefix s (S k) n r Hc ltac:(lia)) as (rest & Erest & _).
      destruct (counted_prefix s k (S k) r) as (rest' & Erest' & Hc'); [|lia|].
      { rewrite Erest in Hc. by apply counted_app in Hc as [Hc _]. }
      rewrite (refs_snoc _ _ _ _ Ho) in Erest'. cbn in Erest'. rewrite Hq in Erest'. cbn in Erest'. apply app_inv_head in Erest' as <-.
      apply counted_cons in Hc' as [(blk & Hblk & Hpos) _].
      apply wp_bind, (wp_get_pr _ _ q); [done|]. rewrite Hqo.
      apply wp_bind, wp_asserts; [unfold VM_PAGE_SIZE; lia|]. apply wp_bind, wp_asserts; [unfold VM_PAGE_SIZE; lia|].
      destruct (unref_ok _ region p _ q k blk Hreg Hq' Hqo Hcl Hblk Hpos) as (w' & q' & E).
      apply wp_bind. eapply wp_done; [exact E|]. apply wp_bind, wp_modify, wp_ret. split; [done|]. exists w'.
      apply vm_ext; [reflexivity| | | |reflexivity..]; cbn [regions phys_regions phys_blocks freed with_world
        with_regions with_phys_regions with_phys_blocks].
      + by rewrite insert_insert_eq, cleared_drop by lia.
      + by rewrite delete_insert_eq, (page_ptrs_snoc _ _ _ Ho), forget_app.
      + rewrite (refs_snoc _ _ _ _ Ho), unbump_app. cbn [mbind option_bind]. by rewrite Hq.
    - exists (world s). by rewrite freed_zero. }
  intros x s' [-> Hw]. by apply wp_ret.
Qed.

(** The heap without a region. *)
Definition dropped s region (r : vir_region) (n : nat) (w : W) : vm W RT YT :=
  with_world w (with_regions (delete region (regions s))
    (with_phys_regions (forget (page_ptrs n r) (phys_regions s))
      (with_phys_blocks (unbump (refs s n r) (phys_blocks s)) s))).

Lemma map_free_exact s region r n : regions s !! region = Some r -> freeable s n r ->
  wp (map_free region) s (fun x s' => x = OK /\ exists w, s' = dropped s region r n w).
Proof.
  intros Hr Hf. unfold map_free. apply wp_bind, (wp_get_vr _ _ r); [done|].
  apply wp_bind. eapply wp_mono; [by apply subfree_exact|]. intros x s1 [-> [w ->]]. rewrite decide_False by tauto.
  apply wp_bind. unfold mem_type_of. apply wp_bind, (wp_get_vr _ _ (cleared 0 n r)); [apply lookup_insert_eq|].
  apply wp_ret, wp_bind. change (memtype (cleared 0 n r)) with (memtype r).
  apply (wp_mono _ _ (fun _ s' => exists w', s' = freed s region r n w')).
  { destruct (ev_delete _) as [f|] eqn:E; [|by apply wp_ret; exists w].
    destruct (ev_delete_ok _ _ E region (freed s region r n w)) as [w' Hf']. eapply wp_done; [exact Hf'|]. by exists w'. }
  intros [] s2 [w' ->]. apply wp_bind, wp_modify, wp_ret. split; [done|]. exists w'.
  apply vm_ext; try reflexivity. apply delete_insert_eq.
Qed.

(** ** All regions of a process *)

Definition npages (r : vir_region) : nat := Z.to_nat (vr_length r / VM_PAGE_SIZE).

Lemma npages_eq s n r : n_pages s r n -> npages r = n.
Proof. intros (Hl & _). unfold npages. by rewrite Hl, Z.div_mul, Nat2Z.id by done. Qed.

(** The pages of a list of regions, and their references. *)
Definition all_ptrs l : list nat := l ≫= fun x => page_ptrs (npages x.2) x.2.
Definition all_refs s l : list nat := l ≫= fun x => refs s (npages x.2) x.2.

Lemma all_refs_app s l1 l2 : all_refs s (l1 ++ l2) = all_refs s l1 ++ all_refs s l2.
Proof. apply bind_app. Qed.
Lemma all_refs_one s x : all_refs s [x] = refs s (npages x.2) x.2.
Proof. unfold all_refs. cbn. apply app_nil_r. Qed.
Lemma all_ptrs_app l1 l2 : all_ptrs (l1 ++ l2) = all_ptrs l1 ++ all_ptrs l2.
Proof. apply bind_app. Qed.
Lemma all_ptrs_one x : all_ptrs [x] = page_ptrs (npages x.2) x.2.
Proof. unfold all_ptrs. cbn. apply app_nil_r. Qed.
Lemma all_refs_perm s l l' : l ≡ₚ l' -> all_refs s l ≡ₚ all_refs s l'.
Proof. intros Hp. unfold all_refs. by rewrite Hp. Qed.
Lemma all_ptrs_perm l l' : l ≡ₚ l' -> all_ptrs l ≡ₚ all_ptrs l'.
Proof. intros Hp. unfold all_ptrs. by rewrite Hp. Qed.

Record freeable_all s l : Prop := FreeableAll {
  fl_regions : forall x, x ∈ l -> regions s !! x.1 = Some x.2;
  fl_distinct : NoDup l.*1;
  fl_pages : forall x, x ∈ l -> n_pages s x.2 (npages x.2) /\ vr_length x.2 < 2 ^ 32;
  fl_counted : counted (all_refs s l) (phys_blocks s);
  fl_apart : NoDup (all_ptrs l)
}.

Lemma freeable_all_perm s l l' : l ≡ₚ l' -> freeable_all s l -> freeable_all s l'.
Proof.
  intros Hp [H1 H2 H3 H4 H5]. split.
  - intros x Hx. apply H1. by rewrite Hp.
  - by rewrite <- Hp.
  - intros x Hx. apply H3. by rewrite Hp.
  - eapply counted_perm; [by apply all_refs_perm|done].
  - by rewrite <- (all_ptrs_perm _ _ Hp).
Qed.

(** The heap without the regions [l], and a process with another tree. *)
Definition without s vmp vp (t : RT) l (w : W) : vm W RT YT :=
  with_world w (with_procs (<[vmp := with_tree t vp]> (procs s)) (with_regions (forget l.*1 (regions s))
    (with_phys_regions (forget (all_ptrs l) (phys_regions s))
      (with_phys_blocks (unbump (all_refs s l) (phys_blocks s)) s)))).

Lemma without_freeable s vmp vp t l1 x l2 w : freeable_all s (l1 ++ x :: l2) ->
  regions (without s vmp vp t l1 w) !! x.1 = Some x.2 /\ freeable (without s vmp vp t l1 w) (npages x.2) x.2 /\
  refs (without s vmp vp t l1 w) (npages x.2) x.2 = refs s (npages x.2) x.2.
Proof.
  intros [H1 H2 H3 H4 H5]. assert (Hx : x ∈ l1 ++ x :: l2) by (apply elem_of_app; right; by left).
  assert (Hp : forall p, p ∈ page_ptrs (npages x.2) x.2 -> phys_regions (without s vmp vp t l1 w) !! p = phys_regions s !! p).
  { intros p Hp. cbn. rewrite forget_lookup, decide_False; [done|]. rewrite all_ptrs_app in H5.
    apply NoDup_app in H5 as (_ & H5 & _). intros Hin. apply (H5 _ Hin). unfold all_ptrs. cbn. apply elem_of_app. by left. }
  assert (Hrefs := refs_ext _ _ _ _ Hp). destruct (H3 x Hx) as [(Hl & Hlb & Hoff) Hlt]. split; [|split; [|done]].
  - cbn. rewrite forget_lookup, decide_False; [by apply H1|]. rewrite fmap_app in H2. apply NoDup_app in H2 as (_ & H2 & _).
    intros Hin. apply (H2 _ Hin). by left.
  - split; [|split; [done|]].
    + split; [done|]. split; [done|]. intros i p Hi Hip. rewrite Hp; [by apply Hoff|]. apply elem_of_page_ptrs. by exists i.
    + rewrite Hrefs. rewrite all_refs_app in H4. apply counted_app in H4 as [_ H4]. cbn.
      change (all_refs s (x :: l2)) with (refs s (npages x.2) x.2 ++ all_refs s l2) in H4. by apply counted_app in H4 as [H4 _].
Qed.

(** One more region is freed. *)
Lemma without_step s vmp vp t l1 x l2 w w' : freeable_all s (l1 ++ x :: l2) ->
  dropped (without s vmp vp t l1 w) x.1 x.2 (npages x.2) w' = without s vmp vp t (l1 ++ [x]) w'.
Proof.
  intros Hf. destruct (without_freeable s vmp vp t l1 x l2 w Hf) as (_ & _ & Hrefs).
  apply vm_ext; [reflexivity| | | |reflexivity..].
  - cbn [regions dropped without with_world with_regions with_phys_regions with_phys_blocks with_procs].
    by rewrite fmap_app, forget_app.
  - cbn [phys_regions dropped without with_world with_regions with_phys_regions with_phys_blocks with_procs].
    by rewrite all_ptrs_app, forget_app, all_ptrs_one.
  - unfold dropped. cbn [phys_blocks with_world with_regions with_phys_regions with_phys_blocks]. rewrite Hrefs.
    cbn [phys_blocks without with_world with_regions with_phys_regions with_phys_blocks with_procs].
    by rewrite all_refs_app, unbump_app, all_refs_one.
Qed.

Lemma free_regions_spec s vmp vp l : procs s !! vmp = Some vp -> freeable_all s l ->
  forall rest lf t w fuel, l ≡ₚ lf ++ rest -> avl_elems t = entry <$> rest -> (length rest < fuel)%nat ->
  wp (free_regions fuel vmp) (without s vmp vp t lf w) (fun _ s' => exists t' w', avl_elems t' = [] /\ s' = without s vmp vp t' l w').
Proof.
  intros Hvp Hf rest. remember (length rest) as n eqn:En. revert rest En.
  induction n as [|n IH]; intros rest En lf t w [|fuel] Hp Hel Hfu; try lia; cbn [free_regions].
  all: assert (Hlt : (vmp < length (procs s))%nat) by (by eapply lookup_lt_Some).
  all: apply wp_bind, (wp_get_tree _ _ (with_tree t vp)); [by apply list_lookup_insert_eq|]; cbn [vm_regions_avl with_tree].
  all: pose proof (avl_root_elem t) as Hroot; destruct (avl_root t) as [[k p]|].
  - rewrite Hel in Hroot. destruct rest; [by apply elem_of_nil in Hroot|done].
  - apply wp_ret. exists t, w. split; [done|]. destruct rest; [|done]. rewrite app_nil_r in Hp.
    unfold without. rewrite (forget_perm _ _ (regions s) (fmap_Permutation fst _ _ Hp)), (forget_perm _ _ _ (all_ptrs_perm _ _ Hp)).
    by rewrite (unbump_perm _ _ _ (all_refs_perm s _ _ Hp)) by apply Hf.
  - rewrite Hel in Hroot. apply list_elem_of_fmap in Hroot as ([p' r] & [= -> ->] & Hin).
    apply list_elem_of_split in Hin as (r1 & r2 & ->). cbn [fst snd] in *.
    assert (Hp' : l ≡ₚ (lf ++ [(p', r)]) ++ (r1 ++ r2)) by (rewrite Hp; solve_Permutation).
    assert (Hf' : freeable_all s (lf ++ (p', r) :: (r1 ++ r2))).
    { eapply freeable_all_perm; [|exact Hf]. by rewrite Hp', <- app_assoc. }
    destruct (without_freeable s vmp vp t lf (p', r) _ w Hf') as (Hr & _ & _). cbn [fst snd] in Hr.
    apply wp_bind, (wp_get_vr _ _ r); [done|].
    apply wp_bind, (wp_put_tree _ _ (with_tree t vp)); [by apply list_lookup_insert_eq|].
    assert (E : with_procs (<[vmp := with_tree (avl_remove (vaddr r) t) (with_tree t vp)]> (procs (without s vmp vp t lf w)))
      (without s vmp vp t lf w) = without s vmp vp (avl_remove (vaddr r) t) lf w).
    { apply vm_ext; try reflexivity. cbn. by rewrite list_insert_insert_eq. }
    rewrite E. destruct (without_freeable s vmp vp (avl_remove (vaddr r) t) lf (p', r) _ w Hf') as (Hr' & Hfr & _).
    apply wp_bind. eapply wp_mono; [by apply (map_free_exact _ p' r (npages r))|]. intros x s1 [_ [w' ->]].
    rewrite (without_step s vmp vp _ lf (p', r) _ w w' Hf'). apply (IH (r1 ++ r2)); [|done| |].
    + rewrite length_app in *. cbn in En. lia.
    + rewrite avl_remove_elems, Hel, fmap_app, fmap_cons, fmap_app. apply (list_del_at (vaddr r) p').
      pose proof (avl_ordered t) as Hord. by rewrite Hel, fmap_app, fmap_cons in Hord.
    + lia.
  - rewrite Hel in Hroot. by destruct rest.
Qed.

(** [map_free_proc] frees the regions and then does what [free_yielded_proc] does. *)
Lemma map_free_proc_rule {A} (free : nat -> M W RT YT A) s vmp vp l (Q : Z -> vm W RT YT -> Prop) :
  procs s !! vmp = Some vp -> avl_elems (vm_regions_avl vp) = entry <$> l -> freeable_all s l ->
  (forall w, wp (free vmp) (without s vmp vp avl_empty l w) (fun _ s' => Q OK s')) ->
  wp (map_free_proc free vmp) s Q.
Proof.
  intros Hvp Hel Hf HQ. unfold map_free_proc. apply wp_bind, (wp_get_tree _ _ vp); [done|].
  assert (E : s = without s vmp vp (vm_regions_avl vp) [] (world s)).
  { unfold without. cbn. rewrite list_insert_id by (by destruct vp). by destruct s. }
  apply wp_bind. rewrite E at 1. eapply wp_mono.
  { apply (free_regions_spec s vmp vp l Hvp Hf l []); [done|done|]. rewrite Hel, length_fmap. lia. }
  intros [] s1 (t & w & Ht & ->).
  apply wp_bind, (wp_put_tree _ _ (with_tree t vp)); [apply list_lookup_insert_eq; by eapply lookup_lt_Some|].
  match goal with |- wp _ ?x _ => assert (Ex : x = without s vmp vp avl_empty l w) end.
  { apply vm_ext; try reflexivity. cbn. by rewrite list_insert_insert_eq. }
  rewrite Ex. apply wp_bind. eapply wp_mono; [apply HQ|]. intros a s2 H2. by apply wp_ret.
Qed.
End free.
