(* ===== verification/RegionFork.v ===== *)
(** * Copying the regions of a process ([region.c], [map_proc_copy])

    A forked process gets a copy of each region of its parent, whose pages refer
    to the physical blocks of the parent; the blocks count the new references. *)
From S2P Require Import Prelude StateM DList Avl Region RegionOps RegionSlot RegionUnmap Yielded YieldedInv YieldBlock RegionFree.
Open Scope Z_scope.

(** ** The rest of the server while there is memory *)

(** Page [i] of a region that is given the [phys_region] [p]. *)
Definition give_page (i : nat) (p : nat) (r : vir_region) : vir_region :=
  with_physblocks (<[i := Some p]> (physblocks r)) r.

(** The allocators find unused objects; [pb_reference] allocates a [phys_region]
    for a block, counts it and enters it at its page, which must be empty; a
    memory type that has its own [ev_copy] keeps its own data.  All of them can
    fail when memory is [scarce], and then leave things as they were. *)
Class ForkOk (W RT YT : Type) `{!VmServer W RT YT} := {
  scarce : Prop;
  region_alloc : forall (s : vm W RT YT), exists o w, SLABALLOC s = Done (o, with_world w s) /\
    match o with Some p => regions s !! p = None | None => scarce end;
  calloc_ok : forall (s : vm W RT YT), exists ok w, calloc s = Done (ok, with_world w s) /\ (ok = false -> scarce);
  pb_reference_ok : forall (s : vm W RT YT) b blk region r i,
    phys_blocks s !! b = Some blk -> refcount blk + 1 < 2 ^ 8 -> regions s !! region = Some r ->
    physblocks r !! i = Some None ->
    (exists p w, phys_regions s !! p = None /\
      pb_reference b (Z.of_nat i * VM_PAGE_SIZE) region s = Done (Some p,
        with_world w (with_regions (<[region := give_page i p r]> (regions s))
          (with_phys_regions (<[p := PhysRegion b (Z.of_nat i * VM_PAGE_SIZE)]> (phys_regions s))
            (with_phys_blocks (<[b := one_more blk]> (phys_blocks s)) s))))) \/
    (scarce /\ exists w, pb_reference b (Z.of_nat i * VM_PAGE_SIZE) region s = Done (None, with_world w s));
  ev_copy_ok : forall m f, ev_copy (mem_types m) = Some f ->
    forall a b (s : vm W RT YT), exists x w, f a b s = Done (x, with_world w s) /\ (x <> OK -> scarce)
}.

Section fork.
Context {W RT YT : Type} `{!Cmp64} `{!Avl Z nat RT} `{!AvlOk Z nat RT} `{!Avl block_id nat YT} `{!AvlOk block_id nat YT}
  `{!VmHdr} `{!VmServer W RT YT} `{!YieldOk W RT YT} `{!ForkOk W RT YT} `{!UnrefOk W RT YT}.
Implicit Types (s : vm W RT YT) (l : list (nat * vir_region)).

(** ** One region *)

(** Page [i] of a copy: absent like the original, or a new [phys_region] for the
    same block. *)
Definition page_copied s0 s (i : nat) (o o' : option nat) : Prop :=
  match o, o' with
  | None, None => True
  | Some p, Some p' => exists q, phys_regions s0 !! p = Some q /\ phys_regions s0 !! p' = None /\
      phys_regions s !! p' = Some (PhysRegion (ph q) (Z.of_nat i * VM_PAGE_SIZE))
  | _, _ => False
  end.

Definition pages_copied s0 s (k : nat) (r nr : vir_region) : Prop :=
  forall i, (i < k)%nat -> exists o o', physblocks r !! i = Some o /\ physblocks nr !! i = Some o' /\ page_copied s0 s i o o'.

(** A region whose pages have their blocks, which can take the further references. *)
Definition shareable s (n : nat) (r : vir_region) : Prop :=
  n_pages s r n /\ forall (i : nat) p q, (i < n)%nat -> physblocks r !! i = Some (Some p) -> phys_regions s !! p = Some q ->
    exists blk, phys_blocks s !! ph q = Some blk /\ 0 < refcount blk.

(** The state while [k] pages of [r] have been copied to the new region [newvr],
    which was [nr0] in [s1]. *)
Record copying s1 (r : vir_region) (newvr : nat) (nr0 : vir_region) (n k : nat) s : Prop := Copying {
  cp_region : exists pbs, regions s = <[newvr := with_physblocks pbs nr0]> (regions s1) /\
    length pbs = n /\ (forall i, (k <= i < n)%nat -> pbs !! i = Some None) /\
    pages_copied s1 s k r (with_physblocks pbs nr0) /\
    forget (page_ptrs k (with_physblocks pbs nr0)) (phys_regions s) = phys_regions s1;
  cp_pages : phys_regions s1 ⊆ phys_regions s;
  cp_blocks : phys_blocks s = bump (refs s1 k r) (phys_blocks s1);
  cp_rest : exists w, s = with_world w (with_regions (regions s)
    (with_phys_regions (phys_regions s) (with_phys_blocks (phys_blocks s) s1)))
}.

Lemma copying_world s1 r newvr nr0 n k s w : copying s1 r newvr nr0 n k s -> copying s1 r newvr nr0 n k (with_world w s).
Proof. intros [H1 H2 H3 [w' H4]]. split; [done..|]. exists w. by rewrite H4. Qed.

Lemma refs_mono s s' n r : n_pages s r n -> phys_regions s ⊆ phys_regions s' -> refs s' n r = refs s n r.
Proof.
  intros (_ & Hn & Hpg) Hsub. assert (Hk : forall k, (k <= n)%nat -> refs s' k r = refs s k r); [|by apply Hk].
  induction k as [|k IH]; intros Hk; [done|].
  destruct (lookup_lt_is_Some_2 (physblocks r) k) as [o Ho]; [lia|]. rewrite !(refs_snoc _ _ _ _ Ho), IH by lia.
  f_equal. destruct o as [p|]; [|done]. destruct (Hpg k p) as (q & Hq & _); [lia|done|]. cbn.
  by rewrite Hq, (lookup_weaken _ _ _ _ Hq Hsub).
Qed.

Lemma page_copied_mono s0 s s' i o o' : phys_regions s ⊆ phys_regions s' -> page_copied s0 s i o o' -> page_copied s0 s' i o o'.
Proof.
  intros Hsub. destruct o as [p|], o' as [p'|]; cbn; try done. intros (q & H1 & H2 & H3). exists q.
  split; [done|]. split; [done|]. by eapply lookup_weaken.
Qed.

Lemma pages_copied_mono s0 s s' k r nr : phys_regions s ⊆ phys_regions s' -> pages_copied s0 s k r nr -> pages_copied s0 s' k r nr.
Proof. intros Hsub Hc i Hi. destruct (Hc i Hi) as (o & o' & ? & ? & ?). exists o, o'. by eauto using page_copied_mono. Qed.

(** One step of [copy_pages]. *)
Lemma copying_absent s1 r newvr nr0 n k s : copying s1 r newvr nr0 n k s -> (k < n)%nat -> physblocks r !! k = Some None ->
  copying s1 r newvr nr0 n (S k) s.
Proof.
  intros [(pbs & Hr & Hl & He & Hc & Hfg) Hp Hb Hpr] Hk Ho. split; [|done| |done].
  - exists pbs. split; [done|]. split; [done|]. split; [intros i Hi; apply He; lia|]. split.
    + intros i Hi. destruct (decide (i = k)) as [->|]; [|apply Hc; lia].
      exists None, None. split; [done|]. split; [apply He; lia|done].
    + rewrite (page_ptrs_snoc _ _ None) by (cbn; apply He; lia). by rewrite app_nil_r.
  - by rewrite (refs_snoc _ _ _ _ Ho), app_nil_r.
Qed.

Lemma copying_present s1 r newvr nr0 n k s p q p' w blk : copying s1 r newvr nr0 n k s -> (k < n)%nat ->
  physblocks r !! k = Some (Some p) -> phys_regions s1 !! p = Some q -> phys_regions s !! p' = None ->
  phys_blocks s !! ph q = Some blk -> forall nr, regions s !! newvr = Some nr ->
  copying s1 r newvr nr0 n (S k) (with_world w (with_regions (<[newvr := give_page k p' nr]> (regions s))
    (with_phys_regions (<[p' := PhysRegion (ph q) (Z.of_nat k * VM_PAGE_SIZE)]> (phys_regions s))
      (with_phys_blocks (<[ph q := one_more blk]> (phys_blocks s)) s)))).
Proof.
  intros [(pbs & Hr & Hl & He & Hc & Hfg) Hp Hb [w0 Hpr]] Hk Ho Hq Hp' Hblk nr Hnr.
  rewrite Hr, lookup_insert_eq in Hnr. injection Hnr as <-.
  assert (Hsub : phys_regions s ⊆ <[p' := PhysRegion (ph q) (Z.of_nat k * VM_PAGE_SIZE)]> (phys_regions s))
    by by apply insert_subseteq.
  split; cbn -[page_ptrs refs].
  - exists (<[k := Some p']> pbs). split; [by rewrite Hr, insert_insert_eq|].
    split; [by rewrite length_insert|]. split; [|split].
    + intros i Hi. rewrite list_lookup_insert_ne by lia. apply He. lia.
    + intros i Hi. destruct (decide (i = k)) as [->|].
      * exists (Some p), (Some p'). split; [done|]. cbn. split; [apply list_lookup_insert_eq; lia|].
        exists q. split; [done|]. split; [|by rewrite lookup_insert_eq].
        destruct (phys_regions s1 !! p') eqn:E; [|done]. by rewrite (lookup_weaken _ _ _ _ E Hp) in Hp'.
      * destruct (Hc i) as (o & o' & Ho1 & Ho2 & Hcp); [lia|]. exists o, o'. split; [done|]. cbn in Ho2 |- *.
        rewrite list_lookup_insert_ne by done. split; [done|]. by eapply page_copied_mono.
    + rewrite (page_ptrs_snoc _ _ (Some p')) by (cbn; apply list_lookup_insert_eq; lia). rewrite forget_app.
      unfold page_ptrs in Hfg |- *. cbn in Hfg |- *. rewrite take_insert_ge by lia. rewrite <- Hfg.
      apply map_eq. intros p0. rewrite lookup_delete, !forget_lookup, lookup_insert. case_decide as Hd; [subst p0|done].
      rewrite Hp'. by case_decide.
  - by etrans.
  - rewrite (refs_snoc _ _ _ _ Ho). cbn. rewrite Hq. cbn. rewrite bump_app, <- Hb. cbn.
    apply map_eq. intros b. rewrite lookup_alter, lookup_insert. case_decide as Hd.
    + subst b. by rewrite Hblk.
    + done.
  - exists w. by rewrite Hpr.
Qed.

Lemma copy_pages_spec s1 vr r newvr nr0 n k s fuel : copying s1 r newvr nr0 n k s ->
  regions s1 !! vr = Some r -> vr <> newvr -> shareable s1 n r ->
  (forall b blk, phys_blocks s1 !! b = Some blk -> refcount blk + uses b (refs s1 n r) < 2 ^ 8) ->
  (k <= n)%nat -> (n - k < fuel)%nat ->
  wp (copy_pages fuel vr newvr (Z.of_nat k)) s (fun ok s' =>
    ok = true /\ copying s1 r newvr nr0 n n s' \/
    ok = false /\ scarce /\ exists j, (j <= n)%nat /\ copying s1 r newvr nr0 n j s').
Proof.
  intros Hcp Hvr Hne [Hpg Hblk] Hmax. revert k s Hcp. induction fuel as [|fuel IH]; intros k s Hcp Hk Hf; [lia|].
  cbn [copy_pages]. destruct (cp_region _ _ _ _ _ _ _ Hcp) as (pbs & Hr & Hl & He & Hc & _).
  assert (Hs : regions s !! vr = Some r) by (rewrite Hr, lookup_insert_ne by done; exact Hvr).
  assert (Hn := Hpg). destruct Hn as (Hlen & Hlb & Hoff).
  apply wp_bind, (wp_get_vr _ _ r); [done|]. rewrite Hlen. apply wp_bind, wp_phys_slot. case_decide as Hd.
  2: { apply wp_ret. left. replace n with k by lia. split; [done|]. by replace n with k in Hcp by lia. }
  destruct (lookup_lt_is_Some_2 (physblocks r) k) as [o Ho]; [lia|].
  apply wp_bind. eapply wp_done.
  { apply (physblock_get_one s vr r n k o); [done|done|lia|done|]. intros p ->.
    destruct (Hoff k p) as (q & Hq & Hqo); [lia|done|]. exists q. split; [|done].
    eapply lookup_weaken; [done|apply Hcp]. }
  replace (Z.of_nat k + 1) with (Z.of_nat (S k)) by lia.
  destruct o as [p|]; [|apply IH; [apply copying_absent; [done|lia|done]|lia|lia]].
  destruct (Hoff k p) as (q & Hq & Hqo); [lia|done|]. destruct (Hblk k p q) as (blk & Hb & Hpos); [lia|done..|].
  apply wp_bind, (wp_get_pr _ _ q); [eapply lookup_weaken; [done|apply Hcp]|].
  assert (Hb' : phys_blocks s !! ph q = Some (PhysBlock (phys blk) (refcount blk + uses (ph q) (refs s1 k r)))).
  { rewrite (cp_blocks _ _ _ _ _ _ _ Hcp), bump_lookup, Hb. done. }
  assert (Hroom : uses (ph q) (refs s1 k r) + 1 <= uses (ph q) (refs s1 n r)).
  { assert (exists rest, refs s1 n r = refs s1 (S k) r ++ rest) as [rest ->].
    { unfold refs. exists (omap (fun o : option nat => o ≫= fun p => ph <$> phys_regions s1 !! p) (drop (S k) (take n (physblocks r)))).
      rewrite <- omap_app, <- (take_drop (S k) (take n (physblocks r))) at 1. rewrite take_take, Nat.min_l by lia. done. }
    rewrite uses_app, (refs_snoc _ _ _ _ Ho). cbn. rewrite Hq. cbn. rewrite uses_app, uses_cons, decide_True by done.
    pose proof (uses_nonneg (ph q) rest). pose proof (uses_nonneg (ph q) []). lia. }
  pose proof (Hmax _ _ Hb).
  assert (Hnr : regions s !! newvr = Some (with_physblocks pbs nr0)) by (by rewrite Hr, lookup_insert_eq).
  destruct (pb_reference_ok s (ph q) _ newvr _ k Hb' ltac:(cbn; lia) Hnr ltac:(apply He; lia))
    as [(p' & w & Hp' & Href)|(Hsc & w & Href)]; rewrite Hqo; (apply wp_bind; eapply wp_done; [exact Href|]).
  - apply IH; [|lia|lia]. eapply (copying_present _ _ _ _ _ _ _ p q); [done|lia|done..].
  - apply wp_ret. right. split; [done|]. split; [done|]. exists k. split; [done|]. by apply copying_world.
Qed.

(** Only the allocators and the counter of the regions' ids have moved. *)
Definition restored s s' : Prop := exists k w, s' = with_next_id k (with_world w s).

Lemma restored_world s s' w : restored s s' -> restored s (with_world w s').
Proof. intros (k & w' & ->). by exists k, w. Qed.

Definition new_region s (vmp : nat) a n flags mt : vir_region :=
  VirRegion a (Z.of_nat n * VM_PAGE_SIZE) (replicate n None) flags mt 0 (next_id s) vmp.

Lemma region_new_spec s vmp a n flags mt :
  wp (region_new vmp a (Z.of_nat n * VM_PAGE_SIZE) flags mt) s (fun o s' =>
    match o with
    | Some p => regions s !! p = None /\ exists k w,
        s' = with_next_id k (with_world w (with_regions (<[p := new_region s vmp a n flags mt]> (regions s)) s))
    | None => scarce /\ restored s s'
    end).
Proof.
  unfold region_new. apply wp_bind, wp_phys_slot. destruct (region_alloc s) as (o & w & Halloc & Hfresh).
  apply wp_bind. eapply wp_done; [exact Halloc|].
  destruct o as [p|]; [|apply wp_ret; split; [done|]; exists (next_id s), w; by destruct s].
  apply wp_bind, wp_gets, wp_bind, wp_modify.
  match goal with |- wp _ ?t _ => destruct (calloc_ok t) as (ok & w' & Hcalloc & Hok) end.
  apply wp_bind. eapply wp_done; [exact Hcalloc|]. destruct ok.
  - rewrite Nat2Z.id. apply wp_bind, wp_modify, wp_ret. split; [done|]. eexists _, w'. reflexivity.
  - apply wp_ret. split; [by apply Hok|]. eexists _, w'. reflexivity.
Qed.

(** What [map_copy_region] makes of a region of [n] pages: a new object that is
    linked to no process. *)
Record region_copied s n (r : vir_region) (newvr : nat) (nr : vir_region) s' : Prop := RegionCopied {
  rc_fresh : regions s !! newvr = None;
  rc_regions : regions s' = <[newvr := nr]> (regions s);
  rc_fields : vaddr nr = vaddr r /\ vr_length nr = vr_length r /\ vr_flags nr = vr_flags r /\ memtype nr = memtype r;
  rc_length : length (physblocks nr) = n;
  rc_copied : pages_copied s s' n r nr;
  rc_pages : phys_regions s ⊆ phys_regions s';
  rc_new : forget (page_ptrs n nr) (phys_regions s') = phys_regions s;
  rc_blocks : phys_blocks s' = bump (refs s n r) (phys_blocks s);
  rc_rest : exists k w, s' = with_next_id k (with_world w (with_regions (regions s')
    (with_phys_regions (phys_regions s') (with_phys_blocks (phys_blocks s') s))))
}.

Lemma rc_procs s n r newvr nr s' : region_copied s n r newvr nr s' -> procs s' = procs s.
Proof. intros [_ _ _ _ _ _ _ _ (k & w & ->)]. done. Qed.

(** A copied page refers to the block of the original. *)
Lemma refs_copied s0 s n k r nr : n_pages s0 r n -> (k <= n)%nat -> pages_copied s0 s k r nr -> refs s k nr = refs s0 k r.
Proof.
  intros (_ & _ & Hoff) Hk Hc. revert Hk Hc. induction k as [|k IH]; intros Hk Hc; [done|].
  destruct (Hc k ltac:(lia)) as (o & o' & Ho & Ho' & Hcp). rewrite (refs_snoc _ _ _ _ Ho), (refs_snoc _ _ _ _ Ho').
  rewrite IH by (lia || (intros i Hi; apply Hc; lia)). f_equal.
  destruct o as [p|], o' as [p'|]; cbn in Hcp |- *; try done. destruct Hcp as (q & Hq & _ & Hnew). by rewrite Hq, Hnew.
Qed.

Lemma shareable_blocks s n r b : shareable s n r -> b ∈ refs s n r -> exists blk, phys_blocks s !! b = Some blk /\ 0 < refcount blk.
Proof.
  intros [_ Hblk] (o & Ho & Hb)%list_elem_of_omap. apply elem_of_take in Ho as (i & Hi & Hlt). destruct o as [p|]; [|done].
  cbn in Hb. apply fmap_Some in Hb as (q & Hq & ->). by apply (Hblk i p q).
Qed.

(** A copy that is left after [j] pages is freed without a trace. *)
Lemma copying_freed s1 r newvr nr0 n j s : regions s1 !! newvr = Some nr0 -> shareable s1 n r -> (j <= n)%nat ->
  vr_length nr0 = Z.of_nat n * VM_PAGE_SIZE -> Z.of_nat n * VM_PAGE_SIZE < 2 ^ 32 -> copying s1 r newvr nr0 n j s ->
  exists nr, regions s !! newvr = Some nr /\ freeable s n nr /\
    forall w, dropped s newvr nr n w = with_world w (with_regions (delete newvr (regions s1)) s1).
Proof.
  intros Hnr0 Hsh Hj Hlen Hlt [(pbs & Hr & Hl & He & Hc & Hfg) Hp Hb [w0 Hrest]]. assert (Hn := proj1 Hsh).
  set (nr := with_physblocks pbs nr0) in *. exists nr. rewrite Hr, lookup_insert_eq. split; [done|].
  destruct (absent_tail s j n nr He Hj) as [Hptrs Hrefs]. rewrite (refs_copied s1 s n j r nr Hn Hj Hc) in Hrefs.
  assert (Hpos : forall b, b ∈ refs s1 j r -> exists blk, phys_blocks s1 !! b = Some blk /\ 0 < refcount blk).
  { intros b Hb'. apply (shareable_blocks s1 n r b Hsh).
    apply list_elem_of_omap in Hb' as (o & Ho & Hb'). apply elem_of_take in Ho as (i & Hi & Hij).
    apply list_elem_of_omap. exists o. split; [|done]. apply elem_of_take. exists i. split; [done|lia]. }
  split; [split; [|split; [by cbn; rewrite Hlen|]]|].
  - split; [done|]. split; [cbn; lia|]. intros i p Hi Hip. destruct (decide (i < j)%nat) as [Hij|Hij].
    + destruct (Hc i Hij) as (o & o' & _ & Ho' & Hcp). rewrite Hip in Ho'. injection Ho' as <-. destruct o; [|done].
      destruct Hcp as (q & _ & _ & Hq). by eexists.
    + cbn in Hip. rewrite He in Hip by lia. done.
  - rewrite Hrefs, Hb. intros b Hb'. destruct (Hpos b Hb') as (blk & Hlk & Hgt). rewrite bump_lookup, Hlk.
    eexists. split; [done|]. cbn. lia.
  - intros w. apply vm_ext; try (rewrite Hrest; reflexivity).
    + cbn [regions dropped with_world with_regions]. rewrite Hr, delete_insert_eq. done.
    + cbn [phys_regions dropped with_world with_regions with_phys_regions]. by rewrite Hptrs, Hfg.
    + cbn [phys_blocks dropped with_world with_regions with_phys_regions with_phys_blocks].
      rewrite Hrefs, Hb. by apply unbump_bump.
Qed.

Lemma map_copy_region_spec s vmp vr r n : regions s !! vr = Some r -> shareable s n r -> vr_length r < 2 ^ 32 ->
  (forall b blk, phys_blocks s !! b = Some blk -> refcount blk + uses b (refs s n r) < 2 ^ 8) ->
  wp (map_copy_region vmp vr) s (fun o s' =>
    (exists newvr nr, o = Some newvr /\ region_copied s n r newvr nr s') \/ (o = None /\ scarce /\ restored s s')).
Proof.
  intros Hr Hsh Hlt Hmax. assert (Hlen := proj1 (proj1 Hsh)). unfold map_copy_region.
  apply wp_bind, (wp_get_vr _ _ r); [done|]. apply wp_bind. rewrite Hlen at 1. eapply wp_mono; [apply region_new_spec|].
  intros [newvr|] s1; [|intros [Hsc Hres]; apply wp_ret; right; done].
  intros (Hfresh & k & w & ->). set (nr0 := new_region _ _ _ _ _ _). match goal with |- wp _ ?t _ => set (s1 := t) end.
  assert (Hne : vr <> newvr) by congruence.
  assert (Hr1 : regions s1 !! vr = Some r) by (cbn; by rewrite lookup_insert_ne).
  assert (Hres : forall w', restored s (with_world w' (with_regions (delete newvr (regions s1)) s1))).
  { intros w'. exists k, w'. apply vm_ext; try reflexivity. cbn. by rewrite delete_insert_id. }
  assert (Hfree : forall j s', (j <= n)%nat -> copying s1 r newvr nr0 n j s' ->
    wp (_ ← map_free newvr; mret (None : option nat)) s' (fun o s'' => o = None /\ restored s s'')).
  { intros j s' Hj Hcp. destruct (copying_freed s1 r newvr nr0 n j s' ltac:(apply lookup_insert_eq) Hsh Hj) as (nr & Hnr & Hf & Hd);
      [done|by rewrite <- Hlen|done|].
    apply wp_bind. eapply wp_mono; [by apply (map_free_exact s' newvr nr n)|]. intros x s2 [_ [w' ->]]. apply wp_ret. by rewrite Hd. }
  assert (Hcp0 : forall w', copying s1 r newvr nr0 n 0 (with_world w' s1)).
  { intros w'. split; [|done|done|by exists w']. exists (replicate n None). split.
    - change (with_physblocks (replicate n None) nr0) with nr0. cbn. by rewrite insert_insert_eq.
    - split; [by rewrite length_replicate|]. split; [intros i Hi; apply lookup_replicate_2; lia|].
      split; [intros i Hi; lia|done]. }
  unfold mem_type_of. apply wp_bind, wp_bind, (wp_get_vr _ _ r); [done|]. apply wp_ret, wp_bind.
  assert (Hev : wp (match ev_copy (mem_types (memtype r)) with Some f => f vr newvr | None => mret OK end) s1
    (fun x s' => (x <> OK -> scarce) /\ exists w, s' = with_world w s1)).
  { destruct (ev_copy _) as [f|] eqn:E.
    - destruct (ev_copy_ok _ _ E vr newvr s1) as (x & w1 & Hf & Hx). eapply wp_done; [exact Hf|]. split; [done|by exists w1].
    - apply wp_ret. split; [done|]. exists (world s1). by destruct s1. }
  eapply wp_mono; [exact Hev|]. intros x s2 [Hx [w2 ->]]. case_decide as Hok.
  { eapply wp_mono; [apply (Hfree O); [lia|apply Hcp0]|]. intros o s3 [-> Hs3]. right. split; [done|]. split; [by apply Hx|done]. }
  apply wp_bind. eapply wp_mono.
  { apply (copy_pages_spec s1 vr r newvr nr0 n 0); [apply Hcp0|exact Hr1|done|exact Hsh|exact Hmax|lia|].
    rewrite Hlen. apply (page_fuel_enough 0 n). lia. }
  intros ok s3 [[-> [(pbs & H1 & H2 & _ & H4 & H5) H6 H7 [w3 H8]]]|(-> & Hsc & j & Hj & Hcp)].
  - apply wp_ret. left. exists newvr, (with_physblocks pbs nr0). split; [done|]. split; try done.
    + cbn in H1. by rewrite H1, insert_insert_eq.
    + exists k, w3. by rewrite H8.
  - eapply wp_mono; [by apply (Hfree j)|]. intros o s4 [-> Hs4]. by right.
Qed.

(** ** Walks over the regions of a process *)

(** The body goes on to the next region, or ends the walk with a result. *)
Lemma wp_for_regions_exit {R} (Inv : list (nat * vir_region) -> vm W RT YT -> Prop) (Exit : R -> vm W RT YT -> Prop) vmp (t : RT) l
    (body : nat -> M W RT YT (option R)) : avl_elems t = entry <$> l ->
  (forall l1 s, Inv l1 s -> exists vp, procs s !! vmp = Some vp /\ vm_regions_avl vp = t) ->
  (forall l1 x l2 s, l = l1 ++ x :: l2 -> Inv l1 s ->
     wp (body x.1) s (fun r s' => match r with Some e => Exit e s' | None => Inv (l1 ++ [x]) s' end)) ->
  forall l2 l1 fuel s, l = l1 ++ l2 -> (length l2 < fuel)%nat -> Inv l1 s ->
    wp (for_regions fuel vmp (head (entry <$> l2)) body) s (fun r s' => match r with Some e => Exit e s' | None => Inv l s' end).
Proof.
  intros Hel Htree Hbody. induction l2 as [|x l2 IH]; intros l1 [|fuel] s Hl Hf Hinv; cbn in Hf; try lia; cbn [for_regions].
  { apply wp_ret. rewrite app_nil_r in Hl. by subst. }
  cbn [fmap list_fmap head]. unfold entry at 1. apply wp_bind. eapply wp_mono; [by eapply Hbody|].
  intros [e|] s' Hinv'; [by apply wp_ret|].
  destruct (Htree _ _ Hinv') as (vp & Hvp & <-). apply wp_bind, (wp_get_tree _ _ vp); [done|].
  assert (avl_search_gt (vaddr x.2) (vm_regions_avl vp) = head (entry <$> l2)) as ->.
  { rewrite avl_gt_elems. pose proof (avl_ordered (vm_regions_avl vp)) as Hord.
    rewrite Hel, Hl, fmap_app, fmap_cons in Hord |- *. exact (list_gt_at _ _ _ _ Hord). }
  apply (IH (l1 ++ [x])); [by rewrite <- app_assoc|lia|done].
Qed.

Lemma wp_for_regions {R} (Inv : list (nat * vir_region) -> vm W RT YT -> Prop) vmp (t : RT) l
    (body : nat -> M W RT YT (option R)) : avl_elems t = entry <$> l ->
  (forall l1 s, Inv l1 s -> exists vp, procs s !! vmp = Some vp /\ vm_regions_avl vp = t) ->
  (forall l1 x l2 s, l = l1 ++ x :: l2 -> Inv l1 s -> wp (body x.1) s (fun r s' => r = None /\ Inv (l1 ++ [x]) s')) ->
  forall l2 l1 fuel s, l = l1 ++ l2 -> (length l2 < fuel)%nat -> Inv l1 s ->
    wp (for_regions fuel vmp (head (entry <$> l2)) body) s (fun r s' => r = None /\ Inv l s').
Proof.
  intros Hel Htree Hbody l2 l1 fuel s Hl Hf Hinv. eapply wp_mono.
  - apply (wp_for_regions_exit Inv (fun _ _ => False) vmp t l body Hel Htree) with (l1 := l1); try done.
    intros l1' x l2' s' Hl' Hinv'. eapply wp_mono; [by eapply Hbody|]. by intros r s'' [-> H'].
  - intros [e|] s' H'; [done|by split].
Qed.

(** ** Writing the page table *)

(** Only the world differs. *)
Definition other_world s s' : Prop := exists w, s' = with_world w s.

Lemma other_world_refl s : other_world s s.
Proof. exists (world s). by destruct s. Qed.

Lemma writept_page s vmp region r p q blk : regions s !! region = Some r -> phys_regions s !! p = Some q ->
  phys_blocks s !! ph q = Some blk -> 0 < refcount blk -> vaddr r mod VM_PAGE_SIZE = 0 -> offset q mod VM_PAGE_SIZE = 0 ->
  wp (map_ph_writept vmp region p) s (fun x s' => entered x /\ other_world s s').
Proof.
  intros Hr Hq Hb Hpos Hv Ho. unfold map_ph_writept. apply wp_bind, (wp_get_pr _ _ q); [done|].
  apply wp_bind, (wp_get_pb _ _ blk); [done|]. apply wp_bind, (wp_get_vr _ _ r); [done|].
  do 3 (apply wp_bind, wp_asserts; [done || lia|]). apply wp_bind. apply (wp_mono _ _ (fun _ s' => s' = s)).
  { unfold pr_writable. apply wp_bind, (wp_get_vr _ _ r); [done|].
    destruct (writable_ok (memtype r)) as (f & Hf & Hok). apply wp_bind. eapply wp_derefs; [exact Hf|].
    case_decide; [by apply wp_ret|]. destruct (Hok p s) as [x Hx]. apply wp_bind. eapply wp_done; [exact Hx|]. by apply wp_ret. }
  intros wr s' ->. cbn zeta.
  match goal with |- wp (pt_writemap ?n ?va ?pa ?len ?fl ?wm ≫= _) _ _ => destruct (writemap_ok s n va pa len fl wm) as (x & w & Hwm & Hx) end.
  apply wp_bind. eapply wp_done; [exact Hwm|]. unfold entered. case_decide; apply wp_ret; (split; [|by exists w]); auto.
Qed.

(** A region whose pages can be entered in a page table. *)
Definition mappable s (n : nat) (r : vir_region) : Prop :=
  shareable s n r /\ vaddr r mod VM_PAGE_SIZE = 0 /\ vr_length r < 2 ^ 32.

Lemma map_writept_spec s vmp vp l : procs s !! vmp = Some vp -> tree_of s (vm_regions_avl vp) l ->
  (forall x, x ∈ l -> exists n, mappable s n x.2) ->
  wp (map_writept vmp) s (fun x s' => entered x /\ other_world s s').
Proof.
  intros Hvp [Hel Hreg] Hok. unfold map_writept, all_regions. apply wp_bind, wp_bind, (wp_get_tree _ _ vp); [done|].
  rewrite avl_least_elems, Hel. set (Exit := fun (e : Z) s' => (tables_full /\ e = ENOMEM) /\ other_world s s').
  eapply wp_mono; [apply (wp_for_regions_exit (fun _ s' => other_world s s') Exit vmp (vm_regions_avl vp) l _ Hel) with (l1 := [])|].
  - intros l1 s' [w ->]. by exists vp.
  - intros l1 x l2 s' Hl [w ->]. assert (Hx : x ∈ l) by (rewrite Hl; apply elem_of_app; right; by left).
    destruct (Hok x Hx) as (n & (((Hlen & Hlb & Hoff) & Hblk) & Hal & Hlt)). unfold region_length at 1.
    apply wp_bind, wp_bind, (wp_get_vr _ _ x.2); [by apply Hreg|]. apply wp_ret. rewrite Hlen. change 0 with (Z.of_nat 0 * VM_PAGE_SIZE).
    apply (wp_for_pages_exit (fun _ s' => other_world s s') Exit (region_length x.1) _ n).
    + lia.
    + intros j s' _ [w' ->]. unfold region_length.
      by rewrite (bind_done _ _ _ _ _ (get_vr_done (with_world w' s) _ _ (Hreg x Hx))), Hlen.
    + intros j s' Hj [w' ->]. destruct (lookup_lt_is_Some_2 (physblocks x.2) j) as [o Ho]; [lia|].
      apply wp_bind. eapply wp_done.
      { apply (physblock_get_one (with_world w' s) x.1 x.2 n j o); [by apply Hreg|done|done|done|]. intros p ->. by apply Hoff. }
      destruct o as [p|]; [|apply wp_ret; by exists w'].
      destruct (Hoff j p Hj Ho) as (q & Hq & Hqo). destruct (Hblk j p q Hj Ho Hq) as (blk & Hb & Hpos).
      apply wp_bind. eapply wp_mono; [apply (writept_page (with_world w' s) vmp x.1 x.2 p q blk); try done|].
      * by apply Hreg.
      * rewrite Hqo. unfold VM_PAGE_SIZE. apply Z_mod_mult.
      * intros r s' [[->|[Hfull ->]] [w'' ->]]; apply wp_ret; case_decide; first [by exists w''|split; [done|by exists w'']|done].
    + lia.
    + apply (page_fuel_enough 0 n). lia.
    + by exists w.
  - done.
  - rewrite length_fmap. lia.
  - apply other_world_refl.
  - intros [e|] s' Hs'; apply wp_ret; [destruct Hs'; by split; [right|]|by split; [left|]].
Qed.

(** ** All regions *)

(** The region [x'] of [dst] in [s] is a copy of the region [x] in [s0]: a new
    object with the same place, length, flags and type, and a page of its own for
    each page of [x], in the same block. *)
Definition copy_of s0 s (dst : nat) (x x' : nat * vir_region) : Prop :=
  regions s0 !! x'.1 = None /\ regions s !! x'.1 = Some x'.2 /\
  vaddr x'.2 = vaddr x.2 /\ vr_length x'.2 = vr_length x.2 /\ vr_flags x'.2 = vr_flags x.2 /\ memtype x'.2 = memtype x.2 /\
  parent x'.2 = dst /\ length (physblocks x'.2) = npages x.2 /\ pages_copied s0 s (npages x.2) x.2 x'.2.

(** The regions [l'] are what [s] has more than [s0]. *)
Definition added s0 s l' : Prop :=
  NoDup l'.*1 /\ NoDup (all_ptrs l') /\ forget l'.*1 (regions s) = regions s0 /\
  forget (all_ptrs l') (phys_regions s) = phys_regions s0.

(** The state when the regions [l] of [s0] have been copied to the process [dst],
    which was [vd]. *)
Record forked s0 (dst : nat) vd l s : Prop := Forked {
  fk_regions : regions s0 ⊆ regions s;
  fk_pages : phys_regions s0 ⊆ phys_regions s;
  fk_blocks : phys_blocks s = bump (all_refs s0 l) (phys_blocks s0);
  fk_dst : exists t l', procs s = <[dst := with_tree t vd]> (procs s0) /\ avl_elems t = entry <$> l' /\
    Forall2 (copy_of s0 s dst) l l' /\ added s0 s l';
  fk_rest : exists k w, s = with_next_id k (with_world w (with_procs (procs s) (with_regions (regions s)
    (with_phys_regions (phys_regions s) (with_phys_blocks (phys_blocks s) s0)))))
}.

Lemma forked_procs s0 dst vd l s k : forked s0 dst vd l s -> k <> dst -> procs s !! k = procs s0 !! k.
Proof. intros [_ _ _ (t & l' & -> & _) _] Hk. by rewrite list_lookup_insert_ne. Qed.

Lemma forked_restored s0 dst vd l s s' : forked s0 dst vd l s -> restored s s' -> forked s0 dst vd l s'.
Proof.
  intros [H1 H2 H3 H4 (k & w & H5)] (k' & w' & ->). split; [done..|]. exists k', w'. by rewrite H5.
Qed.

Lemma pages_copied_base s0 s s' n r nr : n_pages s0 r n -> phys_regions s0 ⊆ phys_regions s ->
  pages_copied s s' n r nr -> pages_copied s0 s' n r nr.
Proof.
  intros (_ & _ & Hoff) Hsub Hc i Hi. destruct (Hc i Hi) as (o & o' & Ho & Ho' & Hcp). exists o, o'.
  split; [done|]. split; [done|]. destruct o as [p|], o' as [p'|]; cbn in Hcp |- *; try done.
  destruct Hcp as (q & H1 & H2 & H3). destruct (Hoff i p Hi Ho) as (q' & Hq' & _).
  rewrite (lookup_weaken _ _ _ _ Hq' Hsub) in H1. injection H1 as ->. exists q. split; [done|]. split; [|done].
  destruct (phys_regions s0 !! p') eqn:E; [|done]. by rewrite (lookup_weaken _ _ _ _ E Hsub) in H2.
Qed.

Lemma copies_vaddr s0 s dst l l' : Forall2 (copy_of s0 s dst) l l' -> (fun x : nat * vir_region => vaddr x.2) <$> l' = (fun x => vaddr x.2) <$> l.
Proof. induction 1 as [|x x' l l' (_ & _ & Hv & _) _ IH]; [done|]. cbn. by rewrite Hv, IH. Qed.

(** What the walk needs of the regions of the parent. *)
Record forkable s l : Prop := Forkable {
  fa_regions : forall x, x ∈ l -> regions s !! x.1 = Some x.2;
  fa_pages : forall x, x ∈ l -> shareable s (npages x.2) x.2;
  fa_order : StronglySorted (fun a b : Z * nat => a.1 < b.1) (entry <$> l);
  fa_room : forall b blk, phys_blocks s !! b = Some blk -> refcount blk + uses b (all_refs s l) < 2 ^ 8
}.

(** The pages of the parent stay as they are, with more references. *)
Lemma forked_shareable s0 dst vd l s n r : forked s0 dst vd l s -> shareable s0 n r -> shareable s n r.
Proof.
  intros [_ Hp Hb _ _] [(Hlen & Hlb & Hoff) Hblk]. split; [split; [done|split; [done|]]|].
  - intros i p Hi Hip. destruct (Hoff i p Hi Hip) as (q & Hq & Hqo). exists q. split; [by eapply lookup_weaken|done].
  - intros i p q Hi Hip Hq. destruct (Hoff i p Hi Hip) as (q' & Hq' & _).
    rewrite (lookup_weaken _ _ _ _ Hq' Hp) in Hq. injection Hq as ->.
    destruct (Hblk i p q Hi Hip Hq') as (blk & Hlk & Hpos). eexists. rewrite Hb, bump_lookup, Hlk. split; [done|]. cbn.
    pose proof (uses_nonneg (ph q) (all_refs s0 l)). lia.
Qed.

(** A region that is still to be copied can be. *)
Lemma forked_next s0 dst vd l l1 x l2 s : forkable s0 l -> l = l1 ++ x :: l2 -> forked s0 dst vd l1 s ->
  regions s !! x.1 = Some x.2 /\ shareable s (npages x.2) x.2 /\ refs s (npages x.2) x.2 = refs s0 (npages x.2) x.2 /\
  forall b blk, phys_blocks s !! b = Some blk -> refcount blk + uses b (refs s (npages x.2) x.2) < 2 ^ 8.
Proof.
  intros [Hreg Hpg _ Hroom] Hl Hf. assert (Hf' := Hf). destruct Hf' as [Hr Hp Hb _ _].
  assert (Hx : x ∈ l) by (rewrite Hl; apply elem_of_app; right; by left).
  assert (Hrefs : refs s (npages x.2) x.2 = refs s0 (npages x.2) x.2) by (apply refs_mono; [by apply Hpg|done]).
  split; [by eapply lookup_weaken; [apply Hreg|]|].
  split; [by eapply forked_shareable; [|apply Hpg]|]. split; [done|].
  - intros b blk'. rewrite Hb, bump_lookup. destruct (phys_blocks s0 !! b) as [blk|] eqn:E; [|done]. intros [= <-]. cbn.
    specialize (Hroom b blk E). rewrite Hl, all_refs_app in Hroom. change (all_refs s0 (x :: l2)) with (refs s0 (npages x.2) x.2 ++ all_refs s0 l2) in Hroom.
    rewrite !uses_app in Hroom. rewrite Hrefs. pose proof (uses_nonneg b (all_refs s0 l2)). lia.
Qed.

Lemma copy_of_keep s0 s s' dst x y : phys_regions s ⊆ phys_regions s' ->
  (forall a r, regions s !! a = Some r -> regions s' !! a = Some r) -> copy_of s0 s dst x y -> copy_of s0 s' dst x y.
Proof.
  intros Hp Hr (H1 & H2 & H3 & H4 & H5 & H6 & H7 & H8 & H9). unfold copy_of. split_and!; try done; [by apply Hr|].
  by eapply pages_copied_mono.
Qed.

Lemma copy_n_pages s0 s dst x x' n : copy_of s0 s dst x x' -> n_pages s0 x.2 n -> n_pages s x'.2 n.
Proof.
  intros (_ & _ & _ & Hl & _ & _ & _ & Hpl & Hc) Hn. rewrite (npages_eq _ _ _ Hn) in Hpl, Hc. destruct Hn as (Hlen & _).
  split; [by rewrite Hl|]. split; [lia|]. intros i p' Hi Hp'.
  destruct (Hc i Hi) as (o & o' & Ho & Ho' & Hcp). rewrite Hp' in Ho'. injection Ho' as <-.
  destruct o as [p|]; [|done]. destruct Hcp as (q & _ & _ & Hq). by eexists.
Qed.
Lemma region_copied_pages s n r newvr nr s' : n_pages s r n -> region_copied s n r newvr nr s' -> n_pages s' nr n.
Proof.
  intros (Hlen & _) [_ _ (_ & Hl & _) Hln Hc _ _ _ _]. split; [by rewrite Hl|]. split; [lia|]. intros i p' Hi Hp'.
  destruct (Hc i Hi) as (o & o' & Ho & Ho' & Hcp). rewrite Hp' in Ho'. injection Ho' as <-.
  destruct o as [p|]; [|done]. destruct Hcp as (q & _ & _ & Hq). by eexists.
Qed.

Lemma copies_heap s0 s dst l l' : Forall2 (copy_of s0 s dst) l l' ->
  (forall x', x' ∈ l' -> regions s !! x'.1 = Some x'.2) /\ (forall p, p ∈ all_ptrs l' -> is_Some (phys_regions s !! p)).
Proof.
  induction 1 as [|x x' l l' Hc _ [IH1 IH2]]; [by split; intros ? ?%elem_of_nil|].
  destruct Hc as (_ & Hr & _ & Hl & _ & _ & _ & Hpl & Hc). split.
  - by intros y [->|Hy]%elem_of_cons; [|apply IH1].
  - intros p. change (x' :: l') with ([x'] ++ l'). rewrite all_ptrs_app, elem_of_app, all_ptrs_one. intros [Hp|Hp]; [|by apply IH2].
    apply elem_of_page_ptrs in Hp as (i & Hi & Hip). unfold npages in Hi. rewrite Hl in Hi.
    destruct (Hc i Hi) as (o & o' & _ & Ho' & Hcp). rewrite Hip in Ho'. injection Ho' as <-. destruct o; [|done].
    destruct Hcp as (q & _ & _ & Hq). by eexists.
Qed.

(** One more region on top of those added. *)
Lemma added_one s0 s s1 dst l l' n r newvr nr : Forall2 (copy_of s0 s dst) l l' -> added s0 s l' -> n_pages s r n ->
  region_copied s n r newvr nr s1 ->
  added s0 (with_regions (<[newvr := with_parent dst nr]> (regions s1)) s1) (l' ++ [(newvr, with_parent dst nr)]).
Proof.
  intros Hcp (H1 & H2 & H3 & H4) Hn Hrc. destruct (copies_heap _ _ _ _ _ Hcp) as [Hreg Hptr].
  assert (Hn1 := region_copied_pages _ _ _ _ _ _ Hn Hrc). assert (Enp := npages_eq _ _ _ Hn1).
  destruct Hrc as [Hfresh Hr1 _ _ Hc _ Hnew _ _].
  assert (Eptr : all_ptrs (l' ++ [(newvr, with_parent dst nr)]) = all_ptrs l' ++ page_ptrs n nr).
  { rewrite all_ptrs_app, all_ptrs_one. unfold npages in Enp |- *. cbn. by rewrite Enp. }
  split_and!.
  - rewrite fmap_app. apply NoDup_app. split; [done|]. split; [|apply NoDup_singleton].
    intros p (x & -> & Hx)%list_elem_of_fmap Hp%list_elem_of_singleton. cbn in Hp. by rewrite <- Hp, (Hreg x Hx) in Hfresh.
  - rewrite Eptr. apply NoDup_app. split; [done|]. split; [|by eapply n_pages_nodup].
    intros p Hp (i & Hi & Hip)%elem_of_page_ptrs. destruct (Hptr p Hp) as [q Hq].
    destruct (Hc i Hi) as (o & o' & _ & Ho' & Hcpy). rewrite Hip in Ho'. injection Ho' as <-. destruct o; [|done].
    destruct Hcpy as (_ & _ & Hno & _). by rewrite Hq in Hno.
  - cbn. rewrite fmap_app, forget_app, <- H3, Hr1, insert_insert_eq. apply map_eq. intros p. rewrite !forget_lookup.
    cbn. case_decide as Hd.
    + apply list_elem_of_singleton in Hd as ->. rewrite Hfresh. by case_decide.
    + case_decide; [done|]. rewrite lookup_insert_ne; [done|]. intros ->. apply Hd. by left.
  - cbn. rewrite Eptr, (forget_perm _ _ _ (Permutation_app_comm _ _)), forget_app, Hnew. exact H4.
Qed.

(** The copy of [x] is linked to [dst]. *)
Lemma forked_link s0 dst vd l l1 x l2 s newvr nr s1 t l' : forkable s0 l -> l = l1 ++ x :: l2 -> procs s0 !! dst = Some vd ->
  regions s0 ⊆ regions s -> phys_regions s0 ⊆ phys_regions s -> phys_blocks s = bump (all_refs s0 l1) (phys_blocks s0) ->
  Forall2 (copy_of s0 s dst) l1 l' -> added s0 s l' -> shareable s (npages x.2) x.2 ->
  region_copied s (npages x.2) x.2 newvr nr s1 -> procs s = <[dst := with_tree t vd]> (procs s0) ->
  (exists k w, s = with_next_id k (with_world w (with_procs (procs s) (with_regions (regions s)
    (with_phys_regions (phys_regions s) (with_phys_blocks (phys_blocks s) s0)))))) ->
  forall t', avl_elems t' = entry <$> l' ++ [(newvr, with_parent dst nr)] ->
  forked s0 dst vd (l1 ++ [x]) (with_procs (<[dst := with_tree t' vd]> (procs s1))
    (with_regions (<[newvr := with_parent dst nr]> (regions s1)) s1)).
Proof.
  intros Hfa Hl Hvd Hr Hp Hb Hcp Had Hsh Hrc Hpr (k0 & w0 & Hs) t' Ht.
  assert (Hx : x ∈ l) by (rewrite Hl; apply elem_of_app; right; by left).
  pose proof (proj1 (fa_pages _ _ Hfa x Hx)) as Hn.
  assert (Had' := added_one _ _ _ _ _ _ _ _ _ _ Hcp Had (proj1 Hsh) Hrc).
  assert (Hrefs : refs s (npages x.2) x.2 = refs s0 (npages x.2) x.2) by by apply refs_mono.
  assert (Hpr1 := rc_procs _ _ _ _ _ _ Hrc).
  destruct Hrc as [Hfresh Hr1 (Hv & Hlen & Hfl & Hmt) Hpl Hc Hp1 Hnew Hb1 (k1 & w1 & Hs1)].
  assert (Hkeep : forall a r, regions s !! a = Some r -> <[newvr := with_parent dst nr]> (regions s1) !! a = Some r).
  { intros a r Ha. rewrite lookup_insert_ne by congruence. rewrite Hr1, lookup_insert_ne by congruence. done. }
  split.
  - apply map_subseteq_spec. intros a r Ha. apply Hkeep. by eapply lookup_weaken.
  - cbn. by etrans.
  - cbn. by rewrite Hb1, Hb, Hrefs, all_refs_app, bump_app, all_refs_one.
  - exists t', (l' ++ [(newvr, with_parent dst nr)]). split; [|split; [done|split; [|exact Had']]].
    + cbn. by rewrite Hpr1, Hpr, list_insert_insert_eq.
    + apply Forall2_app; [|constructor; [|constructor]].
      * eapply Forall2_impl; [exact Hcp|]. intros y y' Hy. by eapply copy_of_keep.
      * split_and!; cbn; try done.
        -- destruct (regions s0 !! newvr) eqn:E; [|done]. by rewrite (lookup_weaken _ _ _ _ E Hr) in Hfresh.
        -- by rewrite lookup_insert_eq.
        -- eapply pages_copied_base; [done..|]. exact Hc.
  - exists k1, w1. rewrite Hs1, Hs. reflexivity.
Qed.

(** What a failed fork leaves of [s0]: the process [dst] without regions. *)
Definition undone s0 (dst : nat) vd s : Prop :=
  exists k w, s = with_next_id k (with_world w (with_procs (<[dst := with_tree avl_empty vd]> (procs s0)) s0)).

(** Freeing the regions of a forked process undoes the fork. *)
Lemma forked_undo s0 dst vd l l1 l2 s : forkable s0 l -> l = l1 ++ l2 -> forked s0 dst vd l1 s ->
  (forall x, x ∈ l -> vr_length x.2 < 2 ^ 32) -> (dst < length (procs s0))%nat ->
  exists t l', procs s !! dst = Some (with_tree t vd) /\ avl_elems t = entry <$> l' /\ freeable_all s l' /\
    forall w, undone s0 dst vd (without s dst (with_tree t vd) avl_empty l' w).
Proof.
  intros Hfa Hl [Hr Hp Hb (t & l' & Hpr & Hel & Hcp & (H1 & H2 & H3 & H4)) (k & w0 & Hs)] Hlt Hdst.
  exists t, l'. split; [by rewrite Hpr; apply list_lookup_insert_eq|]. split; [done|].
  assert (Hin : forall x, x ∈ l1 -> x ∈ l) by (intros x Hx; rewrite Hl; apply elem_of_app; by left).
  assert (Hrefs : all_refs s l' = all_refs s0 l1).
  { clear -Hcp Hin Hfa. induction Hcp as [|x x' l1 l' Hc _ IH]; [done|]. unfold all_refs in IH |- *. cbn.
    rewrite IH by (intros y Hy; apply Hin; by right). f_equal.
    destruct Hc as (_ & _ & _ & Hlen & _ & _ & _ & _ & Hc). unfold npages. rewrite Hlen. fold (npages x.2).
    apply (refs_copied s0 s (npages x.2) (npages x.2)); [|done|done]. apply (fa_pages _ _ Hfa). apply Hin. by left. }
  assert (Hpos : forall b, b ∈ all_refs s0 l1 -> exists blk, phys_blocks s0 !! b = Some blk /\ 0 < refcount blk).
  { intros b (x & Hb' & Hx)%list_elem_of_bind. by eapply shareable_blocks; [apply (fa_pages _ _ Hfa); apply Hin|]. }
  split.
  - destruct (copies_heap _ _ _ _ _ Hcp) as [Hreg _]. split; [done|done| | |done].
    + intros x' Hx'. apply list_elem_of_lookup in Hx' as [i Hi].
      destruct (Forall2_lookup_r _ _ _ _ _ Hcp Hi) as (x & Hx & Hc). apply list_elem_of_lookup_2, Hin in Hx.
      assert (Hn := copy_n_pages _ _ _ _ _ _ Hc (proj1 (fa_pages _ _ Hfa x Hx))).
      destruct Hc as (_ & _ & _ & Hlen & _). unfold npages. rewrite Hlen. split; [exact Hn|by apply Hlt].
    + rewrite Hrefs, Hb. intros b Hb'. destruct (Hpos b Hb') as (blk & Hlk & Hgt). rewrite bump_lookup, Hlk.
      eexists. split; [done|]. cbn. lia.
  - intros w. exists k, w. apply vm_ext; try (rewrite Hs; reflexivity).
    + cbn [regions without with_world with_regions with_phys_regions with_phys_blocks with_procs]. by rewrite H3.
    + cbn [phys_regions without with_world with_regions with_phys_regions with_phys_blocks with_procs]. by rewrite H4.
    + cbn [phys_blocks without with_world with_regions with_phys_regions with_phys_blocks with_procs].
      rewrite Hrefs, Hb. by apply unbump_bump.
    + cbn [procs without with_world with_regions with_phys_regions with_phys_blocks with_procs with_next_id].
      by rewrite Hpr, list_insert_insert_eq.
Qed.

(** A round that fails frees what was copied. *)
Lemma fork_undo_rule {A} (free : nat -> M W RT YT A) s0 dst vd l l1 l2 s (Q : Z -> vm W RT YT -> Prop) :
  forkable s0 l -> l = l1 ++ l2 -> forked s0 dst vd l1 s -> (forall x, x ∈ l -> vr_length x.2 < 2 ^ 32) ->
  (dst < length (procs s0))%nat -> (forall s1, undone s0 dst vd s1 -> wp (free dst) s1 (fun _ s' => Q OK s')) ->
  wp (map_free_proc free dst) s Q.
Proof.
  intros Hfa Hl Hf Hlt Hdst HQ. destruct (forked_undo _ _ _ _ _ _ _ Hfa Hl Hf Hlt Hdst) as (t & l' & Hp & Hel & Hfr & Hun).
  apply (map_free_proc_rule free s dst (with_tree t vd) l'); [done..|]. intros w. by apply HQ.
Qed.

(** One round of [map_proc_copy_from]. *)
Lemma fork_round {A} (free : nat -> M W RT YT A) s0 dst vd l l1 x l2 s (Qfail : vm W RT YT -> Prop) :
  forkable s0 l -> l = l1 ++ x :: l2 -> procs s0 !! dst = Some vd -> (forall x, x ∈ l -> vr_length x.2 < 2 ^ 32) ->
  (scarce -> forall s1, undone s0 dst vd s1 -> wp (free dst) s1 (fun _ s' => Qfail s')) -> forked s0 dst vd l1 s ->
  wp (newvr ← map_copy_region dst x.1;
      match newvr with
      | None => _ ← map_free_proc free dst; mret (Some ENOMEM)
      | Some newvr =>
          n ← get_vr newvr;
          _ ← put_vr newvr (with_parent dst n);
          td ← get_tree dst;
          _ ← put_tree dst (avl_insert (vaddr n) newvr td);
          v ← get_vr x.1;
          _ ← asserts (vr_length v = vr_length n);
          mret None
      end) s (fun r s' => match r with
        | Some e => scarce /\ e = ENOMEM /\ Qfail s'
        | None => forked s0 dst vd (l1 ++ [x]) s' end).
Proof.
  intros Hfa Hl Hvd Hlt HQ Hf. destruct (forked_next _ _ _ _ _ _ _ _ Hfa Hl Hf) as (Hr & Hsh & _ & Hroom).
  assert (Hx : x ∈ l) by (rewrite Hl; apply elem_of_app; right; by left).
  apply wp_bind. eapply wp_mono; [apply map_copy_region_spec; [done|done|by apply Hlt|done]|].
  intros o s1 [(newvr & nr & -> & Hrc)|(-> & Hsc & Hres)].
  2: { apply wp_bind. eapply wp_mono.
       - apply (fork_undo_rule free s0 dst vd l l1 (x :: l2) s1 (fun _ s' => Qfail s')); [done|done| |done| |by apply HQ].
         + by eapply forked_restored.
         + by eapply lookup_lt_Some.
       - intros e s' He. by apply wp_ret. }
  assert (Hf' := Hf). destruct Hf' as [Hr0 Hp0 Hb0 (t & l' & Hpr & Hel & Hcp & Had) Hrest].
  assert (Hnr : regions s1 !! newvr = Some nr) by (rewrite (rc_regions _ _ _ _ _ _ Hrc); apply lookup_insert_eq).
  assert (Hvd1 : procs s1 !! dst = Some (with_tree t vd)).
  { rewrite (rc_procs _ _ _ _ _ _ Hrc), Hpr. apply list_lookup_insert_eq. by eapply lookup_lt_Some. }
  apply wp_bind, (wp_get_vr _ _ nr); [done|]. apply wp_bind, wp_modify.
  apply wp_bind, (wp_get_tree _ _ (with_tree t vd)); [done|]. apply wp_bind, (wp_put_tree _ _ (with_tree t vd)); [done|].
  apply wp_bind, (wp_get_vr _ _ x.2).
  { cbn. pose proof (rc_fresh _ _ _ _ _ _ Hrc). rewrite lookup_insert_ne by congruence.
    by rewrite (rc_regions _ _ _ _ _ _ Hrc), lookup_insert_ne by congruence. }
  destruct (rc_fields _ _ _ _ _ _ Hrc) as (Hv & Hlen & _). apply wp_bind, wp_asserts; [done|]. apply wp_ret.
  assert (Hlow : forall e, e ∈ entry <$> l' -> e.1 < vaddr nr).
  { intros e (y & -> & Hy)%list_elem_of_fmap. rewrite Hv. cbn.
    assert (Hyv : vaddr y.2 ∈ (fun x : nat * vir_region => vaddr x.2) <$> l1).
    { rewrite <- (copies_vaddr _ _ _ _ _ Hcp). by apply (list_elem_of_fmap_2 (fun x : nat * vir_region => vaddr x.2)). }
    apply list_elem_of_fmap in Hyv as (z & -> & Hz). pose proof (fa_order _ _ Hfa) as Hord. rewrite Hl, fmap_app in Hord.
    apply (StronglySorted_app_1_elem_of _ _ _ (entry z) (entry x) Hord); [by apply list_elem_of_fmap_2|by left]. }
  refine (forked_link s0 dst vd l l1 x l2 s newvr nr s1 t l' Hfa Hl Hvd Hr0 Hp0 Hb0 Hcp Had Hsh Hrc Hpr Hrest _ _).
  cbn [vm_regions_avl with_tree].
  rewrite avl_insert_elems; rewrite ?avl_search_elems, Hel.
  - rewrite fmap_app. rewrite <- (app_nil_r (entry <$> l')) at 1. apply (list_ins_at (vaddr nr) newvr (entry <$> l') []); [exact Hlow|].
    by intros e ?%elem_of_nil.
  - apply list_eq_at_None. intros v Hin. specialize (Hlow _ Hin). cbn in Hlow. lia.
Qed.

(** A copied region can be entered in a page table like the original. *)
Lemma copy_mappable s0 s dst vd l x x' : forkable s0 l -> x ∈ l -> mappable s0 (npages x.2) x.2 -> forked s0 dst vd l s ->
  copy_of s0 s dst x x' -> mappable s (npages x.2) x'.2.
Proof.
  intros Hfa Hx ((Hn & Hblk) & Hal & Hlt) [_ Hp Hb _ _] Hcp. assert (Hn' := copy_n_pages _ _ _ _ _ _ Hcp Hn).
  destruct Hcp as (_ & _ & Hv & Hl & _ & _ & _ & _ & Hc). split; [split; [done|]|by rewrite Hv, Hl].
  intros i p' q' Hi Hp' Hq'. destruct (Hc i Hi) as (o & o' & Ho & Ho' & Hcp). rewrite Hp' in Ho'. injection Ho' as <-.
  destruct o as [p|]; [|done]. destruct Hcp as (q & Hq & _ & Hnew). rewrite Hq' in Hnew. injection Hnew as ->. cbn.
  destruct (Hblk i p q Hi Ho Hq) as (blk & Hlk & Hpos). eexists. rewrite Hb, bump_lookup, Hlk. split; [done|]. cbn.
  pose proof (uses_nonneg (ph q) (all_refs s0 l)). lia.
Qed.

(** The process [src] with the regions [l] can be forked. *)
Definition parent_of s (src : nat) vs l : Prop :=
  procs s !! src = Some vs /\ avl_elems (vm_regions_avl vs) = entry <$> l /\ l <> [] /\ forkable s l /\
  forall x, x ∈ l -> parent x.2 = src /\ vaddr x.2 mod VM_PAGE_SIZE = 0 /\ vr_length x.2 < 2 ^ 32.

(** Both outcomes of a fork: the copies, or what is done about the process that
    could not be copied. *)
Lemma fork_spec {A} (free : nat -> M W RT YT A) s dst src vs vd l (Qfail : vm W RT YT -> Prop) : dst <> src ->
  parent_of s src vs l -> procs s !! dst = Some vd ->
  (scarce -> forall s1, undone s dst vd s1 -> wp (free dst) s1 (fun _ s' => Qfail s')) ->
  wp (map_proc_copy free dst src) s (fun r s' => r = OK /\ forked s dst vd l s' \/ scarce /\ r = ENOMEM /\ Qfail s').
Proof.
  intros Hne (Hvs & Hel & Hnil & Hfa & Hok) Hvd HQ. unfold map_proc_copy. apply wp_bind, (wp_put_tree _ _ vd); [done|].
  set (s0 := with_procs _ s).
  assert (Hvs0 : procs s0 !! src = Some vs) by (cbn; by rewrite list_lookup_insert_ne).
  assert (Hf0 : forked s dst vd [] s0).
  { split; cbn; [done..| |].
    - exists avl_empty, []. split; [done|]. split; [apply avl_empty_elems|]. split; [constructor|]. split_and!; done || constructor.
    - exists (next_id s), (world s). done. }
  destruct l as [|x rest] eqn:E; [done|]. rewrite <- E in *. assert (Hx : x ∈ l) by (rewrite E; by left).
  destruct (Hok x Hx) as (Hpar & _). pose proof (fa_regions _ _ Hfa x Hx) as Hrx.
  unfold map_proc_copy_from. apply wp_bind, (wp_get_tree _ _ vs); [done|].
  assert (Hleast : avl_least (vm_regions_avl vs) = Some (entry x)) by (by rewrite avl_least_elems, Hel, E).
  rewrite Hleast. cbn [fmap option_fmap option_map entry snd]. apply wp_bind, wp_ret, wp_bind, (wp_get_vr _ _ x.2); [done|].
  apply wp_bind, wp_asserts; [done|]. apply wp_bind, wp_asserts.
  { rewrite avl_search_elems. apply list_eq_at_Some; [apply avl_ordered|]. rewrite Hel. by apply (list_elem_of_fmap_2 entry). }
  apply wp_bind. eapply wp_mono.
  { change (Some (vaddr x.2, x.1)) with (Some (entry x)). replace (Some (entry x)) with (head (entry <$> l)) by (by rewrite E).
    apply (wp_for_regions_exit (fun l1 s1 => forked s dst vd l1 s1) (fun e s1 => scarce /\ e = ENOMEM /\ Qfail s1)
      src (vm_regions_avl vs) l _ Hel) with (l1 := []).
    - intros l1 s1 Hf. exists vs. split; [|done]. by rewrite (forked_procs _ _ _ _ _ _ Hf).
    - intros l1 y l2 s1 Hl Hf. apply (fork_round free s dst vd l l1 y l2 s1 Qfail); try done. intros z Hz. by apply Hok.
    - done.
    - rewrite Hel, length_fmap. lia.
    - exact Hf0. }
  intros [e|] s1 Hf; [apply wp_ret; by right|].
  assert (Hf1 := Hf). destruct Hf1 as [Hr Hp Hb (t & l' & Hpr & Hel' & Hcp & Had) Hrest].
  assert (Hmap : forall y, y ∈ l -> mappable s (npages y.2) y.2).
  { intros y Hy. destruct (Hok y Hy) as (_ & Hal & Hlt). split; [by apply Hfa|done]. }
  apply wp_bind. eapply wp_mono.
  { apply (map_writept_spec s1 src vs l); [by rewrite (forked_procs _ _ _ _ _ _ Hf)|split; [done|]|].
    - intros y Hy. eapply lookup_weaken; [by apply Hfa|done].
    - intros y Hy. exists (npages y.2). destruct (Hmap y Hy) as [Hsh Hal]. split; [|done]. by eapply forked_shareable. }
  intros r1 s2 [_ [w2 ->]]. apply wp_bind. eapply wp_mono.
  { apply (map_writept_spec (with_world w2 s1) dst (with_tree t vd) l').
    - cbn. rewrite Hpr. apply list_lookup_insert_eq. by eapply lookup_lt_Some.
    - split; [done|]. intros y' Hy'. by apply (copies_heap _ _ _ _ _ Hcp).
    - intros y' Hy'. apply list_elem_of_lookup in Hy' as [i Hi].
      destruct (Forall2_lookup_r _ _ _ _ _ Hcp Hi) as (y & Hy & Hyy). exists (npages y.2).
      apply list_elem_of_lookup_2 in Hy. by apply (copy_mappable s s1 dst vd l y y' Hfa Hy (Hmap y Hy) Hf). }
  intros r2 s3 [_ [w3 ->]]. apply wp_ret. left. split; [done|]. apply (forked_restored _ _ _ _ s1); [done|].
  by exists (next_id s1), w3.
Qed.

(** The regions [l] of [s] are shared with the process [dst] in [s']: it has a
    copy of each, its pages are new references to the blocks of the originals,
    and everything else is as it was. *)
Definition shared_with s dst l s' : Prop :=
  (exists vd' l', procs s' !! dst = Some vd' /\ avl_elems (vm_regions_avl vd') = entry <$> l' /\
    Forall2 (copy_of s s' dst) l l') /\
  regions s ⊆ regions s' /\ phys_regions s ⊆ phys_regions s' /\ (forall k, k <> dst -> procs s' !! k = procs s !! k) /\
  forall b, phys_blocks s' !! b = (fun blk => PhysBlock (phys blk) (refcount blk + uses b (all_refs s l))) <$> phys_blocks s !! b.

Lemma forked_shared s dst vd l s' : procs s !! dst = Some vd -> forked s dst vd l s' -> shared_with s dst l s'.
Proof.
  intros Hvd Hf. assert (Hf' := Hf). destruct Hf' as [Hr Hp Hb (t & l' & Hpr & Hel & Hcp & _) _].
  split; [|split; [done|split; [done|split]]].
  - exists (with_tree t vd), l'. split; [|done]. rewrite Hpr. apply list_lookup_insert_eq. by eapply lookup_lt_Some.
  - intros k Hk. by eapply forked_procs.
  - intros b. by rewrite Hb, bump_lookup.
Qed.
End fork.
