(* ===== verification/RegionMap.v ===== *)
(** * Mapping memory: [map_pf], [map_handle_memory], [map_page_region] ([region.c])

    A region of anonymous memory gets its pages when they are touched; a page
    that is shared, as after a fork, becomes private when it is written to. *)
From S2P Require Import Prelude StateM DList Avl Region RegionOps RegionSlot RegionUnmap Yielded YieldedInv.
From S2P Require Import YieldBlock RegionFree RegionFork.
Open Scope Z_scope.

(** ** The rest of the server *)

(** [pb_new] makes a block without references, [pb_free] takes one back. *)
Class BlockOk (W RT YT : Type) `{!VmServer W RT YT} `{!ForkOk W RT YT} := {
  pb_new_ok : forall (s : vm W RT YT) a,
    (exists b w, phys_blocks s !! b = None /\
      pb_new a s = Done (Some b, with_world w (with_phys_blocks (<[b := PhysBlock a 0]> (phys_blocks s)) s))) \/
    (scarce /\ exists w, pb_new a s = Done (None, with_world w s));
  pb_free_ok : forall (s : vm W RT YT) b blk, phys_blocks s !! b = Some blk -> refcount blk = 0 ->
    exists w, pb_free b s = Done (tt, with_world w (with_phys_blocks (delete b (phys_blocks s)) s))
}.

(** Private anonymous memory: a page can be written to when it has a frame of its
    own.  A fault on a new page gives its block a frame; a fault on a write to a
    shared page gives the page a new block, a copy.  A fault can fail when memory
    is scarce. *)
Record anonymous {W RT YT} `{!VmHdr} `{!VmServer W RT YT} `{!ForkOk W RT YT} (mt : nat) : Prop := Anonymous {
  an_writable : exists f, writable (mem_types mt) = Some f /\ forall (s : vm W RT YT) p q blk,
    phys_regions s !! p = Some q -> phys_blocks s !! ph q = Some blk ->
    f p s = Done (if decide (phys blk <> MAP_NONE /\ refcount blk = 1) then 1 else 0, s);
  an_fault : exists f, ev_pagefault (mem_types mt) = Some f /\ forall (s : vm W RT YT) vmp region p q blk write,
    phys_regions s !! p = Some q -> phys_blocks s !! ph q = Some blk -> 0 < refcount blk ->
    (scarce /\ exists w, f vmp region p write s = Done (ENOMEM, with_world w s)) \/
    exists a w, a <> MAP_NONE /\
      if decide (phys blk = MAP_NONE) then
        f vmp region p write s = Done (OK, with_world w (with_phys_blocks (<[ph q := PhysBlock a (refcount blk)]> (phys_blocks s)) s))
      else if decide (refcount blk > 1 /\ write <> 0) then exists b, phys_blocks s !! b = None /\
        f vmp region p write s = Done (OK, with_world w
          (with_phys_regions (<[p := PhysRegion b (offset q)]> (phys_regions s))
            (with_phys_blocks (<[b := PhysBlock a 1]> (drop_ref (ph q) (phys_blocks s))) s)))
      else f vmp region p write s = Done (OK, with_world w s)
}.
Arguments anonymous W RT YT {_ _ _} _.

Section touch.
Context {W RT YT : Type} `{!Cmp64} `{!Avl Z nat RT} `{!AvlOk Z nat RT} `{!Avl block_id nat YT} `{!AvlOk block_id nat YT}
  `{!VmHdr} `{!VmServer W RT YT} `{!YieldOk W RT YT} `{!ForkOk W RT YT} `{!UnrefOk W RT YT} `{!BlockOk W RT YT}.
Implicit Types (s : vm W RT YT) (l : list (nat * vir_region)).

(** The pages that are present have their frames. *)
Definition backed s (n : nat) (r : vir_region) : Prop :=
  n_pages s r n /\ forall (i : nat) p q, (i < n)%nat -> physblocks r !! i = Some (Some p) -> phys_regions s !! p = Some q ->
    exists blk, phys_blocks s !! ph q = Some blk /\ 0 < refcount blk /\ phys blk <> MAP_NONE.

(** Page [i] is present and its frame is its own. *)
Definition resident s (r : vir_region) (i : nat) : Prop :=
  exists p q blk, physblocks r !! i = Some (Some p) /\ phys_regions s !! p = Some q /\ phys_blocks s !! ph q = Some blk /\
    phys blk <> MAP_NONE /\ refcount blk = 1.

(** What touching pages does to blocks: they keep their frames and get no new
    references, and those of one page stay as they are. *)
Definition blocks_kept (m m' : gmap nat phys_block) : Prop :=
  forall b blk, m !! b = Some blk -> 0 < refcount blk -> phys blk <> MAP_NONE ->
    exists blk', m' !! b = Some blk' /\ phys blk' = phys blk /\ 0 < refcount blk' <= refcount blk.

Lemma blocks_kept_trans m1 m2 m3 : blocks_kept m1 m2 -> blocks_kept m2 m3 -> blocks_kept m1 m3.
Proof.
  intros H12 H23 b blk Hb Hpos Hn. destruct (H12 b blk Hb Hpos Hn) as (blk' & Hb' & E & Hle).
  destruct (H23 b blk' Hb') as (blk'' & ? & ? & ?); [lia|congruence|]. exists blk''. split; [done|]. split; [congruence|lia].
Qed.

(** The pages of a region have changed, from [r] in [s] to [r'] in [s']; nothing
    else has, but that blocks may have lost references. *)
Record remapped s region (r : vir_region) n r' s' : Prop := Remapped {
  rm_regions : regions s' = <[region := r']> (regions s);
  rm_region : exists pbs, r' = with_physblocks pbs r /\ length pbs = length (physblocks r);
  rm_backed : backed s' n r';
  rm_pages : forall p q, p ∉ page_ptrs n r -> phys_regions s !! p = Some q -> phys_regions s' !! p = Some q;
  rm_ptrs : forall p, p ∈ page_ptrs n r' -> p ∈ page_ptrs n r \/ phys_regions s !! p = None;
  rm_blocks : blocks_kept (phys_blocks s) (phys_blocks s');
  rm_rest : exists w, s' = with_world w (with_regions (regions s')
    (with_phys_regions (phys_regions s') (with_phys_blocks (phys_blocks s') s)))
}.

Lemma remapped_trans s1 region r1 n r2 s2 r3 s3 : remapped s1 region r1 n r2 s2 -> remapped s2 region r2 n r3 s3 ->
  remapped s1 region r1 n r3 s3.
Proof.
  intros [H1 (pbs & E & Hl) H3 H4 H5 H6 (w & H7)] [G1 (pbs' & E' & Hl') G3 G4 G5 G6 (w' & G7)]. split.
  - by rewrite G1, H1, insert_insert_eq.
  - exists pbs'. subst. split; [done|]. by rewrite Hl'.
  - done.
  - intros p q Hp Hq. apply G4; [|by apply H4]. intros [?|?]%H5; [done|congruence].
  - intros p [Hp|Hp]%G5; [by apply H5|]. destruct (decide (p ∈ page_ptrs n r1)) as [|Hn]; [by left|right].
    destruct (phys_regions s1 !! p) as [q|] eqn:Eq; [|done]. by rewrite (H4 p q Hn Eq) in Hp.
  - by eapply blocks_kept_trans.
  - exists w'. rewrite G7, H7. reflexivity.
Qed.

(** One page of a region is touched: it may be present afterwards. *)
Record touch_page s region (r : vir_region) n (i : nat) r' s' : Prop := TouchPage {
  tp_remapped : remapped s region r n r' s';
  tp_only : forall k, k <> i -> physblocks r' !! k = physblocks r !! k;
  tp_resident : forall k, (k < n)%nat -> resident s r k -> resident s' r' k
}.

Lemma touch_page_world s region r n i w : regions s !! region = Some r -> backed s n r ->
  touch_page s region r n i r (with_world w s).
Proof.
  intros Hr Hb. split; [split|done|done]; try done.
  - cbn. by rewrite insert_id.
  - exists (physblocks r). by destruct r.
  - intros p Hp. by left.
  - intros b blk Hlk Hpos _. exists blk. split; [done|]. split; [done|lia].
  - by exists w.
Qed.

(** The results of a page fault can be told apart. *)
Definition distinct_codes : Prop := ENOMEM <> SUSPEND /\ ENOMEM <> OK /\ SUSPEND <> OK.

(** Memory, or the room for page tables, does not last. *)
Definition short : Prop := scarce \/ tables_full.

(** A page with a block is entered in the page table, if there is room for it. *)
Lemma enter_page s vmp region r p i q blk : regions s !! region = Some r -> phys_regions s !! p = Some q ->
  phys_blocks s !! ph q = Some blk -> 0 < refcount blk -> vaddr r mod VM_PAGE_SIZE = 0 -> offset q = Z.of_nat i * VM_PAGE_SIZE ->
  wp (map_ph_writept vmp region p) s (fun x s' => entered x /\ other_world s s').
Proof. intros Hr Hq Hb Hpos Hv Ho. apply (writept_page s vmp region r p q blk); try done. rewrite Ho. apply Z_mod_mult. Qed.

(** The second half of [map_pf] for a write: the page is private already, or gets
    a block or a frame of its own, and is entered in the page table or not; or it is
    lost. *)
Lemma pf_resolve_spec s vmp region r p i q blk write : anonymous W RT YT (memtype r) -> distinct_codes -> write <> 0 ->
  regions s !! region = Some r -> physblocks r !! i = Some (Some p) -> phys_regions s !! p = Some q ->
  offset q = Z.of_nat i * VM_PAGE_SIZE -> phys_blocks s !! ph q = Some blk -> 0 < refcount blk -> vaddr r mod VM_PAGE_SIZE = 0 ->
  (phys blk = MAP_NONE -> refcount blk = 1) ->
  wp (pf_resolve vmp region p write) s (fun x s' => exists w,
    (entered x /\ phys blk <> MAP_NONE /\ refcount blk = 1 /\ s' = with_world w s) \/
    (entered x /\ exists a, phys blk = MAP_NONE /\ a <> MAP_NONE /\
      s' = with_world w (with_phys_blocks (<[ph q := PhysBlock a 1]> (phys_blocks s)) s)) \/
    (entered x /\ exists a b, phys blk <> MAP_NONE /\ 1 < refcount blk /\ a <> MAP_NONE /\ phys_blocks s !! b = None /\
      s' = with_world w (with_phys_regions (<[p := PhysRegion b (offset q)]> (phys_regions s))
            (with_phys_blocks (<[b := PhysBlock a 1]> (drop_ref (ph q) (phys_blocks s))) s))) \/
    (x = ENOMEM /\ scarce /\ (phys blk = MAP_NONE \/ 1 < refcount blk) /\ exists q', s' = with_world w (with_regions (<[region := drop_page i r]> (regions s))
        (with_phys_regions (<[p := q']> (phys_regions s)) (with_phys_blocks (drop_ref (ph q) (phys_blocks s)) s))))).
Proof.
  intros [(fw & Hw & Hfw) (ff & Hf & Hff)] (Hen1 & Hen2 & Hen3) Hwr Hr Hp Hq Ho Hb Hpos Hv Hone. unfold pf_resolve, mem_type_of.
  apply wp_bind, wp_bind, (wp_get_vr _ _ r); [done|]. apply wp_ret, wp_bind. eapply wp_derefs; [exact Hw|].
  rewrite decide_False by done. apply wp_bind, wp_bind. eapply wp_done; [by eapply Hfw|]. apply wp_ret.
  destruct (decide (phys blk <> MAP_NONE /\ refcount blk = 1)) as [[Hn H1]|Hn].
  { rewrite bool_decide_false by done. apply wp_bind, wp_ret. rewrite decide_False by tauto. apply wp_bind.
    eapply wp_mono; [by eapply enter_page|]. intros x s' [Hx [w ->]]. apply wp_ret. exists w. by left. }
  rewrite bool_decide_true by done. apply wp_bind, wp_bind. eapply wp_derefs; [exact Hf|].
  destruct (Hff s vmp region p q blk write Hq Hb Hpos) as [(Hsc & w & E)|(a & w & Ha & E)].
  { apply wp_bind. eapply wp_done; [exact E|]. rewrite decide_False by done. apply wp_ret. rewrite decide_True by done.
    destruct (unref_ok (with_world w s) region p r q i blk Hr Hq Ho Hp Hb Hpos) as (w' & q' & E').
    apply wp_bind. eapply wp_done; [exact E'|]. apply wp_ret. exists w'. right; right; right. split_and!; try done.
    - destruct (decide (phys blk = MAP_NONE)); [by left|right]. destruct (decide (refcount blk = 1)); [tauto|lia].
    - exists q'. done. }
  case_decide as Hnone.
  - apply wp_bind. eapply wp_done; [exact E|]. rewrite decide_False by done. apply wp_ret. rewrite decide_False by tauto.
    rewrite (Hone Hnone) in *. apply wp_bind. eapply wp_mono; [eapply (enter_page _ vmp region r p i q (PhysBlock a 1)); try done; apply lookup_insert_eq|].
    intros x s' [Hx [w' ->]]. apply wp_ret. exists w'. right; left. split; [done|]. by exists a.
  - assert (Hgt : 1 < refcount blk) by (destruct (decide (refcount blk = 1)); [tauto|lia]).
    rewrite decide_True in E by (split; [lia|done]). destruct E as (b & Hfresh & E).
    apply wp_bind. eapply wp_done; [exact E|]. rewrite decide_False by done. apply wp_ret. rewrite decide_False by tauto.
    apply wp_bind. eapply wp_mono; [eapply (enter_page _ vmp region r p i (PhysRegion b (offset q)) (PhysBlock a 1)); try done; apply lookup_insert_eq|].
    intros x s' [Hx [w' ->]]. apply wp_ret. exists w'. right; right; left. split; [done|]. by exists a, b.
Qed.

(** The entry [o] for page [i], with the object [p] that was there or is new. *)
Lemma touch_intro s region r n i o p q' B w : regions s !! region = Some r -> backed s n r -> (i < n)%nat ->
  phys_regions s !! p = None \/ physblocks r !! i = Some (Some p) ->
  match o with
  | Some p' => p' = p /\ offset q' = Z.of_nat i * VM_PAGE_SIZE /\ exists a, a <> MAP_NONE /\ B !! ph q' = Some (PhysBlock a 1)
  | None => ~ resident s r i
  end ->
  blocks_kept (phys_blocks s) B ->
  (forall c blk, phys_blocks s !! c = Some blk -> phys blk <> MAP_NONE -> refcount blk = 1 -> B !! c = Some blk) ->
  let r' := with_physblocks (<[i := o]> (physblocks r)) r in
  touch_page s region r n i r' (with_world w (with_regions (<[region := r']> (regions s))
    (with_phys_regions (<[p := q']> (phys_regions s)) (with_phys_blocks B s)))).
Proof.
  intros Hr [Hn Hbk] Hi Hp Ho Hkeep Hset r'. assert (Hn' := Hn). destruct Hn' as (Hl & Hlb & Hoff).
  assert (Hne : forall k p', (k < n)%nat -> k <> i -> physblocks r !! k = Some (Some p') -> p' <> p).
  { intros k p' Hk Hki Hkp ->. destruct Hp as [Hp|Hp].
    - destruct (Hoff k p Hk Hkp) as (q & Hq & _). congruence.
    - by apply Hki, (n_pages_inj s r n k i p). }
  assert (Hold : forall k, k <> i -> physblocks r' !! k = physblocks r !! k) by (intros k Hk; cbn; by rewrite list_lookup_insert_ne).
  assert (Hnew : physblocks r' !! i = Some o) by (cbn; apply list_lookup_insert_eq; lia).
  split; [split| |].
  - done.
  - exists (<[i := o]> (physblocks r)). split; [done|]. apply length_insert.
  - split; [split; [done|split; [cbn; by rewrite length_insert|]]|].
    + intros k p' Hk Hkp. destruct (decide (k = i)) as [->|Hki].
      * rewrite Hnew in Hkp. injection Hkp as ->. destruct Ho as (-> & Ho & _). exists q'. split; [apply lookup_insert_eq|done].
      * rewrite Hold in Hkp by done. destruct (Hoff k p' Hk Hkp) as (q & Hq & Hqo). exists q. split; [|done].
        cbn. rewrite lookup_insert_ne; [done|]. intros E. by apply (Hne k p').
    + intros k p' q0 Hk Hkp Hq0. cbn in Hq0. destruct (decide (k = i)) as [->|Hki].
      * rewrite Hnew in Hkp. injection Hkp as ->. destruct Ho as (-> & _ & a & Ha & Hb).
        rewrite lookup_insert_eq in Hq0. injection Hq0 as <-. exists (PhysBlock a 1). by split_and!.
      * rewrite Hold in Hkp by done. rewrite lookup_insert_ne in Hq0 by (intros E; by apply (Hne k p')).
        destruct (Hbk k p' q0 Hk Hkp Hq0) as (blk & Hb & Hpos & Hnn). destruct (Hkeep _ _ Hb Hpos Hnn) as (blk' & Hb' & E & Hle).
        exists blk'. split; [done|]. split; [lia|congruence].
  - intros p' q0 Hp' Hq0. cbn. rewrite lookup_insert_ne; [done|]. intros <-. destruct Hp as [Hp|Hp]; [congruence|].
    apply Hp'. apply elem_of_page_ptrs. by exists i.
  - intros p' (k & Hk & Hkp)%elem_of_page_ptrs. destruct (decide (k = i)) as [->|Hki].
    + rewrite Hnew in Hkp. injection Hkp as ->. destruct Ho as [-> _]. destruct Hp as [Hp|Hp]; [by right|left].
      apply elem_of_page_ptrs. by exists i.
    + left. apply elem_of_page_ptrs. exists k. by rewrite Hold in Hkp.
  - done.
  - by exists w.
  - done.
  - intros k Hk Hres. destruct (decide (k = i)) as [->|Hki].
    + destruct o as [p'|]; [|done]. destruct Ho as (-> & _ & a & Ha & Hb). exists p, q', (PhysBlock a 1). split_and!; try done.
      apply lookup_insert_eq.
    + destruct Hres as (p' & q0 & blk & Hkp & Hq0 & Hb & Hnn & H1). exists p', q0, blk. rewrite Hold by done. split_and!; try done.
      * cbn. rewrite lookup_insert_ne; [done|]. intros E. by apply (Hne k p').
      * by apply Hset.
Qed.

Lemma blocks_kept_new m b blk : m !! b = None -> blocks_kept m (<[b := blk]> m).
Proof.
  intros Hb c blk' Hc Hpos _. exists blk'. rewrite lookup_insert_ne by congruence. split; [done|]. split; [done|lia].
Qed.

Lemma blocks_kept_drop m b blk : m !! b = Some blk -> 1 < refcount blk -> blocks_kept m (drop_ref b m).
Proof.
  intros Hb Hgt c blk' Hc Hpos _. rewrite drop_ref_lookup. case_decide as Hd; [|exists blk'; split; [done|split; [done|lia]]].
  subst. rewrite Hb in Hc. injection Hc as <-. rewrite Hb. cbn. rewrite decide_False by lia. eexists. split; [done|]. split; [done|cbn; lia].
Qed.

Lemma blocks_kept_refl m : blocks_kept m m.
Proof. intros b blk Hb Hpos _. exists blk. split; [done|]. split; [done|lia]. Qed.

(** A fault on a write to page [i]: the page has a frame of its own, and the result
    tells whether it is in the page table, too; or it is not there. *)
Definition faulted s region r n i (x : Z) s' : Prop :=
  exists r', touch_page s region r n i r' s' /\
    (entered x /\ resident s' r' i \/ scarce /\ x = ENOMEM /\ physblocks r' !! i = Some None).

Lemma map_pf_present s vmp region r n i p write : anonymous W RT YT (memtype r) -> distinct_codes -> write <> 0 ->
  regions s !! region = Some r -> backed s n r -> (i < n)%nat -> vaddr r mod VM_PAGE_SIZE = 0 ->
  physblocks r !! i = Some (Some p) -> wp (pf_resolve vmp region p write) s (faulted s region r n i).
Proof.
  intros Han Hcodes Hwr Hr Hb Hi Hv Hp. assert (Hb' := Hb). destruct Hb' as [(Hl & Hlb & Hoff) Hbk].
  destruct (Hoff i p Hi Hp) as (q & Hq & Hqo). destruct (Hbk i p q Hi Hp Hq) as (blk & Hblk & Hpos & Hnn).
  eapply wp_mono; [by apply (pf_resolve_spec s vmp region r p i q blk write)|].
  intros x s' (w & [(Hx & _ & H1 & ->)|[(_ & a & Hno & _)|[(Hx & a & b & _ & Hgt & Ha & Hfr & ->)|(-> & Hsc & Hgt & q' & ->)]]]); [..|].
  - exists r. split; [by apply touch_page_world|]. left. split; [done|]. by exists p, q, blk.
  - done.
  - assert (Eg : with_physblocks (<[i := Some p]> (physblocks r)) r = r) by (rewrite list_insert_id by done; by destruct r).
    assert (Hne : b <> ph q) by congruence. exists r. split.
    + pose proof (touch_intro s region r n i (Some p) p (PhysRegion b (offset q)) (<[b := PhysBlock a 1]> (drop_ref (ph q) (phys_blocks s))) w Hr Hb Hi) as Ht.
      cbn zeta in Ht. rewrite Eg, (insert_id (regions s)) in Ht by done. apply Ht; clear Ht.
      * by right.
      * split; [done|]. split; [done|]. exists a. split; [done|]. apply lookup_insert_eq.
      * eapply blocks_kept_trans; [by eapply blocks_kept_drop|]. apply blocks_kept_new. rewrite drop_ref_lookup. by rewrite decide_False.
      * intros c blk' Hc Hnn' H1. assert (c <> b) by congruence. assert (c <> ph q) by (intros ->; rewrite Hblk in Hc; injection Hc as <-; lia).
        by rewrite lookup_insert_ne, drop_ref_lookup, decide_False by congruence.
    + left. split; [done|]. exists p, (PhysRegion b (offset q)), (PhysBlock a 1). split_and!; try done; apply lookup_insert_eq.
  - destruct Hgt as [?|Hgt]; [done|]. exists (drop_page i r). split.
    + apply (touch_intro s region r n i None p); try done.
      * by right.
      * intros (p' & q0 & blk' & Hp' & Hq0 & Hb0 & _ & H1). rewrite Hp in Hp'. injection Hp' as <-.
        rewrite Hq in Hq0. injection Hq0 as <-. rewrite Hblk in Hb0. injection Hb0 as <-. lia.
      * by eapply blocks_kept_drop.
      * intros c blk' Hc _ H1. rewrite drop_ref_lookup, decide_False by (intros <-; rewrite Hblk in Hc; injection Hc as <-; lia). done.
    + right. split; [done|]. split; [done|]. cbn. apply list_lookup_insert_eq. lia.
Qed.

Lemma map_pf_absent s vmp region r n i write w : anonymous W RT YT (memtype r) -> distinct_codes -> write <> 0 ->
  regions s !! region = Some r -> backed s n r -> (i < n)%nat -> vaddr r mod VM_PAGE_SIZE = 0 -> physblocks r !! i = Some None ->
  forall p b, phys_regions s !! p = None -> phys_blocks s !! b = None ->
  wp (pf_resolve vmp region p write) (with_world w (with_regions (<[region := give_page i p r]> (regions s))
      (with_phys_regions (<[p := PhysRegion b (Z.of_nat i * VM_PAGE_SIZE)]> (phys_regions s))
        (with_phys_blocks (<[b := PhysBlock MAP_NONE 1]> (phys_blocks s)) s)))) (faulted s region r n i).
Proof.
  intros Han Hcodes Hwr Hr Hb Hi Hv Ho p b Hp Hbn. assert (Hb' := Hb). destruct Hb' as [(Hl & Hlb & Hoff) Hbk].
  assert (Hgive : physblocks (give_page i p r) !! i = Some (Some p)) by (cbn; apply list_lookup_insert_eq; lia).
  assert (Hset : forall c blk blk', phys_blocks s !! c = Some blk -> <[b := blk']> (phys_blocks s) !! c = Some blk).
  { intros c blk blk' Hc. by rewrite lookup_insert_ne by congruence. }
  eapply wp_mono; [apply (pf_resolve_spec _ vmp region (give_page i p r) p i (PhysRegion b (Z.of_nat i * VM_PAGE_SIZE)) (PhysBlock MAP_NONE 1) write);
    try done; apply lookup_insert_eq|].
  intros x s' (w' & [(_ & Hno & _)|[(Hx & a & _ & Ha & ->)|[(_ & a & c & Hno & _)|(-> & Hsc & _ & q' & ->)]]]); [done| |done|].
  - exists (give_page i p r). split.
    + assert (Ht := touch_intro s region r n i (Some p) p (PhysRegion b (Z.of_nat i * VM_PAGE_SIZE)) (<[b := PhysBlock a 1]> (phys_blocks s)) w' Hr Hb Hi).
      cbn zeta in Ht. eapply eq_ind; [apply Ht|]; clear Ht.
      * by left.
      * split; [done|]. split; [done|]. exists a. split; [done|]. apply lookup_insert_eq.
      * by apply blocks_kept_new.
      * intros c blk Hc _ _. by apply Hset.
      * apply vm_ext; try reflexivity. cbn. by rewrite insert_insert_eq.
    + left. split; [done|]. exists p, (PhysRegion b (Z.of_nat i * VM_PAGE_SIZE)), (PhysBlock a 1). split_and!; try done; apply lookup_insert_eq.
  - exists (drop_page i (give_page i p r)). split.
    + assert (Ht := touch_intro s region r n i None p q' (phys_blocks s) w' Hr Hb Hi). cbn zeta in Ht.
      assert (E : with_physblocks (<[i := None]> (physblocks r)) r = drop_page i (give_page i p r)).
      { unfold drop_page, give_page, with_physblocks. cbn. by rewrite list_insert_insert_eq. }
      rewrite E in Ht. eapply eq_ind; [apply Ht|]; clear Ht.
      * by left.
      * intros (p' & _ & _ & Hp' & _). congruence.
      * apply blocks_kept_refl.
      * done.
      * apply vm_ext; try reflexivity; cbn [regions phys_regions phys_blocks with_world with_regions with_phys_regions with_phys_blocks ph].
        -- by rewrite insert_insert_eq.
        -- by rewrite insert_insert_eq.
        -- unfold drop_ref. rewrite lookup_insert_eq. cbn. by rewrite delete_insert_id.
    + right. split; [done|]. split; [done|]. cbn. apply list_lookup_insert_eq. rewrite length_insert. lia.
Qed.

(** [map_pf] at page [i]. *)
Lemma map_pf_page s vmp region r n i o write (Q : Z -> vm W RT YT -> Prop) : Z.land (vr_flags r) VR_WRITABLE <> 0 ->
  regions s !! region = Some r -> n_pages s r n -> (i < n)%nat -> vaddr r mod VM_PAGE_SIZE = 0 -> physblocks r !! i = Some o ->
  wp (match o with Some p => pf_resolve vmp region p write | None => pf_new vmp region (Z.of_nat i * VM_PAGE_SIZE) write end) s Q ->
  wp (map_pf vmp region (Z.of_nat i * VM_PAGE_SIZE) write) s Q.
Proof.
  intros Hfl Hr Hn Hi Hv Ho HQ. assert (Hl := proj1 Hn). unfold map_pf.
  assert (E : Z.of_nat i * VM_PAGE_SIZE - (Z.of_nat i * VM_PAGE_SIZE) mod VM_PAGE_SIZE = Z.of_nat i * VM_PAGE_SIZE)
    by (unfold VM_PAGE_SIZE; rewrite Z_mod_mult; lia). rewrite E. clear E.
  apply wp_bind, (wp_get_vr _ _ r); [done|]. apply wp_bind, wp_asserts; [unfold VM_PAGE_SIZE; lia|].
  apply wp_bind, wp_asserts; [rewrite Hl; unfold VM_PAGE_SIZE; lia|]. apply wp_bind, wp_asserts; [done|]. apply wp_bind, wp_asserts; [tauto|].
  apply wp_bind. eapply wp_done; [by eapply physblock_get_nth|]. exact HQ.
Qed.

(** A write to page [i] of [n]. *)
Lemma map_pf_spec s vmp region r n i write : anonymous W RT YT (memtype r) -> distinct_codes -> write <> 0 ->
  Z.land (vr_flags r) VR_WRITABLE <> 0 -> regions s !! region = Some r -> backed s n r -> (i < n)%nat -> vaddr r mod VM_PAGE_SIZE = 0 ->
  wp (map_pf vmp region (Z.of_nat i * VM_PAGE_SIZE) write) s (faulted s region r n i).
Proof.
  intros Han Hcodes Hwr Hfl Hr Hb Hi Hv. assert (Hn := proj1 Hb). assert (Hlb := proj1 (proj2 Hn)).
  destruct (lookup_lt_is_Some_2 (physblocks r) i) as [o Ho]; [lia|].
  eapply map_pf_page; [done..|]. destruct o as [p|]; [by apply map_pf_present|]. unfold pf_new.
  assert (Hfail : scarce -> forall w, faulted s region r n i ENOMEM (with_world w s)).
  { intros Hsc w. exists r. split; [by apply touch_page_world|]. by right. }
  destruct (pb_new_ok s MAP_NONE) as [(b & w & Hfb & E)|(Hsc & w & E)].
  2: { apply wp_bind. eapply wp_done; [exact E|]. apply wp_ret. by apply Hfail. }
  apply wp_bind. eapply wp_done; [exact E|].
  set (s1 := with_world w (with_phys_blocks (<[b := PhysBlock MAP_NONE 0]> (phys_blocks s)) s)).
  assert (Hb1 : phys_blocks s1 !! b = Some (PhysBlock MAP_NONE 0)) by apply lookup_insert_eq.
  destruct (pb_reference_ok s1 b _ region r i Hb1 ltac:(done) Hr Ho) as [(p & w' & Hfp & E')|(Hsc & w' & E')].
  - apply wp_bind. eapply wp_done; [exact E'|].
    pose proof (map_pf_absent s vmp region r n i write w' Han Hcodes Hwr Hr Hb Hi Hv Ho p b Hfp Hfb) as Hpf.
    match type of Hpf with wp _ ?t _ => match goal with |- wp _ ?u _ => assert (u = t) as -> end end; [|exact Hpf].
    apply vm_ext; try reflexivity. cbn. by rewrite insert_insert_eq.
  - apply wp_bind. eapply wp_done; [exact E'|].
    destruct (pb_free_ok (with_world w' s1) b (PhysBlock MAP_NONE 0) Hb1 eq_refl) as (w'' & E'').
    apply wp_bind. eapply wp_done; [exact E''|]. apply wp_ret.
    assert (Ew : with_world w'' (with_phys_blocks (delete b (phys_blocks (with_world w' s1))) (with_world w' s1)) = with_world w'' s).
    { apply vm_ext; try reflexivity. cbn. by rewrite delete_insert_id. }
    rewrite Ew. by apply Hfail.
Qed.

(** [map_handle_memory] with writes to the pages [a] to [b] of [n]. *)
Lemma handle_memory_spec s vmp region r n a b write : anonymous W RT YT (memtype r) -> distinct_codes -> write <> 0 ->
  Z.land (vr_flags r) VR_WRITABLE <> 0 -> regions s !! region = Some r -> backed s n r -> (a < b <= n)%nat ->
  vaddr r mod VM_PAGE_SIZE = 0 -> vr_length r < 2 ^ 32 ->
  wp (map_handle_memory vmp region (Z.of_nat a * VM_PAGE_SIZE) (Z.of_nat (b - a) * VM_PAGE_SIZE) write) s (fun x s' =>
    exists r', remapped s region r n r' s' /\ (forall k, (k < a \/ b <= k)%nat -> physblocks r' !! k = physblocks r !! k) /\
      (x = OK /\ (forall k, (a <= k < b)%nat -> resident s' r' k) \/ short /\ x = ENOMEM)).
Proof.
  intros Han Hcodes Hwr Hfl Hr Hb Hab Hv Hlt. assert (Hl := proj1 (proj1 Hb)). unfold map_handle_memory, VM_PAGE_SIZE in *.
  apply wp_bind, wp_asserts; [lia|].
  replace (u32 (Z.of_nat a * 4096 + Z.of_nat (b - a) * 4096)) with (Z.of_nat b * VM_PAGE_SIZE) by (unfold VM_PAGE_SIZE; rewrite u32_small; lia).
  apply wp_bind, wp_asserts; [unfold VM_PAGE_SIZE; lia|]. apply wp_bind. change (Z.of_nat a * 4096) with (Z.of_nat a * VM_PAGE_SIZE).
  set (Inv := fun j s' => (a <= j)%nat /\ exists r', remapped s region r n r' s' /\ (forall k, (k < a \/ j <= k)%nat -> physblocks r' !! k = physblocks r !! k) /\
    forall k, (a <= k < j)%nat -> resident s' r' k).
  set (Exit := fun e s' => short /\ e = ENOMEM /\ exists r', remapped s region r n r' s' /\
    forall k, (k < a \/ b <= k)%nat -> physblocks r' !! k = physblocks r !! k).
  eapply wp_mono.
  { apply (wp_for_pages_exit Inv Exit (mret (Z.of_nat b * VM_PAGE_SIZE)) _ b); [unfold VM_PAGE_SIZE; lia|done| |lia|apply page_fuel_enough; lia|].
    - intros j s1 Hj (Haj & r1 & Hrm & Hsame & Hres). assert (Hrm' := Hrm). destruct Hrm' as [Hreg (pbs & E & Hpl) Hbk _ _ _ _].
      assert (Hr1 : regions s1 !! region = Some r1) by (rewrite Hreg; apply lookup_insert_eq).
      apply wp_bind. eapply wp_mono; [apply (map_pf_spec s1 vmp region r1 n j write); subst r1; try done; lia|].
      intros x s2 (r2 & [Hrm2 Honly Hres2] & Hx). assert (Hall := remapped_trans _ _ _ _ _ _ _ _ Hrm Hrm2).
      assert (Hx' : x = OK /\ resident s2 r2 j \/ short /\ x = ENOMEM) by (unfold short; destruct Hx as [[[->|[? ->]] ?]|(? & -> & _)]; tauto).
      destruct Hx' as [[-> Hj2]|[Hsc ->]]; apply wp_ret.
      + rewrite decide_False by tauto. split; [lia|]. exists r2. split; [done|]. split.
        * intros k Hk. rewrite Honly by lia. apply Hsame. lia.
        * intros k Hk. destruct (decide (k = j)) as [->|]; [done|]. apply Hres2; [lia|]. apply Hres. lia.
      + rewrite decide_True by apply Hcodes. split; [done|]. split; [done|]. exists r2. split; [done|].
        intros k Hk. rewrite Honly by lia. apply Hsame. lia.
    - split; [lia|]. exists r. split; [|split; [done|intros k Hk; lia]]. pose proof (tp_remapped _ _ _ _ _ _ _ (touch_page_world s region r n 0 (world s) Hr Hb)) as H1.
      replace s with (with_world (world s) s) at 2 by by destruct s. done. }
  intros [e|] s1 Hs1; apply wp_ret.
  - destruct Hs1 as (Hsc & -> & r1 & Hrm & Hsame). exists r1. split; [done|]. split; [done|]. by right.
  - destruct Hs1 as (_ & r1 & Hrm & Hsame & Hres). exists r1. split; [done|]. split; [done|]. by left.
Qed.

(** ** [map_page_region] *)

Lemma stacked_insert lo hi (l1 : list vir_region) r (l2 : list vir_region) : stacked lo hi (l1 ++ l2) -> lo <= vaddr r -> 0 < vr_length r ->
  vaddr r + vr_length r <= hi -> (forall y, y ∈ l1 -> vaddr y + vr_length y <= vaddr r) ->
  (forall y, y ∈ l2 -> vaddr r + vr_length r <= vaddr y) -> stacked lo hi (l1 ++ r :: l2).
Proof.
  revert lo. induction l1 as [|x l1 IH]; intros lo Hst Hlo Hpos Hhi H1 H2; cbn in *.
  - split_and!; try done. destruct l2 as [|y l2]; cbn in *; [done|]. destruct Hst as (_ & ? & ?). split; [|done]. apply H2. by left.
  - destruct Hst as (? & ? & Hst). split_and!; try done. apply IH; try done; [apply H1; by left|]. intros y Hy. apply H1. by right.
Qed.

(** A region in a free place takes its place between the others. *)
Lemma has_regions_insert lo s vmp vp l p r s' : has_regions lo s vmp vp l -> lo <= vaddr r -> 0 < vr_length r ->
  vaddr r + vr_length r <= VM_DATATOP -> (forall y, y ∈ l.*2 -> apart (vaddr r) (vr_length r) y) ->
  regions s !! p = None -> regions s' = <[p := r]> (regions s) -> forall vp0, vm_regions_avl vp0 = vm_regions_avl vp ->
  procs s' !! vmp = Some (with_tree (avl_insert (vaddr r) p (vm_regions_avl vp)) vp0) ->
  exists l1 l2, l = l1 ++ l2 /\
    has_regions lo s' vmp (with_tree (avl_insert (vaddr r) p (vm_regions_avl vp)) vp0) (l1 ++ (p, r) :: l2).
Proof.
  intros [Hp Hel Hh Hst] Hlo Hpos Hhi Hap Hfresh Hreg vp0 Etree Hp'.
  destruct (tree_of_split s (vm_regions_avl vp) l (vaddr r)) as (l1 & l2 & -> & Hlt & Hge & _); [by split|].
  exists l1, l2. split; [done|]. rewrite fmap_app in *.
  assert (H1 : forall y, y ∈ l1.*2 -> vaddr y + vr_length y <= vaddr r).
  { intros y Hy. assert (Hy' := Hy). apply list_elem_of_fmap in Hy' as (x & -> & Hx). specialize (Hlt x Hx).
    destruct (Hap x.2) as [?|?]; [by apply elem_of_app; left|lia|done]. }
  assert (H2 : forall y, y ∈ l2.*2 -> vaddr r + vr_length r <= vaddr y).
  { intros y Hy. assert (Hin : y ∈ l1.*2 ++ l2.*2) by by apply elem_of_app; right.
    assert (Hy' := Hy). apply list_elem_of_fmap in Hy' as (x & -> & Hx). specialize (Hge x Hx).
    destruct (Hap x.2 Hin) as [?|?]; [done|]. destruct (stacked_in _ _ _ _ Hst Hin) as (_ & ? & _). lia. }
  assert (Hk1 : forall e, e ∈ entry <$> l1 -> key_lt e.1 (vaddr r)) by (intros e (x & -> & Hx)%list_elem_of_fmap; by apply Hlt).
  assert (Hk2 : forall e, e ∈ entry <$> l2 -> key_lt (vaddr r) e.1).
  { intros e (x & -> & Hx)%list_elem_of_fmap. specialize (H2 x.2 ltac:(by apply list_elem_of_fmap_2)). cbn. lia. }
  split.
  - exact Hp'.
  - cbn [vm_regions_avl with_tree]. rewrite avl_insert_elems, Hel, fmap_app, fmap_app, fmap_cons; [by apply list_ins_at|].
    rewrite avl_search_elems, Hel, fmap_app. apply list_eq_at_None. intros v [Hv|Hv]%elem_of_app.
    + by apply (key_lt_irrefl (vaddr r)), (Hk1 _ Hv).
    + by apply (key_lt_irrefl (vaddr r)), (Hk2 _ Hv).
  - rewrite Hreg. intros x [Hx|[->|Hx]%elem_of_cons]%elem_of_app; [|apply lookup_insert_eq|];
      (rewrite lookup_insert_ne; [apply Hh; apply elem_of_app; auto|]; intros ->; rewrite (Hh x) in Hfresh; [done|apply elem_of_app; auto]).
  - rewrite fmap_app, fmap_cons. by apply stacked_insert.
Qed.

(** The new region: [n] pages at [v]. *)
Definition mapped s (vmp : nat) v n flags mt (pbs : list (option nat)) : vir_region :=
  VirRegion v (Z.of_nat n * VM_PAGE_SIZE) pbs (Z.land flags (Z.lnot VR_UNINITIALIZED)) mt 0 (next_id s) vmp.

(** What [map_page_region] does for a request of [n] pages: there is no place and
    nothing happens; or memory is short and no region is added; or the new region
    lies in a free place of the range asked for and has its pages if they were
    asked for, and everything else is as it was. *)
Definition mmap_result s vmp vp lo l minv maxv n flags (prealloc : bool) mt (o : option nat) s' : Prop :=
  let len := Z.of_nat n * VM_PAGE_SIZE in
  match o with
  | None =>
      (place minv (search_end minv maxv len) len l.*2 None /\ s' = s) \/
      (short /\ regions s' = regions s /\ exists top, procs s' = <[vmp := with_top top vp]> (procs s))
  | Some p => exists v pbs l1 l2 vp', l = l1 ++ l2 /\ regions s !! p = None /\
      place minv (search_end minv maxv len) len l.*2 (Some v) /\
      regions s' = <[p := mapped s vmp v n flags mt pbs]> (regions s) /\
      has_regions lo s' vmp vp' (l1 ++ (p, mapped s vmp v n flags mt pbs) :: l2) /\
      backed s' n (mapped s vmp v n flags mt pbs) /\
      (if prealloc then forall k, (k < n)%nat -> resident s' (mapped s vmp v n flags mt pbs) k else pbs = replicate n None) /\
      phys_regions s ⊆ phys_regions s' /\ blocks_kept (phys_blocks s) (phys_blocks s') /\
      forall k, k <> vmp -> procs s' !! k = procs s !! k
  end.

(** The caller's part. *)
Record mmap_ok s vmp vp lo l minv maxv n flags (mapflags : Z) mt : Prop := MmapOk {
  mo_regions : has_regions lo s vmp vp l;
  mo_low : VM_PAGE_SIZE <= lo <= minv;
  mo_high : VM_DATATOP < 2 ^ 32 - VM_PAGE_SIZE;
  mo_request : request minv maxv (Z.of_nat n * VM_PAGE_SIZE);
  mo_hint : vm_region_top vp < 2 ^ 32 /\ (maxv = 0 \/ vm_region_top vp <> minv);
  mo_paged : paged minv /\ paged maxv /\ paged VM_DATATOP /\ paged (vm_region_top vp) /\
    forall p r, regions s !! p = Some r -> paged (vaddr r);
  mo_type : ev_new (mem_types mt) = None;
  mo_prealloc : Z.land mapflags MF_PREALLOC <> 0 -> anonymous W RT YT mt /\ distinct_codes /\ Z.land flags VR_WRITABLE <> 0
}.

Lemma absent_pages s v n flags mt id vmp : backed s n (VirRegion v (Z.of_nat n * VM_PAGE_SIZE) (replicate n None) flags mt 0 id vmp).
Proof.
  split; [split; [done|split; [cbn; by rewrite length_replicate|]]|]; intros i p; cbn; [intros Hi|intros q Hi];
    by rewrite lookup_replicate_2.
Qed.

(** The pages of the new region. *)
Lemma prealloc_spec s vmp p r n mapflags : (Z.land mapflags MF_PREALLOC <> 0 ->
    anonymous W RT YT (memtype r) /\ distinct_codes /\ Z.land (vr_flags r) VR_WRITABLE <> 0) ->
  regions s !! p = Some r -> backed s n r -> (0 < n)%nat -> paged (vaddr r) -> vr_length r < 2 ^ 32 ->
  wp (if decide (Z.land mapflags MF_PREALLOC <> 0) then map_handle_memory vmp p 0 (Z.of_nat n * VM_PAGE_SIZE) 1 else mret OK) s
    (fun x s' => exists r', remapped s p r n r' s' /\
      (x = OK /\ (if decide (Z.land mapflags MF_PREALLOC <> 0) then forall k, (k < n)%nat -> resident s' r' k else r' = r) \/
       short /\ x = ENOMEM /\ ENOMEM <> OK)).
Proof.
  intros Hpre Hr Hb Hn Hv Hlt. case_decide as Hd.
  - destruct (Hpre Hd) as (Han & Hcodes & Hfl). change 0 with (Z.of_nat 0 * VM_PAGE_SIZE). rewrite <- (Nat.sub_0_r n) at 1.
    eapply wp_mono; [apply (handle_memory_spec s vmp p r n 0 n 1); try done; lia|].
    intros x s' (r' & Hrm & _ & [[-> Hres]|[Hsc ->]]); exists r'; (split; [done|]); [left|right].
    + split; [done|]. intros k Hk. apply Hres. lia.
    + split; [done|]. split; [done|apply Hcodes].
  - apply wp_ret. exists r. split; [|by left]. pose proof (tp_remapped _ _ _ _ _ _ _ (touch_page_world s p r n 0 (world s) Hr Hb)) as H1.
    by replace s with (with_world (world s) s) at 2 by by destruct s.
Qed.

(** The last lines: the new region is in the tree. *)
Lemma mmap_linked s vmp vp lo l minv maxv n flags (prealloc : bool) mt p v pbs s4 : let len := Z.of_nat n * VM_PAGE_SIZE in
  has_regions lo s vmp vp l -> lo <= minv -> 0 < len -> place minv (search_end minv maxv len) len l.*2 (Some v) ->
  regions s !! p = None -> regions s4 = <[p := mapped s vmp v n flags mt pbs]> (regions s) ->
  procs s4 = <[vmp := with_tree (avl_insert v p (vm_regions_avl vp)) (with_top (v + len) vp)]> (procs s) ->
  backed s4 n (mapped s vmp v n flags mt pbs) ->
  (if prealloc then forall k, (k < n)%nat -> resident s4 (mapped s vmp v n flags mt pbs) k else pbs = replicate n None) ->
  phys_regions s ⊆ phys_regions s4 -> blocks_kept (phys_blocks s) (phys_blocks s4) ->
  mmap_result s vmp vp lo l minv maxv n flags prealloc mt (Some p) s4.
Proof.
  intros len Hl Hlo Hlen Hpl Hfresh Hr4 Hpr4 Hbk Hres Hpg Hblk. assert (Hpl' := Hpl). destruct Hpl' as (Hv1 & Hv2 & Hv3 & Hap).
  destruct (has_regions_insert lo s vmp vp l p (mapped s vmp v n flags mt pbs) s4 Hl) with (vp0 := with_top (v + len) vp)
    as (l1 & l2 & -> & Hl4); [cbn; lia|done|done|exact Hap|done|exact Hr4|done|..].
  { rewrite Hpr4. apply list_lookup_insert_eq. eapply lookup_lt_Some, Hl. }
  exists v, pbs, l1, l2. eexists. split_and!; try done. intros k Hk. by rewrite Hpr4, list_lookup_insert_ne.
Qed.

Lemma map_page_region_spec s vmp vp lo l minv maxv n flags mapflags mt : mmap_ok s vmp vp lo l minv maxv n flags mapflags mt ->
  wp (map_page_region vmp minv maxv (Z.of_nat n * VM_PAGE_SIZE) flags mapflags mt) s
    (mmap_result s vmp vp lo l minv maxv n flags (bool_decide (Z.land mapflags MF_PREALLOC <> 0)) mt).
Proof.
  intros [Hl [Hlo Hlo'] Hhi Hreq [Ht1 Ht2] (Hpmin & Hpmax & Hpd & Hpt & Hpr) Hev Hpre].
  assert (Hvp := hr_proc _ _ _ _ _ Hl). assert (Hreq' := Hreq). destruct Hreq' as (Hlen & Hmod & Hmin & Hmax & _).
  unfold map_page_region. apply wp_bind, wp_asserts; [apply Z_mod_mult|]. apply wp_bind.
  pose proof (find_slot_done s vmp vp lo l minv maxv _ Hl Hlo Hhi Hreq Ht1 Ht2) as ([v s1] & Hrun & Hres). cbn [fst snd] in Hres.
  eapply wp_done; [exact Hrun|]. destruct Hres as [(-> & -> & Hno)|(Hs1 & Hpl)].
  { rewrite decide_True by done. apply wp_ret. left. done. }
  assert (Hpl' := Hpl). destruct Hpl' as (Hv1 & Hv2 & Hv3 & Hap).
  assert (Hvne : v <> SLOT_FAIL) by (unfold SLOT_FAIL, VM_PAGE_SIZE in *; lia).
  assert (Hvp' : paged v) by (eapply (find_slot_paged s vmp vp minv maxv); try done; apply Z_mod_mult).
  rewrite decide_False by done. apply wp_bind. eapply wp_mono; [apply region_new_spec|]. subst s1.
  intros [p|] s2; [|intros [Hsc (k & w & ->)]; apply wp_ret; right; split; [by left|]; split; [done|]; by eexists].
  intros (Hfresh & k & w & ->). cbn [regions with_procs] in Hfresh.
  set (nr := new_region _ _ _ _ _ _). match goal with |- wp _ ?t _ => set (s2 := t) end.
  assert (Hr2 : regions s2 !! p = Some nr) by apply lookup_insert_eq.
  assert (Hn : (0 < n)%nat) by (destruct n; [unfold VM_PAGE_SIZE in Hlen; cbn in Hlen; lia|lia]).
  unfold mem_type_of. apply wp_bind, wp_bind, (wp_get_vr _ _ nr); [done|]. apply wp_ret. change (memtype nr) with mt. rewrite Hev.
  apply wp_bind, wp_ret. rewrite decide_False by tauto. apply wp_bind. eapply wp_mono.
  { apply (prealloc_spec s2 vmp p nr n mapflags); [exact Hpre|done|apply absent_pages|done|done|cbn; lia]. }
  intros x s3 (r' & [Hreg (pbs & Er' & Hpl3) Hbk Hpg _ Hblk (w3 & E3)] & Hx).
  assert (Hpr3 : procs s3 = <[vmp := with_top (v + Z.of_nat n * VM_PAGE_SIZE) vp]> (procs s)) by (rewrite E3; done).
  assert (Hr3 : regions s3 = <[p := r']> (regions s)) by (rewrite Hreg; cbn; by rewrite insert_insert_eq).
  destruct Hx as [[-> Hres]|(Hsc & -> & Hne)].
  2: { rewrite decide_True by done. apply wp_bind, wp_modify, wp_ret. right. split; [done|]. split.
       - cbn. by rewrite Hr3, delete_insert_eq, delete_id.
       - cbn. rewrite Hpr3. by eexists. }
  rewrite decide_False by tauto. apply wp_bind, (wp_get_vr _ _ r'); [rewrite Hr3; apply lookup_insert_eq|]. apply wp_bind, wp_modify.
  assert (Hvp3 : procs s3 !! vmp = Some (with_top (v + Z.of_nat n * VM_PAGE_SIZE) vp)).
  { rewrite Hpr3. apply list_lookup_insert_eq. by eapply lookup_lt_Some. }
  apply wp_bind, (wp_get_tree _ _ (with_top (v + Z.of_nat n * VM_PAGE_SIZE) vp)); [done|].
  apply wp_bind, (wp_put_tree _ _ (with_top (v + Z.of_nat n * VM_PAGE_SIZE) vp)); [done|]. apply wp_ret.
  assert (Emap : with_flags (Z.land (vr_flags r') (Z.lnot VR_UNINITIALIZED)) r' = mapped s vmp v n flags mt pbs) by by subst r'.
  assert (Ev : vaddr r' = v) by by subst r'. rewrite Emap, Ev. change (vm_regions_avl (with_top _ vp)) with (vm_regions_avl vp).
  apply (mmap_linked _ _ _ _ _ _ _ _ _ _ _ _ v pbs); try done.
  - lia.
  - cbn. by rewrite Hr3, insert_insert_eq.
  - cbn. by rewrite Hpr3, list_insert_insert_eq.
  - by subst r'.
  - destruct (decide (Z.land mapflags MF_PREALLOC <> 0)) as [Hd|Hd]; [rewrite bool_decide_true by done; subst r'; exact Hres|].
    rewrite bool_decide_false by done. rewrite Er' in Hres. by injection Hres.
  - apply map_subseteq_spec. intros q pr Hq. apply Hpg; [|exact Hq]. intros (i & Hi & Hq')%elem_of_page_ptrs.
    cbn in Hq'. by apply lookup_replicate in Hq' as [? _].
Qed.
End touch.
