(* ===== verification/RegionDemo.v ===== *)
(** * A concrete VM server

    Instances of the interfaces of the region code, for the witnesses: lists as
    trees, a log of the freed memory as the world, and the simplest functions
    that behave as [PbOk], [MemOk], [UnrefOk], [YieldOk], [ForkOk] and [BlockOk] say,
    with private memory as the only memory type. *)
From S2P Require Import Prelude StateM DList Avl Region RegionOps RegionSlot RegionUnmap Yielded YieldedInv.
From S2P Require Import YieldBlock RegionFree RegionFork RegionMap.
Open Scope Z_scope.

#[export] Instance Z_cmp64 : Cmp64.
Proof.
  refine {| make64 lo hi := lo + hi * 2 ^ 32; cmp64 i j := i - j |}; lia.
Defined.

#[export] Instance minix_vm : VmHdr := {|
  ENOMEM := -12; EINVAL := -22; EFAULT := -14; ESRCH := -3; SUSPEND := -998;
  VR_WRITABLE := 1; VR_PHYS64K := 4; VR_LOWER16MB := 8; VR_LOWER1MB := 16; VR_CONTIG := 32;
  VR_SHARED := 64; VR_UNINITIALIZED := 128; VR_ANON := 256; VR_DIRECT := 512;
  PAF_CLEAR := 1; PAF_CONTIG := 2; PAF_ALIGN64K := 4; PAF_LOWER16MB := 8; PAF_LOWER1MB := 16;
  PTF_WRITE := 2; PTF_READ := 0; PTF_PRESENT := 1; PTF_USER := 4; WMF_OVERWRITE := 1;
  MF_PREALLOC := 1; MAP_NONE := 0xfffffffe; NO_MEM := 0; PROT_WRITE := 2; VM_PROC_NR := 8;
  VM_BLOCKID_NONE := -1; VM_DATATOP := 0xf0000000
|}.

(** The log of [free_mem]. *)
Definition log := list (Z * Z).
Definition rtree := alist Z nat.
Definition ytree := alist block_id nat.
Abbreviation VM := (vm log rtree ytree).
Abbreviation MM := (M log rtree ytree).

Definition demo_unreference (region p : nat) (rm : bool) : MM unit := fun s =>
  match regions s !! region, phys_regions s !! p with
  | Some r, Some q => Done (tt, with_regions (<[region := drop_page (Z.to_nat (offset q / VM_PAGE_SIZE)) r]> (regions s))
      (with_phys_blocks (drop_ref (ph q) (phys_blocks s)) s))
  | _, _ => Fault Undefined
  end.

(** A [phys_region] is only allocated while there are fewer than [lim]. *)
Definition enough (lim : option nat) (s : VM) : bool :=
  match lim with Some n => bool_decide (size (phys_regions s) < n)%nat | None => true end.

Definition demo_reference (lim : option nat) (b : nat) (off : Z) (region : nat) : MM (option nat) := fun s =>
  match regions s !! region, phys_blocks s !! b with
  | Some r, Some blk =>
      if enough lim s then
        let p := fresh (dom (phys_regions s)) in
        Done (Some p, with_regions (<[region := give_page (Z.to_nat (off / VM_PAGE_SIZE)) p r]> (regions s))
          (with_phys_regions (<[p := PhysRegion b off]> (phys_regions s))
            (with_phys_blocks (<[b := one_more blk]> (phys_blocks s)) s)))
      else Done (None, s)
  | _, _ => Fault Undefined
  end.
Definition demo_endpoint (e : Z) : MM (option nat) := fun s =>
  Done (fst <$> list_find (fun vp => vm_endpoint vp = e) (procs s), s).

(** Private memory: a page with a frame of its own can be written to; a fault
    gives the page's block its frame, or a shared page a block of its own. *)
Definition private_writable (p : nat) : MM Z := fun s =>
  match phys_regions s !! p ≫= fun q => phys_blocks s !! ph q with
  | Some blk => Done (if decide (phys blk <> MAP_NONE /\ refcount blk = 1) then 1 else 0, s)
  | None => Done (1, s)
  end.
Definition private_fault (vmp region p : nat) (write : Z) : MM Z := fun s =>
  match phys_regions s !! p with
  | Some q =>
      match phys_blocks s !! ph q with
      | Some blk =>
          if decide (phys blk = MAP_NONE) then
            Done (OK, with_phys_blocks (<[ph q := PhysBlock 0x9000 (refcount blk)]> (phys_blocks s)) s)
          else if decide (refcount blk > 1 /\ write <> 0) then
            let b := fresh (dom (phys_blocks s)) in
            Done (OK, with_phys_regions (<[p := PhysRegion b (offset q)]> (phys_regions s))
              (with_phys_blocks (<[b := PhysBlock 0xa000 1]> (drop_ref (ph q) (phys_blocks s))) s))
          else Done (OK, s)
      | None => Fault Undefined
      end
  | None => Fault Undefined
  end.
Definition anon_memory : mem_type log rtree ytree :=
  MemType _ _ _ None None (Some private_fault) None None (Some private_writable) None None.
Definition demo_new_block (a : Z) : MM (option nat) := fun s =>
  let b := fresh (dom (phys_blocks s)) in Done (Some b, with_phys_blocks (<[b := PhysBlock a 0]> (phys_blocks s)) s).

(** A server with room for [lim] more pages, and none for page tables if [full]. *)
Definition server_with (lim : option nat) (full : bool) : VmServer log rtree ytree := {|
  mem_types _ := anon_memory;
  SLABALLOC := fun s => Done (Some (fresh (dom (nodes s) ∪ dom (regions s))), s); calloc := mret true;
  pb_new := demo_new_block; pb_free b := modify (fun s => with_phys_blocks (delete b (phys_blocks s)) s); pb_reference := demo_reference lim;
  pb_unreferenced := demo_unreference;
  pt_writemap _ _ _ _ _ _ := mret (if full then -12 else 0);
  alloc_mem _ _ := mret 9;
  free_mem a n := modify (fun s => with_world (world s ++ [(a, n)]) s);
  sys_abscopy _ _ _ := mret 0;
  vm_isokendpt := demo_endpoint;
  get_vm_self_pages := mret 0; kernel_allocated := mret (0, 0); vm_allocated_bytes := mret 0;
  hash_i_64 o i := o + i; ABS2CLICK a := a / 4096; CLICK2ABS c := c * 4096
|}.
#[export] Instance demo_server : VmServer log rtree ytree := server_with None false.

Lemma page_index i : Z.to_nat (Z.of_nat i * VM_PAGE_SIZE / VM_PAGE_SIZE) = i.
Proof. unfold VM_PAGE_SIZE. by rewrite Z.div_mul, Nat2Z.id. Qed.

#[export] Instance demo_pb_ok : PbOk log rtree ytree.
Proof.
  split.
  - intros s region p r q i Hr Hq Ho _. eexists. cbn [pb_unreferenced demo_server server_with]. unfold demo_unreference.
    rewrite Hr, Hq. split; [done|]. by rewrite Ho, page_index.
  - intros s ? ? ? ? ? ?. by eexists 0, s.
Qed.

Lemma server_unref_ok lim full : UnrefOk (VmServer0 := server_with lim full) log rtree ytree.
Proof.
  split.
  - intros s region p r q i blk Hr Hq Ho Hp _ _. exists (world s), q. cbn [pb_unreferenced server_with]. unfold demo_unreference.
    rewrite Hr, Hq, Ho, page_index. do 2 f_equal. apply vm_ext; try reflexivity. cbn. by rewrite insert_id.
  - done.
Qed.
#[export] Instance demo_unref_ok : UnrefOk log rtree ytree := server_unref_ok None false.

#[export] Instance demo_mem_ok : MemOk log rtree ytree.
Proof.
  refine {| release a n (w : log) := w ++ [(a, n)] |}.
  - done.
  - intros s e. eexists. split; [done|]. destruct (list_find _ (procs s)) as [[k vp]|] eqn:E; simpl.
    + apply list_find_Some in E as (? & ? & _). by exists vp.
    + intros k vp Hk. rewrite list_find_None, Forall_forall in E. apply E. by eapply list_elem_of_lookup_2.
Defined.

Lemma server_yield_ok lim full : YieldOk (VmServer0 := server_with lim full) log rtree ytree.
Proof.
  refine {| tables_full := full = true |}.
  - intros s. eexists _, (world s). split; [by destruct s|]. intros p [= <-].
    pose proof (is_fresh (dom (nodes s) ∪ dom (regions s))). apply not_elem_of_dom. set_solver.
  - intros s n fl. exists 9, (world s). by destruct s.
  - intros s ? ? ? ? ? ?. exists (if full then -12 else 0), (world s). split; [by destruct s|]. by destruct full.
  - intros m. eexists. split; [done|]. intros p s. cbn. unfold private_writable.
    destruct (phys_regions s !! p ≫= _); by eexists.
Defined.
#[export] Instance demo_yield_ok : YieldOk log rtree ytree := server_yield_ok None false.

Lemma server_fork_ok lim full : ForkOk (VmServer0 := server_with lim full) log rtree ytree.
Proof.
  refine {| scarce := lim <> None |}.
  - intros s. eexists _, (world s). split; [by destruct s|]. cbn.
    pose proof (is_fresh (dom (nodes s) ∪ dom (regions s))). apply not_elem_of_dom. set_solver.
  - intros s. exists true, (world s). by destruct s.
  - intros s b blk region r i Hb _ Hr _. cbn [pb_reference server_with]. unfold demo_reference.
    rewrite Hr, Hb, page_index. destruct (enough lim s) eqn:E; [left|right].
    + eexists _, (world s). split; [|by destruct s]. apply not_elem_of_dom, is_fresh.
    + split; [by intros ->|]. exists (world s). by destruct s.
  - done.
Defined.
#[export] Instance demo_fork_ok : ForkOk log rtree ytree := server_fork_ok None false.

Lemma server_block_ok lim full :
  BlockOk (VmServer0 := server_with lim full) (ForkOk0 := server_fork_ok lim full) log rtree ytree.
Proof.
  split.
  - intros s a. left. eexists _, (world s). split; [|by destruct s]. apply not_elem_of_dom, is_fresh.
  - intros s b blk _ _. exists (world s). by destruct s.
Qed.
#[export] Instance demo_block_ok : BlockOk log rtree ytree := server_block_ok None false.

Lemma server_anonymous lim full mt :
  anonymous (VmServer0 := server_with lim full) (ForkOk0 := server_fork_ok lim full) log rtree ytree mt.
Proof.
  split; eexists; (split; [done|]).
  - intros s p q blk Hq Hb. unfold private_writable. rewrite Hq. cbn. by rewrite Hb.
  - intros s vmp region p q blk write Hq Hb _. right. exists (if decide (phys blk = MAP_NONE) then 0x9000 else 0xa000), (world s).
    unfold private_fault. rewrite Hq, Hb. split; [by case_decide|]. case_decide; [by destruct s|].
    case_decide; [|by destruct s]. eexists. split; [apply not_elem_of_dom, is_fresh|by destruct s].
Qed.
Lemma demo_anonymous mt : anonymous log rtree ytree mt.
Proof. apply (server_anonymous None false). Qed.

(** ** A process with three regions *)

Definition region_at (a : Z) (l : list (option nat)) : vir_region :=
  VirRegion a (Z.of_nat (length l) * VM_PAGE_SIZE) l 1 0 0 0 0.
Definition rA := region_at 0x10000 [Some 1%nat; None; Some 2%nat].
Definition rB := region_at 0x13000 [None; None].
Definition rC := region_at 0x40000 [Some 3%nat; None; None; None].

(** The tree with the given entries. *)
Definition tree_from (l : list (Z * nat)) : rtree := foldr (fun e t => avl_insert e.1 e.2 t) avl_empty l.

Definition demo_proc (l : list (nat * vir_region)) (top : Z) : vmproc rtree :=
  VmProc 7 (tree_from (entry <$> l)) top 0.
Definition demo_vm (l : list (nat * vir_region)) (top : Z) : VM :=
  Vm [] (list_to_map l) (list_to_map [(1%nat, PhysRegion 11 0); (2%nat, PhysRegion 12 (2 * VM_PAGE_SIZE)); (3%nat, PhysRegion 13 0)])
    (list_to_map [(11%nat, PhysBlock 0x1000 1); (12%nat, PhysBlock 0x2000 1); (13%nat, PhysBlock 0x3000 2)])
    [demo_proc l top] ∅ (fun _ => avl_empty) None None 0 true.

Definition three : list (nat * vir_region) := [(1%nat, rA); (2%nat, rB); (3%nat, rC)].

(** The heap and the tree of a process are as the list says, by evaluation. *)
Lemma demo_has_regions l top lo :
  bool_decide (avl_elems (tree_from (entry <$> l)) = entry <$> l) = true ->
  bool_decide (NoDup l.*1) = true -> stacked lo VM_DATATOP l.*2 ->
  has_regions lo (demo_vm l top) 0 (demo_proc l top) l.
Proof.
  intros H1%bool_decide_eq_true H2%bool_decide_eq_true H3. split; [done|done| |done].
  intros [p r] Hx. simpl. by apply elem_of_list_to_map.
Qed.

Lemma three_regions top : has_regions VM_PAGE_SIZE (demo_vm three top) 0 (demo_proc three top) three.
Proof. apply demo_has_regions; [by vm_compute|by vm_compute|]. vm_compute. split_and!; discriminate || done. Qed.

Lemma rA_pages top : n_pages (demo_vm three top) rA 3.
Proof.
  split_and!; [done|simpl; lia|]. intros i p Hi Hp.
  destruct i as [|[|[|i]]]; simplify_eq/=; eexists; (split; [by vm_compute|done]).
Qed.

(** ** Two yielded blocks *)

Definition blk (i : Z) (a n : Z) (y o : option nat) : yielded_t := Yielded (BlockId 7 i) a n y o.
Definition ytrees (h : Z) : ytree :=
  if decide (h = 12) then avl_insert (BlockId 7 5) 1%nat avl_empty else
  if decide (h = 13) then avl_insert (BlockId 7 6) 2%nat avl_empty else avl_empty.
Definition two_blocks : VM :=
  Vm [] ∅ ∅ ∅ [VmProc 7 (avl_empty : rtree) 0 2]
    (list_to_map [(1%nat, blk 5 0x5000 1 (Some 2%nat) None); (2%nat, blk 6 0x6000 2 None (Some 1%nat))])
    ytrees (Some 2%nat) (Some 1%nat) 0 true.
