(* ===== verification/RegionExit.v ===== *)
(** * Creating and ending processes ([region.c])

    [map_proc_copy] and [map_free_proc] as a process is forked and exits: what
    they share, what they give back, and what is left when memory runs out. *)
From S2P Require Import Prelude StateM DList Avl Region RegionOps RegionSlot RegionUnmap Yielded YieldedInv.
From S2P Require Import YieldedFree YieldBlock RegionFree RegionFork RegionDemo.
Open Scope Z_scope.

Section exit.
Context {W RT YT : Type} `{!Cmp64} `{!Avl Z nat RT} `{!AvlOk Z nat RT} `{!Avl block_id nat YT} `{!AvlOk block_id nat YT}
  `{!VmHdr} `{!VmServer W RT YT} `{!UnrefOk W RT YT}.
Implicit Types (s : vm W RT YT) (l : list (nat * vir_region)).

(** ** Exit *)

(** Processes with other trees have the same yielded blocks. *)
Lemma yielded_inv_without s vmp vp (t : RT) l w yl : procs s !! vmp = Some vp -> yielded_inv s yl ->
  yielded_inv (without s vmp vp t l w) yl.
Proof.
  intros Hvp [H1 H2 H3 H4 H5 H6 H7].
  assert (Hpr : forall k vp', procs (without s vmp vp t l w) !! k = Some vp' -> exists vp0, procs s !! k = Some vp0 /\
    vm_endpoint vp' = vm_endpoint vp0 /\ vm_yielded vp' = vm_yielded vp0).
  { intros k vp' Hk. cbn in Hk. destruct (decide (k = vmp)) as [->|Hne].
    - rewrite list_lookup_insert_eq in Hk by (by eapply lookup_lt_Some). injection Hk as <-. by exists vp.
    - rewrite list_lookup_insert_ne in Hk by done. by exists vp'. }
  split; try done.
  - intros k k' v v' (v0 & Hk & -> & _)%Hpr (v1 & Hk' & -> & _)%Hpr. by apply (H5 _ _ _ _ Hk Hk').
  - intros p n Hp. destruct (H6 p n Hp) as (k & v & Hk & He). destruct (decide (k = vmp)) as [->|Hne].
    + exists vmp, (with_tree t vp). simplify_eq. split; [|done]. cbn. apply list_lookup_insert_eq. by eapply lookup_lt_Some.
    + exists k, v. split; [|done]. cbn. by rewrite list_lookup_insert_ne.
  - intros k v (v0 & Hk & -> & ->)%Hpr. exact (H7 k v0 Hk).
Qed.

(** C20: [map_free_proc] with [free_yielded_proc], when a process exits: all its
    regions and their pages leave the heap, each physical block loses one
    reference per page that referred to it and is freed with the last one, and
    exactly the yielded blocks of the process are freed; the other processes keep
    their regions and their yielded blocks. *)
Theorem exit_frees `{!MemOk W RT YT} s k vp l yl : procs s !! k = Some vp -> avl_elems (vm_regions_avl vp) = entry <$> l ->
  freeable_all s l -> yielded_inv s yl ->
  wp (map_free_proc free_yielded_proc k) s (fun r s' => r = OK /\
    regions s' = forget l.*1 (regions s) /\ phys_regions s' = forget (all_ptrs l) (phys_regions s) /\
    (forall b, phys_blocks s' !! b = if decide (b ∈ all_refs s l) then
        phys_blocks s !! b ≫= fun blk => if decide (refcount blk = uses b (all_refs s l)) then None
          else Some (PhysBlock (phys blk) (refcount blk - uses b (all_refs s l)))
      else phys_blocks s !! b) /\
    (exists vp', procs s' !! k = Some vp' /\ avl_elems (vm_regions_avl vp') = []) /\
    (forall j, j <> k -> vm_regions_avl <$> procs s' !! j = vm_regions_avl <$> procs s !! j) /\
    yielded_inv s' (others s (vm_endpoint vp) yl)).
Proof.
  intros Hvp Hel Hf Hy. apply (map_free_proc_rule free_yielded_proc s k vp l); [done..|]. intros w.
  assert (Hk : procs (without s k vp avl_empty l w) !! k = Some (with_tree avl_empty vp)).
  { cbn. apply list_lookup_insert_eq. by eapply lookup_lt_Some. }
  eapply wp_mono; [apply (free_yielded_proc_spec _ yl k); [by apply yielded_inv_without|exact Hk]|].
  intros r s' (Hinv & (H1 & H2 & H3 & H4) & _). split; [done|]. rewrite H1, H2, H3. split; [done|]. split; [done|].
  split; [intros b; cbn [phys_blocks without with_world with_procs with_regions with_phys_regions with_phys_blocks];
    by rewrite unbump_lookup by apply Hf|].
  split; [|split; [|exact Hinv]].
  - destruct (H4 k) as [Ht _]. rewrite Hk in Ht. destruct (procs s' !! k) as [vp'|]; [|done]. exists vp'. split; [done|].
    injection Ht as ->. apply avl_empty_elems.
  - intros j Hj. destruct (H4 j) as [-> _]. cbn. by rewrite list_lookup_insert_ne.
Qed.

(** ** Fork *)

Context `{!YieldOk W RT YT} `{!ForkOk W RT YT}.

Lemma undone_proc s dst vd s' : procs s !! dst = Some vd -> undone s dst vd s' -> procs s' !! dst = Some (with_tree avl_empty vd).
Proof. intros Hvd (k & w & ->). cbn. apply list_lookup_insert_eq. by eapply lookup_lt_Some. Qed.

Lemma free_undone s dst vd s1 : procs s !! dst = Some vd -> vm_yielded vd = 0 -> undone s dst vd s1 ->
  wp (free_yielded_proc dst) s1 (fun _ s' => undone s dst vd s').
Proof.
  intros Hvd Hy Hun. eapply wp_done; [|exact Hun]. by eapply free_yielded_proc_none; [eapply undone_proc|].
Qed.

(** While memory lasts. *)
Corollary fork_shares {A} (free : nat -> M W RT YT A) s dst src vs vd l : ~ scarce -> dst <> src ->
  parent_of s src vs l -> procs s !! dst = Some vd ->
  wp (map_proc_copy free dst src) s (fun r s' => r = OK /\ shared_with s dst l s').
Proof.
  intros Hsc Hne Hpa Hvd. eapply wp_mono; [by apply (fork_spec free s dst src vs vd l (fun _ => False))|].
  intros r s' [[-> Hf]|[? _]]; [|done]. split; [done|]. by eapply forked_shared.
Qed.

(** C18: [map_proc_copy] is all or nothing.  It returns OK when the new process has
    a copy of every region of its parent, in its own address space at the same
    places, whose pages are new references to the physical blocks of the parent's
    pages, which count them, while the parent and all other processes keep theirs.
    When an allocation fails anywhere on the way, it returns ENOMEM, and each
    region, page, block and reference that was made is gone: the state is the one
    before, with a new process without regions. *)
Theorem fork_all_or_nothing s dst src vs vd l : dst <> src -> parent_of s src vs l ->
  procs s !! dst = Some vd -> vm_yielded vd = 0 ->
  wp (map_proc_copy free_yielded_proc dst src) s (fun r s' =>
    r = OK /\ shared_with s dst l s' \/ scarce /\ r = ENOMEM /\ undone s dst vd s').
Proof.
  intros Hne Hpa Hvd Hy. eapply wp_mono.
  - apply (fork_spec free_yielded_proc s dst src vs vd l (undone s dst vd)); [done..|]. intros _ s1. by apply free_undone.
  - intros r s' [[-> Hf]|?]; [left|by right]. split; [done|]. by eapply forked_shared.
Qed.

(** C21: A process that is forked and exits leaves no trace: after [map_proc_copy]
    and [map_free_proc] of the copy, whether the first one had the memory it needs
    or not, all regions, pages and blocks with their reference counts are as
    before, and the process has no regions. *)
Theorem fork_exit s dst src vs vd l : ENOMEM <> OK -> dst <> src -> parent_of s src vs l ->
  procs s !! dst = Some vd -> vm_yielded vd = 0 ->
  wp (r ← map_proc_copy free_yielded_proc dst src; if decide (r = OK) then map_free_proc free_yielded_proc dst else mret r) s
    (fun r s' => (r = OK \/ scarce /\ r = ENOMEM) /\ undone s dst vd s').
Proof.
  intros Hen Hne Hpa Hvd Hy. apply wp_bind. eapply wp_mono.
  { apply (fork_spec free_yielded_proc s dst src vs vd l (undone s dst vd)); [done..|]. intros _ s1. by apply free_undone. }
  destruct Hpa as (_ & _ & _ & Hfa & Hok). intros r s1 [[-> Hf]|(Hsc & -> & Hun)].
  - rewrite decide_True by done.
    apply (fork_undo_rule free_yielded_proc s dst vd l l [] s1); [done|by rewrite app_nil_r|done|by intros x Hx; apply Hok|by eapply lookup_lt_Some|].
    intros s2 Hun. eapply (wp_mono _ _ (fun _ s' => undone s dst vd s')); [by apply free_undone|]. intros r' s' Hun'. split; [by left|exact Hun'].
  - rewrite decide_False by done. apply wp_ret. split; [by right|done].
Qed.
End exit.

(** ** A parent with three regions and a child *)

Definition two_procs : VM := with_procs [demo_proc three 0; VmProc 9 avl_empty 0 0] (demo_vm three 0).

Lemma three_forkable : forkable two_procs three.
Proof.
  split.
  - intros [p r] Hx. by apply elem_of_list_to_map; [vm_compute; repeat constructor; set_solver|].
  - intros x Hx. repeat (apply elem_of_cons in Hx as [->|Hx]); [..|by apply elem_of_nil in Hx].
    all: split; [split_and!; [done|vm_compute; lia|]; intros i p Hi Hp|intros i p q Hi Hp Hq].
    all: repeat (destruct i as [|i]; simplify_eq/=); try (vm_compute in Hi; lia).
    all: try (vm_compute in Hq; injection Hq as <-); eexists; (split; [by vm_compute|done]).
  - vm_compute. repeat constructor.
  - intros b blk Hb. apply elem_of_list_to_map_2 in Hb.
    repeat (apply elem_of_cons in Hb as [[= -> ->]|Hb]); [..|by apply elem_of_nil in Hb]; by vm_compute.
Qed.

Lemma three_parent : parent_of two_procs 0 (demo_proc three 0) three.
Proof.
  split_and!; [done|done|done|apply three_forkable|].
  intros x Hx. repeat (apply elem_of_cons in Hx as [->|Hx]); [done..|by apply elem_of_nil in Hx].
Qed.

(** The three blocks have one more reference each; with room for five pages only
    the third region cannot be copied. *)
Example fork_all_or_nothing_witness :
  wp (map_proc_copy free_yielded_proc 1 0) two_procs (fun r s' => r = OK /\
    phys_blocks s' !! 11%nat = Some (PhysBlock 0x1000 2) /\ phys_blocks s' !! 13%nat = Some (PhysBlock 0x3000 3)) /\
  exists s', map_proc_copy (VmServer0 := server_with (Some 5%nat) false) (free_yielded_proc (VmServer0 := server_with (Some 5%nat) false)) 1 0 two_procs
    = Done (ENOMEM, s') /\ undone two_procs 1 (VmProc 9 avl_empty 0 0) s'.
Proof.
  split.
  - eapply wp_mono; [apply (fork_all_or_nothing two_procs 1 0 (demo_proc three 0) (VmProc 9 avl_empty 0 0) three); try done; apply three_parent|].
    intros r s' [[-> (_ & _ & _ & _ & Hb)]|[Hsc _]]; [|by destruct (Hsc eq_refl)]. rewrite !Hb. by vm_compute.
  - destruct (fork_all_or_nothing (VmServer0 := server_with (Some 5%nat) false) (UnrefOk0 := server_unref_ok (Some 5%nat) false)
      (YieldOk0 := server_yield_ok (Some 5%nat) false) (ForkOk0 := server_fork_ok (Some 5%nat) false)
      two_procs 1 0 (demo_proc three 0) (VmProc 9 avl_empty 0 0) three ltac:(done) three_parent eq_refl eq_refl) as ([r s'] & Hrun & Hpost).
    exists s'. destruct Hpost as [[Hr _]|(_ & Hr & Hun)]; cbn [fst snd] in Hr; [|subst r; split; [exact Hrun|exact Hun]].
    exfalso. apply (f_equal (fun o => match o with Done (x, _) => x | Fault _ => 0 end)) in Hrun. rewrite Hr in Hrun. by vm_compute in Hrun.
Defined.

Example fork_exit_witness :
  wp (r ← map_proc_copy free_yielded_proc 1 0; if decide (r = OK) then map_free_proc free_yielded_proc 1 else mret r) two_procs
    (fun r s' => r = OK /\ regions s' = regions two_procs /\ phys_blocks s' = phys_blocks two_procs).
Proof.
  eapply wp_mono; [apply (fork_exit two_procs 1 0 (demo_proc three 0) (VmProc 9 avl_empty 0 0) three); try done; apply three_parent|].
  intros r s' [[->|[Hsc _]] (k & w & ->)]; [done|by destruct (Hsc eq_refl)].
Defined.

Lemma three_freeable : freeable_all two_procs three.
Proof.
  split.
  - apply three_forkable.
  - vm_compute. repeat constructor; set_solver.
  - intros x Hx. split; [by apply three_forkable|].
    repeat (apply elem_of_cons in Hx as [->|Hx]); [done..|by apply elem_of_nil in Hx].
  - intros b Hb. change (all_refs two_procs three) with [11%nat; 12%nat; 13%nat] in *.
    repeat (apply elem_of_cons in Hb as [->|Hb]); [..|by apply elem_of_nil in Hb]; eexists; (split; [by vm_compute|by vm_compute]).
  - vm_compute. repeat constructor; set_solver.
Qed.

Lemma two_procs_inv : yielded_inv two_procs [].
Proof.
  split.
  - split_and!; try done. constructor.
  - by intros p [n Hp].
  - by intros p n Hp.
  - intros h i p Hp. done.
  - intros [|[|k]] [|[|k']] v v' Hk Hk'; by simplify_eq/=.
  - by intros p n Hp.
  - intros [|[|k]] v Hk; by simplify_eq/=.
  - done.
Qed.

(** The block with two references stays, with one. *)
Example exit_frees_witness :
  wp (map_free_proc free_yielded_proc 0) two_procs (fun r s' => r = OK /\ regions s' !! 1%nat = None /\
    phys_blocks s' !! 11%nat = None /\ phys_blocks s' !! 13%nat = Some (PhysBlock 0x3000 1)).
Proof.
  eapply wp_mono; [apply (exit_frees two_procs 0 (demo_proc three 0) three []); [done|done|apply three_freeable|apply two_procs_inv]|].
  intros r s' (-> & -> & _ & Hb & _). rewrite !Hb. by vm_compute.
Defined.
