(* ===== verification/RegionProps.v ===== *)
(** * Properties of the memory regions *)
From S2P Require Import Prelude StateM Avl Region RegionOps RegionSlot RegionUnmap RegionDemo.
Open Scope Z_scope.

Section props.
Context {W RT YT : Type} `{!Avl Z nat RT} `{!AvlOk Z nat RT} `{!VmHdr} `{!VmServer W RT YT}.
Implicit Types (s : vm W RT YT) (l : list (nat * vir_region)).

(** C13: [region_find_slot] finds a place whenever there is one, and only real
    places.  For a process whose regions do not overlap and leave page zero free,
    and for a request of whole pages in [minv, maxv) (or right at [minv] if
    [maxv] is 0), no assertion of the code fails and the search ends; it returns
    SLOT_FAIL and changes nothing exactly when no range of [len] bytes in the
    bounds is disjoint from all regions, and otherwise returns such a range and
    stores its end as the hint of the next search.  The hint of the last search
    must differ from [minv] (see [find_slot_hint_assert]). *)
Theorem find_slot_spec s vmp vp lo l minv maxv len :
  has_regions lo s vmp vp l -> VM_PAGE_SIZE <= lo -> VM_DATATOP < 2 ^ 32 - VM_PAGE_SIZE ->
  request minv maxv len -> vm_region_top vp < 2 ^ 32 -> maxv = 0 \/ vm_region_top vp <> minv ->
  wp (region_find_slot vmp minv maxv len) s (slot_result s vmp vp l.*2 minv maxv len).
Proof. apply find_slot_done. Qed.

(** A failing assertion.  When the last search ended at an address [top]
    above zero, the next search from exactly that address upwards stops in
    [assert(minv < maxv)], whatever the process has mapped: the hint is used as
    the upper bound of the first search, also when it is equal to the lower one. *)
Theorem find_slot_hint_assert s vmp vp maxv len :
  procs s !! vmp = Some vp -> 0 < vm_region_top vp < maxv -> 0 < len -> len mod VM_PAGE_SIZE = 0 ->
  region_find_slot vmp (vm_region_top vp) maxv len s = Fault AssertFail.
Proof.
  intros Hp Htop Hlen Hmod. unfold region_find_slot. rewrite (bind_done _ _ _ _ _ (get_proc_done _ _ _ Hp)).
  rewrite decide_True by lia. apply bind_fault. unfold region_find_slot_range.
  assert (Has : forall (P : Prop) `{Decision P}, P -> asserts P s = Done (tt, s)).
  { intros P ? HP. unfold asserts. by rewrite decide_True. }
  erewrite bind_done by (apply Has; lia). rewrite (decide_False (P := vm_region_top vp = 0)) by lia.
  rewrite decide_False by lia. erewrite bind_done by (by apply Has).
  apply bind_fault, asserts_false. lia.
Qed.

(** The search with one region, at zero. *)
Lemma search_page_zero s t p r maxv :
  tree_of s t [(p, r)] -> regions s !! p = Some r -> vaddr r = 0 -> VM_PAGE_SIZE < vr_length r < maxv ->
  vr_length r <= VM_DATATOP -> maxv <= 2 ^ 32 - VM_PAGE_SIZE -> VM_DATATOP < 2 ^ 32 - VM_PAGE_SIZE ->
  search_gaps t 0 maxv (maxv - VM_PAGE_SIZE) s = Done (Some VM_PAGE_SIZE, s).
Proof.
  intros Ht Hh Hr0 Hrl Hst Hmax Hdt. unfold VM_PAGE_SIZE in *.
  unfold search_gaps. destruct (tree_of_split _ _ _ maxv Ht) as (l1 & l2 & Hl & Hlt & Hge & -> & ->).
  assert (l1 = [(p, r)] /\ l2 = []) as [-> ->].
  { destruct l1 as [|x [|]]; simplify_eq/=; [|done]. specialize (Hge (p, r) ltac:(set_solver)). simpl in Hge. lia. }
  cbn [fmap list_fmap head last]. rewrite (proj1 Ht).
  unfold region_end. cbn [entry fst snd].
  erewrite bind_done by (erewrite bind_done by (erewrite bind_done by (apply get_vr_done, Hh); done); done).
  cbn [snd]. unfold FREEVRANGE at 1, FREEVRANGE_TRY, VM_PAGE_SIZE. rewrite Hr0, !u32_small by (rewrite ?u32_small by lia; lia).
  rewrite !decide_False by lia. cbn [find_gap length fmap list_fmap entry fst snd].
  erewrite bind_done by (apply get_vr_done, Hh).
  pose proof (search_lt_at s _ [] (p, r) [] Ht) as E. cbn [snd fmap list_fmap last] in E. rewrite E.
  cbn [region_end].
  erewrite bind_done by done. rewrite Hr0.
  unfold FREEVRANGE, FREEVRANGE_TRY, VM_PAGE_SIZE. change (u32 (0 + 4096)) with 4096. change (u32 (0 - 4096)) with (2 ^ 32 - 4096).
  rewrite decide_True by lia. by replace (Z.min (2 ^ 32 - 4096) maxv - (maxv - 4096)) with 4096 by lia.
Qed.

(** A region at address zero breaks the search.  The lower end of the
    gap below it is computed as [0 - VM_PAGE_SIZE] without a sign, so the gap
    seems to reach to the top of memory: a process with one region from zero,
    longer than a page, that asks for a range too long for the space behind the
    region is given the page-aligned address VM_PAGE_SIZE, inside that region. *)
Theorem find_slot_page_zero s vmp vp p r maxv :
  has_regions 0 s vmp vp [(p, r)] -> vaddr r = 0 -> VM_PAGE_SIZE < vr_length r < maxv ->
  maxv <= 2 ^ 32 - VM_PAGE_SIZE -> maxv mod VM_PAGE_SIZE = 0 -> maxv <= vm_region_top vp ->
  VM_DATATOP < 2 ^ 32 - VM_PAGE_SIZE ->
  wp (region_find_slot vmp 0 maxv (maxv - VM_PAGE_SIZE)) s (fun v _ =>
    v = VM_PAGE_SIZE /\ ~ apart v (maxv - VM_PAGE_SIZE) r).
Proof.
  intros [Hp Hel Hh Hst] Hr0 Hrl Hmax Hmod Htop Hdt. unfold VM_PAGE_SIZE in *.
  unfold region_find_slot. apply wp_bind, (wp_get_proc _ _ vp); [done|]. rewrite decide_False by lia.
  apply wp_bind, wp_ret. rewrite decide_False by tauto.
  assert (Ht : tree_of s (vm_regions_avl vp) [(p, r)]) by by split.
  pose proof (search_page_zero s _ p r maxv Ht (Hh (p, r) ltac:(set_solver)) Hr0 Hrl ltac:(simpl in Hst; lia)
    Hmax Hdt) as Hgaps. unfold VM_PAGE_SIZE in Hgaps.
  unfold region_find_slot_range. apply wp_bind, wp_asserts; [lia|]. rewrite (decide_False (P := maxv = 0)) by lia.
  rewrite decide_False by lia. apply wp_bind, wp_asserts; [unfold VM_PAGE_SIZE; rewrite Zminus_mod, Hmod; done|].
  apply wp_bind, wp_asserts; [lia|]. rewrite u32_small by lia. rewrite decide_False by lia.
  apply wp_bind, (wp_get_tree _ _ vp); [done|]. apply wp_bind. eapply wp_done; [exact Hgaps|].
  apply wp_bind, wp_asserts; [lia|]. apply wp_bind, wp_asserts; [lia|]. rewrite u32_small by lia.
  apply wp_bind, wp_asserts; [lia|]. apply wp_bind, (wp_get_proc _ _ vp); [done|].
  apply wp_bind, wp_modify, wp_ret. split; [done|]. unfold apart. lia.
Qed.

(** [map_lookup] returns the region that contains an address, with the entry
    of the address's page if the caller asks for it (then the address must be
    page-aligned), and NULL for an address outside all regions; the state stays
    as it is. *)
Theorem map_lookup_spec s vmp vp lo l off physr :
  has_regions lo s vmp vp l -> 0 <= lo -> VM_DATATOP < 2 ^ 32 ->
  (forall x, x ∈ l -> vaddr x.2 mod VM_PAGE_SIZE = 0 /\ pages_ok s x.2) ->
  (physr = true -> off mod VM_PAGE_SIZE = 0) ->
  (forall x, x ∈ l -> vaddr x.2 <= off < vaddr x.2 + vr_length x.2 ->
     map_lookup vmp off physr s =
       Done (Some (x.1, if physr then page_at x.2 (off - vaddr x.2) else None), s)) /\
  ((forall x, x ∈ l -> ~ vaddr x.2 <= off < vaddr x.2 + vr_length x.2) ->
     map_lookup vmp off physr s = Done (None, s)).
Proof.
  intros [Hp Hel Hh Hst] Hlo Htop Hpg Hal.
  assert (Ht : tree_of s (vm_regions_avl vp) l) by by split.
  assert (Hget : get_tree vmp s = Done (vm_regions_avl vp, s)).
  { unfold get_tree. by rewrite (bind_done _ _ _ _ _ (get_proc_done _ _ _ Hp)). }
  unfold map_lookup. rewrite (bind_done _ _ _ _ _ Hget). split.
  - intros x Hx Hin. apply list_elem_of_split in Hx as (l1 & l2 & ->).
    destruct (Hpg x ltac:(set_solver)) as [Hva Hpx].
    rewrite fmap_app, fmap_cons in Hst.
    pose proof (fun y => stacked_behind _ _ _ _ _ y Hst) as Hbeh. apply gap_before in Hst as (H1 & H2 & H3 & H4 & H5 & H6); [|done].
    assert (Hl2 : forall y, y ∈ l2 -> off < vaddr y.2) by (intros y Hy; specialize (Hbeh y.2 ltac:(by apply list_elem_of_fmap_2)); lia).
    rewrite (tree_of_search_le _ _ _ _ _ _ Ht) by (done || lia). cbn [entry].
    rewrite (bind_done _ _ _ _ _ (get_vr_done _ _ _ (Hh x ltac:(set_solver)))).
    rewrite u32_small by lia. rewrite decide_True by lia. destruct physr; [|done].
    rewrite (bind_done _ _ _ _ _ (physblock_get_done _ _ x.2 (off - vaddr x.2) (Hh x ltac:(set_solver)) Hpx
      ltac:(rewrite Zminus_mod, Hva, Hal; done) ltac:(lia))).
    destruct (page_at x.2 (off - vaddr x.2)) as [q|] eqn:Hq; [|done].
    apply (page_at_offset s) in Hq as (pr & Hpr & Ho); [|done|rewrite Zminus_mod, Hva, Hal; done|lia].
    erewrite bind_done; [done|]. unfold get_pr, mbind, st_bind, gets. rewrite Hpr. cbn.
    unfold asserts. by rewrite decide_True.
  - intros Hout. destruct (tree_of_le_cases s _ l off Ht) as [E|(x & Hx & E & Hle)]; rewrite E; [done|].
    cbn [entry]. rewrite (bind_done _ _ _ _ _ (get_vr_done _ _ _ (Hh x Hx))).
    destruct (stacked_in _ _ _ x.2 Hst) as (? & ? & ?); [by apply list_elem_of_fmap_2|].
    rewrite u32_small by lia. rewrite decide_False; [done|]. specialize (Hout x Hx). lia.
Qed.

Context `{!PbOk W RT YT}.

(** C15: Unmapping later pages.  For a region of [n] pages and a range of pages
    [a, b) that does not begin at its start, [map_unmap_region] releases exactly
    these pages: the region stays where it is, its other pages stay at their
    offsets, and it becomes shorter only if the range reaches to its end. *)
Theorem unmap_later_spec s vmp p r n a b : regions s !! p = Some r -> n_pages s r n -> vr_length r < 2 ^ 32 ->
  (0 < a <= b)%nat -> (b <= n)%nat ->
  wp (map_unmap_region vmp p (Z.of_nat a * VM_PAGE_SIZE) (Z.of_nat (b - a) * VM_PAGE_SIZE)) s (fun x s' =>
    (x = OK \/ x = ENOMEM) /\ regions s' = <[p := cut_region a b n r]> (regions s) /\
    n_pages s' (cut_region a b n r) (if decide (b = n) then a else n) /\ procs s' = procs s).
Proof. apply unmap_later. Qed.

(** C14: Unmapping the first [b] of [n] pages moves the region's start behind them
    and the array to the front, and the region is again one of [n - b] pages at
    their own offsets, provided that the last [b] pages were absent. *)
Theorem unmap_start_spec s vmp p vp r n b : regions s !! p = Some r -> n_pages s r n -> vr_length r < 2 ^ 32 ->
  procs s !! vmp = Some vp -> (0 < b < n)%nat ->
  (forall i, (n - b <= i < n)%nat -> physblocks r !! i = Some None) ->
  wp (map_unmap_region vmp p 0 (Z.of_nat b * VM_PAGE_SIZE)) s (fun x s' =>
    exists r', regions s' = <[p := r']> (regions s) /\ n_pages s' r' (n - b) /\
    vaddr r' = u32 (vaddr r + Z.of_nat b * VM_PAGE_SIZE) /\
    forall i, (i < n - b)%nat -> physblocks r' !! i = physblocks r !! (b + i)%nat).
Proof.
  intros Hr Hn Hlen Hvp Hb Habs. eapply wp_mono; [by apply (unmap_start s vmp p vp r n b)|].
  intros x s' [_ [Hreg _ Hpg]]. exists (start_region b n r).
  pose proof Hn as (Hl & Hln & Hpages). split_and!; [done| |done|].
  - split_and!; [done| |].
    + unfold start_region. simpl. rewrite length_app, length_take, !length_drop, length_imap. lia.
    + intros i q Hi Hq. rewrite start_lookup in Hq by done.
      destruct (Hpages (b + i)%nat q ltac:(lia) Hq) as (w & Hw & Hwo).
      destruct (decide (n - b <= b + i)%nat) as [Hlate|Hlate].
      { rewrite Habs in Hq by lia. done. }
      exists (with_offset (Z.of_nat (b + i - b) * VM_PAGE_SIZE) w). split.
      * rewrite (Hpg (b + i)%nat q w) by (done || lia). by rewrite decide_True by lia.
      * simpl. do 2 f_equal. lia.
  - intros i Hi. by apply start_lookup.
Qed.

(** Otherwise the region is broken.  The loop that lowers the offsets stops at
    the new length of the region although the array has not been moved yet: after
    the first [b] of [n] pages are unmapped, each present page among the last [b]
    (and behind the first [b]) keeps its old offset at its new place, so that the
    next access to it fails the assertion in [physblock_get]. *)
Theorem unmap_start_stale s vmp p vp r n b i pg : regions s !! p = Some r -> n_pages s r n -> vr_length r < 2 ^ 32 ->
  procs s !! vmp = Some vp -> (0 < b < n)%nat -> (b <= i < n)%nat -> (n - b <= i)%nat ->
  physblocks r !! i = Some (Some pg) ->
  wp (map_unmap_region vmp p 0 (Z.of_nat b * VM_PAGE_SIZE)) s (fun x s' =>
    physblock_get p (Z.of_nat (i - b) * VM_PAGE_SIZE) s' = Fault AssertFail).
Proof.
  intros Hr Hn Hlen Hvp Hb Hi Hlate Hpg. eapply wp_mono; [by apply (unmap_start s vmp p vp r n b)|].
  intros x s' [_ [Hreg _ Hpages]]. pose proof Hn as (_ & Hln & Hpgs).
  destruct (Hpgs i pg ltac:(lia) Hpg) as (q & Hq & Hqo).
  apply (physblock_get_stale s' p (start_region b n r) (n - b) (i - b) pg q); [|done|lia| | |].
  - rewrite Hreg. apply lookup_insert_eq.
  - rewrite start_lookup by lia. by replace (b + (i - b))%nat with i by lia.
  - rewrite (Hpages i pg q) by done. by rewrite decide_False by lia.
  - rewrite Hqo. unfold VM_PAGE_SIZE. lia.
Qed.

(** Unmapping a whole region that ends exactly where another one starts also
    loses the other one.  The emptied region is inserted again under the
    address of its neighbour, which leaves the tree as it is, and is then removed
    under that address: the neighbour is no longer in the tree of the process,
    although it and its pages are still on the heap. *)
Theorem unmap_whole_adjacent s vmp p vp lo l r n p2 r2 :
  has_regions lo s vmp vp l -> 0 <= lo -> VM_DATATOP < 2 ^ 32 -> (p, r) ∈ l -> (p2, r2) ∈ l -> p <> p2 ->
  vaddr r2 = vaddr r + vr_length r -> n_pages s r n -> ev_delete (mem_types (memtype r)) = None ->
  wp (map_unmap_region vmp p 0 (vr_length r)) s (fun x s' =>
    regions s' !! p2 = Some r2 /\
    exists vp', procs s' !! vmp = Some vp' /\ avl_search (vaddr r2) (vm_regions_avl vp') = None).
Proof.
  intros [Hvp Hel Hh Hst] Hlo Htop Hp Hp2 Hne Hadj Hn Hev.
  destruct (stacked_in _ _ _ r Hst) as (Hr1 & Hr2 & Hr3); [by apply (list_elem_of_fmap_2 snd _ (p, r))|].
  destruct (stacked_in _ _ _ r2 Hst) as (_ & Hr4 & Hr5); [by apply (list_elem_of_fmap_2 snd _ (p2, r2))|].
  eapply wp_mono; [apply (unmap_whole s vmp p vp r n)|]; try done; [by apply (Hh (p, r))|lia| |].
  { destruct n; [destruct Hn as [Hn _]; unfold VM_PAGE_SIZE in Hn; simpl in Hn; lia|lia]. }
  intros x s' [Hreg Hpr]. split.
  - rewrite Hreg, lookup_delete_ne by done. by apply (Hh (p2, r2)).
  - rewrite Hpr. eexists. split; [apply list_lookup_insert_eq; by eapply lookup_lt_Some|]. simpl.
    unfold whole_tree. rewrite u32_small by lia. rewrite <- Hadj.
    rewrite avl_search_elems, avl_remove_elems. apply list_eq_at_None. intros v [Hv _]%elem_of_del. by simpl in Hv.
Qed.
End props.

(** ** Witnesses *)

Example find_slot_spec_witness :
  wp (region_find_slot 0 0x10000 0x80000 0x2000) (demo_vm three 0)
    (slot_result (demo_vm three 0) 0 (demo_proc three 0) three.*2 0x10000 0x80000 0x2000).
Proof.
  apply (find_slot_spec _ _ _ VM_PAGE_SIZE); [apply three_regions|done|done| |done|by right].
  split_and!; [done|done|by vm_compute|done|done|done|done|by right].
Defined.

Example find_slot_hint_assert_witness :
  region_find_slot 0 0x10000 0x80000 0x2000 (demo_vm three 0x10000) = Fault AssertFail.
Proof. apply (find_slot_hint_assert _ 0 (demo_proc three 0x10000)); done. Defined.

Example find_slot_page_zero_witness :
  let r := region_at 0 [None; None] in
  wp (region_find_slot 0 0 0x4000 (0x4000 - VM_PAGE_SIZE)) (demo_vm [(1%nat, r)] 0x4000) (fun v _ =>
    v = VM_PAGE_SIZE /\ ~ apart v (0x4000 - VM_PAGE_SIZE) r).
Proof.
  apply (find_slot_page_zero _ _ (demo_proc [(1%nat, region_at 0 [None; None])] 0x4000) 1); try done.
  apply demo_has_regions; [by vm_compute|by vm_compute|]. vm_compute. split_and!; discriminate || done.
Defined.

Lemma three_pages x top : x ∈ three -> vaddr x.2 mod VM_PAGE_SIZE = 0 /\ pages_ok (demo_vm three top) x.2.
Proof.
  intros Hx. repeat (apply elem_of_cons in Hx as [->|Hx]); [..|by apply elem_of_nil in Hx]; (split; [done|]).
  all: split_and!; [done|done|]; intros i p Hi _; repeat (destruct i as [|i]; simplify_eq/=);
    eexists; (split; [by vm_compute|done]).
Qed.

Example map_lookup_spec_witness :
  map_lookup 0 0x12000 true (demo_vm three 0) = Done (Some (1%nat, Some 2%nat), demo_vm three 0) /\
  map_lookup 0 0x20000 false (demo_vm three 0) = Done (None, demo_vm three 0).
Proof.
  split.
  - apply (map_lookup_spec _ _ (demo_proc three 0) VM_PAGE_SIZE three 0x12000 true) with (x := (1%nat, rA));
      [apply three_regions|done|done|intros x; apply three_pages|done|by left|done].
  - apply (map_lookup_spec _ _ (demo_proc three 0) VM_PAGE_SIZE three 0x20000 false);
      [apply three_regions|done|done|intros x; apply three_pages|done|].
    intros x Hx. repeat (apply elem_of_cons in Hx as [->|Hx]); [by intros [? ?]..|by apply elem_of_nil in Hx].
Defined.

Example unmap_later_spec_witness :
  wp (map_unmap_region 0 1 (Z.of_nat 1 * VM_PAGE_SIZE) (Z.of_nat (3 - 1) * VM_PAGE_SIZE)) (demo_vm three 0) (fun x s' =>
    (x = OK \/ x = ENOMEM) /\ regions s' = <[1%nat := cut_region 1 3 3 rA]> (regions (demo_vm three 0)) /\
    n_pages s' (cut_region 1 3 3 rA) 1 /\ procs s' = procs (demo_vm three 0)).
Proof. apply (unmap_later_spec _ 0 1 rA 3 1 3); [done|apply rA_pages|done|lia|lia]. Defined.

Lemma rC_pages top : n_pages (demo_vm three top) rC 4.
Proof.
  split_and!; [done|simpl; lia|]. intros i p Hi Hp.
  repeat (destruct i as [|i]; simplify_eq/=); eexists; (split; [by vm_compute|done]).
Qed.

Example unmap_start_spec_witness :
  wp (map_unmap_region 0 3 0 (Z.of_nat 1 * VM_PAGE_SIZE)) (demo_vm three 0) (fun x s' =>
    exists r', regions s' = <[3%nat := r']> (regions (demo_vm three 0)) /\ n_pages s' r' (4 - 1) /\
    vaddr r' = u32 (vaddr rC + Z.of_nat 1 * VM_PAGE_SIZE) /\
    forall i, (i < 4 - 1)%nat -> physblocks r' !! i = physblocks rC !! (1 + i)%nat).
Proof.
  apply (unmap_start_spec _ 0 3 (demo_proc three 0) rC 4 1); [done|apply rC_pages|done|done|lia|].
  intros i Hi. replace i with 3%nat by lia. done.
Defined.

Example unmap_start_stale_witness :
  wp (map_unmap_region 0 1 0 (Z.of_nat 1 * VM_PAGE_SIZE)) (demo_vm three 0) (fun x s' =>
    physblock_get 1 (Z.of_nat (2 - 1) * VM_PAGE_SIZE) s' = Fault AssertFail).
Proof. apply (unmap_start_stale _ 0 1 (demo_proc three 0) rA 3 1 2 2); [done|apply rA_pages|done|done|lia|lia|lia|done]. Defined.

Example unmap_whole_adjacent_witness :
  wp (map_unmap_region 0 1 0 (vr_length rA)) (demo_vm three 0) (fun x s' =>
    regions s' !! 2%nat = Some rB /\
    exists vp', procs s' !! 0%nat = Some vp' /\ avl_search (vaddr rB) (vm_regions_avl vp') = None).
Proof.
  apply (unmap_whole_adjacent _ 0 1 (demo_proc three 0) VM_PAGE_SIZE three rA 3 2 rB);
    [apply three_regions|done|done|by left|by right; left|done|done|apply rA_pages|done].
Defined.
