(* ===== verification/RegionMapProps.v ===== *)
(** * Mapping memory and writing to it: what is shown ([region.c])

    A new region lies in a free place and nothing else changes; mapping and
    unmapping undo each other but for a neighbour; after a fork a write gives the
    child a page of its own. *)
From S2P Require Import Prelude StateM DList Avl Region RegionOps RegionSlot RegionUnmap Yielded YieldedInv.
From S2P Require Import YieldBlock RegionFree RegionFork RegionMap RegionDemo RegionExit RegionProps.
Open Scope Z_scope.

Section mapping.
Context {W RT YT : Type} `{!Cmp64} `{!Avl Z nat RT} `{!AvlOk Z nat RT} `{!Avl block_id nat YT} `{!AvlOk block_id nat YT}
  `{!VmHdr} `{!VmServer W RT YT} `{!YieldOk W RT YT} `{!ForkOk W RT YT} `{!UnrefOk W RT YT} `{!BlockOk W RT YT}.
Implicit Types (s : vm W RT YT) (l : list (nat * vir_region)).

(** C22: [map_page_region] for [n] pages.  It returns NULL and changes nothing when
    no place in the range asked for is free.  Otherwise, while memory lasts, it
    returns a new region that starts in a free place of the range, with its pages
    absent or, with MF_PREALLOC, each in a frame of its own; the tree of the
    process keeps its order, and the regions and pages that were there, the frames
    of their blocks and the other processes stay as they are.  When memory, or the
    room for page tables, does not last, no region is added. *)
Theorem mmap_places s vmp vp lo l minv maxv n flags mapflags mt : mmap_ok s vmp vp lo l minv maxv n flags mapflags mt ->
  wp (map_page_region vmp minv maxv (Z.of_nat n * VM_PAGE_SIZE) flags mapflags mt) s
    (mmap_result s vmp vp lo l minv maxv n flags (bool_decide (Z.land mapflags MF_PREALLOC <> 0)) mt).
Proof. apply map_page_region_spec. Qed.

(** C24: A write to page [i] of a region, in [map_pf].  While memory lasts, the page
    is afterwards in a frame of its own, whether it was absent, shared or private
    before; [map_pf] returns OK when the page could be entered in the page table,
    and ENOMEM, with the page still in the region, when there was no room for the
    table.  When an allocation fails, [map_pf] returns ENOMEM and the page is
    gone: a shared page whose copy could not be made is taken out of the region
    with its contents.  No other page of the region or of another region changes,
    and their blocks keep their frames. *)
Theorem write_fault s vmp region r n i write : anonymous W RT YT (memtype r) -> distinct_codes -> write <> 0 ->
  Z.land (vr_flags r) VR_WRITABLE <> 0 -> regions s !! region = Some r -> backed s n r -> (i < n)%nat -> vaddr r mod VM_PAGE_SIZE = 0 ->
  wp (map_pf vmp region (Z.of_nat i * VM_PAGE_SIZE) write) s (fun x s' => exists r', touch_page s region r n i r' s' /\
    (resident s' r' i /\ (x = OK \/ tables_full /\ x = ENOMEM) \/
     physblocks r' !! i = Some None /\ scarce /\ x = ENOMEM)).
Proof.
  intros. eapply wp_mono; [by apply map_pf_spec|]. intros x s' (r' & Ht & [[Hx Hr]|(Hsc & Hx & Hp)]); exists r'; (split; [done|]); auto.
Qed.

(** ** Mapping and unmapping *)

(** What the tree of a process holds when the region [x] leaves it. *)
Lemma unmapped_elems lo s vmp vp l1 x l2 : has_regions lo s vmp vp (l1 ++ x :: l2) -> vaddr x.2 + vr_length x.2 < 2 ^ 32 -> 0 <= lo ->
  avl_elems (whole_tree (vm_regions_avl vp) x.2 x.1) =
    entry <$> filter (fun y => vaddr y.2 <> vaddr x.2 + vr_length x.2) (l1 ++ l2).
Proof.
  intros [_ Hel _ Hst] Hlt Hlo. pose proof (avl_ordered (vm_regions_avl vp)) as Hord.
  rewrite fmap_app, fmap_cons in Hst. apply gap_before in Hst as (Hx & Hpos & _); [|done].
  rewrite Hel, fmap_app, fmap_cons in Hord. rewrite whole_tree_elems, Hel, fmap_app, fmap_cons, u32_small by lia.
  change (entry x) with (vaddr x.2, x.1) in *. rewrite list_del_at by done. rewrite <- fmap_app. unfold list_del.
  by apply filter_fmap.
Qed.

(** C23: [map_page_region] and then [map_unmap_region] of all of the new region
    leave the regions as they were, whether there was a place for the new region
    or not; the tree of the process holds the regions from before, except the one
    that starts exactly where the new region ended, which is lost. *)
Theorem mmap_munmap `{!PbOk W RT YT} s vmp vp lo l minv maxv n flags mapflags mt : mmap_ok s vmp vp lo l minv maxv n flags mapflags mt ->
  ev_delete (mem_types mt) = None ->
  let len := Z.of_nat n * VM_PAGE_SIZE in
  wp (o ← map_page_region vmp minv maxv len flags mapflags mt;
      match o with Some p => _ ← map_unmap_region vmp p 0 len; mret true | None => mret false end) s
    (fun ok s' => regions s' = regions s /\ exists vp', procs s' !! vmp = Some vp' /\
      if ok : bool then exists v, place minv (search_end minv maxv len) len l.*2 (Some v) /\
        avl_elems (vm_regions_avl vp') = entry <$> filter (fun x => vaddr x.2 <> v + len) l
      else avl_elems (vm_regions_avl vp') = entry <$> l).
Proof.
  intros Hok Hdel len. assert (Hl := mo_regions _ _ _ _ _ _ _ _ _ _ _ Hok). assert (Hvp := hr_proc _ _ _ _ _ Hl).
  assert (Hlo := mo_low _ _ _ _ _ _ _ _ _ _ _ Hok). assert (Hhi := mo_high _ _ _ _ _ _ _ _ _ _ _ Hok).
  assert (Hlen : 0 < len) by apply (mo_request _ _ _ _ _ _ _ _ _ _ _ Hok).
  apply wp_bind. eapply wp_mono; [by apply map_page_region_spec|]. intros [p|] s1 Hres.
  - destruct Hres as (v & pbs & l1 & l2 & vp' & -> & Hp & Hpl & Hreg & Hl' & [Hn _] & _).
    set (nr := mapped s vmp v n flags mt pbs) in *. assert (Hend : vaddr nr + vr_length nr <= VM_DATATOP) by apply Hpl.
    assert (Hv : minv <= vaddr nr) by apply Hpl. unfold VM_PAGE_SIZE in Hlo, Hhi.
    assert (Hr : regions s1 !! p = Some nr) by (rewrite Hreg; apply lookup_insert_eq). assert (Hvp' := hr_proc _ _ _ _ _ Hl').
    apply wp_bind. eapply wp_mono; [apply (unmap_whole s1 vmp p vp' nr n); try done|].
    + change (vr_length nr) with len in *. lia.
    + destruct n; [unfold len in Hlen; cbn in Hlen; lia|lia].
    + intros x s2 [Hreg2 Hpr2]. apply wp_ret. split; [by rewrite Hreg2, Hreg, delete_insert_eq, delete_id|].
      eexists. split; [rewrite Hpr2; apply list_lookup_insert_eq; by eapply lookup_lt_Some|]. exists v. split; [done|].
      apply (unmapped_elems lo s1 vmp vp' l1 (p, nr) l2); [done|cbn [snd]; lia|unfold VM_PAGE_SIZE in *; lia].
  - apply wp_ret. assert (Hel := hr_elems _ _ _ _ _ Hl). destruct Hres as [[_ ->]|(_ & -> & top & Hpr)]; (split; [done|]).
    + by exists vp.
    + eexists. split; [rewrite Hpr; apply list_lookup_insert_eq; by eapply lookup_lt_Some|]. exact Hel.
Qed.

(** ** Writing after a fork *)

Lemma copy_here s0 s dst l l' x : Forall2 (copy_of s0 s dst) l l' -> x ∈ l -> exists x', x' ∈ l' /\ copy_of s0 s dst x x'.
Proof. intros Hc (k & Hk)%list_elem_of_lookup. destruct (Forall2_lookup_l _ _ _ _ _ Hc Hk) as (x' & Hk' & ?). exists x'. split; [by eapply list_elem_of_lookup_2|done]. Qed.

Lemma copy_there s0 s dst l l' x' : Forall2 (copy_of s0 s dst) l l' -> x' ∈ l' -> exists x, x ∈ l /\ copy_of s0 s dst x x'.
Proof. intros Hc (k & Hk)%list_elem_of_lookup. destruct (Forall2_lookup_r _ _ _ _ _ Hc Hk) as (x & Hk' & ?). exists x. split; [by eapply list_elem_of_lookup_2|done]. Qed.

Lemma copies_stacked s0 s dst l l' lo hi : Forall2 (copy_of s0 s dst) l l' -> stacked lo hi l.*2 -> stacked lo hi l'.*2.
Proof.
  intros Hc. revert lo. induction Hc as [|x x' l l' (_ & _ & Hv & Hn & _) _ IH]; intros lo Hst; [done|].
  rewrite !fmap_cons in *. cbn in *. rewrite Hv, Hn. destruct Hst as (? & ? & ?). split_and!; try done. by apply IH.
Qed.

(** The address space of the child. *)
Lemma child_regions lo s src vs l dst s' : has_regions lo s src vs l -> shared_with s dst l s' ->
  exists vd l', has_regions lo s' dst vd l' /\ Forall2 (copy_of s s' dst) l l'.
Proof.
  intros Hl ((vd & l' & Hvd & Hel & Hc) & _). exists vd, l'. split; [|done]. split; try done.
  - by apply (copies_heap _ _ _ _ _ Hc).
  - eapply copies_stacked; [done|apply Hl].
Qed.

(** A fault at the offset [off] of the region at the address [v], as the page fault
    handler calls [map_pf]. *)
Definition fault_at vmp v off write : M W RT YT Z :=
  o ← map_lookup vmp v false;
  match o with Some (region, _) => map_pf vmp region off write | None => mret EFAULT end.

(** The blocks that were in use keep their frames and have no fewer references. *)
Definition blocks_remain (m m' : gmap nat phys_block) : Prop :=
  forall b blk, m !! b = Some blk -> 0 < refcount blk -> exists blk', m' !! b = Some blk' /\ phys blk' = phys blk /\ refcount blk <= refcount blk'.

Lemma remain_drop s s' b0 l b blk : (forall b, phys_blocks s' !! b =
    (fun blk => PhysBlock (phys blk) (refcount blk + uses b (all_refs s l))) <$> phys_blocks s !! b) ->
  0 < uses b0 (all_refs s l) -> phys_blocks s !! b = Some blk -> 0 < refcount blk ->
  exists blk', drop_ref b0 (phys_blocks s') !! b = Some blk' /\ phys blk' = phys blk /\ refcount blk <= refcount blk'.
Proof.
  intros Hs Hu Hb Hpos. rewrite drop_ref_lookup, Hs, Hb. cbn. pose proof (uses_nonneg b (all_refs s l)). case_decide; [subst|].
  - rewrite decide_False by (cbn; lia). eexists. split; [done|]. cbn. split; [done|lia].
  - eexists. split; [done|]. cbn. split; [done|lia].
Qed.

(** What a process [src] that was forked sees of it: nothing. *)
Definition parent_kept s (src : nat) vs s' : Prop :=
  regions s ⊆ regions s' /\ phys_regions s ⊆ phys_regions s' /\ procs s' !! src = Some vs /\
  blocks_remain (phys_blocks s) (phys_blocks s').

(** Page [i] of the copy of [r] that belongs to [dst] is in a block of its own that
    is new since [s]. *)
Definition own_page s (dst : nat) (r : vir_region) (i : nat) s' : Prop :=
  exists region r' p b a, regions s' !! region = Some r' /\ parent r' = dst /\ vaddr r' = vaddr r /\
    physblocks r' !! i = Some (Some p) /\ phys_regions s' !! p = Some (PhysRegion b (Z.of_nat i * VM_PAGE_SIZE)) /\
    phys_blocks s !! b = None /\ phys_blocks s' !! b = Some (PhysBlock a 1) /\ a <> MAP_NONE.

(** The write of the child. *)
Lemma child_write s dst src vs vd lo l x i p q write s1 : dst <> src -> parent_of s src vs l -> has_regions lo s src vs l ->
  0 <= lo -> VM_DATATOP < 2 ^ 32 -> procs s !! dst = Some vd -> shared_with s dst l s1 ->
  distinct_codes -> write <> 0 -> x ∈ l -> anonymous W RT YT (memtype x.2) -> Z.land (vr_flags x.2) VR_WRITABLE <> 0 ->
  backed s (npages x.2) x.2 -> (i < npages x.2)%nat -> physblocks x.2 !! i = Some (Some p) -> phys_regions s !! p = Some q ->
  wp (fault_at dst (vaddr x.2) (Z.of_nat i * VM_PAGE_SIZE) write) s1 (fun r s2 => parent_kept s src vs s2 /\
    (own_page s dst x.2 i s2 /\ (r = OK \/ tables_full /\ r = ENOMEM) \/ scarce /\ r = ENOMEM)).
Proof.
  intros Hne (Hvs & _ & _ & Hfa & Hpar) Hl Hlo Htop Hvd Hsh Hcodes Hwr Hx Han Hfl [Hn Hbk] Hi Hp Hq.
  destruct (child_regions _ _ _ _ _ _ _ Hl Hsh) as (vd' & l' & Hl' & Hc). destruct Hsh as (_ & Hreg & Hpg & Hpr & Hblk).
  destruct (Hbk i p q Hi Hp Hq) as (blk & Hb & Hpos & Hnn).
  assert (Hin : ph q ∈ all_refs s l).
  { apply list_elem_of_bind. exists x. split; [|done]. apply list_elem_of_omap. exists (Some p). cbn. rewrite Hq.
    split; [|done]. apply elem_of_take. by exists i. }
  apply uses_pos in Hin.
  destruct (copy_here _ _ _ _ _ _ Hc Hx) as ([p' r'] & Hx' & Hcp). assert (Hcp' := Hcp).
  destruct Hcp' as (Hfr & Hr' & Hv & Hln & Hf & Hm & Hpa & Hpl & Hpc). cbn [fst snd] in *.
  assert (Hn' := copy_n_pages _ _ _ _ _ _ Hcp Hn). cbn [snd] in Hn'.
  destruct (Hpc i Hi) as (o & [p1|] & Ho & Hp1 & Hcpy); rewrite Hp in Ho; injection Ho as <-; [|done].
  destruct Hcpy as (q' & Hq' & Hfr1 & Hq1). rewrite Hq in Hq'. injection Hq' as <-.
  assert (Hva : vaddr x.2 mod VM_PAGE_SIZE = 0) by by apply Hpar.
  assert (Hlen : 0 < vr_length x.2) by (rewrite (proj1 Hn); unfold VM_PAGE_SIZE; lia).
  unfold fault_at. apply wp_bind. eapply wp_done.
  { refine (proj1 (map_lookup_spec s1 dst vd' lo l' (vaddr x.2) false Hl' Hlo Htop _ ltac:(done)) (p', r') Hx' _).
    - intros y' Hy'. destruct (copy_there _ _ _ _ _ _ Hc Hy') as (y & Hy & Hcy). assert (Hny := proj1 (fa_pages _ _ Hfa y Hy)).
      split; [destruct Hcy as (_ & _ & -> & _); by apply Hpar|]. eapply n_pages_ok, copy_n_pages; [exact Hcy|exact Hny].
    - cbn [snd]. lia. }
  cbn [fst snd]. assert (Hb1 := Hblk (ph q)). rewrite Hb in Hb1. cbn in Hb1.
  apply (map_pf_page s1 dst p' r' (npages x.2) i (Some p1)); try done; [by rewrite Hf|by rewrite Hv|].
  eapply wp_mono.
  { apply (pf_resolve_spec s1 dst p' r' p1 i (PhysRegion (ph q) (Z.of_nat i * VM_PAGE_SIZE)) (PhysBlock (phys blk) (refcount blk + uses (ph q) (all_refs s l))) write); try done; [by rewrite Hm|cbn; lia|by rewrite Hv]. }
  intros r s2 (w & H2). cbn [ph offset phys refcount] in H2.
  assert (Hkept : forall m m' B, regions s ⊆ m -> phys_regions s ⊆ m' -> blocks_remain (phys_blocks s) B ->
    parent_kept s src vs (with_world w (with_regions m (with_phys_regions m' (with_phys_blocks B s1))))).
  { intros m m' B ? ? ?. split; [done|]. split; [done|]. split; [|done]. cbn. by rewrite Hpr. }
  destruct H2 as [(_ & _ & H1 & _)|[(_ & a & Hno & _)|[(Hx2 & a & b & _ & _ & Ha & Hfb & ->)|(-> & Hsc & _ & q' & ->)]]]; [lia|done| |].
  - assert (Hbn : phys_blocks s !! b = None) by (specialize (Hblk b); rewrite Hfb in Hblk; by destruct (phys_blocks s !! b)).
    split; [|left; split; [|exact Hx2]].
    + apply (Hkept (regions s1) (<[p1 := _]> (phys_regions s1)) (<[b := _]> (drop_ref (ph q) (phys_blocks s1))));
        [done|apply insert_subseteq_r; [exact Hfr1|exact Hpg]|]. intros c blk' Hc'. rewrite lookup_insert_ne by congruence.
      by apply (remain_drop s s1 (ph q) l).
    + exists p', r', p1, b, a. split_and!; try done; apply lookup_insert_eq.
  - split; [|by right]. apply (Hkept (<[p' := _]> (regions s1)) (<[p1 := _]> (phys_regions s1)) (drop_ref (ph q) (phys_blocks s1)));
      [apply insert_subseteq_r; [exact Hfr|exact Hreg]|apply insert_subseteq_r; [exact Hfr1|exact Hpg]|].
    intros c blk' Hc'. by apply (remain_drop s s1 (ph q) l).
Qed.

(** C19: Copy on write.  After [map_proc_copy], the first write of the child to a
    page it shares with its parent gives the page a new block with a frame of its
    own, in the child's copy of the region; OK is returned when there was room to
    enter the page in the page table, and ENOMEM when there was not.  The parent
    keeps all its regions and pages, and their blocks keep their frames and have no
    fewer references than before the fork; this is so, too, when memory does not
    last for the fork or for the new block, and ENOMEM is returned. *)
Theorem fork_copy_on_write s dst src vs vd lo l x i p q write : dst <> src -> parent_of s src vs l -> has_regions lo s src vs l ->
  0 <= lo -> VM_DATATOP < 2 ^ 32 -> procs s !! dst = Some vd -> vm_yielded vd = 0 ->
  distinct_codes -> write <> 0 -> x ∈ l -> anonymous W RT YT (memtype x.2) -> Z.land (vr_flags x.2) VR_WRITABLE <> 0 ->
  backed s (npages x.2) x.2 -> (i < npages x.2)%nat -> physblocks x.2 !! i = Some (Some p) -> phys_regions s !! p = Some q ->
  wp (r ← map_proc_copy free_yielded_proc dst src;
      if decide (r = OK) then fault_at dst (vaddr x.2) (Z.of_nat i * VM_PAGE_SIZE) write else mret r) s
    (fun r s' => parent_kept s src vs s' /\
      (own_page s dst x.2 i s' /\ (r = OK \/ tables_full /\ r = ENOMEM) \/ scarce /\ r = ENOMEM)).
Proof.
  intros Hne Hpa Hl Hlo Htop Hvd Hy Hcodes. intros. apply wp_bind. eapply wp_mono.
  { apply (fork_spec free_yielded_proc s dst src vs vd l (undone s dst vd)); [done..|]. intros _ s1. by apply free_undone. }
  intros r s1 [[-> Hf]|(Hsc & -> & k & w & ->)].
  - rewrite decide_True by done. assert (Hsh := forked_shared _ _ _ _ _ Hvd Hf). by apply (child_write s dst src vs vd lo l x i p q).
  - rewrite decide_False by apply Hcodes. apply wp_ret. split; [|by right]. split; [done|]. split; [done|]. split.
    + cbn. rewrite list_lookup_insert_ne by done. apply Hpa.
    + intros b blk Hb. by exists blk.
Qed.
End mapping.

(** ** Witnesses *)

(** Two pages anywhere between 0x20000 and 0x80000. *)
Lemma three_mmap mapflags : mmap_ok (demo_vm three 0) 0 (demo_proc three 0) VM_PAGE_SIZE three 0x20000 0x80000 2 1 mapflags 0.
Proof.
  split.
  - apply three_regions.
  - done.
  - done.
  - split_and!; [done|done|by vm_compute|done|done|done|done|by right].
  - split; [done|]. right. done.
  - split_and!; [done..|]. intros p r Hr. apply elem_of_list_to_map_2 in Hr.
    repeat (apply elem_of_cons in Hr as [[= -> ->]|Hr]); [done..|by apply elem_of_nil in Hr].
  - done.
  - intros _. split; [apply demo_anonymous|]. split; [split_and!; done|done].
Qed.

(** The pages of the three regions have their frames. *)
Lemma three_backed x : x ∈ three -> backed two_procs (npages x.2) x.2.
Proof.
  intros Hx. split; [by apply (fa_pages _ _ three_forkable)|]. intros i p q Hi Hp Hq.
  repeat (apply elem_of_cons in Hx as [->|Hx]); [..|by apply elem_of_nil in Hx];
    repeat (destruct i as [|i]; simplify_eq/=); try (vm_compute in Hi; lia);
    vm_compute in Hq; injection Hq as <-; eexists; by split_and!.
Qed.

(** The write succeeds; without room for page tables it fails, and the page is still
    there. *)
Example write_fault_witness :
  wp (map_pf 0 3 (Z.of_nat 0 * VM_PAGE_SIZE) 1) two_procs (fun x s' => x = OK /\ exists r, resident s' r 0) /\
  wp (map_pf (VmServer0 := server_with None true) 0 3 (Z.of_nat 0 * VM_PAGE_SIZE) 1) two_procs (fun x s' =>
    (x = OK \/ x = ENOMEM) /\ exists r, resident s' r 0).
Proof.
  assert (Hb : backed two_procs 4 rC) by (apply (three_backed (3%nat, rC)); by repeat (left + right)). split.
  - eapply wp_mono; [apply (write_fault two_procs 0 3 rC 4 0 1); try done; [apply demo_anonymous|lia]|].
    intros x s' (r & _ & [[Hr [->|[Hf _]]]|(_ & Hsc & _)]); [|done|by destruct (Hsc eq_refl)]. split; [done|]. by exists r.
  - eapply wp_mono.
    { apply (write_fault (VmServer0 := server_with None true) (YieldOk0 := server_yield_ok None true)
        (ForkOk0 := server_fork_ok None true) (UnrefOk0 := server_unref_ok None true) (BlockOk0 := server_block_ok None true)
        two_procs 0 3 rC 4 0 1); try done; [apply server_anonymous|lia]. }
    intros x s' (r & _ & [[Hr Hx]|(_ & Hsc & _)]); [|by destruct (Hsc eq_refl)]. split; [tauto|]. by exists r.
Defined.
Example write_fault_full :
  match map_pf (VmServer0 := server_with None true) 0 3 (Z.of_nat 0 * VM_PAGE_SIZE) 1 two_procs with
  | Done (x, s') => x = ENOMEM /\ physblocks <$> regions s' !! 3%nat = Some (physblocks rC) | Fault _ => False end.
Proof. by vm_compute. Qed.

Lemma three_has_room : ~ place 0x20000 0x80000 0x2000 three.*2 None.
Proof.
  intros Hno. apply (Hno 0x20000); [done|done|done|]. intros r Hr.
  repeat (apply elem_of_cons in Hr as [->|Hr]); [unfold apart; vm_compute..|by apply elem_of_nil in Hr]; by (left + right).
Qed.

Example mmap_places_witness :
  wp (map_page_region 0 0x20000 0x80000 (Z.of_nat 2 * VM_PAGE_SIZE) 1 1 0) (demo_vm three 0) (fun o s' =>
    exists p r, o = Some p /\ regions s' !! p = Some r /\ resident s' r 0 /\ resident s' r 1 /\ regions s' !! 1%nat = Some rA).
Proof.
  eapply wp_mono; [apply (mmap_places _ 0 (demo_proc three 0) VM_PAGE_SIZE three _ _ 2 1 1 0), three_mmap|].
  intros [p|] s' H.
  - destruct H as (v & pbs & l1 & l2 & vp' & _ & Hp & _ & Hreg & _ & _ & Hres & _). exists p. eexists. split; [done|].
    rewrite Hreg. split; [apply lookup_insert_eq|]. split; [apply Hres; lia|]. split; [apply Hres; lia|].
    rewrite lookup_insert_ne; [done|]. intros ->. done.
  - destruct H as [[Hno _]|[[Hsc|Hf] _]]; [by destruct three_has_room|by destruct (Hsc eq_refl)|done].
Defined.

Example mmap_munmap_witness :
  wp (o ← map_page_region 0 0x20000 0x80000 (Z.of_nat 2 * VM_PAGE_SIZE) 1 1 0;
      match o with Some p => _ ← map_unmap_region 0 p 0 (Z.of_nat 2 * VM_PAGE_SIZE); mret true | None => mret false end)
    (demo_vm three 0) (fun _ s' => regions s' = regions (demo_vm three 0)).
Proof.
  eapply wp_mono; [apply (mmap_munmap _ 0 (demo_proc three 0) VM_PAGE_SIZE three _ _ 2 1 1 0); [apply three_mmap|done]|].
  intros ok s' [Hreg _]. exact Hreg.
Defined.

(** The child writes to the first page of the first region. *)
Example fork_copy_on_write_witness :
  wp (r ← map_proc_copy free_yielded_proc 1 0;
      if decide (r = OK) then fault_at 1 0x10000 (Z.of_nat 0 * VM_PAGE_SIZE) 1 else mret r) two_procs
    (fun r s' => r = OK /\ parent_kept two_procs 0 (demo_proc three 0) s' /\ own_page two_procs 1 rA 0 s').
Proof.
  eapply wp_mono.
  { apply (fork_copy_on_write two_procs 1 0 (demo_proc three 0) (VmProc 9 avl_empty 0 0) VM_PAGE_SIZE three (1%nat, rA) 0 1 (PhysRegion 11 0) 1);
      try done.
    - apply three_parent.
    - split; [done|done|apply three_forkable|apply (three_regions 0)].
    - by left.
    - apply demo_anonymous.
    - apply (three_backed (1%nat, rA)). by left.
    - vm_compute. lia. }
  intros r s' [Hk [[Ho [->|[Hf _]]]|[Hsc _]]]; [by split_and!|done|by destruct (Hsc eq_refl)].
Defined.
