(* ===== verification/RegionUsage.v ===== *)
(** * The memory usage of a process ([region.c])

    [physregions], [get_usage_info] and [printregionstats] walk over the regions
    of a process and over their pages.  This file has the last of the three and
    proves that what each counts is what a fold over the lists of pages counts. *)
From S2P Require Import Prelude StateM Avl Region RegionOps RegionSlot RegionUnmap RegionDemo RegionProps.
Open Scope Z_scope.

Section usage.
Context {W RT YT : Type} `{!Avl Z nat RT} `{!VmHdr} `{!VmServer W RT YT}.
Abbreviation M := (M W RT YT).

(** ** Walks *)

(** [for (voffset = 0; voffset < vr->length; voffset += VM_PAGE_SIZE)], the body
    being given the offset and the entry for the page. *)
Fixpoint walk_pages {A} (body : vir_region -> Z -> option nat -> A -> M A) (fuel : nat) (r : nat) (voffset : Z) (a : A) : M A :=
  match fuel with
  | O => raise OutOfFuel
  | S fuel =>
      vr ← get_vr r;
      if decide (voffset < vr_length vr) then
        p ← physblock_get r voffset;
        a ← body vr voffset p a;
        walk_pages body fuel r (u32 (voffset + VM_PAGE_SIZE)) a
      else mret a
  end.

(** [while ((vr = region_get_iter(&v_iter)))], with [region_incr_iter]. *)
Fixpoint walk_regions {A} (body : nat -> A -> M A) (fuel : nat) (t : RT) (iter : option (Z * nat)) (a : A) : M A :=
  match fuel with
  | O => raise OutOfFuel
  | S fuel =>
      match iter with
      | None => mret a
      | Some (k, r) => a ← body r a; walk_regions body fuel t (avl_search_gt k t) a
      end
  end.

(** ** [printregionstats] *)

(** A page that is present, on [used] and [weighted]; the share of a block
    without references is a division by zero. *)
Definition stats_block (pb : phys_block) (a : Z * Z) : M (Z * Z) :=
  _ ← (if decide (refcount pb = 0) then raise Undefined else mret tt);
  mret (u32 (a.1 + VM_PAGE_SIZE), u32 (a.2 + VM_PAGE_SIZE / refcount pb)).

(** The body of the loop over the pages. *)
Definition stats_page (_ : vir_region) (_ : Z) (p : option nat) (a : Z * Z) : M (Z * Z) :=
  match p with
  | None => mret a
  | Some q => pr ← get_pr q; pb ← get_pb (ph pr); stats_block pb a
  end.

Definition stats_region (r : nat) (a : Z * Z) : M (Z * Z) :=
  vr ← get_vr r;
  if decide (Z.land (vr_flags vr) VR_DIRECT <> 0) then mret a
  else walk_pages stats_page (page_fuel 0 (vr_length vr)) r 0 a.

(** The two numbers that are printed, in kB. *)
Definition printregionstats (vmp : nat) : M (Z * Z) :=
  t ← get_tree vmp;
  a ← walk_regions stats_region (S (length (avl_elems t))) t (avl_least t) (0, 0);
  mret (a.1 / 1024, a.2 / 1024).
End usage.

(** ** Folds that may fail *)

Fixpoint fold_exec {A B} (g : B -> A -> exec A) (l : list B) (a : A) : exec A :=
  match l with [] => Done a | x :: l => a ← g x a; fold_exec g l a end.

Lemma fold_exec_done {A B} (f : B -> A -> A) l a : fold_exec (fun x a => Done (f x a)) l a = Done (foldl (fun a x => f x a) a l).
Proof. revert a. induction l as [|x l IH]; intros a; [done|]. cbn. apply IH. Qed.

Lemma fold_exec_ext {A B} (f g : B -> A -> exec A) l a : (forall x a, f x a = g x a) -> fold_exec f l a = fold_exec g l a.
Proof. intros Hfg. revert a. induction l as [|x l IH]; intros a; [done|]. cbn. rewrite Hfg. destruct (g x a); [apply IH|done]. Qed.

Lemma foldl_bind {A B C} (f : A -> C -> A) (h : B -> list C) l a : foldl f a (l ≫= h) = foldl (fun a x => foldl f a (h x)) a l.
Proof. revert a. induction l as [|x l IH]; intros a; [done|]. cbn. rewrite foldl_app. apply IH. Qed.

(** ** The pages of a region as a list *)

Section spec.
Context {W RT YT : Type} `{!Avl Z nat RT} `{!AvlOk Z nat RT} `{!VmHdr} `{!VmServer W RT YT}.
Implicit Types (s : vm W RT YT) (l : list (nat * vir_region)).

Definition entries (vr : vir_region) : list (option nat) := take (Z.to_nat (vr_length vr / VM_PAGE_SIZE)) (physblocks vr).

Definition block_of s (p : nat) : option phys_block := q ← phys_regions s !! p; phys_blocks s !! ph q.

(** The blocks of the pages that are present. *)
Definition blocks s (vr : vir_region) : list phys_block := omap (fun o => o ≫= block_of s) (entries vr).

(** A region of a 32-bit address space whose pages have their blocks. *)
Definition region_ok s (vr : vir_region) : Prop :=
  pages_ok s vr /\ 0 <= vr_length vr < 2 ^ 32 /\ forall p, Some p ∈ entries vr -> is_Some (block_of s p).

Lemma entries_length s vr : region_ok s vr -> Z.of_nat (length (entries vr)) * VM_PAGE_SIZE = vr_length vr.
Proof.
  intros ((Hm & Hl & _) & H0 & _). unfold entries, VM_PAGE_SIZE in *. rewrite length_take.
  pose proof (Z.div_mod (vr_length vr) 4096). pose proof (Z.div_pos (vr_length vr) 4096). lia.
Qed.

(** The pages with their offsets. *)
Definition numbered (os : list (option nat)) : list (Z * option nat) := imap (fun i o => (Z.of_nat i * VM_PAGE_SIZE, o)) os.

Lemma foldl_numbered {A} (f : option nat -> A -> A) os a : foldl (fun a x => f x.2 a) a (numbered os) = foldl (fun a o => f o a) a os.
Proof.
  assert (Hh : forall h : nat -> Z, foldl (fun a x => f x.2 a) a (imap (fun i o => (h i, o)) os) = foldl (fun a o => f o a) a os); [|apply Hh].
  revert a. induction os as [|o os IH]; intros a h; [done|]. apply (IH (f o a) (h ∘ S)).
Qed.

(** A walk whose body leaves the state as it is, but may fail, is a fold. *)
Lemma walk_pages_exact {A} (body : vir_region -> Z -> option nat -> A -> M W RT YT A) (g : Z * option nat -> A -> exec A) s r vr :
  regions s !! r = Some vr -> region_ok s vr ->
  (forall x a, x ∈ numbered (entries vr) -> body vr x.1 x.2 a s = (a' ← g x a; Done (a', s))) ->
  forall a, walk_pages body (page_fuel 0 (vr_length vr)) r 0 a s = (a' ← fold_exec g (numbered (entries vr)) a; Done (a', s)).
Proof.
  intros Hr Hok Hbody. pose proof (entries_length _ _ Hok) as Hn. destruct Hok as (Hpg & Hlen & _).
  assert (Hwalk : forall (l2 l1 : list (option nat)) (fuel : nat) (a : A), entries vr = l1 ++ l2 -> (length l2 < fuel)%nat ->
    walk_pages body fuel r (Z.of_nat (length l1) * VM_PAGE_SIZE) a s =
      (a' ← fold_exec g (imap (fun i o => (Z.of_nat (length l1 + i) * VM_PAGE_SIZE, o)) l2) a; Done (a', s))).
  { induction l2 as [|o l2 IH]; intros l1 [|fuel] a He Hf; simpl in Hf; try lia; cbn [walk_pages];
      rewrite (bind_done _ _ _ _ _ (get_vr_done _ _ _ Hr)); assert (Hn' := Hn); rewrite He, length_app in Hn'; cbn [length] in Hn'.
    - rewrite decide_False by (unfold VM_PAGE_SIZE in *; lia). done.
    - rewrite decide_True by (unfold VM_PAGE_SIZE in *; lia).
      erewrite bind_done; [|apply (physblock_get_done _ _ vr); [done|done|apply Z.mod_mul; done|unfold VM_PAGE_SIZE in *; lia]].
      assert (Hlk : entries vr !! length l1 = Some o) by (rewrite He; by apply list_lookup_middle).
      assert (page_at vr (Z.of_nat (length l1) * VM_PAGE_SIZE) = o) as ->.
      { unfold page_at. rewrite Z.div_mul by done. rewrite Nat2Z.id. unfold entries in Hlk. by apply lookup_take_Some in Hlk as [-> _]. }
      assert (Hx : (Z.of_nat (length l1) * VM_PAGE_SIZE, o) ∈ numbered (entries vr)).
      { apply (list_elem_of_lookup_2 _ (length l1)). unfold numbered. by rewrite list_lookup_imap, Hlk. }
      unfold mbind at 1, st_bind at 1. assert (Hb := Hbody _ a Hx). cbn [fst snd] in Hb. rewrite Hb. cbn [imap fold_exec]. rewrite Nat.add_0_r.
      destruct (g _ a) as [a'|]; [|done]. cbn [mbind exec_bind].
      rewrite u32_small by (unfold VM_PAGE_SIZE in *; lia).
      replace (Z.of_nat (length l1) * VM_PAGE_SIZE + VM_PAGE_SIZE) with (Z.of_nat (length (l1 ++ [o])) * VM_PAGE_SIZE)
        by (rewrite length_app; cbn; lia).
      rewrite IH by (by rewrite <- app_assoc || lia). f_equal. f_equal. apply imap_ext. intros i x _. cbn. rewrite length_app. cbn.
      by rewrite <- Nat.add_assoc. }
  intros a. apply (Hwalk (entries vr) []); [done|]. unfold page_fuel. rewrite <- Hn, Z.sub_0_r, Z.div_mul by done. lia.
Qed.

Lemma walk_pages_spec {A} (body : vir_region -> Z -> option nat -> A -> M W RT YT A) (f : option nat -> A -> A) s r vr :
  regions s !! r = Some vr -> region_ok s vr ->
  (forall v o a, o ∈ entries vr -> body vr v o a s = Done (f o a, s)) ->
  forall a, walk_pages body (page_fuel 0 (vr_length vr)) r 0 a s = Done (foldl (fun a o => f o a) a (entries vr), s).
Proof.
  intros Hr Hok Hbody a. rewrite (walk_pages_exact body (fun x a => Done (f x.2 a)) s r vr Hr Hok).
  - rewrite fold_exec_done. cbn. f_equal. f_equal. apply foldl_numbered.
  - intros x b Hx. rewrite Hbody; [done|]. unfold numbered in Hx. apply elem_of_lookup_imap in Hx as (i & o & -> & Ho).
    by eapply list_elem_of_lookup_2.
Qed.

Lemma walk_regions_exact {A} (body : nat -> A -> M W RT YT A) (g : nat * vir_region -> A -> exec A) s t l :
  tree_of s t l -> (forall x a, x ∈ l -> body x.1 a s = (a' ← g x a; Done (a', s))) ->
  forall a, walk_regions body (S (length (avl_elems t))) t (avl_least t) a s = (a' ← fold_exec g l a; Done (a', s)).
Proof.
  intros Ht Hbody. destruct Ht as [Hel Hreg].
  assert (Hwalk : forall l2 l1 (fuel : nat) (a : A), l = l1 ++ l2 -> (length l2 < fuel)%nat ->
    walk_regions body fuel t (head (entry <$> l2)) a s = (a' ← fold_exec g l2 a; Done (a', s))).
  { induction l2 as [|x l2 IH]; intros l1 [|fuel] a He Hf; simpl in Hf; try lia; [done|]. cbn [walk_regions fmap list_fmap head].
    assert (Hx : x ∈ l) by (rewrite He; apply elem_of_app; right; by left).
    unfold entry at 1. unfold mbind at 1, st_bind at 1. rewrite (Hbody x a Hx). cbn [fold_exec]. destruct (g x a) as [a'|]; [|done].
    cbn [mbind exec_bind]. assert (avl_search_gt (vaddr x.2) t = head (entry <$> l2)) as ->.
    { rewrite avl_gt_elems. pose proof (avl_ordered t) as Hord. rewrite Hel, He, fmap_app, fmap_cons in Hord |- *.
      exact (list_gt_at _ _ _ _ Hord). }
    apply (IH (l1 ++ [x])); [by rewrite <- app_assoc|lia]. }
  intros a. rewrite avl_least_elems, Hel. apply (Hwalk l []); [done|]. rewrite length_fmap. lia.
Qed.

Lemma walk_regions_spec {A} (body : nat -> A -> M W RT YT A) (f : vir_region -> A -> A) s t l :
  tree_of s t l -> (forall x a, x ∈ l -> body x.1 a s = Done (f x.2 a, s)) ->
  forall a, walk_regions body (S (length (avl_elems t))) t (avl_least t) a s = Done (foldl (fun a vr => f vr a) a l.*2, s).
Proof.
  intros Ht Hbody a. rewrite (walk_regions_exact body (fun x a => Done (f x.2 a)) s t l Ht) by (intros x b Hx; by rewrite Hbody).
  rewrite fold_exec_done. cbn. by rewrite foldl_fmap.
Qed.

(** ** What is counted *)

Lemma u32_add x n : u32 (u32 x + n) = u32 (x + n).
Proof. unfold u32, wrap. by rewrite Z.add_mod_idemp_l. Qed.

Lemma page_body {A} (g : phys_block -> A -> M W RT YT A) (f : phys_block -> A -> A) s vr o a :
  region_ok s vr -> o ∈ entries vr -> (forall pb, pb ∈ blocks s vr -> g pb a s = Done (f pb a, s)) ->
  match o with None => mret a | Some q => pr ← get_pr q; pb ← get_pb (ph pr); g pb a end s =
    Done (match o ≫= block_of s with None => a | Some pb => f pb a end, s).
Proof.
  intros (_ & _ & Hb) Ho Hg. destruct o as [p|]; [|done]. destruct (Hb p Ho) as [pb Hpb]. cbn. rewrite Hpb.
  assert (Hin : pb ∈ blocks s vr) by (apply list_elem_of_omap; eexists; by split).
  unfold block_of in Hpb. apply bind_Some in Hpb as (q & Hq & Hpb).
  erewrite bind_done by (unfold get_pr, mbind, st_bind, gets; by rewrite Hq).
  erewrite bind_done by (unfold get_pb, mbind, st_bind, gets; by rewrite Hpb). by apply Hg.
Qed.

(** A fold over the entries is one over the blocks. *)
Lemma foldl_blocks {A} (f : phys_block -> A -> A) s vr a :
  foldl (fun a o => match o ≫= block_of s with None => a | Some pb => f pb a end) a (entries vr) =
  foldl (fun a pb => f pb a) a (blocks s vr).
Proof.
  unfold blocks. revert a. induction (entries vr) as [|o l IH]; intros a; cbn; [done|]. rewrite IH.
  by destruct (o ≫= block_of s).
Qed.

(** *** [physregions] *)

Lemma physregions_spec s r vr : regions s !! r = Some vr -> region_ok s vr ->
  physregions r s = Done (Z.of_nat (length (blocks s vr)), s).
Proof.
  intros Hr Hok. unfold physregions. rewrite (bind_done _ _ _ _ _ (get_vr_done _ _ _ Hr)).
  assert (Heq : forall fuel voffset n s, count_pages fuel r voffset n s =
    walk_pages (fun _ _ p n => mret (if p is Some _ then n + 1 else n)) fuel r voffset n s).
  { induction fuel as [|fuel IH]; intros voffset n s'; [done|]. cbn [count_pages walk_pages].
    unfold mbind, st_bind. destruct (get_vr r s') as [[v s1]|]; [|done]. case_decide; [|done].
    destruct (physblock_get r voffset s1) as [[p s2]|]; [|done]. apply IH. }
  rewrite Heq.
  rewrite (walk_pages_spec _ (fun o n => match o ≫= block_of s with None => n | Some _ => n + 1 end) s r vr Hr Hok).
  - rewrite (foldl_blocks (fun _ n => n + 1)). f_equal. f_equal. rewrite <- (Z.add_0_l (Z.of_nat _)).
    generalize 0. induction (blocks s vr) as [|pb l IH]; intros n; cbn [foldl length]; [lia|]. rewrite IH. lia.
  - intros v [p|] n Ho; [|done]. destruct Hok as (_ & _ & Hb). destruct (Hb p Ho) as [pb Hpb]. cbn. by rewrite Hpb.
Qed.

(** *** [get_usage_info] *)

(** The bytes of the blocks with a property. *)
Definition bytes_of (P : phys_block -> bool) (l : list phys_block) : Z :=
  Z.of_nat (length (filter P l)) * VM_PAGE_SIZE.

Definition is_common (pb : phys_block) : bool := bool_decide (refcount pb > 1).
Definition is_shared (vr : vir_region) (pb : phys_block) : bool :=
  is_common pb && bool_decide (Z.land (vr_flags vr) VR_SHARED <> 0).

(** The sums over the regions, before they are cut to 32 bits. *)
Fixpoint sum_regions (f : vir_region -> Z) (l : list vir_region) : Z :=
  match l with [] => 0 | vr :: l => f vr + sum_regions f l end.

Definition cut (t c h : Z) : usage := Usage (u32 t) (u32 c) (u32 h).

Lemma bytes_cons P pb bs : bytes_of P (pb :: bs) = (if P pb then VM_PAGE_SIZE else 0) + bytes_of P bs.
Proof. unfold bytes_of. rewrite filter_cons. destruct (P pb); cbn [length decide_rel]; case_decide; cbn [length]; try done; lia. Qed.

Lemma count_blocks vr bs t c h :
  foldl (fun vui pb => count_page vr pb vui) (cut t c h) bs =
  cut (t + bytes_of (fun _ => true) bs) (c + bytes_of is_common bs) (h + bytes_of (is_shared vr) bs).
Proof.
  revert t c h. induction bs as [|pb bs IH]; intros t c h; [by rewrite !Z.add_0_r|]. cbn [foldl].
  assert (count_page vr pb (cut t c h) = cut (t + VM_PAGE_SIZE) (if is_common pb then c + VM_PAGE_SIZE else c)
    (if is_shared vr pb then h + VM_PAGE_SIZE else h)) as ->.
  { unfold count_page, cut. cbn. rewrite !u32_add. fold (is_common pb). fold (is_shared vr pb).
    by destruct (is_common pb), (is_shared vr pb). }
  rewrite IH, !bytes_cons. unfold cut. f_equal; f_equal; destruct (is_common pb), (is_shared vr pb); lia.
Qed.

Lemma usage_pages_walk fuel r voffset vui s : usage_pages fuel r voffset vui s =
  walk_pages (fun vr _ p vui => match p with
    | None => mret vui
    | Some q => pr ← get_pr q; pb ← get_pb (ph pr); mret (count_page vr pb vui)
    end) fuel r voffset vui s.
Proof.
  revert voffset vui s. induction fuel as [|fuel IH]; intros voffset vui s; [done|]. cbn [usage_pages walk_pages].
  unfold mbind, st_bind. destruct (get_vr r s) as [[v s1]|]; [|done]. case_decide; [|done].
  destruct (physblock_get r voffset s1) as [[p s2]|]; [|done].
  destruct p as [q|]; [|apply IH]. destruct (get_pr q s2) as [[pr s3]|]; [|done].
  destruct (get_pb (ph pr) s3) as [[pb s4]|]; [|done]. apply IH.
Qed.

Lemma usage_region_spec s r vr vui : regions s !! r = Some vr -> region_ok s vr ->
  (n ← region_length r; usage_pages (page_fuel 0 n) r 0 vui) s =
    Done (foldl (fun a pb => count_page vr pb a) vui (blocks s vr), s).
Proof.
  intros Hr Hok. unfold region_length. rewrite (bind_done _ _ _ (vr_length vr) s).
  2: { by rewrite (bind_done _ _ _ _ _ (get_vr_done _ _ _ Hr)). }
  rewrite usage_pages_walk.
  rewrite (walk_pages_spec _ (fun o vui => match o ≫= block_of s with None => vui | Some pb => count_page vr pb vui end) s r vr Hr Hok).
  - by rewrite (foldl_blocks (count_page vr)).
  - intros v o a Ho. apply (page_body (fun pb a => mret (count_page vr pb a)) (count_page vr) s vr o a Hok Ho). done.
Qed.

Lemma usage_regions_walk fuel t iter vui s : usage_regions fuel t iter vui s =
  walk_regions (fun r vui => n ← region_length r; usage_pages (page_fuel 0 n) r 0 vui) fuel t iter vui s.
Proof.
  revert iter vui s. induction fuel as [|fuel IH]; intros iter vui s; [done|]. cbn [usage_regions walk_regions].
  destruct iter as [[k r]|]; [|done]. unfold mbind, st_bind.
  destruct (region_length r s) as [[n s1]|]; [|done].
  destruct (usage_pages (page_fuel 0 n) r 0 vui s1) as [[u s2]|]; [|done]. apply IH.
Qed.

Lemma count_regions s (rs : list vir_region) t c h :
  foldl (fun a vr => foldl (fun a pb => count_page vr pb a) a (blocks s vr)) (cut t c h) rs =
  cut (t + sum_regions (fun vr => bytes_of (fun _ => true) (blocks s vr)) rs)
      (c + sum_regions (fun vr => bytes_of is_common (blocks s vr)) rs)
      (h + sum_regions (fun vr => bytes_of (is_shared vr) (blocks s vr)) rs).
Proof.
  revert t c h. induction rs as [|vr rs IH]; intros t c h; [by rewrite !Z.add_0_r|].
  cbn [foldl sum_regions]. by rewrite count_blocks, IH, !Z.add_assoc.
Qed.

(** *** [printregionstats] *)

(** A page shared by [n] regions weighs one [n]th. *)
Fixpoint weight (l : list phys_block) : Z :=
  match l with [] => 0 | pb :: l => VM_PAGE_SIZE / refcount pb + weight l end.

Definition unless_direct (f : vir_region -> Z) (vr : vir_region) : Z :=
  if decide (Z.land (vr_flags vr) VR_DIRECT <> 0) then 0 else f vr.

Definition stats_blocks (a : Z * Z) (l : list phys_block) : Z * Z :=
  foldl (fun a pb => (u32 (a.1 + VM_PAGE_SIZE), u32 (a.2 + VM_PAGE_SIZE / refcount pb))) a l.

Lemma stats_blocks_eq x y (bs : list phys_block) : stats_blocks (u32 x, u32 y) bs = (u32 (x + bytes_of (fun _ => true) bs), u32 (y + weight bs)).
Proof.
  revert x y. induction bs as [|pb bs IH]; intros x y; [by cbn; rewrite !Z.add_0_r|].
  cbn [stats_blocks foldl fst snd weight]. rewrite !u32_add. unfold stats_blocks in IH.
  by rewrite IH, bytes_cons, !Z.add_assoc.
Qed.

Lemma stats_region_spec s r vr a : regions s !! r = Some vr -> region_ok s vr ->
  (forall pb, pb ∈ blocks s vr -> refcount pb <> 0) ->
  stats_region r a s = Done (if decide (Z.land (vr_flags vr) VR_DIRECT <> 0) then a else stats_blocks a (blocks s vr), s).
Proof.
  intros Hr Hok Hrc. unfold stats_region. rewrite (bind_done _ _ _ _ _ (get_vr_done _ _ _ Hr)). case_decide; [done|].
  set (f := fun (pb : phys_block) (a : Z * Z) => (u32 (a.1 + VM_PAGE_SIZE), u32 (a.2 + VM_PAGE_SIZE / refcount pb))).
  rewrite (walk_pages_spec _ (fun o a => match o ≫= block_of s with None => a | Some pb => f pb a end) s r vr Hr Hok).
  - by rewrite (foldl_blocks f).
  - intros v o b Ho. apply (page_body stats_block f s vr o b Hok Ho). intros pb Hpb.
    unfold stats_block. rewrite decide_False by by apply Hrc. done.
Qed.

Lemma stats_regions s (rs : list vir_region) x y :
  foldl (fun a vr => if decide (Z.land (vr_flags vr) VR_DIRECT <> 0) then a else stats_blocks a (blocks s vr)) (u32 x, u32 y) rs =
  (u32 (x + sum_regions (unless_direct (fun vr => bytes_of (fun _ => true) (blocks s vr))) rs),
   u32 (y + sum_regions (unless_direct (fun vr => weight (blocks s vr))) rs)).
Proof.
  revert x y. induction rs as [|vr rs IH]; intros x y; [by rewrite !Z.add_0_r|].
  cbn [foldl sum_regions]. unfold unless_direct at 1 3. case_decide; [by rewrite IH, !Z.add_0_l|].
  by rewrite stats_blocks_eq, IH, !Z.add_assoc.
Qed.

(** C16: for a user process the usage that is reported counts every page that is
    present, those whose block has another reference, and of these the ones in
    shared regions; and [printregionstats] counts the pages outside the direct
    regions, and each of them divided by the references to its block.  All sums
    are cut to 32 bits; nothing is changed. *)
Theorem usage_counts s vmp vp l : procs s !! vmp = Some vp -> tree_of s (vm_regions_avl vp) l ->
  (forall x, x ∈ l -> region_ok s x.2 /\ forall pb, pb ∈ blocks s x.2 -> refcount pb <> 0) ->
  vm_endpoint vp <> VM_PROC_NR -> 0 <= vm_endpoint vp ->
  let sum f := u32 (sum_regions f l.*2) in
  get_usage_info vmp s = Done (Usage (sum (fun vr => bytes_of (fun _ => true) (blocks s vr)))
    (sum (fun vr => bytes_of is_common (blocks s vr))) (sum (fun vr => bytes_of (is_shared vr) (blocks s vr))), s) /\
  printregionstats vmp s = Done ((sum (unless_direct (fun vr => bytes_of (fun _ => true) (blocks s vr))) / 1024,
    sum (unless_direct (fun vr => weight (blocks s vr))) / 1024), s).
Proof.
  intros Hvp Ht Hok Hne H0 sum. destruct Ht as [Hel Hreg]. split.
  - unfold get_usage_info. rewrite (bind_done _ _ _ _ _ (get_proc_done _ _ _ Hvp)).
    rewrite decide_False by done. rewrite decide_False by lia. rewrite usage_regions_walk.
    erewrite walk_regions_spec; [|by split|].
    + change (Usage 0 0 0) with (cut 0 0 0). rewrite count_regions. done.
    + intros x a Hx. apply usage_region_spec; [by apply Hreg|by apply Hok].
  - unfold printregionstats. rewrite (bind_done _ _ _ (vm_regions_avl vp) s).
    2: { unfold get_tree. by rewrite (bind_done _ _ _ _ _ (get_proc_done _ _ _ Hvp)). }
    erewrite bind_done; [|eapply walk_regions_spec; [by split|]].
    + change (0, 0) with (u32 0, u32 0). rewrite stats_regions. done.
    + intros x a Hx. apply stats_region_spec; [by apply Hreg|apply Hok; done..].
Qed.
End spec.

(** ** Three regions with three pages, one of them in a block with two references *)

Definition has_block (s : VM) (o : option nat) : bool :=
  match o with None => true | Some p => match block_of s p with Some pb => bool_decide (refcount pb <> 0) | None => false end end.

Lemma region_ok_check (s : VM) vr : pages_ok s vr -> 0 <= vr_length vr < 2 ^ 32 -> forallb (has_block s) (entries vr) = true ->
  region_ok s vr /\ forall pb, pb ∈ blocks s vr -> refcount pb <> 0.
Proof.
  intros Hp Hl Hb. rewrite forallb_forall in Hb. split.
  - split; [done|]. split; [done|]. intros p Hin. apply list_elem_of_In, Hb in Hin. cbn in Hin.
    destruct (block_of s p); [by eexists|done].
  - intros pb (o & Hin & Ho)%list_elem_of_omap. apply list_elem_of_In, Hb in Hin. destruct o as [p|]; [|done].
    cbn in Ho, Hin. rewrite Ho in Hin. by apply bool_decide_eq_true in Hin.
Qed.

Lemma usage_counts_witness :
  get_usage_info 0 (demo_vm three 0) = Done (Usage 0x3000 0x1000 0, demo_vm three 0) /\
  printregionstats 0 (demo_vm three 0) = Done ((12, 10), demo_vm three 0).
Proof.
  destruct (usage_counts (demo_vm three 0) 0 (demo_proc three 0) three) as [H1 H2].
  - done.
  - pose proof (three_regions 0) as [_ He Hh _]. by split.
  - intros x Hx. destruct (three_pages x 0 Hx) as [_ Hp].
    repeat (apply elem_of_cons in Hx as [->|Hx]); [..|by apply elem_of_nil in Hx].
    all: apply region_ok_check; [exact Hp|done|by vm_compute].
  - done.
  - done.
  - split; [exact H1|exact H2].
Defined.
