(* ===== verification/YieldedProps.v ===== *)
(** * Properties of the yielded blocks *)
From S2P Require Import Prelude StateM DList Avl Region RegionOps RegionSlot Yielded YieldedInv YieldBlock YieldedFree RegionDemo.
Open Scope Z_scope.

Section props.
Context {W RT YT : Type} `{!Cmp64} `{!Avl Z nat RT} `{!Avl block_id nat YT} `{!AvlOk block_id nat YT}
  `{!VmHdr} `{!VmServer W RT YT} `{!MemOk W RT YT}.
Implicit Types (s : vm W RT YT) (l : list nat).

Lemma chain_last s l : yielded_inv s l -> lru_oldest s = last l.
Proof.
  intros [(_ & _ & -> & _) _ _ _ _ _ _]. destruct l; [done|]. by apply last_or_Some_ne.
Qed.

Lemma chain_size s l : yielded_inv s l -> size (nodes s) = length l.
Proof.
  intros [Hch Hdom _ _ _ _ _]. rewrite <- size_dom. rewrite <- (size_list_to_set (C := gset nat)) by (by destruct Hch).
  f_equal. apply set_eq. intros p. rewrite elem_of_dom, elem_of_list_to_set. split; [apply Hdom|].
  apply (dchain_mem _ _ _ _ _ Hch).
Qed.

(** [l2] are the blocks freed, the last ones of the chain. *)
Definition freed_blocks s l (max_bytes : Z) (r : Z) s' : Prop :=
  exists l1 l2, l = l1 ++ l2 /\ yielded_inv s' l1 /\ r = Z.of_nat (length l2) * VM_PAGE_SIZE /\
    world s' = foldl (release_node (nodes s)) (world s) (reverse l2) /\
    (l1 = [] \/ max_bytes <= r) /\ (l2 = [] \/ r - VM_PAGE_SIZE < max_bytes).

Lemma free_yielded_loop_spec s l max_bytes freed fuel :
  yielded_inv s l -> 0 <= freed -> freed + Z.of_nat (length l) * VM_PAGE_SIZE < 2 ^ 32 -> (length l < fuel)%nat ->
  wp (free_yielded_loop fuel max_bytes freed) s (fun r s' => freed_blocks s l (max_bytes - freed) (r - freed) s').
Proof.
  intros Hinv Hf Hb Hfuel. revert s freed fuel Hinv Hf Hb Hfuel. unfold VM_PAGE_SIZE.
  induction l as [|x l IH] using rev_ind; intros s freed [|fuel] Hinv Hf Hb Hfuel; try lia; cbn [free_yielded_loop].
  - apply wp_bind, wp_gets. rewrite (chain_last _ _ Hinv). apply wp_ret.
    exists [], []. unfold VM_PAGE_SIZE. split_and!; try done; [simpl; lia|by left|by left].
  - apply wp_bind, wp_gets. rewrite (chain_last _ _ Hinv), last_snoc.
    case_decide as Hm; [|apply wp_ret; exists (l ++ [x]), []; unfold VM_PAGE_SIZE; rewrite app_nil_r;
      split_and!; try done; [simpl; lia|right; lia|by left]].
    destruct (dchain_mem _ _ _ _ x (yi_chain _ _ Hinv)) as [n Hn]; [set_solver|]. cbn [sget gmap_store] in Hn.
    apply wp_bind. eapply wp_mono; [by apply (freeyieldednode_spec s l x [] n)|].
    intros r s1 (-> & Hinv1 & Hpay & Hw & _). rewrite app_nil_r in Hinv1. rewrite length_app in *. simpl in *.
    rewrite u32_small by (unfold VM_PAGE_SIZE; lia).
    eapply wp_mono; [apply IH; [done|unfold VM_PAGE_SIZE; lia|unfold VM_PAGE_SIZE; lia|lia]|].
    intros r s2 (l1 & l2 & -> & Hinv2 & Hr & Hw2 & Hdone & Hneed). unfold VM_PAGE_SIZE in *.
    exists l1, (l2 ++ [x]). rewrite length_app. unfold VM_PAGE_SIZE. split_and!.
    + by rewrite app_assoc.
    + done.
    + simpl. lia.
    + rewrite reverse_app. simpl. rewrite Hw2, Hw. unfold release_node at 3. rewrite Hn. apply release_ext.
      intros p Hp%elem_of_reverse. apply Hpay. intros ->.
      destruct (yi_chain _ _ Hinv) as (Hnd & _). apply NoDup_app in Hnd as (_ & Hnd & _). set_solver.
    + destruct Hdone; [by left|right; lia].
    + right. destruct Hneed as [->|]; simpl in *; lia.
Qed.

(** C26: [free_yielded] frees blocks from the old end of the chain, one after the
    other, until [max_bytes] are freed or no block is left, and no block more; it
    returns one page per block (whatever the block's size), gives the memory of
    exactly these blocks back, the oldest first, and keeps the invariant of the
    yielded blocks: the replacement is least recently yielded first. *)
Theorem free_yielded_spec s l max_bytes : yielded_inv s l -> Z.of_nat (length l) * VM_PAGE_SIZE < 2 ^ 32 ->
  wp (free_yielded max_bytes) s (fun r s' => freed_blocks s l max_bytes r s').
Proof.
  intros Hinv Hl. unfold free_yielded. apply wp_bind, wp_gets. rewrite (chain_size _ _ Hinv).
  eapply wp_mono; [by apply (free_yielded_loop_spec s l max_bytes 0); [done|done| |lia]|].
  intros r s'. by rewrite !Z.sub_0_r.
Qed.

(** [do_forgetblock] removes the block of the caller with the given id and
    gives its memory back; if there is none, it does nothing. *)
Theorem forgetblock_spec s l source k vp lo hi :
  yielded_inv s l -> procs s !! k = Some vp -> vm_endpoint vp = source ->
  let i := BlockId source (make64 lo hi) in
  wp (do_forgetblock source lo hi) s (fun r s' => r = OK /\
    match avl_search i (vm_yielded_blocks s (yielded_hash i)) with
    | None => s' = s
    | Some p => exists l1 l2, l = l1 ++ p :: l2 /\ yielded_inv s' (l1 ++ l2) /\
        world s' = release_node (nodes s) (world s) p
    end).
Proof.
  intros Hinv Hk He i. unfold do_forgetblock.
  destruct (isokendpt_ok s source) as (ok & Eok & Hok). apply wp_bind. eapply wp_done; [exact Eok|]. apply wp_bind.
  destruct ok as [k'|]; [|by destruct (Hok k vp)]. destruct Hok as (vp' & Hk' & He').
  assert (k' = k) as -> by (apply (yi_endpoint _ _ Hinv _ _ vp' vp Hk' Hk); congruence). simplify_eq.
  eapply wp_derefs; [done|]. apply wp_bind, (wp_get_proc _ _ vp); [done|].
  apply wp_bind. eapply wp_done; [by apply get_yielded_avl_done, Hinv|]. unfold yielded_search, get_bucket. apply wp_bind, wp_bind, wp_bind, wp_gets, wp_ret, wp_ret.
  unfold i. destruct (avl_search _ _) as [p|] eqn:E; [|by apply wp_bind, wp_ret, wp_ret].
  destruct (yi_back _ _ Hinv _ _ _ E) as (n & Hn & _).
  destruct (list_elem_of_split l p) as (l1 & l2 & ->); [apply (yi_dom _ _ Hinv); eauto|].
  apply wp_bind, wp_bind. eapply wp_mono; [by apply (freeyieldednode_spec s l1 p l2 n true)|].
  intros r s' (_ & Hinv' & _ & Hw & _). apply wp_ret, wp_ret. split; [done|]. exists l1, l2. split_and!; [done|done|].
  rewrite Hw. unfold release_node. by rewrite Hn.
Qed.

Lemma count_cached_spec s l n : forall l1 l2 fuel, l = l1 ++ l2 -> yielded_inv s l -> (length l2 < fuel)%nat ->
  count_cached fuel (head_or None l2) n s = Done (n + Z.of_nat (length l2), s).
Proof.
  intros l1 l2. revert l1 n. induction l2 as [|x l2 IH]; intros l1 n [|fuel] -> Hinv Hf; simpl in Hf; try lia.
  - simpl. by rewrite Z.add_0_r.
  - destruct (dchain_links _ _ _ _ _ _ (yi_chain _ _ Hinv)) as (v & Hv & _ & Hn). cbn [head_or count_cached].
    rewrite (bind_done _ _ _ _ _ (get_node_done _ _ _ Hv)). cbn [nxt yielded_link] in Hn. rewrite Hn.
    rewrite (IH (l1 ++ [x])); [simpl; do 2 f_equal; lia|by rewrite <- app_assoc|done|lia].
Qed.

Lemma lrucheck_from_spec s l : forall l1 l2 fuel, l = l1 ++ l2 -> yielded_inv s l -> (length l2 < fuel)%nat ->
  lrucheck_from fuel (head_or None l2) s = Done (tt, s).
Proof.
  intros l1 l2. revert l1. induction l2 as [|x l2 IH]; intros l1 [|fuel] -> Hinv Hf; simpl in Hf; try lia; [done|].
  destruct (dchain_links _ _ _ _ _ _ (yi_chain _ _ Hinv)) as (v & Hv & _ & Hnx).
  destruct (dchain_neighbours _ _ _ _ _ _ (yi_chain _ _ Hinv)) as (v' & Hv' & Hp & Hn). simplify_eq.
  cbn [prv nxt yielded_link sget gmap_store] in *. cbn [head_or lrucheck_from].
  rewrite (bind_done _ _ _ _ _ (get_node_done _ _ _ Hv)).
  do 2 (erewrite bind_done by done). rewrite bind_done with (a := tt) (s' := s).
  - rewrite bind_done with (a := tt) (s' := s).
    + rewrite Hnx. by apply (IH (l1 ++ [x])); [rewrite <- app_assoc| |lia].
    + destruct (older v) as [q|]; [|by apply asserts_true]. destruct Hn as (w & Hw & Hwx).
      rewrite (bind_done _ _ _ _ _ (get_node_done _ _ _ Hw)). by apply asserts_true.
  - destruct (younger v) as [q|]; [|by apply asserts_true]. destruct Hp as (w & Hw & Hwx).
    rewrite (bind_done _ _ _ _ _ (get_node_done _ _ _ Hw)). by apply asserts_true.
Qed.

(** The debugging check [lrucheck] accepts the chain, and [get_stats_info]
    counts its blocks; neither changes anything. *)
Theorem chain_checks s l : yielded_inv s l ->
  lrucheck (S (size (nodes s))) s = Done (tt, s) /\ get_stats_info s = Done (Z.of_nat (length l), s).
Proof.
  intros Hinv. pose proof (yi_chain _ _ Hinv) as Hch. pose proof Hch as (_ & Hy & Ho & _).
  rewrite (chain_size _ _ Hinv). split.
  - unfold lrucheck. do 2 (erewrite bind_done by done). rewrite Hy, Ho.
    destruct l as [|x l]; [done|]. rewrite decide_False by (by intros []).
    destruct (dchain_links _ _ _ [] _ _ Hch) as (v & Hv & Hvp & _).
    cbn [head_or derefs]. erewrite bind_done by (erewrite bind_done by done; apply get_node_done, Hv).
    rewrite last_or_Some_ne by done. destruct (last (x :: l)) as [z|] eqn:Hz; [|by apply last_None in Hz].
    apply last_Some in Hz as [l' Hz]. rewrite Hz in Hch. destruct (dchain_links _ _ _ _ _ _ Hch) as (w & Hw & _ & Hwn).
    erewrite bind_done by (erewrite bind_done by done; apply get_node_done, Hw).
    rewrite (bind_done _ _ _ _ _ (asserts_true _ s Hvp)), (bind_done _ _ _ _ _ (asserts_true _ s Hwn)).
    change (Some x) with (head_or None (x :: l)). by apply (lrucheck_from_spec s (x :: l) []); [| |lia].
  - unfold get_stats_info. do 2 (erewrite bind_done by done). rewrite (chain_size _ _ Hinv), Hy.
    rewrite (count_cached_spec s l 0 []); [done|done|done|lia].
Qed.



End props.

(** ** Witnesses *)

Lemma two_nodes p n : nodes two_blocks !! p = Some n ->
  p = 1%nat /\ n = blk 5 0x5000 1 (Some 2%nat) None \/ p = 2%nat /\ n = blk 6 0x6000 2 None (Some 1%nat).
Proof.
  simpl. intros Hp. apply lookup_insert_Some in Hp as [[<- <-]|[_ Hp]]; [by left|].
  apply lookup_insert_Some in Hp as [[<- <-]|[_ Hp]]; [by right|]. by apply lookup_empty_Some in Hp.
Qed.

Lemma two_blocks_inv : yielded_inv two_blocks [2%nat; 1%nat].
Proof.
  split.
  - split_and!; [by apply (bool_decide_unpack _); vm_compute|done|done|].
    eexists. split; [by vm_compute|]. split_and!; [done|done|]. eexists. split; [by vm_compute|]. done.
  - intros p [n [[-> _]|[-> _]]%two_nodes]; set_solver.
  - by intros p n [[-> ->]|[-> ->]]%two_nodes; vm_compute.
  - intros h i p. simpl. unfold ytrees. repeat case_decide; subst.
    + unfold list_eq_at. intros Hs. apply fmap_Some in Hs as ([k v] & Hh & ->). apply head_filter_In in Hh as [<- Hv].
      apply list_elem_of_singleton in Hv as [= -> ->]. eexists. split; [by vm_compute|done].
    + unfold list_eq_at. intros Hs. apply fmap_Some in Hs as ([k v] & Hh & ->). apply head_filter_In in Hh as [<- Hv].
      apply list_elem_of_singleton in Hv as [= -> ->]. eexists. split; [by vm_compute|done].
    + done.
  - intros [|k] [|k'] vp vp' Hk Hk' _; simplify_eq/=; done.
  - intros p n [[-> ->]|[-> ->]]%two_nodes; by eexists 0%nat, _.
  - intros [|k] vp Hk; simplify_eq/=. by vm_compute.
  - done.
Qed.

Example free_yielded_spec_witness :
  wp (free_yielded 4096) two_blocks (fun r s' => freed_blocks two_blocks [2%nat; 1%nat] 4096 r s').
Proof. apply free_yielded_spec; [apply two_blocks_inv|done]. Defined.

Example forgetblock_spec_witness :
  wp (do_forgetblock 7 6 0) two_blocks (fun r s' => r = OK /\
    exists l1 l2, [2; 1]%nat = l1 ++ 2%nat :: l2 /\ yielded_inv s' (l1 ++ l2) /\
      world s' = release_node (nodes two_blocks) (world two_blocks) 2).
Proof.
  assert (E : avl_search (BlockId 7 (make64 6 0)) (vm_yielded_blocks two_blocks (yielded_hash (BlockId 7 (make64 6 0))))
    = Some 2%nat) by (vm_compute; reflexivity).
  pose proof (forgetblock_spec two_blocks [2%nat; 1%nat] 7 0 (VmProc 7 avl_empty 0 2) 6 0 two_blocks_inv eq_refl eq_refl) as Hf.
  cbv zeta in Hf. by rewrite E in Hf.
Defined.

Example chain_checks_witness :
  lrucheck (S (size (nodes two_blocks))) two_blocks = Done (tt, two_blocks) /\
  get_stats_info two_blocks = Done (2, two_blocks).
Proof. apply (chain_checks two_blocks [2%nat; 1%nat] two_blocks_inv). Defined.

(** ** A process that yields two pages *)




