(* ===== verification/RegionSanity.v ===== *)
(** * The sanity check of the VM server ([region.c], under [SANITYCHECKS])

    [map_sanitycheck] walks seven times over all pages of all regions of all
    processes and stops when something is wrong.  Its counts, [seencount] in the
    physical blocks, are passed along the walks here.  The fields of the objects
    that only it and [pb.c] use are read from the world.  [blockstats] is here too. *)
From S2P Require Import Prelude StateM DList Avl Region RegionOps RegionSlot RegionUnmap Yielded YieldedInv RegionFree RegionUsage RegionDemo YieldedProps.
Open Scope Z_scope.

(** The list of the [phys_region]s of a block, as [pb.c] keeps it, the owner of a
    [phys_region], the flag of a process in use, the slab allocator's opinion of
    an object, what a failed check does, and what a memory type checks. *)
Class SanityHdr (W RT YT : Type) := {
  firstregion : W -> nat -> option nat;
  next_ph_list : W -> nat -> option nat;
  pr_parent : W -> nat -> nat;
  vm_inuse : W -> nat -> bool;
  slabsane_vr : W -> nat -> bool;
  slabsane_pr : W -> nat -> bool;
  slabsane_pb : W -> nat -> bool;
  myassert : bool -> M W RT YT unit;
  ev_sanitycheck : nat -> option (nat -> M W RT YT unit);
  WMF_VERIFY : Z
}.

Section code.
Context {W RT YT : Type} `{!Cmp64} `{!Avl Z nat RT} `{!Avl block_id nat YT} `{!VmHdr} `{!VmServer W RT YT} `{!SanityHdr W RT YT}.
Abbreviation M := (M W RT YT).

Definition MYASSERT (P : Prop) `{Decision P} : M unit := myassert (bool_decide P).

Definition map_sanitycheck_pt vmp vr pr : M Z :=
  q ← get_pr pr;
  pb ← get_pb (ph q);
  w ← pr_writable vr pr;
  let rw := if (w : bool) then PTF_WRITE else PTF_READ in
  v ← get_vr vr;
  pt_writemap vmp (u32 (vaddr v + offset q)) (phys pb) VM_PAGE_SIZE (Z.lor (Z.lor PTF_PRESENT PTF_USER) rw) WMF_VERIFY.

(** ** [ALLREGIONS] *)

(** [for (vmp = vmproc; vmp < &vmproc[VMP_NR]; vmp++)]: [todo] processes are left. *)
Fixpoint all_procs {A} (body : nat -> A -> M A) (todo vmp : nat) (a : A) : M A :=
  match todo with
  | O => mret a
  | S todo =>
      w ← gets world;
      a ← (if vm_inuse w vmp then body vmp a else mret a);
      all_procs body todo (S vmp) a
  end.

Definition ALLREGIONS {A} (regioncode : nat -> nat -> A -> M A) (physcode : nat -> nat -> Z -> nat -> A -> M A) (a : A) : M A :=
  n ← gets (fun s => length (procs s));
  all_procs (fun vmp a =>
    t ← get_tree vmp;
    walk_regions (fun vr a =>
      a ← regioncode vmp vr a;
      len ← region_length vr;
      walk_pages (fun _ voffset p a => match p with Some pr => physcode vmp vr voffset pr a | None => mret a end)
        (page_fuel 0 len) vr 0 a)
      (S (length (avl_elems t))) t (avl_least t) a) n 0 a.

Definition nothing {A} (_ _ : nat) (a : A) : M A := mret a.

(** ** The checks *)

Definition check_slabs : M unit :=
  ALLREGIONS (fun _ vr _ => w ← gets world; MYASSERT (slabsane_vr w vr = true))
    (fun _ _ _ pr _ =>
      w ← gets world;
      _ ← MYASSERT (slabsane_pr w pr = true);
      q ← get_pr pr;
      _ ← MYASSERT (slabsane_pb w (ph q) = true);
      MYASSERT (slabsane_vr w (pr_parent w pr) = true)) tt.

Definition check_parents : M unit :=
  ALLREGIONS nothing (fun _ vr _ pr _ => w ← gets world; MYASSERT (pr_parent w pr = vr)) tt.

Definition clear_seen (seen : gmap nat Z) : M (gmap nat Z) :=
  ALLREGIONS nothing (fun _ _ _ pr seen => q ← get_pr pr; mret (<[ph q := 0]> seen)) seen.

Definition check_offsets : M unit :=
  ALLREGIONS nothing (fun _ _ voffset pr _ => q ← get_pr pr; MYASSERT (offset q = voffset)) tt.

(** [seencount] has 32 bits; [observable] has fewer pages than that, so its width does
    not matter below. *)
Definition count_seen (seen : gmap nat Z) : M (gmap nat Z) :=
  ALLREGIONS nothing (fun _ _ _ pr seen =>
    q ← get_pr pr;
    let n := u32 (default 0 (seen !! ph q) + 1) in
    w ← gets world;
    _ ← (if decide (n = 1) then
           par ← get_vr (pr_parent w pr);
           match ev_sanitycheck (memtype par) with Some f => f pr | None => mret tt end
         else mret tt);
    mret (<[ph q := n]> seen)) seen.

Definition check_region (vmp vr : nat) : M unit :=
  next ← getnextvr vr;
  v ← get_vr vr;
  _ ← match next with
      | Some n =>
          nv ← get_vr n;
          _ ← MYASSERT (vaddr v < vaddr nv);
          MYASSERT (u32 (vaddr v + vr_length v) <= vaddr nv)
      | None => mret tt
      end;
  MYASSERT (vaddr v mod VM_PAGE_SIZE = 0).

(** [for(others = pr->ph->firstregion; others; others = others->next_ph_list)]. *)
Fixpoint count_others (fuel : nat) (b : nat) (others : option nat) (n_others : Z) : M Z :=
  match fuel with
  | O => raise OutOfFuel
  | S fuel =>
      match others with
      | None => mret n_others
      | Some o =>
          w ← gets world;
          _ ← MYASSERT (slabsane_pr w o = true);
          q ← get_pr o;
          _ ← MYASSERT (ph q = b);
          count_others fuel b (next_ph_list w o) (n_others + 1)
      end
  end.

(** A [refcount] that is not the count of the walk is also printed. *)
Definition check_page (seen : gmap nat Z) (pr : nat) : M unit :=
  q ← get_pr pr;
  pb ← get_pb (ph q);
  w ← gets world;
  let first := firstregion w (ph q) in
  _ ← (if decide (refcount pb > 0) then
         _ ← MYASSERT (first <> None);
         if decide (refcount pb = 1) then MYASSERT (first = Some pr) else mret tt
       else MYASSERT (first = None));
  fuel ← gets (fun s => S (size (phys_regions s)));
  n_others ← count_others fuel (ph q) first 0;
  _ ← MYASSERT (refcount pb = n_others);
  _ ← MYASSERT (refcount pb = default 0 (seen !! ph q));
  MYASSERT (offset q mod VM_PAGE_SIZE = 0).

Definition check_consistency (seen : gmap nat Z) : M unit :=
  ALLREGIONS (fun vmp vr _ => check_region vmp vr) (fun _ _ _ pr _ => check_page seen pr) tt.

Definition check_pt : M unit :=
  ALLREGIONS nothing (fun vmp vr _ pr _ => r ← map_sanitycheck_pt vmp vr pr; MYASSERT (r = OK)) tt.

Definition map_sanitycheck : M unit :=
  fuel ← gets (fun s => S (size (nodes s)));
  _ ← lrucheck fuel;
  _ ← check_slabs;
  _ ← check_parents;
  seen ← clear_seen ∅;
  _ ← check_offsets;
  seen ← count_seen seen;
  _ ← check_consistency seen;
  check_pt.

(** ** [blockstats] *)

(** [for(list = lru_youngest; list; list = list->older)]. *)
Fixpoint count_stats (fuel : nat) (list : option nat) (blocks mem : Z) : M (Z * Z) :=
  match fuel with
  | O => raise OutOfFuel
  | S fuel =>
      match list with
      | None => mret (blocks, mem)
      | Some p => n ← get_node p; count_stats fuel (older n) (blocks + 1) (u32 (mem + VM_PAGE_SIZE))
      end
  end.

(** The two numbers that are printed. *)
Definition blockstats (getuptime : Z) : M (Z * Z) :=
  _ ← asserts (getuptime = OK);
  fuel ← gets (fun s => S (size (nodes s)));
  _ ← lrucheck fuel;
  y ← gets lru_youngest;
  count_stats fuel y 0 0.
End code.

(** ** Checks as decisions *)

Section checked.
Context {S : Type}.
Implicit Types (s : S).

(** The faults of failed checks. *)
Definition refused (e : fault) : Prop := e = Panic \/ e = AssertFail.

(** An outcome that decides [P]. *)
Definition verdict {A} (m : exec A) (P : Prop) (a : A) : Prop := P /\ m = Done a \/ ~ P /\ exists e, m = Fault e /\ refused e.

(** In [s], [m] decides [P]: it returns and changes nothing, or it stops. *)
Definition checked (m : ST S unit) s (P : Prop) : Prop := verdict (m s) P (tt, s).

Lemma checked_iff m s P Q : (P <-> Q) -> checked m s P -> checked m s Q.
Proof. unfold checked, verdict. tauto. Qed.

Lemma checked_ret s : checked (mret tt) s True.
Proof. by left. Qed.

Lemma checked_bind m (k : ST S unit) s P Q : checked m s P -> (P -> checked k s Q) -> checked (_ ← m; k) s (P /\ Q).
Proof.
  intros [[HP Hm]|[HP (e & Hm & He)]] Hk.
  - unfold checked. rewrite (bind_done _ _ _ _ _ Hm). destruct (Hk HP) as [[HQ Hk']|[HQ Hk']]; [by left|right]. split; [tauto|done].
  - right. split; [tauto|]. exists e. by rewrite (bind_fault _ _ _ _ Hm).
Qed.

Lemma checked_done {A} (m : ST S A) (k : A -> ST S unit) s a P : m s = Done (a, s) -> checked (k a) s P -> checked (m ≫= k) s P.
Proof. unfold checked. intros Hm. by rewrite (bind_done _ _ _ _ _ Hm). Qed.

(** A state-preserving body as the pure function of a fold. *)
Definition pure_of (m : ST S unit) s : exec unit := match m s with Done _ => Done tt | Fault e => Fault e end.

Lemma checked_pure m s P : checked m s P -> m s = (a ← pure_of m s; Done (a, s)).
Proof. unfold pure_of. by intros [[_ ->]|[_ (e & -> & _)]]. Qed.

Lemma pure_verdict m s P : checked m s P -> verdict (pure_of m s) P tt.
Proof. unfold pure_of. intros [[HP ->]|[HP (e & -> & He)]]; [by left|right]. split; [done|by exists e]. Qed.

Lemma checked_verdict m s P e : verdict e P tt -> m s = (a ← e; Done (a, s)) -> checked m s P.
Proof. unfold checked. intros [[HP ->]|[HP (f & -> & Hf)]] ->; [by left|right]. split; [done|by exists f]. Qed.

Lemma verdict_fold {B} (g : B -> unit -> exec unit) (P : B -> Prop) l : (forall x, x ∈ l -> verdict (g x tt) (P x) tt) ->
  verdict (fold_exec g l tt) (forall x, x ∈ l -> P x) tt.
Proof.
  intros Hg. induction l as [|x l IH]; [left; split; [by intros x ?%elem_of_nil|done]|]. cbn [fold_exec].
  destruct (Hg x ltac:(by left)) as [[HP ->]|[HP (e & -> & He)]].
  - destruct IH as [[H1 H2]|[H1 H2]]; [intros y Hy; apply Hg; by right|left|right]; (split; [|done]).
    + by intros y [->|Hy]%elem_of_cons; [|apply H1].
    + intros Hall. apply H1. intros y Hy. apply Hall. by right.
  - right. split; [|by exists e]. intros Hall. apply HP, Hall. by left.
Qed.
End checked.

(** [MYASSERT] stops when its condition does not hold. *)
Class SanityOk (W RT YT : Type) `{!SanityHdr W RT YT} := {
  myassert_true : forall s : vm W RT YT, myassert true s = Done (tt, s);
  myassert_false : forall s : vm W RT YT, exists e, myassert false s = Fault e /\ refused e
}.

(** ** The walk over everything *)

Section spec.
Context {W RT YT : Type} `{!Cmp64} `{!Avl Z nat RT} `{!AvlOk Z nat RT} `{!Avl block_id nat YT} `{!AvlOk block_id nat YT}
  `{!VmHdr} `{!VmServer W RT YT} `{!SanityHdr W RT YT} `{!SanityOk W RT YT}.
Implicit Types (s : vm W RT YT) (l : list (nat * vir_region)) (ls : list (nat * list (nat * vir_region))).

(** The processes in use, from [k] on, with their regions in order. *)
Definition lists_procs s (k n : nat) ls : Prop :=
  ls.*1 = filter (fun k => vm_inuse (world s) k = true) (seq k n) /\
  forall p, p ∈ ls -> exists vp, procs s !! p.1 = Some vp /\ tree_of s (vm_regions_avl vp) p.2.

(** Region [x] belongs to process [k], and its page [i] is [pr]. *)
Definition region_in ls (k : nat) (x : nat * vir_region) : Prop := exists l, (k, l) ∈ ls /\ x ∈ l.
Definition page_in ls (k : nat) (x : nat * vir_region) (i pr : nat) : Prop :=
  region_in ls k x /\ entries x.2 !! i = Some (Some pr).

Lemma numbered_lookup os v o : (v, o) ∈ numbered os <-> exists i, os !! i = Some o /\ v = Z.of_nat i * VM_PAGE_SIZE.
Proof.
  unfold numbered. rewrite elem_of_lookup_imap. split.
  - intros (i & o' & [= -> ->] & Hi). by exists i.
  - intros (i & Hi & ->). by exists i, o.
Qed.

Lemma lists_procs_next s k n ls : lists_procs s k (S n) ls ->
  if vm_inuse (world s) k then exists l ls', ls = (k, l) :: ls' /\ lists_procs s (S k) n ls' else lists_procs s (S k) n ls.
Proof.
  intros [Hls Hp]. cbn [seq] in Hls. rewrite filter_cons in Hls. destruct (vm_inuse (world s) k).
  - rewrite decide_True in Hls by done. destruct ls as [|[k' l] ls']; [done|]. injection Hls as -> Hls. exists l, ls'. split; [done|].
    split; [done|]. intros p Hin. apply Hp. by right.
  - by rewrite decide_False in Hls by done.
Qed.

(** A walk with a body that leaves the state as it is. *)
Lemma all_procs_exact {A} (body : nat -> A -> M W RT YT A) (g : nat * list (nat * vir_region) -> A -> exec A) s ls n k a :
  lists_procs s k n ls -> (forall p a, p ∈ ls -> body p.1 a s = (a' ← g p a; Done (a', s))) ->
  all_procs body n k a s = (a' ← fold_exec g ls a; Done (a', s)).
Proof.
  revert k ls a. induction n as [|n IH]; intros k ls a Hls Hb.
  - destruct Hls as [Hls _]. cbn in Hls. by apply fmap_nil_inv in Hls as ->.
  - cbn [all_procs]. rewrite (bind_done _ _ _ (world s) s) by done. apply lists_procs_next in Hls.
    destruct (vm_inuse (world s) k).
    + destruct Hls as (l & ls' & -> & Hls). cbn [fold_exec]. unfold mbind at 1, st_bind at 1. assert (Hk := Hb (k, l) a ltac:(by left)).
      cbn [fst] in Hk. rewrite Hk. destruct (g (k, l) a) as [a'|]; [|done]. cbn [mbind exec_bind].
      apply IH; [done|]. intros p b Hp. apply Hb. by right.
    + rewrite (bind_done _ _ _ a s) by done. by apply IH.
Qed.

(** What [ALLREGIONS] computes for one region and one process. *)
Definition pure_pages {A} (g : nat -> nat * vir_region -> Z -> nat -> A -> exec A) (k : nat) (x : nat * vir_region) (a : A) : exec A :=
  fold_exec (fun y a => match y.2 with Some pr => g k x y.1 pr a | None => Done a end) (numbered (entries x.2)) a.

Lemma allregions_exact {A} (rc : nat -> nat -> A -> M W RT YT A) (pc : nat -> nat -> Z -> nat -> A -> M W RT YT A)
    (grc : nat -> nat * vir_region -> A -> exec A) (gpc : nat -> nat * vir_region -> Z -> nat -> A -> exec A) s ls a :
  lists_procs s 0 (length (procs s)) ls -> (forall k x, region_in ls k x -> region_ok s x.2) ->
  (forall k x a, region_in ls k x -> rc k x.1 a s = (a' ← grc k x a; Done (a', s))) ->
  (forall k x i pr a, page_in ls k x i pr ->
     pc k x.1 (Z.of_nat i * VM_PAGE_SIZE) pr a s = (a' ← gpc k x (Z.of_nat i * VM_PAGE_SIZE) pr a; Done (a', s))) ->
  ALLREGIONS rc pc a s = (a' ← fold_exec (fun p a => fold_exec (fun x a => a ← grc p.1 x a; pure_pages gpc p.1 x a) p.2 a) ls a; Done (a', s)).
Proof.
  intros Hls Hok Hrc Hpc. unfold ALLREGIONS. rewrite (bind_done _ _ _ (length (procs s)) s) by done.
  apply all_procs_exact; [done|]. intros [k l] b Hp. cbn [fst snd]. destruct (proj2 Hls _ Hp) as (vp & Hvp & Ht). cbn [fst snd] in *.
  rewrite (bind_done _ _ _ (vm_regions_avl vp) s).
  2: { unfold get_tree. by rewrite (bind_done _ _ _ _ _ (get_proc_done _ _ _ Hvp)). }
  apply walk_regions_exact; [done|]. intros x c Hx. assert (Hin : region_in ls k x) by by exists l.
  unfold mbind at 1, st_bind at 1. rewrite Hrc by done. destruct (grc k x c) as [c'|]; [|done]. cbn [mbind exec_bind].
  rewrite (bind_done _ _ _ (vr_length x.2) s).
  2: { unfold region_length. by rewrite (bind_done _ _ _ _ _ (get_vr_done _ _ _ (proj2 Ht x Hx))). }
  apply walk_pages_exact; [by apply Ht|by eapply Hok|]. intros [v o] d Hy. apply numbered_lookup in Hy as (i & Hi & ->). cbn [fst snd].
  destruct o as [pr|]; [|done]. by apply Hpc.
Qed.

(** The blocks of all pages, in the order of the walk. *)
Definition refs_of s ls : list nat := ls ≫= fun p => all_refs s p.2.

Lemma foldl_refs {A} (f : nat -> A -> A) s n (r : vir_region) a :
  foldl (fun a o => match o ≫= fun p => ph <$> phys_regions s !! p with Some b => f b a | None => a end) a (take n (physblocks r)) =
  foldl (fun a b => f b a) a (refs s n r).
Proof.
  unfold refs. revert a. generalize (take n (physblocks r)) as os. induction os as [|o os IH]; intros a; [done|]. cbn. rewrite IH.
  by destruct (o ≫= _).
Qed.

(** A walk that counts the blocks. *)
Lemma allregions_counts {A} (pc : nat -> nat -> Z -> nat -> A -> M W RT YT A) (f : nat -> A -> A) s ls a :
  lists_procs s 0 (length (procs s)) ls -> (forall k x, region_in ls k x -> region_ok s x.2) ->
  (forall k x i pr q a, page_in ls k x i pr -> phys_regions s !! pr = Some q ->
     pc k x.1 (Z.of_nat i * VM_PAGE_SIZE) pr a s = Done (f (ph q) a, s)) ->
  ALLREGIONS nothing pc a s = Done (foldl (fun a b => f b a) a (refs_of s ls), s).
Proof.
  intros Hls Hok Hpc. set (g := fun (o : option nat) (a : A) => match o ≫= fun p => ph <$> phys_regions s !! p with Some b => f b a | None => a end).
  rewrite (allregions_exact nothing pc (fun _ _ a => Done a) (fun _ _ _ pr a => Done (g (Some pr) a)) s ls a Hls Hok).
  - assert (Hpages : forall k x a, pure_pages (fun _ _ _ pr a => Done (g (Some pr) a)) k x a = Done (foldl (fun a b => f b a) a (refs s (npages x.2) x.2))).
    { intros k x b. unfold pure_pages. rewrite <- (foldl_refs f). change (take (npages x.2) (physblocks x.2)) with (entries x.2).
      rewrite <- (foldl_numbered g), <- fold_exec_done. apply fold_exec_ext. by intros [v [pr|]]. }
    rewrite (fold_exec_ext _ (fun p a => Done (foldl (fun a b => f b a) a (all_refs s p.2)))).
    + rewrite fold_exec_done. unfold refs_of. by rewrite foldl_bind.
    + intros [k l] b. cbn [fst snd]. rewrite (fold_exec_ext _ (fun x a => Done (foldl (fun a b => f b a) a (refs s (npages x.2) x.2)))) by (intros x c; apply Hpages).
      rewrite fold_exec_done. unfold all_refs. by rewrite foldl_bind.
  - done.
  - intros k x i pr b Hpg. destruct Hpg as [Hin Hi]. destruct (Hok k x Hin) as (_ & _ & Hb).
    destruct (Hb pr) as [pb Hpb]; [by eapply list_elem_of_lookup_2|]. apply bind_Some in Hpb as (q & Hq & _).
    rewrite (Hpc k x i pr q b) by done. cbn. unfold g. cbn. by rewrite Hq.
Qed.

(** Checks on all regions and pages. *)
Lemma allregions_checked (rc : nat -> nat -> unit -> M W RT YT unit) pc s ls (R : nat -> nat * vir_region -> Prop) (P : nat -> nat * vir_region -> nat -> nat -> Prop) :
  lists_procs s 0 (length (procs s)) ls -> (forall k x, region_in ls k x -> region_ok s x.2) ->
  (forall k x, region_in ls k x -> checked (rc k x.1 tt) s (R k x)) ->
  (forall k x i pr, page_in ls k x i pr -> checked (pc k x.1 (Z.of_nat i * VM_PAGE_SIZE) pr tt) s (P k x i pr)) ->
  checked (ALLREGIONS rc pc tt) s ((forall k x, region_in ls k x -> R k x) /\ forall k x i pr, page_in ls k x i pr -> P k x i pr).
Proof.
  intros Hls Hok Hrc Hpc.
  set (grc := fun k (x : nat * vir_region) (_ : unit) => pure_of (rc k x.1 tt) s).
  set (gpc := fun k (x : nat * vir_region) v pr (_ : unit) => pure_of (pc k x.1 v pr tt) s).
  eapply checked_iff, (checked_verdict _ _ (forall p, p ∈ ls -> forall x, x ∈ p.2 -> R p.1 x /\
      forall y, y ∈ numbered (entries x.2) -> match y.2 with Some pr => forall i, y.1 = Z.of_nat i * VM_PAGE_SIZE -> P p.1 x i pr | None => True end)).
  3: { apply (allregions_exact rc pc grc gpc); [done|done|intros k x [] Hx; by eapply checked_pure, Hrc|intros k x i pr [] Hx; by eapply checked_pure, Hpc]. }
  - split.
    + intros Hall. split.
      * intros k x (l & Hk & Hx). by apply (Hall (k, l) Hk x).
      * intros k x i pr [(l & Hk & Hx) Hi]. destruct (Hall (k, l) Hk x Hx) as [_ Hp].
        apply (Hp (Z.of_nat i * VM_PAGE_SIZE, Some pr)); [apply numbered_lookup; by exists i|done].
    + intros [HR HP] [k l] Hk x Hx. assert (Hin : region_in ls k x) by by exists l. split; [by apply HR|].
      intros [v [pr|]] Hy; [|done]. cbn. intros i ->. apply HP. split; [done|]. apply numbered_lookup in Hy as (j & Hj & E).
      unfold VM_PAGE_SIZE in E. by replace i with j by lia.
  - apply verdict_fold. intros [k l] Hk. apply verdict_fold. intros x Hx. assert (Hin : region_in ls k x) by by exists l. cbn [fst snd] in *.
    destruct (pure_verdict _ _ _ (Hrc k x Hin)) as [[HR E]|[HR (e & E & He)]]; unfold grc; rewrite E.
    2: { right. split; [tauto|by exists e]. }
    destruct (verdict_fold (fun y a => match y.2 with Some pr => gpc k x y.1 pr a | None => Done a end)
      (fun y => match y.2 with Some pr => forall i, y.1 = Z.of_nat i * VM_PAGE_SIZE -> P k x i pr | None => True end) (numbered (entries x.2))) as [[HP E']|[HP E']].
    + intros [v [pr|]] Hy; [|by left]. apply numbered_lookup in Hy as (i & Hi & ->). cbn [fst snd]. unfold gpc.
      destruct (pure_verdict _ _ _ (Hpc k x i pr ltac:(by split))) as [[HP E']|[HP E']]; [left|right]; (split; [|done]).
      * intros j Hj. unfold VM_PAGE_SIZE in Hj. by replace j with i by lia.
      * intros Hall. by apply HP, Hall.
    + left. by split.
    + right. split; [tauto|done].
Qed.

(** ** What is checked *)

(** [L] is the chain from [o] along [next_ph_list]. *)
Fixpoint linked (w : W) (o : option nat) (L : list nat) : Prop :=
  match L with [] => o = None | p :: L => o = Some p /\ linked w (next_ph_list w p) L end.

(** What the checks can read: the trees and the pages of the processes in use are
    there, the chains of their blocks end, and the memory types and page tables
    answer. *)
Record observable s ls (chain : nat -> list nat) : Prop := Observable {
  ob_procs : lists_procs s 0 (length (procs s)) ls;
  ob_regions : forall k x, region_in ls k x -> region_ok s x.2 /\ parent x.2 = k /\ 0 <= vaddr x.2 /\ vaddr x.2 + vr_length x.2 < 2 ^ 32;
  ob_count : Z.of_nat (length (refs_of s ls)) < 2 ^ 32;
  ob_chain : forall b, b ∈ refs_of s ls -> linked (world s) (firstregion (world s) b) (chain b) /\
    (length (chain b) <= size (phys_regions s))%nat /\ forall o, o ∈ chain b -> is_Some (phys_regions s !! o);
  ob_hooks : forall k x i pr f, page_in ls k x i pr -> ev_sanitycheck (memtype x.2) = Some f -> f pr s = Done (tt, s);
  ob_pt : forall k x i pr, page_in ls k x i pr -> exists r, map_sanitycheck_pt k x.1 pr s = Done (r, s)
}.

(** Region [y] is the next one behind [x] in process [k]. *)
Definition follows ls (k : nat) (x y : nat * vir_region) : Prop := exists l l1 l2, (k, l) ∈ ls /\ l = l1 ++ x :: y :: l2.

(** The block [pb] of the page [pr]: it has as many references as pages refer to it,
    which are as many as are in its list, and the list is in the block. *)
Definition counted s ls (chain : nat -> list nat) (q : phys_region) (pb : phys_block) (pr : nat) : Prop :=
  refcount pb = uses (ph q) (refs_of s ls) /\ refcount pb = Z.of_nat (length (chain (ph q))) /\
  (forall o, o ∈ chain (ph q) -> slabsane_pr (world s) o = true /\ exists q', phys_regions s !! o = Some q' /\ ph q' = ph q) /\
  (refcount pb = 1 -> chain (ph q) = [pr]).

(** What the checks decide: the objects are sane for the slab allocator; pages know
    their regions; regions start at pages and do not overlap; the blocks are counted; and
    the page tables agree. *)
Record sane s ls (chain : nat -> list nat) : Prop := Sane {
  sn_slabs : (forall k x, region_in ls k x -> slabsane_vr (world s) x.1 = true) /\
    forall k x i pr q, page_in ls k x i pr -> phys_regions s !! pr = Some q ->
      slabsane_pr (world s) pr = true /\ slabsane_pb (world s) (ph q) = true /\ slabsane_vr (world s) (pr_parent (world s) pr) = true;
  sn_parents : forall k x i pr, page_in ls k x i pr -> pr_parent (world s) pr = x.1;
  sn_regions : forall k x, region_in ls k x -> vaddr x.2 mod VM_PAGE_SIZE = 0 /\
    forall y, follows ls k x y -> vaddr x.2 + vr_length x.2 <= vaddr y.2;
  sn_blocks : forall k x i pr q pb, page_in ls k x i pr -> phys_regions s !! pr = Some q -> phys_blocks s !! ph q = Some pb ->
    counted s ls chain q pb pr;
  sn_pt : forall k x i pr, page_in ls k x i pr -> map_sanitycheck_pt k x.1 pr s = Done (OK, s)
}.

(** *** Counting *)

Lemma seen_cleared bs (m : gmap nat Z) b : default 0 (m !! b) = 0 -> default 0 (foldl (fun m b => <[b := 0]> m) m bs !! b) = 0.
Proof.
  revert m. induction bs as [|c bs IH]; intros m Hm; [done|]. cbn. apply IH. rewrite lookup_insert. by case_decide.
Qed.

Definition see (b : nat) (m : gmap nat Z) : gmap nat Z := <[b := u32 (default 0 (m !! b) + 1)]> m.

Lemma seen_counted bs (m : gmap nat Z) b : (forall c, 0 <= default 0 (m !! c) /\ default 0 (m !! c) + Z.of_nat (length bs) < 2 ^ 32) ->
  default 0 (foldl (fun m b => see b m) m bs !! b) = default 0 (m !! b) + uses b bs.
Proof.
  revert m. induction bs as [|c bs IH]; intros m Hm; cbn [foldl]; [unfold uses; cbn; lia|].
  assert (Hc : forall d, default 0 (see c m !! d) = default 0 (m !! d) + if decide (c = d) then 1 else 0).
  { intros d. unfold see. rewrite lookup_insert. case_decide; [subst|lia]. cbn. cbn [length] in Hm. specialize (Hm d). apply u32_small. lia. }
  rewrite IH, Hc, uses_cons; [lia|]. intros d. rewrite Hc. cbn [length] in Hm. specialize (Hm d). case_decide; lia.
Qed.

(** What [seencount] is after the two walks. *)
Definition seen_of s ls : gmap nat Z :=
  foldl (fun m b => see b m) (foldl (fun m b => <[b := 0]> m) ∅ (refs_of s ls)) (refs_of s ls).

Lemma seen_of_uses s ls b : Z.of_nat (length (refs_of s ls)) < 2 ^ 32 -> default 0 (seen_of s ls !! b) = uses b (refs_of s ls).
Proof.
  intros Hn. unfold seen_of. rewrite seen_counted; rewrite ?seen_cleared by done; [lia|]. intros c. rewrite seen_cleared by done. lia.
Qed.

Lemma page_block s ls k x i pr : page_in ls k x i pr -> region_ok s x.2 -> exists q pb,
  phys_regions s !! pr = Some q /\ phys_blocks s !! ph q = Some pb /\ offset q = Z.of_nat i * VM_PAGE_SIZE /\ ph q ∈ refs_of s ls.
Proof.
  intros [(l & Hk & Hx) Hi] ((Hm & Hl & Hoff) & Hlen & Hb). destruct (Hb pr) as [pb Hpb]; [by eapply list_elem_of_lookup_2|].
  apply bind_Some in Hpb as (q & Hq & Hpb). exists q, pb. split; [done|]. split; [done|]. unfold entries in Hi.
  assert (Hi' := Hi). apply lookup_take_Some in Hi' as [Hi' Hlt]. split.
  - destruct (Hoff i pr Hi') as (q' & Hq' & Ho); [|congruence].
    unfold VM_PAGE_SIZE in *. pose proof (Z.div_mod (vr_length x.2) 4096). lia.
  - apply list_elem_of_bind. exists (k, l). split; [|done]. apply list_elem_of_bind. exists x. split; [|done].
    apply list_elem_of_omap. exists (Some pr). split; [by eapply list_elem_of_lookup_2|]. cbn. by rewrite Hq.
Qed.

(** *** The walks *)

Lemma get_pb_done s b pb : phys_blocks s !! b = Some pb -> get_pb b s = Done (pb, s).
Proof. intros Hb. unfold get_pb. rewrite (bind_done _ _ _ (phys_blocks s) s) by done. by rewrite Hb. Qed.

Lemma MYASSERT_checked (P : Prop) `{Decision P} s : checked (MYASSERT P) s P.
Proof.
  unfold MYASSERT. case_bool_decide; [left|right]; (split; [done|]); [apply myassert_true|apply myassert_false].
Qed.

Lemma nothing_checked s (k r : nat) : checked (nothing k r tt) s True.
Proof. apply checked_ret. Qed.

Section passes.
Context s ls (chain : nat -> list nat) (Hob : observable s ls chain).

Lemma ob_page k x i pr : page_in ls k x i pr -> exists q pb, phys_regions s !! pr = Some q /\ phys_blocks s !! ph q = Some pb /\
  offset q = Z.of_nat i * VM_PAGE_SIZE /\ ph q ∈ refs_of s ls.
Proof. intros Hp. apply (page_block s ls k x i pr Hp). by apply (ob_regions _ _ _ Hob k x), Hp. Qed.

(** A walk with checks on pages only. *)
Lemma pages_checked pc (P : nat -> nat * vir_region -> nat -> nat -> Prop) :
  (forall k x i pr q pb, page_in ls k x i pr -> phys_regions s !! pr = Some q -> phys_blocks s !! ph q = Some pb ->
     offset q = Z.of_nat i * VM_PAGE_SIZE -> ph q ∈ refs_of s ls -> checked (pc k x.1 (Z.of_nat i * VM_PAGE_SIZE) pr tt) s (P k x i pr)) ->
  checked (ALLREGIONS nothing pc tt) s (forall k x i pr, page_in ls k x i pr -> P k x i pr).
Proof.
  intros Hpc. eapply checked_iff; [|apply (allregions_checked nothing pc s ls (fun _ _ => True) P)].
  - tauto.
  - apply Hob.
  - intros k x Hx. by apply (ob_regions _ _ _ Hob k x).
  - intros k x _. apply nothing_checked.
  - intros k x i pr Hp. destruct (ob_page k x i pr Hp) as (q & pb & ? & ? & ? & ?). by apply (Hpc k x i pr q pb).
Qed.

Lemma check_slabs_spec : checked check_slabs s ((forall k x, region_in ls k x -> slabsane_vr (world s) x.1 = true) /\
  forall k x i pr q, page_in ls k x i pr -> phys_regions s !! pr = Some q ->
    slabsane_pr (world s) pr = true /\ slabsane_pb (world s) (ph q) = true /\ slabsane_vr (world s) (pr_parent (world s) pr) = true).
Proof.
  eapply checked_iff; [|apply (allregions_checked _ _ s ls (fun _ x => slabsane_vr (world s) x.1 = true)
    (fun k x i pr => slabsane_pr (world s) pr = true /\ (forall q, phys_regions s !! pr = Some q -> slabsane_pb (world s) (ph q) = true) /\
       slabsane_vr (world s) (pr_parent (world s) pr) = true))].
  - split.
    + intros [H1 H2]. split; [done|]. intros k x i pr q Hp Hq. destruct (H2 k x i pr Hp) as (? & ? & ?). auto.
    + intros [H1 H2]. split; [done|]. intros k x i pr Hp. destruct (ob_page k x i pr Hp) as (q & pb & Hq & _).
      destruct (H2 k x i pr q Hp Hq) as (? & ? & ?). split; [done|]. split; [|done]. intros q' Hq'. congruence.
  - apply Hob.
  - intros k x Hx. by apply (ob_regions _ _ _ Hob k x).
  - intros k x _. eapply checked_done; [done|]. apply MYASSERT_checked.
  - intros k x i pr Hp. destruct (ob_page k x i pr Hp) as (q & pb & Hq & _). eapply checked_done; [done|].
    apply checked_bind; [apply MYASSERT_checked|]. intros _. eapply checked_done; [by apply get_pr_done|].
    apply checked_bind; [|intros _; apply MYASSERT_checked]. eapply checked_iff; [|apply MYASSERT_checked].
    split; [intros ? q' Hq'; congruence|auto].
Qed.

Lemma check_parents_spec : checked check_parents s (forall k x i pr, page_in ls k x i pr -> pr_parent (world s) pr = x.1).
Proof. apply pages_checked. intros k x i pr q pb _ _ _ _ _. eapply checked_done; [done|]. apply MYASSERT_checked. Qed.

Lemma check_offsets_spec : check_offsets s = Done (tt, s).
Proof.
  assert (Hc : checked check_offsets s (forall k x i pr, page_in ls k x i pr -> forall q, phys_regions s !! pr = Some q -> offset q = Z.of_nat i * VM_PAGE_SIZE)).
  { apply pages_checked. intros k x i pr q pb _ Hq _ Ho _. eapply checked_done; [by apply get_pr_done|].
    eapply checked_iff; [|apply MYASSERT_checked]. split; [intros _ q' Hq'; congruence|auto]. }
  destruct Hc as [[_ Hc]|[Hno _]]; [done|]. destruct Hno. intros k x i pr Hp q Hq.
  destruct (ob_page k x i pr Hp) as (q' & _ & Hq' & _ & Ho & _). congruence.
Qed.

Lemma clear_seen_spec : clear_seen ∅ s = Done (foldl (fun m b => <[b := 0]> m) ∅ (refs_of s ls), s).
Proof.
  apply (allregions_counts _ (fun b m => <[b := 0]> m)); [apply Hob|intros k x Hx; by apply (ob_regions _ _ _ Hob k x)|].
  intros k x i pr q m _ Hq. by rewrite (bind_done _ _ _ _ _ (get_pr_done _ _ _ Hq)).
Qed.

Lemma count_seen_spec m : (forall k x i pr, page_in ls k x i pr -> pr_parent (world s) pr = x.1) ->
  count_seen m s = Done (foldl (fun m b => see b m) m (refs_of s ls), s).
Proof.
  intros Hpar. apply (allregions_counts _ see); [apply Hob|intros k x Hx; by apply (ob_regions _ _ _ Hob k x)|].
  intros k x i pr q seen Hp Hq. rewrite (bind_done _ _ _ _ _ (get_pr_done _ _ _ Hq)). rewrite (bind_done _ _ _ (world s) s) by done.
  rewrite (bind_done _ _ _ tt s); [done|]. case_decide; [|done]. rewrite (Hpar k x i pr Hp).
  assert (Hr : regions s !! x.1 = Some x.2).
  { destruct Hp as [(l & Hk & Hx) _]. destruct (proj2 (ob_procs _ _ _ Hob) _ Hk) as (vp & _ & Ht). by apply Ht. }
  rewrite (bind_done _ _ _ _ _ (get_vr_done _ _ _ Hr)). destruct (ev_sanitycheck (memtype x.2)) as [f|] eqn:Ef; [|done].
  by apply (ob_hooks _ _ _ Hob k x i pr).
Qed.

(** The region that the tree search finds behind [x]. *)
Lemma follows_search k x y vp : procs s !! k = Some vp -> follows ls k x y ->
  avl_search_gt (vaddr x.2) (vm_regions_avl vp) = Some (entry y) /\ regions s !! y.1 = Some y.2.
Proof.
  intros Hvp (l & l1 & l2 & Hk & ->). destruct (proj2 (ob_procs _ _ _ Hob) _ Hk) as (vp' & Hvp' & Hel & Hr). cbn [fst snd] in *.
  simplify_eq. split; [|apply Hr; set_solver]. rewrite avl_gt_elems. pose proof (avl_ordered (vm_regions_avl vp)) as Hord.
  rewrite Hel, fmap_app, !fmap_cons in Hord |- *. exact (list_gt_at _ _ _ _ Hord).
Qed.

(** [getnextvr] finds the next region, or stops. *)
Lemma getnextvr_spec k x : region_in ls k x ->
  (forall y, ~ follows ls k x y) /\ getnextvr x.1 s = Done (None, s) \/
  exists y, follows ls k x y /\ (forall z, follows ls k x z -> z = y) /\ regions s !! y.1 = Some y.2 /\ vaddr x.2 < vaddr y.2 /\
    verdict (getnextvr x.1 s) (vaddr x.2 + vr_length x.2 <= vaddr y.2) (Some y.1, s).
Proof.
  intros Hx. destruct (ob_regions _ _ _ Hob k x Hx) as ((_ & [Hlen _] & _) & Hpar & Hlo & Hhi). destruct Hx as (l & Hk & (l1 & l2 & ->)%list_elem_of_split).
  destruct (proj2 (ob_procs _ _ _ Hob) _ Hk) as (vp & Hvp & Hel & Hr). cbn [fst snd] in *.
  assert (Hsearch : avl_search (vaddr x.2) (vm_regions_avl vp) = Some x.1).
  { rewrite avl_search_elems. apply list_eq_at_Some; [apply avl_ordered|]. rewrite Hel. apply (list_elem_of_fmap_2 entry). set_solver. }
  pose proof (avl_ordered (vm_regions_avl vp)) as Hord.
  assert (Hgt : avl_search_gt (vaddr x.2) (vm_regions_avl vp) = head (entry <$> l2)).
  { rewrite avl_gt_elems, Hel, fmap_app, fmap_cons in *. exact (list_gt_at _ _ _ _ Hord). }
  assert (Hrun : getnextvr x.1 s = match head (entry <$> l2) with None => Done (None, s) | Some (_, n) =>
    (nextvr ← get_vr n; _ ← asserts (parent x.2 = parent nextvr); _ ← asserts (vaddr x.2 < vaddr nextvr);
     _ ← asserts (u32 (vaddr x.2 + vr_length x.2) <= vaddr nextvr); mret (Some n)) s end).
  { unfold getnextvr. rewrite (bind_done _ _ _ _ _ (get_vr_done _ _ _ (Hr x ltac:(set_solver)))). rewrite Hpar, (bind_done _ _ _ (vm_regions_avl vp) s).
    2: { unfold get_tree. by rewrite (bind_done _ _ _ _ _ (get_proc_done _ _ _ Hvp)). }
    rewrite (bind_done _ _ _ _ _ (asserts_true _ s Hsearch)), Hgt. by destruct l2 as [|[]]. }
  destruct l2 as [|y l2]; [left|right; exists y]; cbn [fmap list_fmap head] in *.
  - split; [|done]. intros y Hy. apply (follows_search _ _ _ _ Hvp) in Hy as [Hy _]. by rewrite Hgt in Hy.
  - assert (Hy : y ∈ l1 ++ x :: y :: l2) by set_solver. assert (Hin : region_in ls k y) by (by eexists; split).
    destruct (ob_regions _ _ _ Hob k y Hin) as (_ & Hpar' & _). split; [by eexists _, l1, l2|]. split.
    { intros z Hz. apply (follows_search _ _ _ _ Hvp) in Hz as [Hz Hrz]. rewrite Hgt in Hz. unfold entry in Hz. injection Hz as _ Hz.
      rewrite (surjective_pairing y), (surjective_pairing z), <- Hz in *. specialize (Hr _ Hy). cbn [fst snd] in *. congruence. }
    split; [by apply Hr|]. assert (Hlt : vaddr x.2 < vaddr y.2).
    { rewrite Hel, fmap_app, !fmap_cons in Hord. apply ordered_app in Hord as (_ & Hs & _). apply StronglySorted_inv in Hs as [_ Hs].
      by apply Forall_cons in Hs as [Hs _]. }
    split; [done|]. rewrite Hrun. unfold entry. rewrite (bind_done _ _ _ _ _ (get_vr_done _ _ _ (Hr y Hy))), Hpar, Hpar'.
    rewrite (bind_done _ _ _ _ _ (asserts_true _ s eq_refl)), (bind_done _ _ _ _ _ (asserts_true _ s Hlt)), u32_small by lia.
    unfold asserts. case_decide as Hle; [by left|right]. split; [done|]. exists AssertFail. by split; [|right].
Qed.

Lemma check_region_spec k x : region_in ls k x ->
  checked (check_region k x.1) s ((forall y, follows ls k x y -> vaddr x.2 + vr_length x.2 <= vaddr y.2) /\ vaddr x.2 mod VM_PAGE_SIZE = 0).
Proof.
  intros Hx. pose proof (ob_regions _ _ _ Hob k x Hx) as ((_ & [Hlen _] & _) & _ & Hlo & Hhi).
  assert (Hr : regions s !! x.1 = Some x.2).
  { destruct Hx as (l & Hk & Hx). destruct (proj2 (ob_procs _ _ _ Hob) _ Hk) as (vp & _ & Ht). by apply Ht. }
  unfold check_region. destruct (getnextvr_spec k x Hx) as [[Hno Hg]|(y & Hy & Hu & Hry & Hlt & Hg)].
  - eapply checked_done; [exact Hg|]. eapply checked_done; [by apply get_vr_done|].
    eapply checked_iff; [|eapply checked_done; [done|apply MYASSERT_checked]]. split; [|tauto]. intros Hm. split; [|done]. intros y Hy. by destruct (Hno y).
  - eapply (checked_iff _ _ (vaddr x.2 + vr_length x.2 <= vaddr y.2 /\ vaddr x.2 mod VM_PAGE_SIZE = 0)).
    { split; intros [H1 H2]; (split; [|done]); [intros z Hz; by rewrite (Hu z Hz)|by apply H1]. }
    destruct Hg as [[Hle Hg]|[Hle (e & Hg & He)]].
    + eapply checked_done; [exact Hg|]. eapply checked_done; [by apply get_vr_done|].
      eapply checked_iff; [|apply (checked_bind _ _ _ (vaddr x.2 + vr_length x.2 <= vaddr y.2)); [|intros _; apply MYASSERT_checked]]; [done|].
      eapply checked_done; [by apply get_vr_done|]. eapply checked_iff; [|apply checked_bind; [apply MYASSERT_checked|intros _; apply MYASSERT_checked]].
      rewrite u32_small by lia. tauto.
    + right. split; [tauto|]. exists e. by rewrite (bind_fault _ _ _ _ Hg).
Qed.

Lemma count_others_spec b L : forall fuel o n, linked (world s) o L -> (length L < fuel)%nat -> (forall o, o ∈ L -> is_Some (phys_regions s !! o)) ->
  verdict (count_others fuel b o n s)
    (forall o, o ∈ L -> slabsane_pr (world s) o = true /\ exists q, phys_regions s !! o = Some q /\ ph q = b) (n + Z.of_nat (length L), s).
Proof.
  induction L as [|p L IH]; intros [|fuel] o n Hl Hf Hsome; cbn [length] in Hf; try lia; cbn [linked] in Hl.
  - subst. left. split; [by intros o ?%elem_of_nil|]. cbn. by rewrite Z.add_0_r.
  - destruct Hl as [-> Hl]. cbn [count_others]. rewrite (bind_done _ _ _ (world s) s) by done. destruct (Hsome p ltac:(by left)) as [q Hq].
    destruct (MYASSERT_checked (slabsane_pr (world s) p = true) s) as [[Hs E]|[Hs (e & E & He)]].
    2: { right. rewrite (bind_fault _ _ _ _ E). split; [|by exists e]. intros Hall. by destruct (Hall p ltac:(by left)). }
    rewrite (bind_done _ _ _ _ _ E), (bind_done _ _ _ _ _ (get_pr_done _ _ _ Hq)). clear E.
    destruct (MYASSERT_checked (ph q = b) s) as [[Hp E]|[Hp (e & E & He)]].
    2: { right. rewrite (bind_fault _ _ _ _ E). split; [|by exists e]. intros Hall. destruct (Hall p ltac:(by left)) as (_ & q' & Hq' & ?). congruence. }
    rewrite (bind_done _ _ _ _ _ E). clear E. replace (n + Z.of_nat (length (p :: L))) with (n + 1 + Z.of_nat (length L)) by (cbn [length]; lia).
    destruct (IH fuel (next_ph_list (world s) p) (n + 1)) as [[Hall E]|[Hall E]]; [done|lia|intros o Ho; apply Hsome; by right|left|right]; (split; [|done]).
    + intros o [->|Ho]%elem_of_cons; [split; [done|by exists q]|by apply Hall].
    + intros Hall'. apply Hall. intros o Ho. apply Hall'. by right.
Qed.

Lemma check_page_spec k x i pr q pb : page_in ls k x i pr -> phys_regions s !! pr = Some q -> phys_blocks s !! ph q = Some pb ->
  offset q = Z.of_nat i * VM_PAGE_SIZE -> ph q ∈ refs_of s ls ->
  checked (check_page (seen_of s ls) pr) s (counted s ls chain q pb pr).
Proof.
  intros Hp Hq Hpb Hoff Hin. destruct (ob_chain _ _ _ Hob _ Hin) as (Hl & Hsize & Hsome). pose proof (uses_pos _ _ Hin) as Huse.
  set (first := firstregion (world s) (ph q)) in *. unfold counted. set (others := forall o, o ∈ chain (ph q) -> _).
  eapply (checked_iff _ _ ((if decide (refcount pb > 0) then first <> None /\ (refcount pb = 1 -> first = Some pr) else first = None) /\
    others /\ refcount pb = Z.of_nat (length (chain (ph q))) /\ refcount pb = uses (ph q) (refs_of s ls) /\ offset q mod VM_PAGE_SIZE = 0)).
  { assert (Hmod : offset q mod VM_PAGE_SIZE = 0) by (rewrite Hoff; by apply Z.mod_mul).
    destruct (chain (ph q)) as [|o L]; cbn [linked length] in *; [split; intros; destruct_and?; lia|]. destruct Hl as [Hf Hl]. rewrite Hf.
    split; [intros (HA & HB & HC & HD & _)|intros (HD & HC & HB & HA)].
    - rewrite decide_True in HA by lia. destruct HA as [_ HA]. split; [done|]. split; [done|]. split; [done|]. intros H1. specialize (HA H1).
      destruct L; [congruence|cbn [length] in HC; lia].
    - rewrite decide_True by lia. split; [|done]. split; [done|]. intros H1. specialize (HA H1). congruence. }
  unfold check_page. eapply checked_done; [by apply get_pr_done|]. eapply checked_done; [by apply get_pb_done|].
  eapply checked_done; [done|]. cbv zeta. apply checked_bind.
  { case_decide; [|apply MYASSERT_checked]. apply checked_bind; [apply MYASSERT_checked|]. intros _. case_decide.
    - eapply checked_iff, MYASSERT_checked. tauto.
    - eapply checked_iff, checked_ret. tauto. }
  intros _. eapply checked_done; [done|].
  destruct (count_others_spec (ph q) (chain (ph q)) (S (size (phys_regions s))) first 0 Hl ltac:(lia) Hsome) as [[HB E]|[HB (e & E & He)]].
  2: { right. split; [|by exists e; rewrite (bind_fault _ _ _ _ E)]. intros (HB' & _). by apply HB. }
  eapply checked_done; [exact E|]. eapply checked_iff; [|apply checked_bind; [apply MYASSERT_checked|intros _; apply checked_bind; [apply MYASSERT_checked|intros _; apply MYASSERT_checked]]].
  rewrite seen_of_uses by apply Hob. fold others in HB. tauto.
Qed.

Lemma check_consistency_spec : checked (check_consistency (seen_of s ls)) s
  ((forall k x, region_in ls k x -> vaddr x.2 mod VM_PAGE_SIZE = 0 /\ forall y, follows ls k x y -> vaddr x.2 + vr_length x.2 <= vaddr y.2) /\
   forall k x i pr q pb, page_in ls k x i pr -> phys_regions s !! pr = Some q -> phys_blocks s !! ph q = Some pb ->
    counted s ls chain q pb pr).
Proof.
  eapply checked_iff; [|apply (allregions_checked _ _ s ls
    (fun k x => (forall y, follows ls k x y -> vaddr x.2 + vr_length x.2 <= vaddr y.2) /\ vaddr x.2 mod VM_PAGE_SIZE = 0)
    (fun k x i pr => forall q pb, phys_regions s !! pr = Some q ->
    phys_blocks s !! ph q = Some pb -> counted s ls chain q pb pr)); [apply Hob|intros k x Hx; by apply (ob_regions _ _ _ Hob k x)|by intros k x Hx; apply check_region_spec|]].
  2: { intros k x i pr Hp. destruct (ob_page k x i pr Hp) as (q & pb & Hq & Hpb & Hoff & Hin).
       eapply checked_iff; [|by apply (check_page_spec k x i pr q pb)]. split; [intros Hc q' pb' Hq' Hpb'; simplify_eq; exact Hc|eauto]. }
  cbn beta. split; intros [HR HP]; (split; [intros k x Hx; by destruct (HR k x Hx)|]).
  - intros k x i pr q pb Hp Hq Hpb. by apply (HP k x i pr Hp q pb).
  - intros k x i pr Hp q pb Hq Hpb. by apply (HP k x i pr q pb).
Qed.

Lemma check_pt_spec : checked check_pt s (forall k x i pr, page_in ls k x i pr -> map_sanitycheck_pt k x.1 pr s = Done (OK, s)).
Proof.
  apply pages_checked. intros k x i pr q pb Hp _ _ _ _. destruct (ob_pt _ _ _ Hob k x i pr Hp) as [r Hr].
  eapply checked_done; [exact Hr|]. eapply checked_iff; [|apply MYASSERT_checked]. rewrite Hr. split; [by intros ->|by intros [= ->]].
Qed.

Lemma passes_spec yl : yielded_inv s yl -> checked map_sanitycheck s (sane s ls chain).
Proof.
  intros Hyl. unfold map_sanitycheck. eapply checked_done; [done|]. eapply checked_done; [by apply (proj1 (chain_checks s yl Hyl))|].
  eapply checked_iff; [|apply checked_bind; [apply check_slabs_spec|intros _; apply checked_bind; [apply check_parents_spec|intros Hpar]]].
  2: { eapply checked_done; [apply clear_seen_spec|]. eapply checked_done; [apply check_offsets_spec|].
       eapply checked_done; [by apply count_seen_spec|]. apply checked_bind; [apply check_consistency_spec|intros _; apply check_pt_spec]. }
  split.
  - intros (H1 & H2 & (H3 & H4) & H5). by split.
  - intros [H1 H2 H3 H4 H5]. exact (conj H1 (conj H2 (conj (conj H3 H4) H5))).
Qed.
End passes.

(** The sanity check is a decision of [sane]: in a sane state it returns and changes
    nothing, and in any other it stops at a check or an assertion that fails. *)
Theorem sanitycheck_decides s ls chain yl : observable s ls chain -> yielded_inv s yl ->
  (sane s ls chain /\ map_sanitycheck s = Done (tt, s)) \/ (~ sane s ls chain /\ exists e, map_sanitycheck s = Fault e /\ refused e).
Proof. intros Hob Hyl. exact (passes_spec s ls chain Hob yl Hyl). Qed.

(** *** The statistics *)

Lemma count_stats_spec s (l : list nat) : forall (l1 l2 : list nat) fuel blocks mem, l = l1 ++ l2 -> yielded_inv s l -> (length l2 < fuel)%nat ->
  count_stats fuel (head_or None l2) blocks (u32 mem) s =
    Done ((blocks + Z.of_nat (length l2), u32 (mem + Z.of_nat (length l2) * VM_PAGE_SIZE)), s).
Proof.
  intros l1 l2. revert l1. induction l2 as [|x l2 IH]; intros l1 [|fuel] blocks mem -> Hinv Hf; simpl in Hf; try lia.
  - simpl. by rewrite !Z.add_0_r.
  - destruct (dchain_links _ _ _ _ _ _ (yi_chain _ _ Hinv)) as (v & Hv & _ & Hn). cbn [head_or count_stats].
    rewrite (bind_done _ _ _ _ _ (get_node_done _ _ _ Hv)). cbn [nxt yielded_link] in Hn. rewrite Hn, u32_add.
    rewrite (IH (l1 ++ [x])); [cbn [length]; do 3 f_equal; [lia|f_equal; unfold VM_PAGE_SIZE; lia]|by rewrite <- app_assoc|done|lia].
Qed.

(** [blockstats] counts every block as one page. *)
Lemma blockstats_spec s (l : list nat) : yielded_inv s l ->
  blockstats OK s = Done ((Z.of_nat (length l), u32 (Z.of_nat (length l) * VM_PAGE_SIZE)), s).
Proof.
  intros Hinv. unfold blockstats. rewrite (bind_done _ _ _ _ _ (asserts_true _ s eq_refl)). erewrite bind_done by done.
  rewrite (bind_done _ _ _ _ _ (proj1 (chain_checks s l Hinv))). erewrite bind_done by done.
  pose proof (yi_chain _ _ Hinv) as (_ & -> & _). rewrite (chain_size _ _ Hinv).
  change 0 with (u32 0) at 2. rewrite (count_stats_spec s l []) by (done || lia). done.
Qed.
End spec.

(** ** A page that two processes share after a fork *)

#[export] Instance demo_sanity : SanityHdr log rtree ytree := {|
  firstregion _ b := if decide (b = 11%nat) then Some 2%nat else None;
  next_ph_list _ p := if decide (p = 2%nat) then Some 1%nat else None;
  pr_parent _ p := p;
  vm_inuse _ k := true;
  slabsane_vr _ _ := true; slabsane_pr _ _ := true; slabsane_pb _ _ := true;
  myassert b := if b then mret tt else raise Panic;
  ev_sanitycheck _ := None;
  WMF_VERIFY := 2
|}.

#[export] Instance demo_sanity_ok : SanityOk log rtree ytree.
Proof. split; intros s; [done|]. exists Panic. by split; [|left]. Qed.

Definition page_of (p parent : nat) : vir_region := VirRegion 0x10000 VM_PAGE_SIZE [Some p] 1 0 0 0 parent.

(** Processes 0 and 1 have one page each, in a block with [n] references. *)
Definition shared_page (n : Z) : VM :=
  Vm [] (list_to_map [(1%nat, page_of 1 0); (2%nat, page_of 2 1)])
    (list_to_map [(1%nat, PhysRegion 11 0); (2%nat, PhysRegion 11 0)]) (list_to_map [(11%nat, PhysBlock 0x5000 n)])
    [VmProc 7 (tree_from [(0x10000, 1%nat)]) 0 0; VmProc 8 (tree_from [(0x10000, 2%nat)]) 0 0] ∅ (fun _ => avl_empty) None None 0 true.
Definition its_regions : list (nat * list (nat * vir_region)) := [(0, [(1, page_of 1 0)]); (1, [(2, page_of 2 1)])]%nat.
Definition its_chain (_ : nat) : list nat := [2%nat; 1%nat].

Lemma shared_page_inv n : yielded_inv (shared_page n) [].
Proof.
  split.
  - split_and!; [constructor|done..].
  - intros p [m Hm]. done.
  - done.
  - intros h i p Hs. done.
  - intros [|[|k]] [|[|k']] vp vp' Hk Hk' ?; simplify_eq/=; done.
  - done.
  - intros [|[|k]] vp Hk; simplify_eq/=; done.
  - done.
Qed.

Lemma its_regions_in k x : region_in its_regions k x -> k = 0%nat /\ x = (1%nat, page_of 1 0) \/ k = 1%nat /\ x = (2%nat, page_of 2 1).
Proof. intros (l & [E|[E| []%elem_of_nil]%elem_of_cons]%elem_of_cons & Hx); injection E as -> ->; apply list_elem_of_singleton in Hx; auto. Qed.

Lemma its_pages_in k x i pr : page_in its_regions k x i pr -> x.1 = pr /\ i = 0%nat /\ (pr = 1%nat \/ pr = 2%nat).
Proof. intros [[[-> ->]|[-> ->]]%its_regions_in Hi]; destruct i; simplify_eq/=; auto. Qed.

Lemma shared_page_observable n : observable (shared_page n) its_regions its_chain.
Proof.
  split.
  - split; [done|]. intros p [->|[->| []%elem_of_nil]%elem_of_cons]%elem_of_cons; (eexists; split; [done|]; split; [done|]);
      intros x ->%list_elem_of_singleton; done.
  - intros k x [[-> ->]|[-> ->]]%its_regions_in; (split; [|done]); (split; [|split; [done|]]).
    1,3: split_and!; [done|done|]; intros [|i] p Hi Hlt; simplify_eq/=; eexists; (split; [by vm_compute|done]).
    all: intros p Hp%list_elem_of_singleton; injection Hp as ->; by eexists.
  - done.
  - assert (E : refs_of (shared_page n) its_regions = [11; 11]%nat) by done. intros b Hb. rewrite E in Hb.
    assert (b = 11%nat) as -> by (repeat (apply elem_of_cons in Hb as [Hb|Hb]; [done|]); by apply elem_of_nil in Hb).
    split; [done|]. split; [vm_compute; lia|]. intros o [->|[->| []%elem_of_nil]%elem_of_cons]%elem_of_cons; by eexists.
  - done.
  - intros k x i pr ([[-> ->]|[-> ->]]%its_regions_in & Hi); destruct i; simplify_eq/=; exists OK; reflexivity.
Qed.

(** The check passes with two references to the block, and not with one. *)
Lemma sanitycheck_decides_witness :
  sane (shared_page 2) its_regions its_chain /\ map_sanitycheck (shared_page 2) = Done (tt, shared_page 2) /\
  ~ sane (shared_page 1) its_regions its_chain /\ map_sanitycheck (shared_page 1) = Fault Panic.
Proof.
  destruct (sanitycheck_decides _ _ _ [] (shared_page_observable 2) (shared_page_inv 2)) as [[H2 E2]|[_ (e & E2 & _)]]; [|by vm_compute in E2].
  destruct (sanitycheck_decides _ _ _ [] (shared_page_observable 1) (shared_page_inv 1)) as [[_ E1]|[H1 _]]; [by vm_compute in E1|].
  split; [exact H2|]. split; [exact E2|]. split; [exact H1|]. by vm_compute.
Defined.
