(* ===== verification/CString.v ===== *)
(** * C strings

    The functions of [<string.h>], [<stdlib.h>] and [<stdio.h>] that the list
    sorting programs and the exercises call: [strcmp], [strtok], [atoi], [fgets]
    and the conversion [%d], with the lemma that [atoi] reads back what
    [%d] printed.  A C string is the [string] of its characters before the
    terminating NUL. *)
From S2P Require Import Prelude.
From Stdlib Require Export Ascii.
From Stdlib Require String.
From Stdlib Require Import Decimal DecimalString DecimalZ.

Definition newline : ascii := "010"%char.
Definition line_end : string := String newline EmptyString.

(** ** Prefixes of characters of a class *)

(** The longest prefix whose characters satisfy [p], and the rest ([strspn]). *)
Fixpoint span (p : ascii -> bool) (s : string) : string * string :=
  match s with
  | EmptyString => (EmptyString, EmptyString)
  | String c r => if p c then (let '(a, b) := span p r in (String c a, b)) else (EmptyString, s)
  end%string.

Fixpoint all_chars (p : ascii -> bool) (s : string) : bool :=
  match s with EmptyString => true | String c r => p c && all_chars p r end%string.

(** The next character, if there is one, is not in the class. *)
Definition stops (p : ascii -> bool) (s : string) : bool :=
  match s with EmptyString => true | String c _ => negb (p c) end%string.

Definition in_set (set : string) (c : ascii) : bool := existsb (Ascii.eqb c) (String.list_ascii_of_string set).

(** The string that starts at offset [n]. *)
Fixpoint str_drop (n : nat) (s : string) : string :=
  match n, s with S n, String _ r => str_drop n r | _, _ => s end%string.

(** ** The library functions *)

(** What a buffer holds as a C string: the characters before the first NUL. *)
Definition cstr (s : string) : string := (span (fun c => negb (Ascii.eqb c "000")) s).1.

(** [strcmp]: the sign of the comparison of the first characters that differ, as
    [unsigned char]. *)
Definition strcmp (s t : string) : Z :=
  match String.compare s t with Lt => -1 | Eq => 0 | Gt => 1 end%Z.

(** [strtok(s, set)] skips the delimiters, and returns the token up to the next
    one with what is left behind it, for the calls [strtok(NULL, set)]. *)
Definition strtok (set s : string) : option string * string :=
  match (span (in_set set) s).2 with
  | EmptyString => (None, EmptyString)
  | s' => let '(tok, rest) := span (fun c => negb (in_set set c)) s' in
          (Some tok, match rest with EmptyString => EmptyString | String _ r => r end)
  end%string.

(** [fgets(buf, n, f)]: at most [n - 1] characters, up to and with the first
    newline; [None] is the NULL at the end of the file.  The second component is
    what is left in the file. *)
Fixpoint line (n : nat) (s : string) : string * string :=
  match n, s with
  | S n, String c r =>
      if Ascii.eqb c newline then (String c EmptyString, r)
      else let '(a, b) := line n r in (String c a, b)
  | _, _ => (EmptyString, s)
  end%string.

Definition fgets (n : nat) (f : string) : option (string * string) :=
  match f with EmptyString => None | _ => Some (line (n - 1) f) end%string.

Definition INT_MIN : Z := - 2 ^ 31.
Definition INT_MAX : Z := 2 ^ 31 - 1.

(** A signed [int] expression: the C standard leaves its overflow undefined. *)
Definition int_expr (z : Z) : exec Z :=
  if decide (INT_MIN <= z <= INT_MAX)%Z then Done z else Fault Undefined.

Definition is_digit (c : ascii) : bool := ((48 <=? N_of_ascii c) && (N_of_ascii c <=? 57))%N.
Definition digit (c : ascii) : Z := Z.of_N (N_of_ascii c) - 48.

Fixpoint digits_value (acc : Z) (s : string) : Z :=
  match s with
  | EmptyString => acc
  | String c r => digits_value (10 * acc + digit c) r
  end%string.

(** [atoi]: white space, an optional sign, decimal digits. *)
Definition atoi (s : string) : exec Z :=
  let s := (span Ascii.is_space s).2 in
  let '(neg, s) := match s with
    | String "-" r => (true, r)
    | String "+" r => (false, r)
    | _ => (false, s)
    end in
  let v := digits_value 0 (span is_digit s).1 in
  int_expr (if neg : bool then (- v)%Z else v).

(** The conversion [%d]. *)
Definition fmt_d (z : Z) : string := NilZero.string_of_int (Z.to_int z).

(** ** Lemmas *)

#[local] Arguments String.append : simpl nomatch.

Lemma str_app_nil (s : string) : s +:+ EmptyString = s.
Proof. induction s as [|c s IH]; [done|]. cbn. by f_equal. Qed.

Lemma str_app_assoc (s1 s2 s3 : string) : (s1 +:+ s2) +:+ s3 = s1 +:+ s2 +:+ s3.
Proof. induction s1 as [|c s IH]; [done|]. cbn. by f_equal. Qed.

Lemma str_length_app (s t : string) : String.length (s +:+ t) = String.length s + String.length t.
Proof. induction s as [|c s IH]; [done|]. cbn. by rewrite IH. Qed.

Lemma str_drop_app s r : str_drop (String.length s) (s +:+ r) = r.
Proof. induction s as [|c s IH]; cbn; done. Qed.

Lemma str_drop_next s c r : str_drop (S (String.length s)) (s +:+ String c r) = r.
Proof. induction s as [|d s IH]; cbn; [by destruct r|done]. Qed.

Lemma span_app p s r : all_chars p s = true -> stops p r = true -> span p (s +:+ r) = (s, r).
Proof.
  induction s as [|c s IH]; cbn; intros Hs Hr.
  - destruct r as [|d r]; [done|]. cbn in *. by destruct (p d).
  - apply andb_prop in Hs as [Hc Hs]. by rewrite Hc, (IH Hs Hr).
Qed.

Lemma span_all p s : all_chars p s = true -> span p s = (s, EmptyString).
Proof. intros Hs. rewrite <- (str_app_nil s) at 1. by apply span_app. Qed.

Lemma span_stop p s : stops p s = true -> span p s = (EmptyString, s).
Proof. intros Hs. by apply (span_app p EmptyString). Qed.

Lemma all_chars_mono (p q : ascii -> bool) s :
  (forall c, p c = true -> q c = true) -> all_chars p s = true -> all_chars q s = true.
Proof.
  intros Hpq. induction s as [|c s IH]; [done|]. cbn. intros [Hc Hs]%andb_prop.
  by rewrite (Hpq _ Hc), IH.
Qed.

Lemma all_chars_app p s t : all_chars p (s +:+ t) = all_chars p s && all_chars p t.
Proof. induction s as [|c s IH]; [done|]. cbn. by rewrite IH, andb_assoc. Qed.

Lemma stops_app (p q : ascii -> bool) s r :
  (forall c, p c = true -> q c = false) -> s <> EmptyString -> all_chars p s = true ->
  stops q (s +:+ r) = true.
Proof.
  intros Hpq Hs Hp. destruct s as [|c s]; [done|]. cbn in *.
  apply andb_prop in Hp as [Hc _]. by rewrite (Hpq _ Hc).
Qed.

Lemma cstr_id s : all_chars (fun c => negb (Ascii.eqb c "000")) s = true -> cstr s = s.
Proof. intros Hs. unfold cstr. by rewrite span_all. Qed.

(** A token that is followed by a delimiter. *)
Lemma strtok_token set s c r :
  s <> EmptyString -> all_chars (fun c => negb (in_set set c)) s = true -> in_set set c = true ->
  strtok set (s +:+ String c r) = (Some s, r).
Proof.
  intros Hne Hs Hc. unfold strtok.
  rewrite span_stop.
  2: { eapply stops_app; [|done|exact Hs]. intros d. cbn. by destruct (in_set set d). }
  assert (Hsp := span_app (fun c => negb (in_set set c)) s (String c r) Hs).
  destruct (s +:+ String c r) as [|d t] eqn:Ht; [by destruct s|].
  cbn [snd]. rewrite Hsp; [done|]. cbn. by rewrite Hc.
Qed.

(** The last token. *)
Lemma strtok_last set s : s <> EmptyString -> all_chars (fun c => negb (in_set set c)) s = true ->
  strtok set s = (Some s, EmptyString).
Proof.
  intros Hne Hs. unfold strtok. rewrite span_stop.
  2: { destruct s as [|c s]; [done|]. cbn in *. apply andb_prop in Hs as [Hc _]. by rewrite Hc. }
  cbn [snd]. pose proof (span_all _ _ Hs) as Hsp. destruct s as [|c s]; [done|]. by rewrite Hsp.
Qed.

Lemma line_app n s r :
  all_chars (fun c => negb (Ascii.eqb c newline)) s = true -> String.length s < n ->
  line n (s +:+ String newline r) = (s +:+ line_end, r).
Proof.
  revert n. induction s as [|c s IH]; intros [|n] Hs Hn; cbn in *; try lia; [done|].
  apply andb_prop in Hs as [Hc Hs]. destruct (Ascii.eqb c newline); [done|].
  rewrite (IH n) by (done || lia). done.
Qed.

Lemma strcmp_eq s t : strcmp s t = 0%Z <-> s = t.
Proof.
  unfold strcmp. split.
  - destruct (String.compare s t) eqn:Hc; [|done..]. intros _. by apply String.compare_eq_iff.
  - intros ->. destruct (String.compare t t) eqn:Hc; [done|exfalso..];
      pose proof (String.compare_antisym t t) as Ha; rewrite Hc in Ha; done.
Qed.

Lemma strcmp_ge s t : (0 <= strcmp s t)%Z <-> String.le t s.
Proof.
  unfold strcmp, String.le, String.leb. rewrite (String.compare_antisym t s).
  destruct (String.compare s t); cbn; split; intros; try done; lia.
Qed.

Lemma int_expr_done z : (INT_MIN <= z <= INT_MAX)%Z -> int_expr z = Done z.
Proof. intros Hz. unfold int_expr. by rewrite decide_True. Qed.

(** ** [%d] and [atoi] *)

Lemma digits_value_acc d p :
  digits_value (Z.pos p) (NilEmpty.string_of_uint d) = Z.pos (Pos.of_uint_acc d p).
Proof.
  revert p. induction d; intros p; [done|..];
    cbn [NilEmpty.string_of_uint digits_value Pos.of_uint_acc]; rewrite <- IHd; f_equal;
    unfold digit; cbn [N_of_ascii]; cbn; lia.
Qed.

Lemma digits_value_uint d :
  digits_value 0 (NilEmpty.string_of_uint d) = Z.of_N (Pos.of_uint d).
Proof.
  induction d; [done|cbn; exact IHd|..]; cbn [NilEmpty.string_of_uint digits_value];
    unfold digit; vm_compute Z.of_N; cbn; apply digits_value_acc.
Qed.

Lemma all_digits d : all_chars is_digit (NilEmpty.string_of_uint d) = true.
Proof. induction d; cbn; done. Qed.

Lemma string_of_uint_zero d :
  digits_value 0 (NilZero.string_of_uint d) = Z.of_N (Pos.of_uint d) /\
  all_chars is_digit (NilZero.string_of_uint d) = true /\ NilZero.string_of_uint d <> EmptyString.
Proof.
  pose proof (digits_value_uint d) as Hv. pose proof (all_digits d) as Ha. by destruct d.
Qed.

(** The characters [%d] prints. *)
Definition is_int_char (c : ascii) : bool := is_digit c || Ascii.eqb c "-".

Lemma fmt_d_chars z : all_chars is_int_char (fmt_d z) = true /\ fmt_d z <> EmptyString.
Proof.
  assert (Hd : forall d, all_chars is_int_char (NilZero.string_of_uint d) = true).
  { intros d. eapply all_chars_mono; [|apply string_of_uint_zero].
    intros c Hc. unfold is_int_char. by rewrite Hc. }
  unfold fmt_d. destruct (Z.to_int z) as [d|d]; cbn; split; [apply Hd|apply string_of_uint_zero|apply Hd|done].
Qed.

Lemma is_digit_not_space c : is_digit c = true -> Ascii.is_space c = false.
Proof. destruct c as [[] [] [] [] [] [] [] []]; cbn; done. Qed.

Lemma is_digit_not_sign c : is_digit c = true -> c <> "-"%char /\ c <> "+"%char.
Proof. intros Hc. split; intros ->; done. Qed.

Lemma atoi_digits s v : s <> EmptyString -> all_chars is_digit s = true ->
  digits_value 0 s = v -> atoi s = int_expr v.
Proof.
  intros Hne Hs Hv. unfold atoi.
  rewrite (span_stop Ascii.is_space) by (destruct s as [|c s]; [done|]; cbn in *;
    apply andb_prop in Hs as [Hc _]; by rewrite (is_digit_not_space _ Hc)).
  cbn [snd].
  assert ((match s with String "-" r => (true, r) | String "+" r => (false, r) | _ => (false, s) end)
          = (false, s)) as ->.
  { destruct s as [|c s]; [done|]. cbn in Hs. apply andb_prop in Hs as [Hc _].
    destruct (is_digit_not_sign _ Hc) as [H1 H2].
    destruct c as [[] [] [] [] [] [] [] []]; done. }
  rewrite (span_all _ _ Hs). cbn [fst]. by rewrite Hv.
Qed.

Lemma atoi_minus s v : all_chars is_digit s = true ->
  digits_value 0 s = v -> atoi (String "-" s) = int_expr (- v).
Proof. intros Hs Hv. unfold atoi. cbn. rewrite (span_all _ _ Hs). cbn. by rewrite Hv. Qed.

Lemma atoi_fmt_d z : (INT_MIN <= z <= INT_MAX)%Z -> atoi (fmt_d z) = Done z.
Proof.
  intros Hz. rewrite <- (int_expr_done z Hz). pose proof (DecimalZ.of_to z) as Ho.
  unfold fmt_d. destruct (Z.to_int z) as [d|d]; cbn [NilZero.string_of_int Z.of_int] in *;
    destruct (string_of_uint_zero d) as (Hv & Ha & Hne).
  - by apply atoi_digits; [..|rewrite Hv, <- Ho].
  - rewrite (atoi_minus _ _ Ha Hv). f_equal. rewrite <- Ho. unfold Z.of_uint. lia.
Qed.
