(* ===== verification/Stdio.v ===== *)
(** * Streams of [<stdio.h>]

    The programs that sort lists never close the files they write.  What
    [fprintf] prints to such a file is kept in the buffer of its stream; the
    library sends it on when it likes, and at the latest when the program ends.
    [fopen], [fprintf], [fclose] of an input and the flushing at exit are defined
    here over the files, the open output streams and the number of open input
    streams.  When the library sends, how many streams it offers and in which
    order it flushes them at exit is left open: the class [Stdio].

    Reading a file through a stream is reading what the file held when it was
    opened, because the programs read an input to its end before they print
    anything.  A disk takes what is written to it. *)
From S2P Require Import Prelude StateM CString.

(** An output stream: its file, the position in the file up to which it has sent
    its output, and the rest of the output. *)
Record stream := MkStream { s_name : string; s_pos : nat; s_buf : string }.

Record stdio := MkStdio { contents : gmap string string; outputs : list stream; inputs : nat }.

(** How many characters of its buffer a stream sends after an [fprintf], how many
    streams a program can have open beside the three standard ones, and the order
    in which [exit] flushes.  The C standard asks for 8 streams in all. *)
Class Stdio := {
  transmits : stream -> nat;
  max_open : nat;
  flush_order : nat -> list nat;
  max_open_law : 5 <= max_open;
  flush_order_perm n : flush_order n ≡ₚ seq 0 n
}.

(** ** Files *)

Fixpoint str_take (n : nat) (s : string) : string :=
  match n, s with S n, String c r => String c (str_take n r) | _, _ => EmptyString end.

(** A file [old] after [t] was written at a position: a hole reads as NULs. *)
Fixpoint write_at (pos : nat) (t old : string) : string :=
  match pos with
  | O => t +:+ str_drop (String.length t) old
  | S pos =>
      match old with
      | EmptyString => String "000"%char (write_at pos t EmptyString)
      | String c r => String c (write_at pos t r)
      end
  end.

(** A stream sends the first [n] characters of its buffer. *)
Definition send (n : nat) (f : nat) (d : stdio) : stdio :=
  match outputs d !! f with
  | None => d
  | Some o =>
      match str_take n (s_buf o) with
      | EmptyString => d
      | t => MkStdio
          (<[s_name o := write_at (s_pos o) t (default EmptyString (contents d !! s_name o))]> (contents d))
          (<[f := MkStream (s_name o) (s_pos o + String.length t) (str_drop n (s_buf o))]> (outputs d))
          (inputs d)
      end
  end.

Definition flush (f : nat) (d : stdio) : stdio :=
  match outputs d !! f with Some o => send (String.length (s_buf o)) f d | None => d end.

(** ** The functions *)

Section functions.
Context {sio : Stdio}.

Definition has_slot (d : stdio) : Prop := Datatypes.length (outputs d) + inputs d < max_open.

(** [fopen(name, "w")]: the file is emptied or created. *)
Definition fopen_w (name : string) : ST stdio (option nat) := fun d =>
  if decide (has_slot d) then
    Done (Some (Datatypes.length (outputs d)),
          MkStdio (<[name := EmptyString]> (contents d)) (outputs d ++ [MkStream name 0 EmptyString]) (inputs d))
  else Done (None, d).

(** [fopen(name, "r")], and what can be read from the stream. *)
Definition fopen_r (name : string) : ST stdio (option string) := fun d =>
  if decide (has_slot d) then
    match contents d !! name with
    | Some t => Done (Some t, MkStdio (contents d) (outputs d) (S (inputs d)))
    | None => Done (None, d)
    end
  else Done (None, d).

(** [fclose] of an input. *)
Definition fclose_r : ST stdio unit := fun d =>
  match inputs d with
  | S n => Done (tt, MkStdio (contents d) (outputs d) n)
  | O => Fault Undefined
  end.

Definition fprintf (fout : option nat) (text : string) : ST stdio unit :=
  f ← derefs NullDeref fout;
  os ← gets outputs;
  o ← derefs Undefined (os !! f);
  let o := MkStream (s_name o) (s_pos o) (s_buf o +:+ text) in
  _ ← modify (fun d => MkStdio (contents d) (<[f := o]> (outputs d)) (inputs d));
  modify (send (transmits o) f).

(** The end of the program: every stream is flushed and closed. *)
Definition exit_streams : ST stdio unit :=
  modify (fun d =>
    let d := foldl (fun d f => flush f d) d (flush_order (Datatypes.length (outputs d))) in
    MkStdio (contents d) [] 0).
End functions.

(** ** The state of a program that writes different files *)

(** [e.2] was printed to the stream [o] of the file [e.1], which holds what has
    been sent. *)
Definition carries (d : stdio) (e : string * string) (o : stream) : Prop :=
  s_name o = e.1 /\
  exists sent, contents d !! e.1 = Some sent /\ s_pos o = String.length sent /\ e.2 = sent +:+ s_buf o.

(** The program printed the texts [outs] to different files, [n] inputs are open,
    and the other files are those of [f0]. *)
Record writing (f0 : gmap string string) (outs : list (string * string)) (n : nat) (d : stdio) : Prop := {
  wr_len : Datatypes.length (outputs d) = Datatypes.length outs;
  wr_streams : forall i e o, outs !! i = Some e -> outputs d !! i = Some o -> carries d e o;
  wr_names : NoDup outs.*1;
  wr_rest : forall name, name ∉ outs.*1 -> contents d !! name = f0 !! name;
  wr_inputs : inputs d = n
}.

(** What the files are in the end. *)
Definition written (outs : list (string * string)) (f0 : gmap string string) : gmap string string :=
  list_to_map outs ∪ f0.

(** ** Lemmas *)

Lemma written_one name t f0 : written [(name, t)] f0 = <[name := t]> f0.
Proof. unfold written. cbn. by rewrite insert_empty, <- insert_union_singleton_l. Qed.

#[local] Arguments String.append : simpl nomatch.

Lemma str_take_drop n s : str_take n s +:+ str_drop n s = s.
Proof. revert s. induction n as [|n IH]; intros [|c s]; [done..|]. cbn. f_equal. apply IH. Qed.

Lemma str_take_all s : str_take (String.length s) s = s.
Proof. induction s as [|c s IH]; cbn; by rewrite ?IH. Qed.

Lemma str_drop_all s : str_drop (String.length s) s = EmptyString.
Proof. by induction s. Qed.

Lemma str_drop_nil n : str_drop n EmptyString = EmptyString.
Proof. by destruct n. Qed.

Lemma write_at_end s t : write_at (String.length s) t s = s +:+ t.
Proof. induction s as [|c s IH]; cbn; [by rewrite str_drop_nil, str_app_nil|by rewrite IH]. Qed.

Lemma NoDup_fst_ne (outs : list (string * string)) i j e e' :
  NoDup outs.*1 -> outs !! i = Some e -> outs !! j = Some e' -> i <> j -> e.1 <> e'.1.
Proof.
  intros Hnd Hi Hj Hij He. apply Hij. eapply NoDup_lookup; [exact Hnd|..].
  - by rewrite list_lookup_fmap, Hi.
  - by rewrite list_lookup_fmap, Hj, He.
Qed.

Lemma writing_none f0 : writing f0 [] 0 (MkStdio f0 [] 0).
Proof. split; try done. constructor. Qed.

(** Sending changes nothing of what was printed. *)
Lemma send_writing n f f0 outs k d : writing f0 outs k d -> writing f0 outs k (send n f d).
Proof.
  intros [Hl Hs Hnd Hr Hk]. unfold send. destruct (outputs d !! f) as [o|] eqn:Ho; [|by split].
  destruct (str_take n (s_buf o)) as [|c t] eqn:Ht; [by split|]. rewrite <- Ht. clear c t Ht.
  destruct (lookup_lt_is_Some_2 outs f) as [e He]; [rewrite <- Hl; by eapply lookup_lt_Some|].
  destruct (Hs _ _ _ He Ho) as (Hn & sent & Hc & Hpos & Htext). rewrite Hn, Hc. cbn [default]. unfold id.
  rewrite Hpos, write_at_end. split; cbn -[String.append]; [by rewrite length_insert| |done| |done].
  - intros i e' o' Hi Ho'. destruct (decide (i = f)) as [->|Hne].
    + rewrite list_lookup_insert_eq in Ho' by (by eapply lookup_lt_Some). assert (e' = e) as -> by congruence.
      injection Ho' as <-. split; [done|]. cbn -[String.append]. exists (sent +:+ str_take n (s_buf o)).
      rewrite lookup_insert_eq, str_length_app, str_app_assoc, str_take_drop. done.
    + rewrite list_lookup_insert_ne in Ho' by done. destruct (Hs _ _ _ Hi Ho') as (Hn' & sent' & Hc' & H3).
      split; [done|]. exists sent'. cbn -[String.append].
      rewrite lookup_insert_ne; [done|]. eapply NoDup_fst_ne; done.
  - intros name Hname. rewrite lookup_insert_ne; [by apply Hr|].
    intros <-. apply Hname. apply list_elem_of_fmap. exists e. split; [done|]. by eapply list_elem_of_lookup_2.
Qed.

Lemma flush_writing f f0 outs k d : writing f0 outs k d -> writing f0 outs k (flush f d).
Proof. intros Hd. unfold flush. destruct (outputs d !! f); [by apply send_writing|done]. Qed.

(** A flushed stream has an empty buffer, and keeps it. *)
Lemma flush_empty f g d : (f = g \/ exists o, outputs d !! g = Some o /\ s_buf o = EmptyString) ->
  g < Datatypes.length (outputs d) ->
  exists o, outputs (flush f d) !! g = Some o /\ s_buf o = EmptyString.
Proof.
  intros Hfg Hg. unfold flush. destruct (outputs d !! f) as [o|] eqn:Ho.
  2: { destruct Hfg as [->|Hfg]; [|done]. apply lookup_lt_is_Some_2 in Hg as [o' Ho']. congruence. }
  unfold send. rewrite Ho, str_take_all.
  destruct (decide (f = g)) as [<-|Hne].
  - destruct (s_buf o) as [|c t] eqn:Hb; [by exists o|]. cbn [outputs].
    eexists. rewrite list_lookup_insert_eq by done. split; [done|]. cbn [s_buf]. by rewrite str_drop_all.
  - destruct Hfg as [?|Hfg]; [done|]. destruct (s_buf o); [done|]. cbn [outputs].
    by rewrite list_lookup_insert_ne.
Qed.

Lemma flush_len f d : Datatypes.length (outputs (flush f d)) = Datatypes.length (outputs d).
Proof.
  unfold flush, send. destruct (outputs d !! f) as [o|] eqn:Ho; [|done].
  destruct (str_take _ _); [done|]. apply length_insert.
Qed.

Lemma flush_all_spec l f0 outs k d : writing f0 outs k d ->
  let d' := foldl (fun d f => flush f d) d l in
  writing f0 outs k d' /\
  forall g, g < Datatypes.length outs ->
    (g ∈ l \/ exists o, outputs d !! g = Some o /\ s_buf o = EmptyString) ->
    exists o, outputs d' !! g = Some o /\ s_buf o = EmptyString.
Proof.
  revert d. induction l as [|f l IH]; intros d Hd; cbn.
  { split; [done|]. intros g _ [Hg|Hg]; [by apply not_elem_of_nil in Hg|done]. }
  destruct (IH (flush f d)) as [Hw He]; [by apply flush_writing|]. split; [done|].
  intros g Hg Hgl. apply He; [done|]. rewrite elem_of_cons in Hgl.
  assert (Hlt : g < Datatypes.length (outputs d)) by (by rewrite (wr_len _ _ _ _ Hd)).
  destruct Hgl as [[->|Hgl]|Hgl]; [right; apply flush_empty; auto|by left|right; apply flush_empty; auto].
Qed.

Section specs.
Context {sio : Stdio}.
Implicit Types (d : stdio).

Lemma fopen_w_spec name f0 outs k d : writing f0 outs k d -> name ∉ outs.*1 ->
  Datatypes.length outs + k < max_open ->
  wp (fopen_w name) d (fun r d' => r = Some (Datatypes.length outs) /\
    writing f0 (outs ++ [(name, EmptyString)]) k d').
Proof.
  intros [Hl Hs Hnd Hr Hk] Hname Hslot. eapply wp_done.
  { unfold fopen_w. rewrite decide_True; [done|]. unfold has_slot. lia. }
  rewrite Hl. split; [done|]. split; cbn -[String.append].
  - rewrite !length_app. cbn. lia.
  - intros i e o He Ho. apply lookup_snoc_Some in He, Ho. unfold carries. cbn -[String.append].
    destruct He as [[Hi He]|[Hi <-]], Ho as [[Hj Ho]|[Hj <-]]; try (exfalso; lia).
    + destruct (Hs _ _ _ He Ho) as (Hn & sent & Hc & Hrest). split; [done|]. exists sent.
      rewrite lookup_insert_ne; [done|]. intros ->. apply Hname. apply list_elem_of_fmap. exists e.
      split; [done|]. by eapply list_elem_of_lookup_2.
    + split; [done|]. exists EmptyString. by rewrite lookup_insert_eq.
  - rewrite fmap_app. apply NoDup_app. split; [done|]. split; [|repeat constructor; set_solver].
    cbn. set_solver.
  - intros n Hn. rewrite fmap_app in Hn. cbn in Hn. rewrite lookup_insert_ne by set_solver. apply Hr. set_solver.
  - done.
Qed.

Lemma fopen_r_spec name t f0 outs k d : writing f0 outs k d -> name ∉ outs.*1 -> f0 !! name = Some t ->
  Datatypes.length outs + k < max_open ->
  wp (fopen_r name) d (fun r d' => r = Some t /\ writing f0 outs (S k) d').
Proof.
  intros [Hl Hs Hnd Hr Hk] Hname Ht Hslot. eapply wp_done.
  { unfold fopen_r. rewrite decide_True by (unfold has_slot; lia). by rewrite Hr, Ht. }
  split; [done|]. split; try done. cbn. by rewrite Hk.
Qed.

Lemma fclose_r_spec f0 outs k d : writing f0 outs (S k) d -> wp fclose_r d (fun _ d' => writing f0 outs k d').
Proof.
  intros [Hl Hs Hnd Hr Hk]. eapply wp_done; [unfold fclose_r; by rewrite Hk|]. by split.
Qed.

(** [fprintf] to the stream that was opened last. *)
Lemma fprintf_spec name t u f0 outs k d : writing f0 (outs ++ [(name, t)]) k d ->
  wp (fprintf (Some (Datatypes.length outs)) u) d (fun _ d' => writing f0 (outs ++ [(name, t +:+ u)]) k d').
Proof.
  intros [Hl Hs Hnd Hr Hk]. apply wp_bind, wp_ret, wp_bind, wp_gets.
  destruct (lookup_lt_is_Some_2 (outputs d) (Datatypes.length outs)) as [o Ho].
  { rewrite Hl, length_app. cbn. lia. }
  apply wp_bind. eapply wp_derefs; [exact Ho|]. apply wp_bind, wp_modify, wp_modify, send_writing.
  split; cbn -[String.append]; [by rewrite length_insert, Hl, !length_app| |by rewrite fmap_app in Hnd |-*| |done].
  - intros i e o' He Ho'. apply lookup_snoc_Some in He as [[Hi He]|[-> <-]].
    + rewrite list_lookup_insert_ne in Ho' by lia.
      by apply (Hs i e o'); [rewrite lookup_app_l by done|].
    + rewrite list_lookup_insert_eq in Ho' by (by eapply lookup_lt_Some). injection Ho' as <-.
      destruct (Hs _ (name, t) o ltac:(by rewrite list_lookup_middle) Ho) as (Hn & sent & Hc & Hp & Ht).
      split; [done|]. exists sent. cbn -[String.append] in *. split; [done|]. split; [done|].
      by rewrite Ht, str_app_assoc.
  - intros n Hn. apply Hr. by rewrite fmap_app in Hn |-*.
Qed.

(** At exit every file holds what was printed to it. *)
Lemma exit_streams_spec f0 outs k d : writing f0 outs k d ->
  wp exit_streams d (fun _ d' => d' = MkStdio (written outs f0) [] 0).
Proof.
  intros Hd. apply wp_modify. rewrite (wr_len _ _ _ _ Hd).
  destruct (flush_all_spec (flush_order (Datatypes.length outs)) _ _ _ _ Hd) as [Hw He].
  set (d' := foldl _ d _) in *. f_equal. apply map_eq. intros name. unfold written.
  destruct (decide (name ∈ outs.*1)) as [Hin|Hin].
  - apply list_elem_of_fmap in Hin as ([n t] & -> & [i Hi]%list_elem_of_lookup). cbn.
    assert (Hlt : i < Datatypes.length outs) by (by eapply lookup_lt_Some).
    destruct (He i Hlt) as (o & Ho & Hb).
    { left. rewrite flush_order_perm. apply elem_of_seq. lia. }
    destruct (wr_streams _ _ _ _ Hw _ _ _ Hi Ho) as (_ & sent & Hc & _ & Ht). cbn in Hc, Ht.
    rewrite Hb, str_app_nil in Ht. subst t. rewrite Hc. symmetry. apply lookup_union_Some_l.
    apply elem_of_list_to_map; [apply Hw|by eapply list_elem_of_lookup_2].
  - rewrite (wr_rest _ _ _ _ Hw) by done. symmetry. apply lookup_union_r.
    by apply not_elem_of_list_to_map.
Qed.
End specs.

(** ** A library that sends only at exit, in the opposite order *)

Program Definition lazy_stdio : Stdio :=
  {| transmits _ := 0; max_open := 13; flush_order n := reverse (seq 0 n) |}.
Next Obligation. lia. Qed.
Next Obligation. intros n. apply reverse_Permutation. Qed.
