(* ===== verification/PtrArray.v ===== *)
(** * Arrays of pointers

    The variable length array [src] of the list sorts of [ex2.c] and of
    [lab5_dlist.c]: reading and writing a cell, and the array that holds the
    addresses of a list of items. *)
From S2P Require Import Prelude.

(** A cell that was not written yet is [None]; reading it is undefined. *)
Definition src_get (src : list (option nat)) (i : Z) : exec nat :=
  if decide (0 <= i)%Z then
    c ← deref OutOfBounds (src !! Z.to_nat i); deref Undefined c
  else Fault OutOfBounds.

Definition src_set (src : list (option nat)) (i : Z) (p : nat) : exec (list (option nat)) :=
  if decide (0 <= i < Z.of_nat (length src))%Z then Done (<[Z.to_nat i := Some p]> src)
  else Fault OutOfBounds.

Section arr.
Context {A : Type} (ad : A -> nat).

Definition arr (l : list A) : list (option nat) := (fun x => Some (ad x)) <$> l.

Lemma src_get_arr l1 x l2 i : i = Z.of_nat (length l1) -> src_get (arr (l1 ++ x :: l2)) i = Done (ad x).
Proof.
  intros ->. unfold src_get, arr. rewrite decide_True by lia. rewrite Nat2Z.id, list_lookup_fmap.
  by rewrite list_lookup_middle.
Qed.

Lemma src_set_arr l1 y l2 x i : i = Z.of_nat (length l1) ->
  src_set (arr (l1 ++ y :: l2)) i (ad x) = Done (arr (l1 ++ x :: l2)).
Proof.
  intros ->. unfold src_set, arr. rewrite length_fmap, length_app. cbn [length].
  rewrite decide_True by lia. rewrite Nat2Z.id. rewrite !fmap_app, !fmap_cons.
  by rewrite insert_app_r_alt, length_fmap, Nat.sub_diag by (rewrite length_fmap; lia).
Qed.

(** The next cell of an array that is being filled. *)
Lemma src_set_next l c rest x : src_set (arr l ++ c :: rest) (Z.of_nat (length l)) (ad x) = Done (arr (l ++ [x]) ++ rest).
Proof.
  unfold src_set, arr. rewrite length_app, length_fmap. cbn [length]. rewrite decide_True by lia.
  rewrite Nat2Z.id, insert_app_r_alt by (rewrite length_fmap; lia).
  by rewrite length_fmap, Nat.sub_diag, fmap_app, <- app_assoc.
Qed.
End arr.
