(* ===== verification/SortList.v ===== *)
(** * The list sorting program of [Homework/h3/ex2.c]

    A singly linked list of key/value nodes, read from a file of [key=value]
    lines, sorted by a comparator chosen from a table, printed to another file
    and freed.  The programs of Labs 5 and 6 hold the same functions again
    ([UiMenu], [PluginApi]).

    The heap maps an address to what was allocated there: a node, an [int], a
    [double] or a buffer of characters.  Addresses are never NULL, and an
    allocation succeeds.  [rand], [atof] and the conversion [%lf] are
    parameters.  The file that [print] writes stays open: it has its contents for
    certain when the program has ended ([run_to_exit]). *)
From S2P Require Import Prelude StateM CString.
From S2P Require Export Stdio.
From S2P Require Export PtrArray.
From Stdlib Require Import SpecFloat.

(** ** Data *)

Definition SORT_RAND : Z := 0.
Definition SORT_INC : Z := 1.
Definition SORT_DEC : Z := 2.
Definition SORT_NULL : Z := -1.

Definition DATA_CHAR : Z := 0.
Definition DATA_INT : Z := 1.
Definition DATA_DOUBLE : Z := 2.
Definition DATA_NULL : Z := -1.

Definition DELIM : string := "_.".
Definition MAX_STR : nat := 1024.

Record type_ := MkType { sortType : Z; dataType : Z }.

(** The pointers of a node: its two buffers and its successor (NULL is [None]). *)
Record Node := MkNode { key : nat; data : nat; next : option nat }.
Definition set_next (p : option nat) (n : Node) : Node := MkNode (key n) (data n) p.

Record List := MkList { head : option nat; length : Z }.

Inductive cell :=
| CNode (n : Node)
| CInt (z : Z)
| CDouble (d : spec_float)
| CChars (s : string).

(** The memory of the process, the next free address, how often [rand] was
    called, and the files with the open streams. *)
Record proc := MkProc {
  heap : gmap nat cell;
  brk : nat;
  draws : nat;
  io : stdio
}.
Definition files (s : proc) : gmap string string := contents (io s).
Definition set_heap (h : gmap nat cell) (s : proc) : proc := MkProc h (brk s) (draws s) (io s).
Definition set_io (d : stdio) (s : proc) : proc := MkProc (heap s) (brk s) (draws s) d.

(** ** Memory *)

(** [malloc] and the store that initialises the new object. *)
Definition alloc (c : cell) : ST proc nat := fun s =>
  Done (brk s, MkProc (<[brk s := c]> (heap s)) (S (brk s)) (draws s) (io s)).

Definition free (p : nat) : ST proc unit := fun s =>
  match heap s !! p with
  | Some _ => Done (tt, set_heap (delete p (heap s)) s)
  | None => Fault Undefined
  end.

(** An access to memory that was freed, or through a pointer of another type, is
    undefined. *)
Definition load {A} (view : cell -> option A) (p : nat) : ST proc A := fun s =>
  match heap s !! p ≫= view with
  | Some a => Done (a, s)
  | None => Fault Undefined
  end.
Definition as_node (c : cell) : option Node := match c with CNode n => Some n | _ => None end.
Definition as_int (c : cell) : option Z := match c with CInt z => Some z | _ => None end.
Definition as_double (c : cell) : option spec_float := match c with CDouble d => Some d | _ => None end.
Definition as_chars (c : cell) : option string := match c with CChars t => Some t | _ => None end.

Definition store_next (p : nat) (q : option nat) : ST proc unit :=
  n ← load as_node p;
  modify (fun s => set_heap (<[p := CNode (set_next q n)]> (heap s)) s).

(** [strcpy], or the store of a character, to a buffer. *)
Definition store_chars (p : nat) (t : string) : ST proc unit :=
  _ ← load as_chars p;
  modify (fun s => set_heap (<[p := CChars t]> (heap s)) s).

Definition in_io {A} (m : ST stdio A) : ST proc A := fun s =>
  '(a, d) ← m (io s); Done (a, set_io d s).

(** A walk along a list visits each node of the heap once at most. *)
Definition walk_fuel : ST proc nat := gets (fun s => S (size (heap s))).

(** ** The list *)

Definition listConstructor : List := MkList None 0.

Fixpoint last_node (fuel : nat) (p : nat) : ST proc nat :=
  match fuel with
  | O => raise OutOfFuel
  | S fuel =>
      n ← load as_node p;
      match next n with
      | Some q => last_node fuel q
      | None => mret p
      end
  end.

Definition listAdd (list : List) (node : nat) : ST proc List :=
  h ← match head list with
      | None => mret (Some node)
      | Some h =>
          fuel ← walk_fuel;
          p ← last_node fuel h;
          _ ← store_next p (Some node);
          mret (Some h)
      end;
  n ← lift (int_expr (length list + 1));
  mret (MkList h n).

Definition insert (list : List) (k d : nat) : ST proc List :=
  node ← alloc (CNode (MkNode k d None));
  listAdd list node.

Fixpoint search_from (fuel : nat) (k : string) (p : option nat) : ST proc (option nat) :=
  match p with
  | None => mret None
  | Some p =>
      match fuel with
      | O => raise OutOfFuel
      | S fuel =>
          n ← load as_node p;
          nk ← load as_chars (key n);
          if decide (strcmp k nk = 0)%Z then mret (Some (data n))
          else search_from fuel k (next n)
      end
  end.

Definition listSearch (list : List) (k : string) : ST proc (option nat) :=
  if decide (length list = 0)%Z then mret None
  else fuel ← walk_fuel; search_from fuel k (head list).

Fixpoint free_from (fuel : nat) (p : option nat) : ST proc unit :=
  match p with
  | None => mret tt
  | Some p =>
      match fuel with
      | O => raise OutOfFuel
      | S fuel =>
          n ← load as_node p;
          _ ← free (key n);
          _ ← free (data n);
          n ← load as_node p;
          _ ← free p;
          free_from fuel (next n)
      end
  end.

Definition listDestructor (list : List) : ST proc unit :=
  if decide (length list = 0)%Z then mret tt
  else fuel ← walk_fuel; free_from fuel (head list).

(** ** Comparators *)

(** [double] arithmetic, and the conversion of a [double] to [int] that the
    [return] of [double_inc] makes: the fraction is dropped, and a value outside
    [int] is undefined. *)
Definition double_sub : spec_float -> spec_float -> spec_float := SFsub 53 1024.

Definition truncate (d : spec_float) : option Z :=
  match d with
  | S754_zero _ => Some 0%Z
  | S754_finite s m e => Some (if s then - Z.shiftl (Z.pos m) e else Z.shiftl (Z.pos m) e)%Z
  | _ => None
  end.

Definition int_of_double (d : spec_float) : exec Z :=
  z ← deref Undefined (truncate d); int_expr z.

Definition comparator : Type := nat -> nat -> ST proc Z.

(** The [data] a node points to, read as a type. *)
Definition data_as {A} (view : cell -> option A) (p : nat) : ST proc A :=
  n ← load as_node p; load view (data n).

Definition int_inc : comparator := fun a b =>
  x ← data_as as_int a; y ← data_as as_int b; lift (int_expr (x - y)).
Definition int_dec : comparator := fun a b =>
  y ← data_as as_int b; x ← data_as as_int a; lift (int_expr (y - x)).
Definition double_inc : comparator := fun a b =>
  x ← data_as as_double a; y ← data_as as_double b; lift (int_of_double (double_sub x y)).
Definition double_dec : comparator := fun a b =>
  y ← data_as as_double b; x ← data_as as_double a; lift (int_of_double (double_sub y x)).
Definition char_inc : comparator := fun a b =>
  x ← data_as as_chars a; y ← data_as as_chars b; mret (strcmp x y).
Definition char_dec : comparator := fun a b =>
  y ← data_as as_chars b; x ← data_as as_chars a; mret (strcmp y x).

(** ** Sorting *)

Fixpoint fill_src (fuel : nat) (src : list (option nat)) (index : Z) (p : option nat)
    : ST proc (list (option nat)) :=
  match p with
  | None => mret src
  | Some p =>
      match fuel with
      | O => raise OutOfFuel
      | S fuel =>
          src ← lift (src_set src index p);
          n ← load as_node p;
          fill_src fuel src (index + 1) (next n)
      end
  end.

(** The inner [while] loop: [n] bounds its passes, [j + 1] of them are left. *)
Fixpoint shift_greater (n : nat) (cmp : comparator) (src : list (option nat)) (j : Z) (flag : nat)
    : ST proc (list (option nat) * Z) :=
  if decide (0 <= j)%Z then
    match n with
    | O => raise OutOfFuel
    | S n =>
        p ← lift (src_get src j);
        c ← cmp p flag;
        if decide (0 <= c)%Z then
          p ← lift (src_get src j);
          src ← lift (src_set src (j + 1) p);
          shift_greater n cmp src (j - 1) flag
        else mret (src, j)
    end
  else mret (src, j).

Definition insert_one (cmp : comparator) (src : list (option nat)) (i : Z) : ST proc (list (option nat)) :=
  flag ← lift (src_get src i);
  '(src, j) ← shift_greater (Z.to_nat i) cmp src (i - 1) flag;
  lift (src_set src (j + 1) flag).

(** [for (i = 1; i < length; i++)]: [n] passes are left. *)
Fixpoint insert_all (n : nat) (cmp : comparator) (src : list (option nat)) (i : Z)
    : ST proc (list (option nat)) :=
  match n with
  | O => mret src
  | S n => src ← insert_one cmp src i; insert_all n cmp src (i + 1)
  end.

(** [for (i = 0; i < length - 1; i++) src[i]->next = src[i+1]]. *)
Fixpoint relink (n : nat) (src : list (option nat)) (i : Z) : ST proc unit :=
  match n with
  | O => mret tt
  | S n =>
      p ← lift (src_get src i);
      q ← lift (src_get src (i + 1));
      _ ← store_next p (Some q);
      relink n src (i + 1)
  end.

Section program.
Context {sio : Stdio} (rand : nat -> Z) (atof : string -> spec_float) (fmt_lf : spec_float -> string).

(** The two assertions of [rnd] hold of every address. *)
Definition rnd : comparator := fun a b s =>
  Done (Z.rem (rand (draws s)) 2 * 2 - 1, MkProc (heap s) (brk s) (S (draws s)) (io s))%Z.

Definition cmp : list (list comparator) :=
  [[rnd; char_inc; char_dec];
   [rnd; int_inc; int_dec];
   [rnd; double_inc; double_dec]].

Definition cmp_at (type : type_) : exec comparator :=
  if decide (0 <= dataType type /\ 0 <= sortType type)%Z then
    row ← deref OutOfBounds (cmp !! Z.to_nat (dataType type));
    deref OutOfBounds (row !! Z.to_nat (sortType type))
  else Fault OutOfBounds.

Definition compare (type : type_) : comparator := fun a b => c ← lift (cmp_at type); c a b.

Definition sort (type : type_) (list : List) : ST proc List :=
  if decide (length list = 0)%Z then mret list
  else
    let n := Z.to_nat (length list) in
    fuel ← walk_fuel;
    src ← fill_src fuel (replicate n None) 0 (head list);
    src ← insert_all (n - 1) (compare type) src 1;
    h ← lift (src_get src 0);
    _ ← relink (n - 1) src 0;
    l ← lift (src_get src (length list - 1));
    _ ← store_next l None;
    mret (MkList (Some h) (length list)).

(** ** Files *)

Definition out_name (type : type_) : string :=
  (if decide (sortType type = SORT_INC) then "inc_"
   else if decide (sortType type = SORT_DEC) then "dec_"
   else "rand_") +:+
  (if decide (dataType type = DATA_INT) then "int.txt"
   else if decide (dataType type = DATA_DOUBLE) then "double.txt"
   else "char.txt").

Definition print_data (type : type_) (d : nat) : ST proc string :=
  if decide (dataType type = DATA_INT) then z ← load as_int d; mret (fmt_d z)
  else if decide (dataType type = DATA_DOUBLE) then x ← load as_double d; mret (fmt_lf x)
  else load as_chars d.

Fixpoint print_from (fuel : nat) (type : type_) (fout p : option nat) : ST proc unit :=
  match p with
  | None => mret tt
  | Some p =>
      match fuel with
      | O => raise OutOfFuel
      | S fuel =>
          n ← load as_node p;
          k ← load as_chars (key n);
          v ← print_data type (data n);
          _ ← in_io (fprintf fout (k +:+ "=" +:+ v +:+ line_end));
          print_from fuel type fout (next n)
      end
  end.

(** [fout] is never closed. *)
Definition print (type : type_) (list : List) : ST proc unit :=
  fout ← in_io (fopen_w (out_name type));
  if decide (length list = 0)%Z then mret tt
  else fuel ← walk_fuel; print_from fuel type fout (head list).

(** ** The program *)

Definition read_data (type : type_) (t : string) : ST proc nat :=
  if decide (dataType type = DATA_INT) then z ← lift (atoi t); alloc (CInt z)
  else if decide (dataType type = DATA_DOUBLE) then alloc (CDouble (atof t))
  else alloc (CChars t).

(** One pass of the reading loop, for the line that [fgets] left in [raw]. *)
Definition read_line (type : type_) (list : List) (raw : string) : ST proc List :=
  let '(tmpKey, rest) := strtok "=" (cstr raw) in
  let '(tmpData, _) := strtok (" " +:+ line_end) rest in
  t ← derefs NullDeref tmpData;
  d ← read_data type t;
  k ← derefs NullDeref tmpKey;
  k ← alloc (CChars k);
  insert list k d.

Fixpoint read_lines (fuel : nat) (type : type_) (list : List) (fin : string) : ST proc List :=
  match fuel with
  | O => raise OutOfFuel
  | S fuel =>
      match fgets MAX_STR fin with
      | None => mret list
      | Some (raw, fin) => list ← read_line type list raw; read_lines fuel type list fin
      end
  end.

Definition driver (type : type_) (argv1 : string) : ST proc unit :=
  raw ← alloc (CChars EmptyString);
  f ← in_io (fopen_r argv1);
  fin ← derefs NullDeref f;
  list ← read_lines (S (String.length fin)) type listConstructor fin;
  _ ← free raw;
  list ← sort type list;
  _ ← print type list;
  _ ← listDestructor list;
  in_io fclose_r.

Definition getType (argv1 argv2 : string) : exec type_ :=
  if decide (String.length argv1 < MAX_STR) then
    let '(_, rest) := strtok DELIM argv1 in
    token ← deref NullDeref (strtok DELIM rest).1;
    let dataType :=
      if decide (strcmp token "int" = 0)%Z then DATA_INT
      else if decide (strcmp token "char" = 0)%Z then DATA_CHAR
      else if decide (strcmp token "double" = 0)%Z then DATA_DOUBLE
      else DATA_NULL in
    let sortType :=
      if decide (strcmp argv2 "rand" = 0)%Z then SORT_RAND
      else if decide (strcmp argv2 "inc" = 0)%Z then SORT_INC
      else if decide (strcmp argv2 "dec" = 0)%Z then SORT_DEC
      else SORT_NULL in
    _ ← assertC (dataType <> DATA_NULL /\ sortType <> SORT_NULL);
    mret (MkType sortType dataType)
  else Fault OutOfBounds.

Definition main (argv : list string) : ST proc Z :=
  match argv with
  | [_; argv1; argv2] =>
      type ← lift (getType argv1 argv2);
      _ ← driver type argv1;
      mret 0%Z
  | _ => mret (-1)%Z
  end.
End program.

(** A program, and what the library does when it ends: the streams are flushed. *)
Definition run_to_exit `{Stdio} {A} (main : ST proc A) : ST proc A :=
  r ← main;
  _ ← in_io exit_streams;
  mret r.
