(* ===== verification/SortListInv.v ===== *)
(** * The linked list of [ex2.c]: what a list holds, and its operations

    [holds F s L items]: in the memory of [s], [L] is the chain of [items],
    each with a key buffer and a data cell of its own, and the rest of the memory
    is [F].  The operations are proved against it, the last one being that
    [listDestructor] leaves [F]. *)
From S2P Require Import Prelude StateM CString SortList.
From Stdlib Require Import SpecFloat.

(** ** Items and chains *)

(** A node with the addresses of its three allocations and their contents. *)
Record item := MkItem { ad : nat; kad : nat; dad : nat; ikey : string; ival : cell }.

Definition addrs (l : list item) : list nat := l ≫= fun i => [ad i; kad i; dad i].

(** The item [i] is in the heap, and its successor is [q]. *)
Definition node_at (h : gmap nat cell) (i : item) (q : option nat) : Prop :=
  h !! ad i = Some (CNode (MkNode (kad i) (dad i) q)) /\
  h !! kad i = Some (CChars (ikey i)) /\ h !! dad i = Some (ival i).

(** The segment of a list from [p] to [q]. *)
Fixpoint seg (h : gmap nat cell) (p : option nat) (l : list item) (q : option nat) : Prop :=
  match l with
  | [] => p = q
  | i :: l => p = Some (ad i) /\ exists r, node_at h i r /\ seg h r l q
  end.

Record holds (F : gmap nat cell) (s : proc) (L : List) (items : list item) : Prop := {
  h_seg : seg (heap s) (head L) items None;
  h_len : length L = Z.of_nat (Datatypes.length items);
  h_nodup : NoDup (addrs items);
  h_rest : forall a, a ∉ addrs items -> heap s !! a = F !! a;
  h_own : forall a, a ∈ addrs items -> F !! a = None;
  h_brk : forall a, brk s <= a -> heap s !! a = None
}.

Lemma addrs_app l1 l2 : addrs (l1 ++ l2) = addrs l1 ++ addrs l2.
Proof. apply bind_app. Qed.

Lemma elem_of_addrs a l : a ∈ addrs l <-> exists i, i ∈ l /\ (a = ad i \/ a = kad i \/ a = dad i).
Proof. unfold addrs. rewrite list_elem_of_bind. set_solver. Qed.

#[export] Instance addrs_perm : Proper ((≡ₚ) ==> (≡ₚ)) addrs.
Proof. intros l1 l2 Hl. unfold addrs. by rewrite Hl. Qed.

Lemma seg_app h p l1 l2 q : seg h p (l1 ++ l2) q <-> exists r, seg h p l1 r /\ seg h r l2 q.
Proof.
  revert p. induction l1 as [|i l1 IH]; intros p; cbn; [naive_solver|].
  setoid_rewrite IH. naive_solver.
Qed.

Lemma seg_snoc h p l i q : seg h p (l ++ [i]) q <-> seg h p l (Some (ad i)) /\ node_at h i q.
Proof.
  rewrite seg_app. cbn. split.
  - intros (r & Hl & -> & r' & Hn & <-). done.
  - intros [Hl Hn]. exists (Some (ad i)). eauto.
Qed.

Lemma seg_frame h h' p l q : (forall a, a ∈ addrs l -> h' !! a = h !! a) -> seg h p l q -> seg h' p l q.
Proof.
  revert p. induction l as [|i l IH]; intros p Hh; cbn; [done|].
  intros (-> & r & (H1 & H2 & H3) & Hl). split; [done|]. exists r. split.
  - unfold node_at. rewrite !Hh; [done|..]; set_solver.
  - apply IH; [|done]. intros a Ha. apply Hh. set_solver.
Qed.

Lemma seg_insert h a c p l q : a ∉ addrs l -> seg h p l q -> seg (<[a := c]> h) p l q.
Proof.
  intros Ha. apply seg_frame. intros b Hb. apply lookup_insert_ne. set_solver.
Qed.

Lemma seg_nodes h p l q : seg h p l q -> Forall (fun i => exists r, node_at h i r) l.
Proof. revert p. induction l as [|i l IH]; intros p; cbn; [done|]. naive_solver. Qed.

Lemma addrs_ads l : (ad <$> l) ⊆ addrs l.
Proof. intros a (i & -> & Hi)%list_elem_of_fmap. apply elem_of_addrs. eauto. Qed.

Lemma addrs_cons_NoDup i l : NoDup (addrs (i :: l)) <->
  NoDup [ad i; kad i; dad i] /\ (forall a, a ∈ [ad i; kad i; dad i] -> a ∉ addrs l) /\ NoDup (addrs l).
Proof. apply (NoDup_app [_; _; _]). Qed.

Lemma addrs_NoDup_ads l : NoDup (addrs l) -> NoDup (ad <$> l).
Proof.
  induction l as [|i l IH]; [constructor|]. intros (_ & Hi & Hl)%addrs_cons_NoDup. cbn.
  constructor; [|by apply IH]. intros Ha%addrs_ads. apply (Hi (ad i)); [set_solver|done].
Qed.

(** The fuel of a walk is more than the items of the chain. *)
Lemma seg_size h p l q : seg h p l q -> NoDup (addrs l) -> Datatypes.length l <= size h.
Proof.
  intros Hs%seg_nodes Hl%addrs_NoDup_ads. rewrite Forall_forall in Hs.
  rewrite <- size_dom, <- (length_fmap ad), <- (size_list_to_set (C := gset nat)) by done.
  apply subseteq_size. intros a (i & -> & Hi)%elem_of_list_to_set%list_elem_of_fmap.
  destruct (Hs i Hi) as (r & Hn & _). by eapply elem_of_dom_2.
Qed.

(** ** Memory *)

(** The addresses that [malloc] has not given out hold nothing. *)
Definition fresh (s : proc) : Prop := forall a, brk s <= a -> heap s !! a = None.

Section wp.
Implicit Types (s : proc).

Lemma wp_alloc c s (Q : nat -> proc -> Prop) :
  Q (brk s) (MkProc (<[brk s := c]> (heap s)) (S (brk s)) (draws s) (io s)) -> wp (alloc c) s Q.
Proof. by apply wp_done. Qed.

Lemma wp_load {A} (view : cell -> option A) p c a s (Q : A -> proc -> Prop) :
  heap s !! p = Some c -> view c = Some a -> Q a s -> wp (load view p) s Q.
Proof. intros Hp Hv. apply wp_done. unfold load. by rewrite Hp; cbn; rewrite Hv. Qed.

Lemma wp_free p c s (Q : unit -> proc -> Prop) :
  heap s !! p = Some c -> Q tt (set_heap (delete p (heap s)) s) -> wp (free p) s Q.
Proof. intros Hp. apply wp_done. unfold free. by rewrite Hp. Qed.

Lemma wp_store_next p n q s (Q : unit -> proc -> Prop) :
  heap s !! p = Some (CNode n) ->
  Q tt (set_heap (<[p := CNode (set_next q n)]> (heap s)) s) -> wp (store_next p q) s Q.
Proof.
  intros Hp HQ. apply wp_bind. eapply wp_load; [done..|]. by apply wp_modify.
Qed.

Lemma wp_store_chars p t u s (Q : unit -> proc -> Prop) : heap s !! p = Some (CChars t) ->
  Q tt (set_heap (<[p := CChars u]> (heap s)) s) -> wp (store_chars p u) s Q.
Proof. intros Hp HQ. apply wp_bind. eapply wp_load; [done..|]. by apply wp_modify. Qed.

Lemma wp_in_io {A} (m : ST stdio A) s (Q : A -> proc -> Prop) :
  wp m (io s) (fun a d => Q a (set_io d s)) -> wp (in_io m) s Q.
Proof.
  intros ([a d] & Hm & HQ). exists (a, set_io d s). split; [|done].
  unfold in_io. by rewrite Hm.
Qed.

Lemma wp_walk_fuel s (Q : nat -> proc -> Prop) : Q (S (size (heap s))) s -> wp walk_fuel s Q.
Proof. apply (wp_gets (fun s => S (size (heap s)))). Qed.

(** ** Appending *)

Lemma last_node_spec fuel p l i s : seg (heap s) (Some p) (l ++ [i]) None -> Datatypes.length l < fuel ->
  wp (last_node fuel p) s (fun r s' => r = ad i /\ s' = s).
Proof.
  revert p fuel. induction l as [|j l IH]; intros p [|fuel] Hs Hf; cbn in Hf; try lia;
    destruct Hs as (Hp & r & Hn & Hl); injection Hp as ->; apply wp_bind;
    (eapply wp_load; [apply Hn|done|]); cbn.
  - cbn in Hl. subst r. by apply wp_ret.
  - destruct r as [r|]; [|by destruct l; cbn in Hl; destruct Hl as [? _]].
    apply IH; [done|lia].
Qed.

(** A node that is stored behind the last one. *)
Lemma seg_link h p l i j : NoDup (addrs (l ++ [i])) ->
  seg h p (l ++ [i]) None -> node_at h j None -> ad i ∉ [ad j; kad j; dad j] ->
  seg (<[ad i := CNode (MkNode (kad i) (dad i) (Some (ad j)))]> h) p ((l ++ [i]) ++ [j]) None.
Proof.
  rewrite addrs_app. intros (Hl & Hi & Hni)%NoDup_app [Hs Hn]%seg_snoc Hj Hij.
  apply addrs_cons_NoDup in Hni as (Hni & _ & _).
  rewrite !seg_snoc. split; [split|].
  - apply seg_insert; [|done]. intros Ha. apply (Hi _ Ha). set_solver.
  - destruct Hn as (H1 & H2 & H3). unfold node_at.
    rewrite lookup_insert_eq, !lookup_insert_ne; [done|..];
      intros He; rewrite He in Hni; inversion_clear Hni; set_solver.
  - unfold node_at. rewrite !lookup_insert_ne by set_solver. apply Hj.
Qed.

Lemma holds_lt F s L items : holds F s L items ->
  (forall b, is_Some (heap s !! b) -> b < brk s) /\ (forall a, a ∈ addrs items -> a < brk s).
Proof.
  intros [Hseg%seg_nodes _ _ _ _ Hbrk].
  assert (Hlt : forall b, is_Some (heap s !! b) -> b < brk s).
  { intros b [c Hb]. destruct (decide (b < brk s)); [done|]. rewrite Hbrk in Hb by lia. done. }
  split; [done|]. intros a (i & Hi & Hai)%elem_of_addrs. apply Hlt.
  rewrite Forall_forall in Hseg. destruct (Hseg i Hi) as (r & H1 & H2 & H3).
  destruct Hai as [->|[->| ->]]; eauto.
Qed.

(** A new last item, made of a fresh node and of two cells of the rest. *)
Lemma holds_snoc F s L items k t d v h p n :
  holds F s L items -> k <> d -> F !! k = Some (CChars t) -> F !! d = Some v ->
  let j := MkItem (brk s) k d t v in
  seg h p (items ++ [j]) None -> (forall a, a ∉ addrs (items ++ [j]) -> h !! a = heap s !! a) ->
  n = (length L + 1)%Z ->
  holds (delete k (delete d F)) (MkProc h (S (brk s)) (draws s) (io s)) (MkList p n) (items ++ [j]).
Proof.
  intros HL Hkd Hk Hd j Hseg Hh ->. destruct (holds_lt _ _ _ _ HL) as [Hlt Hlta].
  destruct HL as [_ Hlen Hnd Hrest Hown Hbrk].
  assert (Hkl : k ∉ addrs items) by (intros Hx%Hown; congruence).
  assert (Hdl : d ∉ addrs items) by (intros Hx%Hown; congruence).
  assert (Hkb : k < brk s) by (apply Hlt; rewrite Hrest by done; eauto).
  assert (Hdb : d < brk s) by (apply Hlt; rewrite Hrest by done; eauto).
  assert (Hbi : brk s ∉ addrs items) by (intros Hx%Hlta; lia).
  assert (HFb : F !! brk s = None) by (rewrite <- Hrest by done; by apply Hbrk).
  assert (Hj : addrs (items ++ [j]) = addrs items ++ [brk s; k; d]) by (by rewrite addrs_app).
  assert (Hin : forall a, a ∈ addrs (items ++ [j]) <-> a ∈ addrs items \/ a = brk s \/ a = k \/ a = d)
    by (intros a; rewrite Hj; set_solver).
  split; cbn -[addrs]; [done|..].
  - rewrite length_app, Hlen. cbn. lia.
  - rewrite Hj. apply NoDup_app. split; [done|]. split; [set_solver|].
    repeat constructor; rewrite ?elem_of_cons, ?elem_of_nil; lia.
  - intros a Ha. rewrite Hh by done. rewrite Hin in Ha. rewrite !lookup_delete_ne by naive_solver.
    apply Hrest. naive_solver.
  - intros a [Ha%Hown|[->|[->| ->]]]%Hin; apply lookup_delete_None; rewrite lookup_delete_None; auto.
  - intros a Ha. rewrite Hh; [apply Hbrk; lia|]. rewrite Hin.
    intros [Ha'%Hlta|Ha']; lia.
Qed.

(** [insert] takes the two buffers [k] and [d] over from the rest of the memory. *)
Lemma insert_spec F s L items k t d v :
  holds F s L items -> k <> d -> F !! k = Some (CChars t) -> F !! d = Some v ->
  (length L < INT_MAX)%Z ->
  wp (insert L k d) s (fun L' s' => exists a,
    holds (delete k (delete d F)) s' L' (items ++ [MkItem a k d t v]) /\
    io s' = io s /\ draws s' = draws s).
Proof.
  intros HL Hkd Hk Hd Hn. unfold insert. apply wp_bind, wp_alloc.
  set (j := MkItem (brk s) k d t v). destruct (holds_lt _ _ _ _ HL) as [Hlt Hlta].
  assert (Hkl : k ∉ addrs items) by (intros Hx%(h_own _ _ _ _ HL); congruence).
  assert (Hdl : d ∉ addrs items) by (intros Hx%(h_own _ _ _ _ HL); congruence).
  assert (Hkh := Hk). rewrite <- (h_rest _ _ _ _ HL k Hkl) in Hkh.
  assert (Hdh := Hd). rewrite <- (h_rest _ _ _ _ HL d Hdl) in Hdh.
  assert (Hkb : k < brk s) by eauto. assert (Hdb : d < brk s) by eauto.
  set (h := <[brk s := CNode (MkNode k d None)]> (heap s)).
  assert (Hj : node_at h j None).
  { unfold node_at, h. cbn. by rewrite lookup_insert_eq, !lookup_insert_ne by lia. }
  assert (Hseg : seg h (head L) items None).
  { apply seg_insert; [|apply HL]. intros Hx%Hlta. lia. }
  assert (Hlen : (0 <= length L)%Z) by (rewrite (h_len _ _ _ _ HL); lia).
  assert (Hint : int_expr (length L + 1) = Done (length L + 1)%Z).
  { apply int_expr_done. unfold INT_MIN. lia. }
  unfold listAdd. apply wp_bind.
  destruct items as [|i items _] using rev_ind.
  - cbn in Hseg. rewrite Hseg. apply wp_ret, wp_bind. eapply wp_lift; [done|].
    apply wp_ret. exists (brk s). split; [|done]. apply (holds_snoc F s L []); try done.
    + cbn. split; [done|]. by exists None.
    + intros a Ha. cbn in Ha. apply lookup_insert_ne. set_solver.
  - destruct (head L) as [p|] eqn:Hh; [|by destruct items; cbn in Hseg; destruct Hseg].
    apply wp_bind, wp_walk_fuel, wp_bind. eapply wp_mono.
    { apply (last_node_spec _ _ items i); [exact Hseg|]. cbn [heap].
      apply seg_size in Hseg; [|apply HL]. rewrite length_app in Hseg. cbn in Hseg |- *. fold h. lia. }
    intros a s' [-> ->]. assert (Hs2 := Hseg). apply seg_snoc in Hs2 as [_ Hi].
    apply wp_bind. eapply wp_store_next; [apply Hi|]. cbn. apply wp_ret, wp_bind. eapply wp_lift; [done|].
    apply wp_ret. exists (brk s). split; [|done]. apply (holds_snoc F s L (items ++ [i])); try done.
    + apply (seg_link _ _ _ _ j); [apply HL|done..|].
      assert (ad i < brk s) by (apply Hlta, elem_of_addrs; set_solver).
      cbn. rewrite !elem_of_cons, elem_of_nil. intros [?|[Hx|[Hx|[]]]]; [lia|..].
      * apply Hkl. rewrite <- Hx. apply elem_of_addrs. set_solver.
      * apply Hdl. rewrite <- Hx. apply elem_of_addrs. set_solver.
    + intros a Ha. unfold h. rewrite !lookup_insert_ne; [done|..]; intros <-; apply Ha, elem_of_addrs; set_solver.
Qed.

(** ** Searching and freeing *)

Lemma search_from_spec fuel k p l s : seg (heap s) p l None -> Datatypes.length l <= fuel ->
  wp (search_from fuel k p) s (fun r s' =>
    r = dad <$> list.head (filter (fun i => ikey i = k) l) /\ s' = s).
Proof.
  revert p fuel. induction l as [|i l IH]; intros p fuel Hs Hf; cbn in Hs.
  { subst p. destruct fuel; by apply wp_ret. }
  destruct Hs as (-> & r & (H1 & H2 & H3) & Hl). destruct fuel as [|fuel]; cbn in Hf; [lia|].
  apply wp_bind. eapply wp_load; [done..|]. apply wp_bind. eapply wp_load; [done..|].
  case_decide as Hk; rewrite strcmp_eq in Hk.
  - apply wp_ret. by rewrite filter_cons_True.
  - rewrite filter_cons_False by congruence. apply IH; [done|lia].
Qed.

(** [listSearch] finds the data of the first node with the key. *)
Lemma listSearch_spec F s L items k : holds F s L items ->
  wp (listSearch L k) s (fun r s' =>
    r = dad <$> list.head (filter (fun i => ikey i = k) items) /\ s' = s).
Proof.
  intros HL. unfold listSearch. rewrite (h_len _ _ _ _ HL). case_decide as Hn.
  - destruct items; [|cbn in Hn; lia]. by apply wp_ret.
  - apply wp_bind, wp_walk_fuel, search_from_spec; [apply HL|].
    pose proof (seg_size _ _ _ _ (h_seg _ _ _ _ HL) (h_nodup _ _ _ _ HL)). lia.
Qed.

Lemma free_from_spec F fuel p l s : seg (heap s) p l None -> NoDup (addrs l) ->
  (forall a, a ∉ addrs l -> heap s !! a = F !! a) -> (forall a, a ∈ addrs l -> F !! a = None) ->
  Datatypes.length l <= fuel ->
  wp (free_from fuel p) s (fun _ s' => heap s' = F /\ io s' = io s /\ brk s' = brk s).
Proof.
  revert p fuel s. induction l as [|i l IH]; intros p fuel s Hs Hnd Hrest Hown Hf; cbn in Hs.
  { subst p. assert (heap s = F) by (apply map_eq; intros a; apply Hrest; set_solver).
    destruct fuel; by apply wp_ret. }
  destruct Hs as (-> & r & (H1 & H2 & H3) & Hl). destruct fuel as [|fuel]; cbn in Hf; [lia|].
  apply addrs_cons_NoDup in Hnd as (Hi & Hil & Hnd).
  apply NoDup_cons in Hi as [Hi1 Hi2]. apply NoDup_cons in Hi2 as [Hi2 _].
  apply wp_bind. eapply wp_load; [done..|]. cbn.
  apply wp_bind. eapply wp_free; [done|].
  apply wp_bind. eapply wp_free; [cbn; rewrite lookup_delete_ne by set_solver; done|].
  apply wp_bind. eapply wp_load; [cbn; rewrite !lookup_delete_ne by set_solver; done|done|].
  apply wp_bind. eapply wp_free; [cbn; rewrite !lookup_delete_ne by set_solver; done|]. cbn.
  eapply wp_mono; [apply IH; [|done|..|lia]; cbn|done].
  - eapply seg_frame; [|exact Hl]. intros a Ha.
    rewrite !lookup_delete_ne; [done|..]; intros <-; eapply Hil; try done; set_solver.
  - intros a Ha. destruct (decide (a ∈ [ad i; kad i; dad i])) as [Hai|Hai].
    + rewrite (Hown a) by set_solver. rewrite !lookup_delete_None. set_solver.
    + rewrite !lookup_delete_ne by set_solver. apply Hrest. set_solver.
  - intros a Ha. apply Hown. set_solver.
Qed.

(** [listDestructor] leaves the memory without the list, and allocates nothing. *)
Lemma listDestructor_spec F s L items : holds F s L items ->
  wp (listDestructor L) s (fun _ s' => heap s' = F /\ io s' = io s /\ brk s' = brk s).
Proof.
  intros HL. unfold listDestructor. rewrite (h_len _ _ _ _ HL). case_decide as Hn.
  - destruct items; [|cbn in Hn; lia]. apply wp_ret. split; [|done].
    apply map_eq. intros a. apply (h_rest _ _ _ _ HL). set_solver.
  - apply wp_bind, wp_walk_fuel. eapply free_from_spec; try apply HL.
    pose proof (seg_size _ _ _ _ (h_seg _ _ _ _ HL) (h_nodup _ _ _ _ HL)). lia.
Qed.

(** ** Printing *)

(** The data of a list are of the type it is sorted and printed as. *)
Definition typed (ty : type_) (v : cell) : Prop :=
  match v with
  | CInt _ => dataType ty = DATA_INT
  | CDouble _ => dataType ty = DATA_DOUBLE
  | CChars _ => dataType ty = DATA_CHAR
  | CNode _ => False
  end.

Section print.
Context {sio : Stdio} (fmt_lf : spec_float -> string).

Definition data_text (v : cell) : string :=
  match v with CInt z => fmt_d z | CDouble d => fmt_lf d | CChars t => t | CNode _ => EmptyString end.

Definition entry_line (e : string * cell) : string := e.1 +:+ "=" +:+ data_text e.2 +:+ line_end.

(** The text of a file of entries. *)
Definition text (es : list (string * cell)) : string := foldr (fun e t => entry_line e +:+ t) EmptyString es.

Definition entry (i : item) : string * cell := (ikey i, ival i).

Lemma print_data_spec ty v d s : typed ty v -> heap s !! d = Some v ->
  wp (print_data fmt_lf ty d) s (fun t s' => t = data_text v /\ s' = s).
Proof.
  intros Hv Hd. unfold print_data. destruct v as [n|z|x|t]; cbn in Hv; [done|..]; rewrite Hv; cbn.
  - apply wp_bind. eapply wp_load; [done..|]. by apply wp_ret.
  - apply wp_bind. eapply wp_load; [done..|]. by apply wp_ret.
  - by eapply wp_load.
Qed.

Lemma print_from_spec fuel ty name t p l s f0 outs k :
  seg (heap s) p l None -> Forall (typed ty) (ival <$> l) -> Datatypes.length l <= fuel ->
  writing f0 (outs ++ [(name, t)]) k (io s) ->
  wp (print_from fmt_lf fuel ty (Some (Datatypes.length outs)) p) s (fun _ s' =>
    exists d, s' = set_io d s /\ writing f0 (outs ++ [(name, t +:+ text (entry <$> l))]) k d).
Proof.
  revert p fuel s t. induction l as [|i l IH]; intros p fuel s t Hs Ht Hf Hw; cbn in Hs.
  { subst p. cbn. rewrite str_app_nil. destruct fuel, s; apply wp_ret; by eexists. }
  destruct Hs as (-> & r & (H1 & H2 & H3) & Hl). destruct fuel as [|fuel]; cbn in Hf; [lia|].
  inversion_clear Ht as [|? ? Hti Htl].
  apply wp_bind. eapply wp_load; [done..|]. apply wp_bind. eapply wp_load; [done..|].
  apply wp_bind. eapply wp_mono; [by apply (print_data_spec ty (ival i))|]. intros u s' [-> ->].
  apply wp_bind, wp_in_io. eapply wp_mono; [by apply fprintf_spec|]. intros [] d Hd.
  eapply wp_mono; [apply (IH _ _ (set_io d s)); [done..|lia|exact Hd]|].
  intros _ s' (d' & -> & Hd'). exists d'. split; [done|].
  replace (t +:+ text (entry <$> i :: l)) with ((t +:+ entry_line (entry i)) +:+ text (entry <$> l));
    [exact Hd'|apply str_app_assoc].
Qed.

(** [print] adds its file to those that are being written. *)
Lemma print_spec ty F s L items f0 outs k : holds F s L items -> Forall (typed ty) (ival <$> items) ->
  writing f0 outs k (io s) -> out_name ty ∉ outs.*1 -> Datatypes.length outs + k < max_open ->
  wp (print fmt_lf ty L) s (fun _ s' =>
    exists d, s' = set_io d s /\ writing f0 (outs ++ [(out_name ty, text (entry <$> items))]) k d).
Proof.
  intros HL Ht Hw Hout Hslot. unfold print. apply wp_bind, wp_in_io.
  eapply wp_mono; [by apply fopen_w_spec|]. intros r d [-> Hd].
  rewrite (h_len _ _ _ _ HL). case_decide as Hn.
  - destruct items; [|cbn in Hn; lia]. apply wp_ret. by exists d.
  - apply wp_bind, wp_walk_fuel.
    eapply wp_mono; [apply (print_from_spec _ _ (out_name ty) EmptyString _ items); cbn; [apply HL|done|..|exact Hd]|].
    { pose proof (seg_size _ _ _ _ (h_seg _ _ _ _ HL) (h_nodup _ _ _ _ HL)). lia. }
    intros _ s' (d' & -> & Hd'). by exists d'.
Qed.
End print.
End wp.
