(* ===== verification/SortListSort.v ===== *)
(** * The insertion sort of [ex2.c]

    [sort] copies the node pointers to an array, sorts the array from the left
    with an inner loop that also moves past equal elements, and links the nodes
    again.  This file proves what it does with any comparator that returns, and
    what the resulting order is when the comparator decides a total preorder. *)
From S2P Require Import Prelude StateM CString SortList SortListInv.
From Stdlib Require Import SpecFloat.

(** ** The order of the result, without memory *)

Section order.
Context (R : item -> item -> Z -> Prop).

(** The inner loop puts [x] into [p]: it moved past [p2], whose elements compared
    at least equal, and stopped at the last element of [p1]. *)
Definition inserted (x : item) (p r : list item) : Prop :=
  exists p1 p2, p = p1 ++ p2 /\ r = p1 ++ x :: p2 /\
    Forall (fun y => exists c, R y x c /\ (0 <= c)%Z) p2 /\
    (forall y, last p1 = Some y -> exists c, R y x c /\ (c < 0)%Z).

Inductive insertion_sorted : list item -> list item -> Prop :=
| is_nil : insertion_sorted [] []
| is_snoc l r x r' : insertion_sorted l r -> inserted x r r' -> insertion_sorted (l ++ [x]) r'.

Lemma inserted_perm x p r : inserted x p r -> r ≡ₚ x :: p.
Proof. intros (p1 & p2 & -> & -> & _). by rewrite <- Permutation_middle. Qed.

Lemma insertion_sorted_perm l r : insertion_sorted l r -> r ≡ₚ l.
Proof.
  induction 1 as [|l r x r' _ IH Hx]; [done|].
  rewrite (inserted_perm _ _ _ Hx), IH, (Permutation_app_comm l). done.
Qed.

(** Every comparison is 0 or more: each element is put at the front. *)
Lemma insertion_sorted_reverse l r : insertion_sorted l r ->
  (forall x y c, x ∈ l -> y ∈ l -> R x y c -> (0 <= c)%Z) -> r = reverse l.
Proof.
  induction 1 as [|l r x r' Hl IH (p1 & p2 & -> & -> & _ & Hp1)]; intros HR; [done|].
  pose proof (insertion_sorted_perm _ _ Hl) as Hperm.
  rewrite reverse_app. cbn. rewrite <- IH by (intros; eapply HR; set_solver).
  destruct p1 as [|y p1 _] using rev_ind; [done|].
  destruct (Hp1 y) as (c & Hc & Hlt); [by apply last_snoc|].
  enough (0 <= c)%Z by lia. eapply HR; [..|exact Hc]; [|set_solver].
  apply elem_of_app. left. rewrite <- Hperm. set_solver.
Qed.
End order.

(** A comparator that decides an order: its result is 0 or more when the right
    argument comes first or is tied with the left one. *)
Section total.
Context (R : item -> item -> Z -> Prop) (le : item -> item -> Prop) `{!RelDecision le} `{!Transitive le}.

Definition tied (x y : item) : Prop := le x y /\ le y x.
#[export] Instance tied_dec : RelDecision tied.
Proof. intros x y. unfold tied. apply _. Defined.

Definition decides (l : list item) : Prop := forall x y, x ∈ l -> y ∈ l ->
  (le x y \/ le y x) /\ (forall c, R x y c -> (0 <= c)%Z <-> le y x).

(** What [x] moved past is not before [x], what it stopped at is. *)
Lemma inserted_split l x p r : decides l -> x ∈ l -> p ⊆ l -> StronglySorted le p -> inserted R x p r ->
  exists p1 p2, p = p1 ++ p2 /\ r = p1 ++ x :: p2 /\
    (forall z, z ∈ p2 -> le x z) /\ (forall z, z ∈ p1 -> ~ le x z /\ le z x).
Proof.
  intros Hd Hx Hpl Hs (p1 & p2 & -> & -> & H2 & H1). exists p1, p2. do 2 (split; [done|]). split.
  - intros z Hz. rewrite Forall_forall in H2. destruct (H2 z Hz) as (c & Hc & Hge).
    destruct (Hd z x ltac:(set_solver) Hx) as [_ Hzx]. by apply (Hzx c Hc).
  - intros z Hz. destruct p1 as [|y p1 _] using rev_ind; [set_solver|].
    destruct (H1 y) as (c & Hc & Hlt); [by apply last_snoc|].
    destruct (Hd y x ltac:(set_solver) Hx) as [_ Hxy]. specialize (Hxy c Hc).
    assert (Hn : ~ le x y) by (rewrite <- Hxy; lia).
    assert (Hnz : ~ le x z).
    { apply StronglySorted_app_1_l in Hs. intros Hxz. apply Hn.
      apply elem_of_app in Hz as [Hz| ->%list_elem_of_singleton]; [|done].
      transitivity z; [done|]. by eapply StronglySorted_app_1_elem_of; [exact Hs|..]; set_solver. }
    split; [done|]. destruct (Hd z x ltac:(set_solver) Hx) as [[?|?] _]; done.
Qed.

(** The result is in order, and elements that are tied are in reversed order. *)
Lemma insertion_sorted_order l r : insertion_sorted R l r -> decides l ->
  StronglySorted le r /\ forall k, filter (tied k) r = reverse (filter (tied k) l).
Proof.
  induction 1 as [|l p x r Hl IH Hr]; intros Hd; [split; [constructor|done]|].
  pose proof (insertion_sorted_perm _ _ _ Hl) as Hperm.
  destruct IH as [Hs Hf].
  { intros a b Ha Hb. apply Hd; set_solver. }
  apply (inserted_split (l ++ [x])) in Hr as (p1 & p2 & -> & -> & H2 & H1); [|done|set_solver| |done].
  2: { intros z Hz. apply elem_of_app. left. by rewrite <- Hperm. }
  split.
  - apply StronglySorted_app in Hs as (H12 & Hs1 & Hs2). apply StronglySorted_app. split; [|split; [done|]].
    + intros z w Hz [->|Hw]%elem_of_cons; [by apply H1|by apply H12].
    + apply StronglySorted_cons. split; [by apply Forall_forall|done].
  - intros k. specialize (Hf k). rewrite filter_app in Hf. rewrite !filter_app, reverse_app, <- Hf.
    destruct (decide (tied k x)) as [[Hkx Hxk]|Hk].
    + rewrite !filter_cons_True by done. cbn.
      rewrite (filter_none _ p1); [done|]. apply Forall_forall. intros z Hz [Hkz _].
      destruct (H1 z Hz) as [Hn _]. apply Hn. by transitivity k.
    + rewrite !filter_cons_False by done. done.
Qed.
End total.

(** ** The loops on the array *)

(** The array [src] when it holds the nodes of the items [l]. *)
Abbreviation arr := (PtrArray.arr ad).

(** The items of [l] are in the heap, whatever their links are. *)
Definition owned (s : proc) (l : list item) : Prop :=
  Forall (fun i => exists q, node_at (heap s) i q) l.

(** Comparing draws at most random numbers. *)
Definition same (s s' : proc) : Prop := heap s' = heap s /\ brk s' = brk s /\ io s' = io s.

#[export] Instance same_po : PreOrder same.
Proof. unfold same. split; [done|]. intros s1 s2 s3 (-> & -> & ->) (-> & -> & ->). done. Qed.

Section loops.
Context (R : item -> item -> Z -> Prop) (cmp : comparator) (items : list item).

(** The comparator returns on the items, with results in [R]. *)
Definition compares : Prop := forall x y s, x ∈ items -> y ∈ items -> owned s items ->
  wp (cmp (ad x) (ad y)) s (fun c s' => same s s' /\ R x y c).

Hypothesis Hcmp : compares.

Lemma shift_greater_spec n p g q rest x s : p ⊆ items -> x ∈ items -> owned s items ->
  Datatypes.length p <= n ->
  wp (shift_greater n cmp (arr (p ++ g :: q ++ rest)) (Z.of_nat (Datatypes.length p) - 1) (ad x)) s
    (fun r s' => same s s' /\ exists p1 p2 g', p = p1 ++ p2 /\
       r = (arr (p1 ++ g' :: p2 ++ q ++ rest), Z.of_nat (Datatypes.length p1) - 1)%Z /\
       Forall (fun y => exists c, R y x c /\ (0 <= c)%Z) p2 /\
       (forall y, last p1 = Some y -> exists c, R y x c /\ (c < 0)%Z)).
Proof.
  revert n g q s. induction p as [|y p IH] using rev_ind; intros n g q s Hp Hx Ho Hn.
  { assert (Hr : shift_greater n cmp (arr (g :: q ++ rest)) (Z.of_nat 0 - 1) (ad x)
                 = mret (arr (g :: q ++ rest), (Z.of_nat 0 - 1)%Z)) by (by destruct n).
    cbn [app Datatypes.length]. rewrite Hr. apply wp_ret. split; [done|].
    exists [], [], g. by repeat split. }
  rewrite length_app in *. cbn [Datatypes.length] in *. destruct n as [|n]; [lia|].
  rewrite <- app_assoc. cbn [shift_greater app]. rewrite decide_True by lia.
  assert (Hget : src_get (arr (p ++ y :: g :: q ++ rest)) (Z.of_nat (Datatypes.length p + 1) - 1) = Done (ad y))
    by (apply src_get_arr; lia).
  apply wp_bind. eapply wp_lift; [exact Hget|].
  apply wp_bind. eapply wp_mono; [apply (Hcmp y x); [set_solver|done..]|]. intros c s' [Hs Hc].
  case_decide as Hge.
  - apply wp_bind. eapply wp_lift; [exact Hget|]. apply wp_bind. eapply wp_lift.
    { rewrite (cons_middle y), (app_assoc p). apply src_set_arr. rewrite length_app. cbn. lia. }
    rewrite <- app_assoc. cbn [app].
    replace (Z.of_nat (Datatypes.length p + 1) - 1 - 1)%Z with (Z.of_nat (Datatypes.length p) - 1)%Z by lia.
    eapply wp_mono; [apply (IH n y (y :: q)); [set_solver|done| |lia]|].
    { unfold owned. destruct Hs as (-> & _). exact Ho. }
    intros r s'' [Hs' (p1 & p2 & g' & -> & -> & H2 & H1)]. split; [by transitivity s'|].
    exists p1, (p2 ++ [y]), g'. rewrite <- !app_assoc. repeat split; [..|done].
    apply Forall_app. eauto.
  - apply wp_ret. split; [done|]. exists (p ++ [y]), [], g. rewrite app_nil_r, length_app, <- app_assoc.
    split; [done|]. split; [done|]. split; [done|].
    intros z Hz. rewrite last_snoc in Hz. injection Hz as <-. exists c. split; [done|lia].
Qed.

Lemma insert_one_spec p x rest s : p ⊆ items -> x ∈ items -> owned s items ->
  wp (insert_one cmp (arr (p ++ x :: rest)) (Z.of_nat (Datatypes.length p))) s
    (fun a s' => same s s' /\ exists r, inserted R x p r /\ a = arr (r ++ rest)).
Proof.
  intros Hp Hx Ho. unfold insert_one. apply wp_bind. eapply wp_lift; [by apply src_get_arr|].
  apply wp_bind. eapply wp_mono; [apply (shift_greater_spec _ p x []); [done..|lia]|].
  intros r s' [Hs (p1 & p2 & g' & -> & -> & H2 & H1)]. eapply wp_lift; [apply src_set_arr; lia|].
  split; [done|]. exists (p1 ++ x :: p2). split; [by exists p1, p2|]. by rewrite <- app_assoc.
Qed.

Lemma insert_all_spec done_ r rest s : done_ ++ rest = items -> insertion_sorted R done_ r -> owned s items ->
  wp (insert_all (Datatypes.length rest) cmp (arr (r ++ rest)) (Z.of_nat (Datatypes.length r))) s
    (fun a s' => same s s' /\ exists r', insertion_sorted R items r' /\ a = arr r').
Proof.
  revert done_ r s. induction rest as [|x rest IH]; intros done_ r s Hi Hr Ho; cbn [Datatypes.length insert_all].
  - apply wp_ret. split; [done|]. exists r. rewrite app_nil_r in *. by subst.
  - pose proof (insertion_sorted_perm _ _ _ Hr) as Hperm.
    apply wp_bind. eapply wp_mono; [apply insert_one_spec; [| |done]|].
    { intros z Hz. rewrite Hperm in Hz. rewrite <- Hi. apply elem_of_app. by left. }
    { rewrite <- Hi. apply elem_of_app. right. apply elem_of_cons. by left. }
    intros a s' [Hs (r' & Hr' & ->)]. pose proof (inserted_perm _ _ _ _ Hr') as Hp'.
    replace (Z.of_nat (Datatypes.length r) + 1)%Z with (Z.of_nat (Datatypes.length r'))
      by (rewrite Hp'; cbn; lia).
    eapply wp_mono; [apply (IH (done_ ++ [x]))|].
    + by rewrite <- app_assoc.
    + by apply (is_snoc _ _ r).
    + unfold owned. destruct Hs as (-> & _). exact Ho.
    + intros a s'' [Hs' Ha]. split; [by transitivity s'|done].
Qed.
End loops.

(** ** Filling the array and linking the nodes *)

Lemma fill_src_spec fuel p done_ l s : seg (heap s) p l None -> Datatypes.length l <= fuel ->
  wp (fill_src fuel (arr done_ ++ replicate (Datatypes.length l) None) (Z.of_nat (Datatypes.length done_)) p) s
    (fun a s' => a = arr (done_ ++ l) /\ s' = s).
Proof.
  revert p fuel done_. induction l as [|i l IH]; intros p fuel done_ Hs Hf; cbn in Hs.
  { subst p. cbn. rewrite !app_nil_r. destruct fuel; by apply wp_ret. }
  destruct Hs as (-> & r & (H1 & _) & Hl). destruct fuel as [|fuel]; cbn in Hf; [lia|].
  cbn [fill_src replicate Datatypes.length]. apply wp_bind. eapply wp_lift; [apply src_set_next|].
  apply wp_bind. eapply wp_load; [done..|]. cbn [next].
  replace (Z.of_nat (Datatypes.length done_) + 1)%Z with (Z.of_nat (Datatypes.length (done_ ++ [i])))
    by (rewrite length_app; cbn; lia).
  eapply wp_mono; [apply IH; [done|lia]|]. intros a s' [-> ->]. by rewrite <- app_assoc.
Qed.

(** The address of a node is no other address of its list. *)
Lemma ad_other r1 x r2 : NoDup (addrs (r1 ++ x :: r2)) ->
  (ad x ∉ addrs (r1 ++ r2)) /\ ad x <> kad x /\ ad x <> dad x.
Proof.
  rewrite <- Permutation_middle. intros (H1 & H2 & _)%addrs_cons_NoDup.
  apply NoDup_cons in H1 as [H1 _]. split; [apply H2|]; set_solver.
Qed.

(** A new link of one node. *)
Definition link (x : item) (q : option nat) (s : proc) : proc :=
  set_heap (<[ad x := CNode (MkNode (kad x) (dad x) q)]> (heap s)) s.

Lemma wp_link x q s (Q : unit -> proc -> Prop) : (exists r, node_at (heap s) x r) ->
  Q tt (link x q s) -> wp (store_next (ad x) q) s Q.
Proof. intros (r & Hr & _) HQ. by eapply wp_store_next. Qed.

Lemma link_owned r1 x r2 q s : NoDup (addrs (r1 ++ x :: r2)) -> owned s (r1 ++ x :: r2) ->
  owned (link x q s) (r1 ++ x :: r2) /\ node_at (heap (link x q s)) x q.
Proof.
  intros Hnd Ho. destruct (ad_other _ _ _ Hnd) as (Hx & Hk & Hd).
  assert (Hn : node_at (heap (link x q s)) x q).
  { unfold owned in Ho. rewrite Forall_forall in Ho. destruct (Ho x ltac:(set_solver)) as (r & _ & H2 & H3).
    unfold node_at, link. cbn. by rewrite lookup_insert_eq, !lookup_insert_ne by done. }
  split; [|done]. apply Forall_forall. intros z Hz.
  assert (z = x \/ z ∈ r1 ++ r2) as [->|Hz2] by set_solver; [eauto|].
  unfold owned in Ho. rewrite Forall_forall in Ho. destruct (Ho z Hz) as (r & Hr).
  exists r. unfold node_at, link. cbn.
  assert (Ha : forall a, a = ad z \/ a = kad z \/ a = dad z -> ad x <> a).
  { intros a Haz <-. apply Hx, elem_of_addrs. eauto. }
  by rewrite !lookup_insert_ne by (apply Ha; auto).
Qed.

(** A state that differs in the nodes of [r] only. *)
Definition relinked (r : list item) (s s' : proc) : Prop :=
  (forall a, a ∉ addrs r -> heap s' !! a = heap s !! a) /\ brk s' = brk s /\ io s' = io s.

Lemma relinked_link r x q s : x ∈ r -> relinked r s (link x q s).
Proof.
  intros Hx. split; [|done]. intros a Ha. cbn. apply lookup_insert_ne. intros <-.
  apply Ha, elem_of_addrs. eauto.
Qed.

Lemma relinked_trans r s1 s2 s3 : relinked r s1 s2 -> relinked r s2 s3 -> relinked r s1 s3.
Proof.
  intros (H1 & Hb1 & Hf1) (H2 & Hb2 & Hf2). repeat split; try congruence.
  intros a Ha. by rewrite H2, H1.
Qed.

Lemma relink_spec p r1 x r2 y s : let r := r1 ++ x :: r2 in
  NoDup (addrs r) -> owned s r -> seg (heap s) p r1 (Some (ad x)) -> last (x :: r2) = Some y ->
  wp (relink (Datatypes.length r2) (arr r) (Z.of_nat (Datatypes.length r1))) s (fun _ s' =>
    relinked r s s' /\ owned s' r /\ exists r', r = r' ++ [y] /\ seg (heap s') p r' (Some (ad y))).
Proof.
  revert r1 x s. induction r2 as [|z r2 IH]; intros r1 x s r Hnd Ho Hs Hy; cbn [Datatypes.length relink].
  { apply wp_ret. injection Hy as <-. split; [by repeat split|]. split; [done|]. by exists r1. }
  apply wp_bind. eapply wp_lift; [by apply src_get_arr|].
  assert (Hr : r = (r1 ++ [x]) ++ z :: r2) by (unfold r; by rewrite <- app_assoc).
  assert (Hlen : (Z.of_nat (Datatypes.length r1) + 1)%Z = Z.of_nat (Datatypes.length (r1 ++ [x])))
    by (rewrite length_app; cbn; lia).
  apply wp_bind. eapply wp_lift; [rewrite Hlen, Hr; by apply src_get_arr|].
  assert (Hx : x ∈ r) by (unfold r; set_solver).
  destruct (link_owned _ _ _ (Some (ad z)) _ Hnd Ho) as [Ho' Hn].
  apply wp_bind, wp_link; [unfold owned in Ho; rewrite Forall_forall in Ho; by apply Ho|].
  specialize (IH (r1 ++ [x]) z (link x (Some (ad z)) s)). cbn zeta in IH. rewrite <- Hr in IH.
  rewrite Hlen. eapply wp_mono; [apply IH; [done|exact Ho'| |exact Hy]|].
  - apply seg_snoc. split; [|exact Hn]. apply seg_insert; [|done].
    intros Ha. destruct (ad_other _ _ _ Hnd) as [Hno _]. apply Hno. rewrite addrs_app. set_solver.
  - intros _ s' (Hrel & Ho2 & Hseg). split; [|done].
    eapply relinked_trans; [by apply relinked_link|done].
Qed.

(** ** The sort *)

Section sort.
Context (rand : nat -> Z) (R : item -> item -> Z -> Prop).

(** The last steps of [sort]: the sorted array becomes the list. *)
Lemma holds_relinked F s s' L items items' p : holds F s L items -> items' ≡ₚ items ->
  relinked items' s s' -> seg (heap s') p items' None -> holds F s' (MkList p (length L)) items'.
Proof.
  intros HL Hp (Hh & Hb & _) Hseg. destruct (holds_lt _ _ _ _ HL) as [_ Hlt]. split; cbn.
  - done.
  - rewrite Hp. apply HL.
  - rewrite Hp. apply HL.
  - intros a Ha. rewrite Hh by done. apply HL. by rewrite <- Hp.
  - intros a. rewrite Hp. apply HL.
  - intros a. rewrite Hb. intros Ha. rewrite Hh; [by apply HL|]. rewrite Hp. intros Hx%Hlt. lia.
Qed.

Lemma holds_owned F s L items : holds F s L items -> owned s items.
Proof. intros HL. eapply seg_nodes. apply HL. Qed.

Lemma holds_same F s s' L items : same s s' -> holds F s L items -> holds F s' L items.
Proof. intros (Hh & Hb & _) []. split; rewrite ?Hh, ?Hb; done. Qed.

Lemma relink_holds F s L items y r n : holds F s L items -> y :: r ≡ₚ items -> n = Datatypes.length items ->
  wp (_ ← relink (n - 1) (arr (y :: r)) 0;
      l ← lift (src_get (arr (y :: r)) (Z.of_nat n - 1));
      _ ← store_next l None;
      mret (MkList (Some (ad y)) (length L))) s
    (fun L' s' => holds F s' L' (y :: r) /\ io s' = io s).
Proof.
  intros HL Hp ->. rewrite <- (Permutation_length Hp).
  destruct (last (y :: r)) as [z|] eqn:Hz; [|by apply last_None in Hz].
  assert (Hnd : NoDup (addrs (y :: r))) by (rewrite Hp; apply HL).
  apply wp_bind. eapply wp_mono.
  { replace (Datatypes.length (y :: r) - 1) with (Datatypes.length r) by (cbn; lia).
    apply (relink_spec (Some (ad y)) [] y r z); [done| |done..].
    unfold owned. cbn [app]. rewrite Hp. by eapply holds_owned. }
  cbn [app]. intros _ s2 (Hrel & Ho & r' & Hr' & Hseg).
  apply wp_bind. eapply wp_lift.
  { rewrite Hr'. apply src_get_arr. rewrite length_app. cbn. lia. }
  rewrite Hr' in *. destruct (link_owned r' z [] None s2 Hnd Ho) as [Ho' Hnz].
  apply wp_bind, wp_link; [unfold owned in Ho; rewrite Forall_forall in Ho; apply Ho; set_solver|].
  assert (Hrel' : relinked (r' ++ [z]) s (link z None s2)).
  { eapply relinked_trans; [done|]. apply relinked_link. set_solver. }
  apply wp_ret. split; [|apply Hrel']. eapply holds_relinked; [exact HL|done..|].
  apply seg_snoc. split; [|exact Hnz]. apply seg_insert; [|done].
  destruct (ad_other _ _ _ Hnd) as [Hno _]. by rewrite app_nil_r in Hno.
Qed.

Lemma sort_spec ty F s L items : holds F s L items -> compares R (compare rand ty) items ->
  wp (sort rand ty L) s (fun L' s' => exists items',
    holds F s' L' items' /\ insertion_sorted R items items' /\ io s' = io s).
Proof.
  intros HL Hc. unfold sort. pose proof (h_len _ _ _ _ HL) as Hlen. case_decide as Hn; rewrite Hlen in Hn.
  { destruct items; [|cbn in Hn; lia]. apply wp_ret. exists []. split; [done|]. split; [constructor|done]. }
  replace (length L - 1)%Z with (Z.of_nat (Datatypes.length items) - 1)%Z by lia.
  replace (Z.to_nat (length L)) with (Datatypes.length items) by lia.
  apply wp_bind, wp_walk_fuel, wp_bind.
  pose proof (seg_size _ _ _ _ (h_seg _ _ _ _ HL) (h_nodup _ _ _ _ HL)) as Hsz.
  eapply wp_mono; [apply (fill_src_spec _ _ []); [apply HL|lia]|]. intros a s' [-> ->].
  destruct items as [|x rest] eqn:Hitems; [done|]. rewrite <- Hitems in *.
  apply wp_bind. eapply wp_mono.
  { replace (Datatypes.length items - 1) with (Datatypes.length rest) by (subst; cbn; lia).
    replace ([] ++ items) with ([x] ++ rest) by (by subst).
    apply (insert_all_spec R _ _ Hc [x] [x]); [by subst| |by eapply holds_owned].
    apply (is_snoc _ [] [] x); [constructor|]. exists [], []. repeat split; [constructor|done]. }
  intros a s1 [Hs1 (r & Hr & ->)]. pose proof (insertion_sorted_perm _ _ _ Hr) as Hp.
  apply (holds_same _ _ s1) in HL; [|done].
  destruct r as [|y r]; [symmetry in Hp; apply Permutation_nil_r in Hp; by subst|].
  apply wp_bind. eapply wp_lift; [by apply (src_get_arr ad [])|].
  eapply wp_mono; [by apply (relink_holds F _ L items)|].
  intros L' s2 [HL' Hf]. exists (y :: r). split; [done|]. split; [done|]. rewrite Hf. apply Hs1.
Qed.
End sort.
