(* ===== verification/SortListProps.v ===== *)
(** * What the list sorting program does

    The comparators of [ex2.c] as functions of the data they compare, and the
    properties of [sort] and of the whole program. *)
From S2P Require Import Prelude StateM CString SortList SortListInv SortListSort.
From Stdlib Require Import SpecFloat.

(** ** The comparators on data *)

(** The arguments of a comparison in the order in which they are subtracted. *)
Definition orient {A} (ty : type_) (v w : A) : A * A := if decide (sortType ty = SORT_INC) then (v, w) else (w, v).

Definition cell_cmp (ty : type_) (v w : cell) : exec Z :=
  match orient ty v w with
  | (CInt x, CInt y) => int_expr (x - y)
  | (CDouble x, CDouble y) => int_of_double (double_sub x y)
  | (CChars x, CChars y) => Done (strcmp x y)
  | _ => Fault Undefined
  end.

Definition valid_type (ty : type_) : Prop :=
  sortType ty ∈ [SORT_RAND; SORT_INC; SORT_DEC] /\ dataType ty ∈ [DATA_CHAR; DATA_INT; DATA_DOUBLE].

(** The comparison of two data of a list returns. *)
Definition comparable (ty : type_) (v w : cell) : Prop :=
  sortType ty = SORT_RAND \/ exists c, cell_cmp ty v w = Done c.

Definition cmp_rel (ty : type_) (x y : item) (c : Z) : Prop :=
  sortType ty = SORT_RAND \/ cell_cmp ty (ival x) (ival y) = Done c.

Definition values (l : list item) : list cell := ival <$> l.

Lemma data_as_spec {A} (view : cell -> option A) items x a s : owned s items -> x ∈ items ->
  view (ival x) = Some a -> wp (data_as view (ad x)) s (fun r s' => r = a /\ s' = s).
Proof.
  intros Ho Hx Hv. unfold owned in Ho. rewrite Forall_forall in Ho. destruct (Ho x Hx) as (q & H1 & _ & H3).
  apply wp_bind. eapply wp_load; [done..|]. by eapply wp_load.
Qed.

(** A comparator of the table reads the two data and compares them. *)
Lemma compare_cells {A} (view : cell -> option A) (f : A -> A -> exec Z) items x y a b c s :
  owned s items -> x ∈ items -> y ∈ items -> view (ival x) = Some a -> view (ival y) = Some b ->
  f a b = Done c ->
  wp (u ← data_as view (ad x); v ← data_as view (ad y); lift (f u v)) s (fun r s' => same s s' /\ r = c).
Proof.
  intros Ho Hx Hy Ha Hb Hf. apply wp_bind. eapply wp_mono; [by eapply data_as_spec|]. intros ? ? [-> ->].
  apply wp_bind. eapply wp_mono; [by eapply data_as_spec|]. intros ? ? [-> ->].
  by eapply wp_lift.
Qed.

Lemma compare_compares rand ty items : valid_type ty -> Forall (typed ty) (values items) ->
  (forall v w, v ∈ values items -> w ∈ values items -> comparable ty v w) ->
  compares (cmp_rel ty) (compare rand ty) items.
Proof.
  intros [Hst Hdt] Ht Hc x y s Hx Hy Ho.
  assert (Hvx : ival x ∈ values items) by (by apply list_elem_of_fmap_2).
  assert (Hvy : ival y ∈ values items) by (by apply list_elem_of_fmap_2).
  rewrite Forall_forall in Ht. pose proof (Ht _ Hvx) as Htx. pose proof (Ht _ Hvy) as Hty.
  specialize (Hc _ _ Hvx Hvy). clear Hvx Hvy Ht. unfold cmp_rel, comparable, cell_cmp, orient in *.
  destruct ty as [st dt]. cbn [sortType dataType] in *.
  rewrite !elem_of_cons, elem_of_nil in Hst, Hdt.
  destruct Hst as [->|Hst].
  { destruct Hdt as [->|[->|[->|[]]]]; (eapply wp_done; [done|]); (split; [done|by left]). }
  assert (Hr : exists c, cell_cmp (MkType st dt) (ival x) (ival y) = Done c).
  { destruct Hc as [->|Hc]; [|done]. destruct Hst as [?|[?|[]]]; done. }
  clear Hc. destruct Hr as [c Hc]. unfold cell_cmp, orient in Hc. cbn [sortType] in Hc.
  assert (Hpost : forall m : ST proc Z, wp m s (fun r s' => same s s' /\ r = c) -> wp m s (fun r s' =>
    same s s' /\ (st = SORT_RAND \/ cell_cmp (MkType st dt) (ival x) (ival y) = Done r))).
  { intros m Hm. eapply wp_mono; [exact Hm|]. intros r s' [Hs ->]. eauto. }
  apply Hpost. clear Hpost.
  destruct (ival x) as [|zx|dx|tx] eqn:Hix, (ival y) as [|zy|dy|ty] eqn:Hiy; cbn in Htx, Hty; try done;
    subst dt; try done; (destruct Hst as [->|[->|[]]]); cbn in Hc;
    [ apply (compare_cells as_int (fun u v => int_expr (u - v)) items x y zx zy)
    | apply (compare_cells as_int (fun u v => int_expr (u - v)) items y x zy zx)
    | apply (compare_cells as_double (fun u v => int_of_double (double_sub u v)) items x y dx dy)
    | apply (compare_cells as_double (fun u v => int_of_double (double_sub u v)) items y x dy dx)
    | apply (compare_cells as_chars (fun u v => Done (strcmp u v)) items x y tx ty)
    | apply (compare_cells as_chars (fun u v => Done (strcmp u v)) items y x ty tx) ];
    rewrite ?Hix, ?Hiy; done.
Qed.

(** ** The order the program sorts by *)

(** [v] may stand before [w]. *)
Definition before (ty : type_) (v w : cell) : Prop :=
  match orient ty v w with
  | (CInt x, CInt y) => (x <= y)%Z
  | (CChars x, CChars y) => String.le x y
  | _ => False
  end.

#[export] Instance before_dec ty : RelDecision (before ty).
Proof.
  intros v w. unfold before. destruct (orient ty v w) as [[n|z|d|t] [n'|z'|d'|t']]; apply _.
Defined.

#[export] Instance before_trans ty : Transitive (before ty).
Proof.
  intros u v w. unfold before, orient. case_decide; destruct u, v, w; try done; try lia;
    intros; by etrans.
Qed.

Lemma before_total ty v w : typed ty v -> typed ty w -> dataType ty ∈ [DATA_CHAR; DATA_INT] ->
  before ty v w \/ before ty w v.
Proof.
  unfold before, orient. intros Hv Hw Hd. rewrite !elem_of_cons, elem_of_nil in Hd.
  destruct v as [|x|x|x], w as [|y|y|y]; cbn in Hv, Hw; try done;
    rewrite Hv in *; destruct Hd as [?|[?|[]]]; try done; case_decide; try lia;
    destruct (String.le_total x y); auto.
Qed.

(** The comparator's sign decides the order. *)
Lemma cell_cmp_sign ty v w c : sortType ty ∈ [SORT_INC; SORT_DEC] -> cell_cmp ty v w = Done c ->
  dataType ty ∈ [DATA_CHAR; DATA_INT] -> typed ty v -> (0 <= c)%Z <-> before ty w v.
Proof.
  unfold cell_cmp, before, orient. intros Hs Hc Hd Hv. rewrite !elem_of_cons, elem_of_nil in Hs, Hd.
  case_decide; destruct v as [|x|x|x], w as [|y|y|y]; cbn in Hc, Hv; try done.
  - unfold int_expr in Hc. case_decide; simplify_eq. lia.
  - rewrite Hv in Hd. destruct Hd as [?|[?|[]]]; done.
  - injection Hc as <-. apply strcmp_ge.
  - unfold int_expr in Hc. case_decide; simplify_eq. lia.
  - rewrite Hv in Hd. destruct Hd as [?|[?|[]]]; done.
  - injection Hc as <-. apply strcmp_ge.
Qed.

Definition ebefore (ty : type_) (e e' : string * cell) : Prop := before ty e.2 e'.2.
Definition etied (ty : type_) (e e' : string * cell) : Prop := ebefore ty e e' /\ ebefore ty e' e.

#[export] Instance etied_dec ty : RelDecision (etied ty).
Proof. intros x y. unfold etied, ebefore. apply _. Defined.

(** [es'] is [es] sorted, and the entries with equal data come in the reversed
    order. *)
Definition sorted_entries (ty : type_) (es es' : list (string * cell)) : Prop :=
  es' ≡ₚ es /\ StronglySorted (ebefore ty) es' /\
  forall e, filter (etied ty e) es' = reverse (filter (etied ty e) es).

(** ** The properties of [sort] *)

Definition entries (l : list item) : list (string * cell) := entry <$> l.

Lemma filter_entries (P : string * cell -> Prop) `{!forall e, Decision (P e)} l :
  filter P (entries l) = entries (filter (fun i => P (entry i)) l).
Proof.
  induction l as [|i l IH]; [done|]. change (entries (i :: l)) with (entry i :: entries l).
  destruct (decide (P (entry i))).
  - rewrite !filter_cons_True by done. cbn. by rewrite IH.
  - by rewrite !filter_cons_False by done.
Qed.

Lemma values_entries l : values l = (entries l).*2.
Proof. unfold values, entries. by rewrite <- list_fmap_compose. Qed.

Definition keyed_type (ty : type_) : Prop :=
  sortType ty ∈ [SORT_INC; SORT_DEC] /\ dataType ty ∈ [DATA_CHAR; DATA_INT].

(** Two ints whose difference is no [int] cannot be compared. *)
Definition sortable (ty : type_) (vs : list cell) : Prop :=
  Forall (typed ty) vs /\ forall v w, v ∈ vs -> w ∈ vs -> comparable ty v w.

Lemma sort_items rand ty F s L items : valid_type ty -> holds F s L items -> sortable ty (values items) ->
  wp (sort rand ty L) s (fun L' s' => exists items',
    holds F s' L' items' /\ insertion_sorted (cmp_rel ty) items items' /\ io s' = io s).
Proof. intros Hty HL [Ht Hc]. apply sort_spec; [done|]. by apply compare_compares. Qed.

Lemma keyed_valid ty : keyed_type ty -> valid_type ty.
Proof. intros [H1 H2]. split; set_solver. Qed.

Lemma insertion_sorted_entries ty l r : keyed_type ty -> Forall (typed ty) (values l) ->
  insertion_sorted (cmp_rel ty) l r -> sorted_entries ty (entries l) (entries r).
Proof.
  intros [Hs Hd] Ht Hr. set (le := fun x y => ebefore ty (entry x) (entry y)).
  assert (Hdec : RelDecision le) by (intros x y; unfold le, ebefore; apply _).
  assert (Htr : Transitive le) by (intros x y z; unfold le, ebefore; apply before_trans).
  rewrite Forall_forall in Ht.
  assert (Htl : forall x, x ∈ l -> typed ty (ival x)) by (intros x Hx; by apply Ht, list_elem_of_fmap_2).
  destruct (insertion_sorted_order (cmp_rel ty) le l r Hr) as [Hss Hf].
  { intros x y Hx Hy. split; [apply before_total; [by apply Htl..|done]|]. intros c [Hrnd|Hc].
    - rewrite Hrnd in Hs. set_solver.
    - eapply cell_cmp_sign; [done..|by apply Htl]. }
  repeat split.
  - unfold entries. by rewrite (insertion_sorted_perm _ _ _ Hr).
  - apply (StronglySorted_fmap entry le (ebefore ty)); [done|exact Hss].
  - intros [k v]. rewrite !filter_entries. unfold entries. rewrite <- fmap_reverse. f_equal.
    specialize (Hf (MkItem 0 0 0 k v)).
    assert (Hiff : forall m, filter (fun i => etied ty (k, v) (entry i)) m = filter (tied le (MkItem 0 0 0 k v)) m)
      by (intros m; by apply list_filter_iff).
    by rewrite !Hiff.
Qed.

(** C28: with type int or char and an order, [sort] returns, and the list then
    holds the entries sorted; entries whose data are equal come in the reverse of
    the order they had.  The differences of two ints must be ints. *)
Theorem sort_sorts rand ty F s L items :
  keyed_type ty -> holds F s L items -> sortable ty (values items) ->
  wp (sort rand ty L) s (fun L' s' => exists items',
    holds F s' L' items' /\ sorted_entries ty (entries items) (entries items') /\ io s' = io s).
Proof.
  intros Hty HL Hs. eapply wp_mono; [apply (sort_items rand ty F s L items); [by apply keyed_valid|done..]|].
  intros L' s' (items' & HL' & Hr & Hf). exists items'. split; [done|]. split; [|done].
  apply insertion_sorted_entries; [done|apply Hs|done].
Qed.

(** with every type and order of the table, the random one and the doubles
    included, [sort] returns a well-formed list of the same nodes, whatever
    [rand] gives, if no comparison leaves the range of [int]. *)
Theorem sort_permutes rand ty F s L items :
  valid_type ty -> holds F s L items -> sortable ty (values items) ->
  wp (sort rand ty L) s (fun L' s' => exists items',
    holds F s' L' items' /\ items' ≡ₚ items /\ length L' = length L /\ io s' = io s).
Proof.
  intros Hty HL Hs. eapply wp_mono; [by apply (sort_items rand ty F s L items)|].
  intros L' s' (items' & HL' & Hr%insertion_sorted_perm & Hf). exists items'. split; [done|]. split; [done|].
  split; [|done]. by rewrite (h_len _ _ _ _ HL'), (h_len _ _ _ _ HL), Hr.
Qed.

(** doubles are compared by their difference cut to an [int], so that a list
    whose doubles all lie less than 1 apart is not sorted but reversed. *)
Theorem sort_close_doubles rand ty F s L items :
  sortType ty ∈ [SORT_INC; SORT_DEC] -> dataType ty = DATA_DOUBLE -> holds F s L items ->
  Forall (typed ty) (values items) ->
  (forall x y, CDouble x ∈ values items -> CDouble y ∈ values items -> truncate (double_sub x y) = Some 0%Z) ->
  wp (sort rand ty L) s (fun L' s' => exists items',
    holds F s' L' items' /\ items' = reverse items).
Proof.
  intros Hst Hdt HL Ht Hc.
  assert (Hcmp : forall v w, v ∈ values items -> w ∈ values items -> cell_cmp ty v w = Done 0%Z).
  { intros v w Hv Hw. rewrite Forall_forall in Ht. pose proof (Ht v Hv) as Htv. pose proof (Ht w Hw) as Htw.
    unfold cell_cmp, orient, int_of_double.
    destruct v, w; cbn in Htv, Htw; try done; try congruence; try (rewrite Hdt in *; done).
    case_decide; cbn; by rewrite Hc. }
  eapply wp_mono.
  { apply (sort_items rand ty F s L items); [|done|].
    - split; [set_solver|]. rewrite Hdt. set_solver.
    - split; [done|]. intros v w Hv Hw. right. eauto. }
  intros L' s' (items' & HL' & Hr & _). exists items'. split; [done|].
  apply (insertion_sorted_reverse _ _ _ Hr). intros x y c Hx Hy [Hrnd|Hxy]; [rewrite Hrnd in Hst; set_solver|].
  rewrite Hcmp in Hxy by (by apply list_elem_of_fmap_2). injection Hxy as <-. done.
Qed.

(** ** Reading a file *)

Definition not_nul (c : ascii) : bool := negb (Ascii.eqb c "000").
Definition key_char (c : ascii) : bool := not_nul c && negb (in_set "=" c) && negb (Ascii.eqb c newline).
Definition data_char (c : ascii) : bool := not_nul c && negb (in_set (" " +:+ line_end) c).

(** The entries that a [key=value] line of the file can hold. *)
Definition wf_data (ty : type_) (v : cell) : Prop :=
  match v with
  | CInt z => dataType ty = DATA_INT /\ (INT_MIN <= z <= INT_MAX)%Z
  | CChars t => dataType ty = DATA_CHAR /\ t <> EmptyString /\ all_chars data_char t = true
  | _ => False
  end.

Definition wf_entry (fmt_lf : spec_float -> string) (ty : type_) (e : string * cell) : Prop :=
  e.1 <> EmptyString /\ all_chars key_char e.1 = true /\ wf_data ty e.2 /\
  String.length (entry_line fmt_lf e) < MAX_STR.

Lemma wf_typed ty v : wf_data ty v -> typed ty v.
Proof. destruct v; cbn; tauto. Qed.

Lemma is_int_char_data c : is_int_char c = true -> data_char c = true.
Proof. destruct c as [[] [] [] [] [] [] [] []]; vm_compute; done. Qed.

Section driver.
Context {sio : Stdio} (rand : nat -> Z) (atof : string -> spec_float) (fmt_lf : spec_float -> string).
Implicit Types (s : proc) (e : string * cell).

Lemma data_text_chars ty v : wf_data ty v ->
  data_text fmt_lf v <> EmptyString /\ all_chars data_char (data_text fmt_lf v) = true.
Proof.
  destruct v as [n|z|d|t]; cbn; [done| |done|tauto]. intros _. destruct (fmt_d_chars z) as [Hc Hne].
  split; [done|]. eapply all_chars_mono; [|exact Hc]. apply is_int_char_data.
Qed.

(** The two tokens of a line. *)
Lemma line_tokens ty e : wf_entry fmt_lf ty e ->
  cstr (entry_line fmt_lf e) = entry_line fmt_lf e /\
  strtok "=" (entry_line fmt_lf e) = (Some e.1, data_text fmt_lf e.2 +:+ line_end) /\
  strtok (" " +:+ line_end) (data_text fmt_lf e.2 +:+ line_end) = (Some (data_text fmt_lf e.2), EmptyString).
Proof.
  intros (Hne & Hk & Hd & _). destruct (data_text_chars _ _ Hd) as [Hdne Hdc].
  set (t := data_text fmt_lf e.2) in *.
  assert (Hkey : forall c, key_char c = true -> not_nul c = true /\ negb (in_set "=" c) = true).
  { intros c [[H1 H2]%andb_prop _]%andb_prop. done. }
  split; [|split].
  - apply cstr_id. unfold entry_line. fold t. change (fun c => negb (Ascii.eqb c "000")) with not_nul.
    rewrite !all_chars_app, (all_chars_mono key_char not_nul e.1), (all_chars_mono data_char not_nul t); try done.
    + intros c [H1 _]%andb_prop. done.
    + intros c Hc. by apply Hkey.
  - apply strtok_token; [done| |done]. eapply all_chars_mono; [|exact Hk]. intros c Hc. by apply Hkey.
  - apply strtok_token; [done| |done]. eapply all_chars_mono; [|exact Hdc].
    intros c [_ H2]%andb_prop. done.
Qed.

Lemma holds_alloc F s L items c : holds F s L items ->
  holds (<[brk s := c]> F) (MkProc (<[brk s := c]> (heap s)) (S (brk s)) (draws s) (io s)) L items.
Proof.
  intros HL. destruct (holds_lt _ _ _ _ HL) as [_ Hlt]. destruct HL as [Hseg Hlen Hnd Hrest Hown Hbrk].
  assert (Hb : brk s ∉ addrs items) by (intros Hx%Hlt; lia).
  split; cbn; [by apply seg_insert|done..| | |].
  - intros a Ha. destruct (decide (a = brk s)) as [->|Hne]; [by rewrite !lookup_insert_eq|].
    rewrite !lookup_insert_ne by done. auto.
  - intros a Ha. rewrite lookup_insert_ne; [auto|]. by intros <-.
  - intros a Ha. rewrite lookup_insert_ne by lia. apply Hbrk. lia.
Qed.

Lemma holds_unused F s L items a : holds F s L items -> brk s <= a -> F !! a = None.
Proof.
  intros HL Ha. rewrite <- (h_rest _ _ _ _ HL); [by apply (h_brk _ _ _ _ HL)|].
  intros Hx. destruct (holds_lt _ _ _ _ HL) as [_ Hlt]. apply Hlt in Hx. lia.
Qed.

(** [read_data] stores what the token says. *)
Lemma read_data_spec ty v s (Q : nat -> proc -> Prop) : wf_data ty v ->
  wp (alloc v) s Q -> wp (read_data atof ty (data_text fmt_lf v)) s Q.
Proof.
  intros Hd HQ. unfold read_data. destruct v as [n|z|d|t]; cbn in Hd; [done| |done|].
  - destruct Hd as [-> Hz]. cbn. apply wp_bind. eapply wp_lift; [by apply atoi_fmt_d|exact HQ].
  - destruct Hd as [-> _]. exact HQ.
Qed.

(** The end of the body of a reading loop: the two buffers and the node. *)
Lemma new_entry_spec ty F s L items e : wf_data ty e.2 -> holds F s L items -> (length L < INT_MAX)%Z ->
  wp (d ← read_data atof ty (data_text fmt_lf e.2); k ← derefs NullDeref (Some e.1);
      k ← alloc (CChars k); insert L k d) s (fun L' s' => exists i,
    holds F s' L' (items ++ [i]) /\ entry i = e /\ io s' = io s).
Proof.
  intros He HL Hn. apply wp_bind. apply (read_data_spec ty); [apply He|]. apply wp_alloc.
  apply wp_bind. eapply wp_derefs; [done|]. apply wp_bind, wp_alloc. cbn.
  pose proof (holds_unused _ _ _ _ (brk s) HL) as HF1. pose proof (holds_unused _ _ _ _ (S (brk s)) HL) as HF2.
  apply (holds_alloc _ _ _ _ e.2) in HL. apply (holds_alloc _ _ _ _ (CChars e.1)) in HL. cbn in HL.
  eapply wp_mono.
  { apply (insert_spec _ _ _ _ (S (brk s)) e.1 (brk s) e.2 HL); [lia| | |done].
    - apply lookup_insert_eq.
    - rewrite lookup_insert_ne by lia. apply lookup_insert_eq. }
  intros L' s' (a & HL' & Hf & _). exists (MkItem a (S (brk s)) (brk s) e.1 e.2).
  split; [|split; [by destruct e|exact Hf]].
  rewrite (delete_insert_ne _ (brk s)) in HL' by lia.
  rewrite (delete_insert_id F) in HL' by (apply HF1; lia).
  rewrite delete_insert_id in HL' by (apply HF2; lia).
  exact HL'.
Qed.

Lemma read_line_spec ty F s L items e : wf_entry fmt_lf ty e -> holds F s L items -> (length L < INT_MAX)%Z ->
  wp (read_line atof ty L (entry_line fmt_lf e)) s (fun L' s' => exists i,
    holds F s' L' (items ++ [i]) /\ entry i = e /\ io s' = io s).
Proof.
  intros He HL Hn. destruct (line_tokens _ _ He) as (Hc & Ht1 & Ht2). unfold read_line.
  rewrite Hc, Ht1, Ht2. apply wp_bind. eapply wp_derefs; [done|].
  apply (new_entry_spec ty); [apply He|done..].
Qed.

Lemma entry_line_body e : entry_line fmt_lf e = (e.1 +:+ "=" +:+ data_text fmt_lf e.2) +:+ line_end.
Proof. unfold entry_line. by rewrite !str_app_assoc. Qed.

Lemma fgets_text ty e es : wf_entry fmt_lf ty e ->
  fgets MAX_STR (text fmt_lf (e :: es)) = Some (entry_line fmt_lf e, text fmt_lf es).
Proof.
  intros He. destruct He as (Hne & Hk & Hd & Hlen). destruct (data_text_chars _ _ Hd) as [Hdne Hdc].
  unfold fgets. change (text fmt_lf (e :: es)) with (entry_line fmt_lf e +:+ text fmt_lf es).
  assert (Hline : line (MAX_STR - 1) (entry_line fmt_lf e +:+ text fmt_lf es)
                  = (entry_line fmt_lf e, text fmt_lf es)).
  { rewrite entry_line_body in *. rewrite str_app_assoc. apply line_app.
    - rewrite !all_chars_app. cbn [all_chars]. apply andb_true_intro. split; [|apply andb_true_intro; split].
      + eapply all_chars_mono; [|exact Hk]. intros c [_ H]%andb_prop. exact H.
      + done.
      + eapply all_chars_mono; [|exact Hdc]. intros c [_ H]%andb_prop.
        destruct (Ascii.eqb c newline) eqn:Hc; [|done]. apply Ascii.eqb_eq in Hc as ->. done.
    - rewrite str_length_app in Hlen. cbn [String.length line_end] in Hlen. lia. }
  rewrite Hline. destruct e as [[|c k] v]; done.
Qed.

Lemma read_lines_spec ty F es s L items fuel : Forall (wf_entry fmt_lf ty) es -> holds F s L items ->
  (Z.of_nat (Datatypes.length items + Datatypes.length es) <= INT_MAX)%Z -> Datatypes.length es < fuel ->
  wp (read_lines atof fuel ty L (text fmt_lf es)) s (fun L' s' => exists new,
    holds F s' L' (items ++ new) /\ entries new = es /\ io s' = io s).
Proof.
  revert s L items fuel. induction es as [|e es IH]; intros s L items [|fuel] Hes HL Hn Hf; cbn in Hn, Hf; try lia.
  { apply wp_ret. exists []. rewrite app_nil_r. done. }
  inversion_clear Hes as [|? ? He Hes']. cbn [read_lines]. rewrite (fgets_text _ _ _ He).
  apply wp_bind. eapply wp_mono.
  { apply (read_line_spec ty F); [done..|]. rewrite (h_len _ _ _ _ HL). lia. }
  intros L' s' (i & HL' & <- & Hfs). eapply wp_mono; [apply (IH s' L' (items ++ [i])); [done..| |lia]|].
  { rewrite length_app. cbn. lia. }
  intros L'' s'' (new & HL'' & <- & Hfs'). exists (i :: new). rewrite <- app_assoc in HL''.
  split; [done|]. split; [done|]. by rewrite Hfs'.
Qed.

(** The rest of the memory can be freed without the list noticing. *)
Lemma holds_delete F s L items a : holds F s L items -> is_Some (F !! a) ->
  holds (delete a F) (set_heap (delete a (heap s)) s) L items.
Proof.
  intros [Hseg Hlen Hnd Hrest Hown Hbrk] Ha.
  assert (Hai : a ∉ addrs items) by (intros Hx%Hown; rewrite Hx in Ha; by destruct Ha).
  split; cbn; [|done..| | |].
  - eapply seg_frame; [|exact Hseg]. intros b Hb. apply lookup_delete_ne. by intros ->.
  - intros b Hb. destruct (decide (a = b)) as [->|Hne]; [by rewrite !lookup_delete_eq|].
    rewrite !lookup_delete_ne by done. auto.
  - intros b Hb. apply lookup_delete_None. auto.
  - intros b Hb. apply lookup_delete_None. auto.
Qed.

(** ** The arguments of the program *)

Definition data_name (ty : type_) : string := if decide (dataType ty = DATA_INT) then "int" else "char".
Definition sort_name (ty : type_) : string := if decide (sortType ty = SORT_INC) then "inc" else "dec".

(** [<prefix>_<type>.txt] *)
Definition in_name (ty : type_) (pre : string) : string := pre +:+ "_" +:+ data_name ty +:+ ".txt".

Lemma getType_spec ty pre : keyed_type ty -> pre <> EmptyString ->
  all_chars (fun c => negb (in_set DELIM c)) pre = true -> String.length (in_name ty pre) < MAX_STR ->
  getType (in_name ty pre) (sort_name ty) = Done ty.
Proof.
  intros [Hs Hd] Hne Hpre Hlen. unfold getType. rewrite decide_True by done.
  change (in_name ty pre) with (pre +:+ String "_"%char (data_name ty +:+ ".txt")).
  rewrite (strtok_token DELIM pre "_"%char) by done. clear Hlen Hpre Hne.
  destruct ty as [st dt]. cbn [sortType dataType] in *. rewrite !elem_of_cons, elem_of_nil in Hs, Hd.
  destruct Hs as [->|[->|[]]], Hd as [->|[->|[]]]; done.
Qed.

(** What is read and printed does not touch the list. *)
Lemma holds_io F s d L items : holds F s L items -> holds F (set_io d s) L items.
Proof. by intros []. Qed.

Lemma text_fuel ty es : Forall (wf_entry fmt_lf ty) es ->
  Datatypes.length es < S (String.length (text fmt_lf es)).
Proof.
  intros Hes. induction Hes as [|e es He Hes IH]; [cbn; lia|].
  change (text fmt_lf (e :: es)) with (entry_line fmt_lf e +:+ text fmt_lf es).
  rewrite entry_line_body, str_length_app, str_length_app. cbn in *. lia.
Qed.

(** The end of a program. *)
Lemma wp_exit {A} (r : A) f0 outs k s (Q : A -> proc -> Prop) : writing f0 outs k (io s) ->
  Q r (set_io (MkStdio (written outs f0) [] 0) s) -> wp (_ ← in_io exit_streams; mret r) s Q.
Proof.
  intros Hw HQ. apply wp_bind, wp_in_io. eapply wp_mono; [by eapply exit_streams_spec|].
  intros _ d ->. by apply wp_ret.
Qed.

Lemma holds_empty s : fresh s -> holds (heap s) s listConstructor [].
Proof. intros Hb. split; cbn; [done|done|constructor|done|set_solver|done]. Qed.

(** One file sorted, while the output files of earlier runs are open. *)
Lemma driver_spec ty name es s f0 outs :
  keyed_type ty -> writing f0 outs 0 (io s) -> name ∉ outs.*1 -> out_name ty ∉ outs.*1 ->
  Datatypes.length outs + 1 < max_open ->
  f0 !! name = Some (text fmt_lf es) -> Forall (wf_entry fmt_lf ty) es ->
  sortable ty es.*2 -> (Z.of_nat (Datatypes.length es) <= INT_MAX)%Z -> fresh s ->
  wp (driver rand atof fmt_lf ty name) s (fun _ s' => heap s' = heap s /\ fresh s' /\
    exists es', sorted_entries ty es es' /\ writing f0 (outs ++ [(out_name ty, text fmt_lf es')]) 0 (io s')).
Proof.
  intros Hty Hw Hin Hout Hslot Hfile Hes Hs Hn Hb. unfold driver. apply wp_bind, wp_alloc, wp_bind, wp_in_io.
  eapply wp_mono; [eapply fopen_r_spec; [exact Hw|done..|lia]|]. intros f d [-> Hd]. apply wp_bind.
  eapply wp_derefs; [done|]. set (b := brk s).
  pose proof (holds_alloc _ _ _ _ (CChars EmptyString) (holds_empty s Hb)) as HL.
  apply (holds_io _ _ d) in HL. apply wp_bind. eapply wp_mono.
  { apply (read_lines_spec ty (<[brk s := CChars EmptyString]> (heap s)) es _ _ []); [done|exact HL|done|].
    by apply (text_fuel ty). }
  intros L1 s1 (items & HL1 & Hitems & Hf1). cbn in HL1, Hf1.
  assert (Hraw : <[brk s:=CChars EmptyString]> (heap s) !! b = Some (CChars EmptyString)) by apply lookup_insert_eq.
  assert (Hb1 : b ∉ addrs items) by (intros Hx%(h_own _ _ _ _ HL1); congruence).
  apply wp_bind. eapply wp_free; [rewrite (h_rest _ _ _ _ HL1) by done; exact Hraw|].
  apply (holds_delete _ _ _ _ b) in HL1; [|by eexists].
  rewrite delete_insert_id in HL1 by (by apply Hb).
  apply wp_bind. rewrite <- Hitems, <- values_entries in Hs.
  eapply wp_mono; [apply (sort_items rand ty (heap s) _ L1 items); [by apply keyed_valid|done..]|].
  intros L2 s2 (items2 & HL2 & Hr & Hf2). pose proof (insertion_sorted_perm _ _ _ Hr) as Hp.
  assert (Hw2 : writing f0 outs 1 (io s2)) by (rewrite Hf2; cbn; by rewrite Hf1).
  apply wp_bind. eapply wp_mono; [eapply print_spec; [exact HL2| |exact Hw2|done|done]|].
  { change (Forall (typed ty) (values items2)). unfold values. rewrite Hp. apply Hs. }
  intros _ s3 (d3 & -> & Hd3). apply (holds_io _ _ d3) in HL2.
  apply wp_bind. eapply wp_mono; [by eapply listDestructor_spec|].
  intros _ s4 (Hh4 & Hf4 & Hb4). apply wp_in_io. rewrite Hf4.
  eapply wp_mono; [by eapply fclose_r_spec|]. intros [] d4 Hd4. split; [done|]. split.
  { intros a Ha. cbn. rewrite Hh4. eapply holds_unused; [exact HL2|]. cbn in *. lia. }
  exists (entries items2). rewrite <- Hitems. split; [|done].
  apply insertion_sorted_entries; [done|apply Hs|done].
Qed.

(** C27: run on a file of well-formed [key=value] lines that is named after its
    type, the program returns 0 and, when it has ended and the library has flushed
    its streams, the output file holds the sorted entries, no other file is
    changed, and everything that was allocated has been freed.  The program starts
    without open streams. *)
Theorem main_sorts_file ty prog pre es s f0 :
  keyed_type ty -> pre <> EmptyString -> all_chars (fun c => negb (in_set DELIM c)) pre = true ->
  String.length (in_name ty pre) < MAX_STR ->
  io s = MkStdio f0 [] 0 ->
  f0 !! in_name ty pre = Some (text fmt_lf es) -> Forall (wf_entry fmt_lf ty) es ->
  sortable ty es.*2 -> (Z.of_nat (Datatypes.length es) <= INT_MAX)%Z -> fresh s ->
  wp (run_to_exit (main rand atof fmt_lf [prog; in_name ty pre; sort_name ty])) s (fun r s' =>
    r = 0%Z /\ heap s' = heap s /\
    exists es', sorted_entries ty es es' /\ io s' = MkStdio (<[out_name ty := text fmt_lf es']> f0) [] 0).
Proof.
  intros Hty Hne Hpre Hlen Hio Hfile Hes Hs Hn Hb. apply wp_bind. unfold main. apply wp_bind.
  eapply wp_lift; [by apply getType_spec|]. apply wp_bind. pose proof max_open_law.
  eapply wp_mono.
  { apply (driver_spec ty (in_name ty pre) es _ f0 []); try done; [|set_solver..|cbn; lia].
    rewrite Hio. apply writing_none. }
  intros u s' (Hh & _ & es' & Hes' & Hw). apply wp_ret. eapply wp_exit; [exact Hw|].
  cbn [app]. rewrite written_one. eauto.
Qed.
End driver.

(** ** Concrete lists *)

Section demo.
Context (v1 v2 v3 : cell).

Definition demo_items : list item := [MkItem 0 1 2 "x" v1; MkItem 3 4 5 "y" v2; MkItem 6 7 8 "z" v3].

Definition demo_heap : gmap nat cell :=
  <[0 := CNode (MkNode 1 2 (Some 3))]> (<[1 := CChars "x"]> (<[2 := v1]>
  (<[3 := CNode (MkNode 4 5 (Some 6))]> (<[4 := CChars "y"]> (<[5 := v2]>
  (<[6 := CNode (MkNode 7 8 None)]> (<[7 := CChars "z"]> (<[8 := v3]> ∅)))))))).

Definition demo_proc : proc := MkProc demo_heap 9 0 (MkStdio ∅ [] 0).

Lemma demo_holds : holds ∅ demo_proc (MkList (Some 0) 3) demo_items.
Proof.
  split; cbn -[demo_heap addrs].
  - repeat (split; [done|eexists; split; [by repeat split|]]). done.
  - done.
  - vm_compute. repeat constructor; set_solver.
  - intros a Ha. vm_compute addrs in Ha. unfold demo_heap. by rewrite !lookup_insert_ne by set_solver.
  - done.
  - intros a Ha. unfold demo_heap. by rewrite !lookup_insert_ne by lia.
Qed.
End demo.

Definition int_type (st : Z) : type_ := MkType st DATA_INT.
Definition double_type (st : Z) : type_ := MkType st DATA_DOUBLE.

Lemma demo_sortable st : sortable (int_type st) [CInt 9; CInt (-11); CInt 9].
Proof.
  split; [repeat constructor|].
  intros v w Hv Hw. right. rewrite !elem_of_cons, elem_of_nil in Hv, Hw. unfold cell_cmp, orient.
  destruct Hv as [->|[->|[->|[]]]], Hw as [->|[->|[->|[]]]]; case_decide; eexists; reflexivity.
Qed.

Lemma sort_sorts_witness :
  let items := demo_items (CInt 9) (CInt (-11)) (CInt 9) in
  wp (sort Z.of_nat (int_type SORT_INC) (MkList (Some 0) 3)) (demo_proc (CInt 9) (CInt (-11)) (CInt 9)) (fun L' s' =>
    exists items', holds ∅ s' L' items' /\
      sorted_entries (int_type SORT_INC) (entries items) (entries items') /\ io s' = MkStdio ∅ [] 0).
Proof.
  intros items. apply (sort_sorts Z.of_nat (int_type SORT_INC)).
  - split; vm_compute; set_solver.
  - apply demo_holds.
  - apply demo_sortable.
Defined.

Lemma sort_permutes_witness :
  let items := demo_items (CInt 9) (CInt (-11)) (CInt 9) in
  wp (sort Z.of_nat (int_type SORT_RAND) (MkList (Some 0) 3)) (demo_proc (CInt 9) (CInt (-11)) (CInt 9)) (fun L' s' =>
    exists items', holds ∅ s' L' items' /\ items' ≡ₚ items /\ length L' = 3%Z /\ io s' = MkStdio ∅ [] 0).
Proof.
  intros items. apply (sort_permutes Z.of_nat (int_type SORT_RAND)).
  - split; vm_compute; set_solver.
  - apply demo_holds.
  - apply demo_sortable.
Defined.

(** The doubles 1, 0.5 and 0.75. *)
Definition one : spec_float := S754_finite false 4503599627370496 (-52).
Definition half : spec_float := S754_finite false 4503599627370496 (-53).
Definition three_quarters : spec_float := S754_finite false 6755399441055744 (-53).

(** In increasing order the program prints 0.75, 0.5, 1. *)
Lemma sort_close_doubles_witness :
  let items := demo_items (CDouble one) (CDouble half) (CDouble three_quarters) in
  wp (sort Z.of_nat (double_type SORT_INC) (MkList (Some 0) 3))
     (demo_proc (CDouble one) (CDouble half) (CDouble three_quarters)) (fun L' s' =>
    exists items', holds ∅ s' L' items' /\ items' = reverse items).
Proof.
  intros items. apply (sort_close_doubles Z.of_nat (double_type SORT_INC)).
  - vm_compute. set_solver.
  - done.
  - apply demo_holds.
  - repeat constructor.
  - intros x y Hx Hy. cbn in Hx, Hy. rewrite !elem_of_cons, elem_of_nil in Hx, Hy.
    destruct Hx as [Hx|[Hx|[Hx|[]]]], Hy as [Hy|[Hy|[Hy|[]]]];
      injection Hx as ->; injection Hy as ->; vm_compute; reflexivity.
Defined.

Definition demo_entries : list (string * cell) := [("x", CInt 9); ("a", CInt (-11)); ("y", CInt 9)].
Definition demo_text : string := text (fun _ => "0") demo_entries.
Definition demo_files : gmap string string := {["rand_int.txt" := demo_text]}.
Definition demo_disk : proc := MkProc ∅ 0 0 (MkStdio demo_files [] 0).

Lemma main_sorts_file_witness :
  wp (@run_to_exit lazy_stdio _ (@main lazy_stdio Z.of_nat (fun _ => one) (fun _ => "0") ["ex2"; "rand_int.txt"; "inc"]))
     demo_disk (fun r s' =>
    r = 0%Z /\ heap s' = ∅ /\ exists es', sorted_entries (int_type SORT_INC) demo_entries es' /\
    io s' = MkStdio (<["inc_int.txt" := text (fun _ => "0") es']> demo_files) [] 0).
Proof.
  apply (@main_sorts_file lazy_stdio Z.of_nat (fun _ => one) (fun _ => "0") (int_type SORT_INC) "ex2" "rand" demo_entries).
  - split; vm_compute; set_solver.
  - done.
  - done.
  - apply Nat.ltb_lt. vm_compute. reflexivity.
  - done.
  - vm_compute. reflexivity.
  - repeat constructor; try done; apply Nat.ltb_lt; vm_compute; reflexivity.
  - apply demo_sortable.
  - done.
  - done.
Defined.
