(* ===== verification/UiMenu.v ===== *)
(** * The Lab 5 program: [Lab/Lab 5/code]

    The program of [ex2.c] split over [list.c], [sort.c] and [ui.c], with two
    drivers: [driver_cmd.c] takes the file and the order from the command line,
    [driver_menu.c] reads commands from the terminal until [exit].  The functions
    of the first three files repeat those of [ex2.c] word for word (but for the
    [memset] of two buffers that are overwritten anyway), and so do the
    definitions here. *)
From S2P Require Import Prelude StateM CString SortList.
From Stdlib Require Import SpecFloat.

(** ** [list.c] *)

Definition listConstructor : List := SortList.listConstructor.
Definition listAdd (list : List) (node : nat) : ST proc List := SortList.listAdd list node.
Definition listSearch (list : List) (k : string) : ST proc (option nat) := SortList.listSearch list k.
Definition listDestructor (list : List) : ST proc unit := SortList.listDestructor list.

Section program.
Context {sio : Stdio} (rand : nat -> Z) (atof : string -> spec_float) (fmt_lf : spec_float -> string).

(** ** [sort.c] *)

Definition cmp : list (list comparator) := SortList.cmp rand.
Definition sort (type : type_) (list : List) : ST proc List := SortList.sort rand type list.

(** ** [ui.c] *)

Definition getType (argv1 argv2 : string) : exec type_ := SortList.getType argv1 argv2.
Definition insert (list : List) (k d : nat) : ST proc List := SortList.insert list k d.
Definition print (type : type_) (list : List) : ST proc unit := SortList.print fmt_lf type list.

(** The reading loop, and [ui_cmd] around it. *)
Definition read_lines (fuel : nat) (type : type_) (list : List) (fin : string) : ST proc List :=
  SortList.read_lines atof fuel type list fin.

Definition ui_cmd (type : type_) (argv1 : string) : ST proc unit :=
  raw ← alloc (CChars EmptyString);
  f ← in_io (fopen_r argv1);
  fin ← derefs NullDeref f;
  list ← read_lines (S (String.length fin)) type listConstructor fin;
  _ ← free raw;
  list ← sort type list;
  _ ← print type list;
  _ ← listDestructor list;
  in_io fclose_r.

(** [driver_cmd.c] *)
Definition driver_cmd (argv : list string) : ST proc Z :=
  match argv with
  | [_; argv1; argv2] =>
      type ← lift (getType argv1 argv2);
      _ ← ui_cmd type argv1;
      mret 0%Z
  | _ => mret (-1)%Z
  end.

(** ** The menu *)

(** The process and what the user has typed but not yet been read. *)
Record console := MkConsole { memory : proc; stdin : string }.

Definition in_memory {A} (m : ST proc A) : ST console A := fun s =>
  '(a, p) ← m (memory s); Done (a, MkConsole p (stdin s)).

(** One round of the [while]: the new [isExit].  When [fgets] or [strtok] fails
    the program prints an error and goes on, with a buffer that was never written
    or with a NULL pointer. *)
Definition menu_round : ST console bool :=
  key0 ← in_memory (alloc (CChars EmptyString));
  key1 ← in_memory (alloc (CChars EmptyString));
  key2 ← in_memory (alloc (CChars EmptyString));
  input ← gets (fun s => fgets MAX_STR (stdin s));
  '(tmp, rest) ← derefs Undefined input;
  _ ← modify (fun s => MkConsole (memory s) rest);
  let '(token, more) := strtok (" " +:+ line_end) (cstr tmp) in
  t1 ← derefs NullDeref token;
  _ ← in_memory (store_chars key1 t1);
  k1 ← in_memory (load as_chars key1);
  isExit ←
    (if decide (strcmp k1 "exit" = 0)%Z then mret true
     else
       t2 ← derefs NullDeref (strtok (" " +:+ line_end) more).1;
       _ ← in_memory (store_chars key2 t2);
       k2 ← in_memory (load as_chars key2);
       type ← lift (getType k1 k2);
       _ ← in_memory (ui_cmd type k1);
       mret false);
  _ ← in_memory (free key0);
  _ ← in_memory (free key1);
  _ ← in_memory (free key2);
  mret isExit.

(** [while(!isExit)]: each round reads some input. *)
Fixpoint menu_loop (fuel : nat) : ST console unit :=
  match fuel with
  | O => raise OutOfFuel
  | S fuel => isExit ← menu_round; if isExit : bool then mret tt else menu_loop fuel
  end.

Definition ui_menu : ST console unit :=
  fuel ← gets (fun s => S (String.length (stdin s)));
  menu_loop fuel.

(** [driver_menu.c] *)
Definition driver_menu : ST console Z :=
  _ ← ui_menu;
  mret 0%Z.

(** The menu program with the flushing at its end. *)
Definition menu_to_exit : ST console Z :=
  r ← driver_menu;
  _ ← in_memory (in_io exit_streams);
  mret r.
End program.
