(* ===== verification/UiMenuProps.v ===== *)
(** * A session at the menu

    Each command of a session sorts its file, as the command line program does.
    But [print] leaves the stream of its output file open, and what it printed may
    stay in the buffer until the program ends: the session is right when no
    command reads or writes an output of an earlier one, and the examples at the
    end show what may happen otherwise. *)
From S2P Require Import Prelude StateM CString SortList SortListInv SortListSort SortListProps UiMenu.
From Stdlib Require Import SpecFloat.

Section session.
Context {sio : Stdio} (rand : nat -> Z) (atof : string -> spec_float) (fmt_lf : spec_float -> string).

(** ** Commands *)

(** A type, the prefix of the input file, and the entries the file holds. *)
Record command := MkCommand { c_type : type_; c_pre : string; c_entries : list (string * cell) }.

Definition word_char (c : ascii) : bool := not_nul c && negb (in_set (" " +:+ line_end) c).

Definition command_line (c : command) : string :=
  in_name (c_type c) (c_pre c) +:+ String " "%char (sort_name (c_type c) +:+ line_end).

(** What the menu accepts. *)
Record command_ok (c : command) : Prop := {
  k_type : keyed_type (c_type c);
  k_pre : c_pre c <> EmptyString;
  k_chars : all_chars (fun c => negb (in_set DELIM c)) (c_pre c) = true;
  k_word : all_chars word_char (c_pre c) = true;
  k_line : String.length (command_line c) < MAX_STR;
  k_entries : Forall (wf_entry fmt_lf (c_type c)) (c_entries c);
  k_sortable : sortable (c_type c) (c_entries c).*2;
  k_count : (Z.of_nat (Datatypes.length (c_entries c)) <= INT_MAX)%Z
}.

Definition c_in (c : command) : string := in_name (c_type c) (c_pre c).
Definition c_out (c : command) : string := out_name (c_type c).

(** The commands can be run one after the other on the files [f0], when the files
    [seen] have been written: each finds its file, and neither reads nor writes a
    file that was written before it. *)
Fixpoint session (seen : list string) (cs : list command) (f0 : gmap string string) : Prop :=
  match cs with
  | [] => True
  | c :: cs =>
      command_ok c /\ f0 !! c_in c = Some (text fmt_lf (c_entries c)) /\
      c_in c ∉ seen /\ c_out c ∉ seen /\ session (seen ++ [c_out c]) cs f0
  end.

(** [o] is the file a command writes, with the sorted entries of its input. *)
Definition output_of (c : command) (o : string * string) : Prop :=
  o.1 = c_out c /\ exists es', sorted_entries (c_type c) (c_entries c) es' /\ o.2 = text fmt_lf es'.

Definition typed_text (cs : list command) : string :=
  foldr (fun c t => command_line c +:+ t) ("exit" +:+ line_end) cs.

(** ** One round *)

Lemma wp_in_memory {A} (m : ST proc A) s (Q : A -> console -> Prop) :
  wp m (memory s) (fun a p => Q a (MkConsole p (stdin s))) -> wp (in_memory m) s Q.
Proof.
  intros ([a p] & Hm & HQ). exists (a, MkConsole p (stdin s)). split; [|done]. unfold in_memory. by rewrite Hm.
Qed.

(** The three buffers of a round, and the memory below them. *)
Definition with_keys (h : gmap nat cell) (b : nat) (t1 t2 : string) : gmap nat cell :=
  <[S (S b) := CChars t2]> (<[S b := CChars t1]> (<[b := CChars EmptyString]> h)).

(** What a heap with some new cells holds at an address. *)
Local Ltac lookup_at := rewrite ?lookup_delete, ?lookup_insert; repeat case_decide; first [lia | done].

(** The last statements of a round give the buffers back. *)
Lemma free_keys b t1 t2 h r s (Q : bool -> console -> Prop) :
  (forall a, b <= a -> h !! a = None) -> heap (memory s) = with_keys h b t1 t2 ->
  Q r (MkConsole (set_heap h (memory s)) (stdin s)) ->
  wp (_ ← in_memory (free b); _ ← in_memory (free (S b)); _ ← in_memory (free (S (S b))); mret r) s Q.
Proof.
  intros Hb Hh HQ.
  assert (Hdel : delete (S (S b)) (delete (S b) (delete b (with_keys h b t1 t2))) = h).
  { unfold with_keys. apply map_eq. intros a. pose proof (Hb a).
    rewrite !lookup_delete, !lookup_insert. repeat case_decide; try done; symmetry; apply Hb; lia. }
  apply wp_bind, wp_in_memory. eapply wp_free; [rewrite Hh; unfold with_keys; lookup_at|].
  apply wp_bind, wp_in_memory. eapply wp_free; [cbn; rewrite Hh; unfold with_keys; lookup_at|].
  apply wp_bind, wp_in_memory. eapply wp_free; [cbn; rewrite Hh; unfold with_keys; lookup_at|].
  apply wp_ret. cbn. rewrite Hh, Hdel. exact HQ.
Qed.

Lemma fgets_line body rest : all_chars (fun c => negb (Ascii.eqb c newline)) body = true ->
  String.length body < MAX_STR - 1 -> fgets MAX_STR (body +:+ line_end +:+ rest) = Some (body +:+ line_end, rest).
Proof.
  intros Hb Hl. pose proof (line_app (MAX_STR - 1) body rest Hb Hl) as Hline. unfold fgets.
  change (line_end +:+ rest) with (String newline rest). rewrite Hline. by destruct body.
Qed.

(** What [menu_round] leaves of the memory and the input. *)
Definition round_post (s : console) (isExit : bool) (rest : string) (r : bool) (s' : console) : Prop :=
  r = isExit /\ heap (memory s') = heap (memory s) /\ fresh (memory s') /\ stdin s' = rest.

(** At most four files are written: two types and two orders. *)
Definition output_names : list string := ["inc_int.txt"; "dec_int.txt"; "inc_char.txt"; "dec_char.txt"].

Lemma out_name_known ty : keyed_type ty -> out_name ty ∈ output_names.
Proof.
  intros [Hs Hd]. destruct ty as [st dt]. cbn [sortType dataType] in *. rewrite !elem_of_cons, elem_of_nil in Hs, Hd.
  destruct Hs as [->|[->|[]]], Hd as [->|[->|[]]]; vm_compute; set_solver.
Qed.

(** So there is a stream left for one more. *)
Lemma slot_left names name : names ⊆ output_names -> name ∈ output_names -> NoDup names -> name ∉ names ->
  Datatypes.length names + 1 < max_open.
Proof.
  intros Hn Hname Hnd Hnew. pose proof max_open_law.
  assert (Hle : Datatypes.length (name :: names) <= Datatypes.length output_names).
  { apply submseteq_length, NoDup_submseteq; [by constructor|]. set_solver. }
  cbn in Hle. lia.
Qed.

Lemma menu_round_exit s rest : fresh (memory s) -> stdin s = "exit" +:+ line_end +:+ rest ->
  wp (menu_round rand atof fmt_lf) s (fun r s' => round_post s true rest r s' /\ io (memory s') = io (memory s)).
Proof.
  intros Hf Hin. unfold menu_round. do 3 apply wp_bind, wp_in_memory, wp_alloc. cbn [memory stdin heap brk io].
  apply wp_bind, wp_gets, wp_bind. cbn [stdin]. rewrite Hin.
  eapply wp_derefs; [apply fgets_line; [done|apply Nat.ltb_lt; reflexivity]|]. apply wp_bind, wp_modify.
  change (strtok (" " +:+ line_end) (cstr ("exit" +:+ line_end))) with (Some "exit", EmptyString). cbn match.
  apply wp_bind. eapply wp_derefs; [done|]. apply wp_bind, wp_in_memory. eapply wp_store_chars.
  { cbn. rewrite lookup_insert_ne by lia. apply lookup_insert_eq. }
  apply wp_bind, wp_in_memory. eapply wp_load; [apply lookup_insert_eq|done|].
  apply wp_bind. rewrite decide_True by done. apply wp_ret.
  eapply (free_keys (brk (memory s)) "exit" EmptyString (heap (memory s))); [done| |].
  { cbn. unfold with_keys. rewrite insert_insert_ne by lia. by rewrite insert_insert_eq. }
  cbn. repeat split. intros a Ha. apply Hf. cbn in *. lia.
Qed.
(** ** Commands *)

Lemma in_name_words c : command_ok c -> all_chars word_char (in_name (c_type c) (c_pre c)) = true.
Proof.
  intros Hc. unfold in_name. rewrite all_chars_app, (k_word _ Hc). unfold data_name. by case_decide.
Qed.

(** The two words of a command. *)
Lemma command_tokens c : command_ok c ->
  cstr (command_line c) = command_line c /\
  strtok (" " +:+ line_end) (command_line c)
    = (Some (in_name (c_type c) (c_pre c)), sort_name (c_type c) +:+ line_end) /\
  (strtok (" " +:+ line_end) (sort_name (c_type c) +:+ line_end)).1 = Some (sort_name (c_type c)).
Proof.
  intros Hc. pose proof (in_name_words c Hc) as Hw. split_and!.
  - apply cstr_id. unfold command_line. rewrite all_chars_app. apply andb_true_intro. split.
    + eapply all_chars_mono; [|exact Hw]. intros ch [H _]%andb_prop. exact H.
    + unfold sort_name. by case_decide.
  - unfold command_line. apply strtok_token; [|eapply all_chars_mono; [|exact Hw]|done].
    + unfold in_name. pose proof (k_pre _ Hc). by destruct (c_pre c).
    + intros ch [_ H]%andb_prop. exact H.
  - unfold sort_name. by case_decide.
Qed.

Lemma command_not_exit c : command_ok c -> strcmp (in_name (c_type c) (c_pre c)) "exit" <> 0%Z.
Proof.
  intros Hc He%strcmp_eq. apply (f_equal String.length) in He. unfold in_name in He.
  rewrite !str_length_app in He. cbn in He. lia.
Qed.

Lemma fgets_command c rest : command_ok c ->
  fgets MAX_STR (command_line c +:+ rest) = Some (command_line c, rest).
Proof.
  intros Hc. pose proof (in_name_words c Hc) as Hw. pose proof (k_line _ Hc) as Hl.
  assert (Hcl : command_line c = (in_name (c_type c) (c_pre c) +:+ " " +:+ sort_name (c_type c)) +:+ line_end)
    by (unfold command_line; by rewrite !str_app_assoc).
  rewrite Hcl in *. rewrite str_app_assoc. apply fgets_line.
  - rewrite !all_chars_app. apply andb_true_intro. split; [|unfold sort_name; by case_decide].
    eapply all_chars_mono; [|exact Hw]. intros ch [_ H]%andb_prop.
    destruct (Ascii.eqb ch newline) eqn:He; [|done]. apply Ascii.eqb_eq in He as ->. done.
  - rewrite str_length_app in Hl. cbn [String.length line_end] in Hl. lia.
Qed.

Lemma in_name_length c : command_ok c -> String.length (in_name (c_type c) (c_pre c)) < MAX_STR.
Proof. intros Hc. pose proof (k_line _ Hc) as Hl. unfold command_line in Hl. rewrite str_length_app in Hl. lia. Qed.

Lemma menu_round_command c s rest f0 outs : command_ok c -> fresh (memory s) ->
  stdin s = command_line c +:+ rest -> writing f0 outs 0 (io (memory s)) ->
  c_in c ∉ outs.*1 -> c_out c ∉ outs.*1 -> Datatypes.length outs + 1 < max_open ->
  f0 !! c_in c = Some (text fmt_lf (c_entries c)) ->
  wp (menu_round rand atof fmt_lf) s (fun r s' => round_post s false rest r s' /\
    exists o, output_of c o /\ writing f0 (outs ++ [o]) 0 (io (memory s'))).
Proof.
  intros Hc Hf Hin Hw Hnin Hnout Hslot Hfile. destruct (command_tokens c Hc) as (Hcs & Ht1 & Ht2).
  unfold menu_round. do 3 apply wp_bind, wp_in_memory, wp_alloc. cbn [memory stdin heap brk io].
  apply wp_bind, wp_gets, wp_bind. cbn [stdin]. rewrite Hin.
  eapply wp_derefs; [by apply fgets_command|]. apply wp_bind, wp_modify. rewrite Hcs, Ht1.
  apply wp_bind. eapply wp_derefs; [done|]. apply wp_bind, wp_in_memory. eapply wp_store_chars.
  { cbn. rewrite lookup_insert_ne by lia. apply lookup_insert_eq. }
  apply wp_bind, wp_in_memory. eapply wp_load; [apply lookup_insert_eq|done|]. cbn [memory stdin heap set_heap brk io].
  apply wp_bind. rewrite decide_False by by apply command_not_exit.
  apply wp_bind. eapply wp_derefs; [exact Ht2|]. apply wp_bind, wp_in_memory. eapply wp_store_chars.
  { cbn. rewrite lookup_insert_ne by lia. apply lookup_insert_eq. }
  apply wp_bind, wp_in_memory. eapply wp_load; [apply lookup_insert_eq|done|].
  apply wp_bind. eapply wp_lift; [apply getType_spec; [apply Hc..|by apply in_name_length]|].
  apply wp_bind, wp_in_memory. cbn [memory stdin heap set_heap brk io].
  set (h := heap (memory s)). set (b := brk (memory s)).
  eapply wp_mono.
  { apply (driver_spec rand atof fmt_lf (c_type c) (c_in c) (c_entries c) _ f0 outs);
      [apply Hc|exact Hw|done..|apply Hc|apply Hc|apply Hc|]. intros a Ha. cbn in *.
    rewrite !lookup_insert_ne by lia. apply Hf. fold b. lia. }
  intros u p (Hh & Hfr & es' & Hes & Hfs). cbn in Hh, Hfs. apply wp_ret.
  eapply (free_keys b (in_name (c_type c) (c_pre c)) (sort_name (c_type c)) h); [done| |].
  { cbn [memory]. rewrite Hh. unfold with_keys. apply map_eq. intros a. lookup_at. }
  split; [|exists (c_out c, text fmt_lf es'); split; [split; [done|by exists es']|exact Hfs]].
  repeat split. cbn. intros a Ha. specialize (Hfr a Ha).
  rewrite Hh, !lookup_insert in Hfr. by repeat case_decide.
Qed.

(** ** Sessions *)

Lemma menu_loop_session cs fuel s f0 outs : session outs.*1 cs f0 -> fresh (memory s) ->
  writing f0 outs 0 (io (memory s)) -> outs.*1 ⊆ output_names ->
  stdin s = typed_text cs -> Datatypes.length cs < fuel ->
  wp (menu_loop rand atof fmt_lf fuel) s (fun _ s' => heap (memory s') = heap (memory s) /\
    exists new, Forall2 output_of cs new /\ writing f0 (outs ++ new) 0 (io (memory s'))).
Proof.
  revert fuel s outs. induction cs as [|c cs IH]; intros fuel s outs Hs Hf Hw Hnames Hin Hfuel;
    (destruct fuel as [|fuel]; [cbn in Hfuel; lia|]); cbn [menu_loop].
  - apply wp_bind. eapply wp_mono; [apply (menu_round_exit s EmptyString); [done|by rewrite Hin, str_app_nil]|].
    intros r s' [(-> & Hh & _) Hio]. apply wp_ret. split; [done|]. exists [].
    rewrite app_nil_r, Hio. by split; [constructor|].
  - destruct Hs as (Hc & Hfile & Hni & Hno & Hs). apply wp_bind. eapply wp_mono.
    { apply (menu_round_command c s (typed_text cs) f0 outs); try done. rewrite <- (length_fmap fst).
      eapply slot_left; [done|apply out_name_known, Hc|apply Hw|exact Hno]. }
    intros r s' [(-> & Hh & Hf' & Hin') (o & Ho & Hw')]. assert (Hofst := proj1 Ho).
    eapply wp_mono; [apply (IH fuel s' (outs ++ [o])); [|exact Hf'|exact Hw'| |exact Hin'|cbn in Hfuel; lia]|].
    + by rewrite fmap_app; cbn; rewrite Hofst.
    + rewrite fmap_app. cbn. rewrite Hofst. pose proof (out_name_known _ (k_type _ Hc)). set_solver.
    + intros u s'' (Hh' & new & Hnew & Hw''). split; [by rewrite Hh'|]. exists (o :: new).
      rewrite <- app_assoc in Hw''. by split; [constructor|].
Qed.

Lemma typed_text_length cs : Datatypes.length cs <= String.length (typed_text cs).
Proof.
  induction cs as [|c cs IH]; [cbn; lia|].
  change (typed_text (c :: cs)) with (command_line c +:+ typed_text cs).
  rewrite str_length_app. unfold command_line, in_name. rewrite !str_length_app. cbn in *. lia.
Qed.

(** C32: a session at the menu, of commands none of which reads or writes the
    output file of an earlier one, ends at [exit], returns 0 and leaves the memory
    as it was.  When the program has ended and its streams are flushed, each
    command has sorted its file to the output file of its type and order, and no
    other file is changed.  The library always has a stream for these commands. *)
Theorem menu_session cs s f0 : session [] cs f0 -> fresh (memory s) -> stdin s = typed_text cs ->
  io (memory s) = MkStdio f0 [] 0 ->
  wp (menu_to_exit rand atof fmt_lf) s (fun r s' => r = 0%Z /\ heap (memory s') = heap (memory s) /\
    exists outs, Forall2 output_of cs outs /\ NoDup outs.*1 /\
      io (memory s') = MkStdio (written outs f0) [] 0).
Proof.
  intros Hs Hf Hin Hio. unfold menu_to_exit, driver_menu, ui_menu. apply wp_bind, wp_bind, wp_bind, wp_gets.
  eapply wp_mono; [apply (menu_loop_session cs _ s f0 []); try done|].
  - rewrite Hio. apply writing_none.
  - set_solver.
  - rewrite Hin. pose proof (typed_text_length cs). lia.
  - intros u s' (Hh & outs & Houts & Hw). apply wp_ret. apply wp_bind, wp_in_memory, wp_in_io.
    eapply wp_mono; [by eapply exit_streams_spec|]. intros _ d ->. apply wp_ret. split; [done|].
    split; [done|]. exists outs. split; [done|]. split; [apply Hw|done].
Qed.

(** At the end of the input the menu goes on with a buffer it has not read. *)
Lemma menu_end_of_input s : stdin s = EmptyString -> driver_menu rand atof fmt_lf s = Fault Undefined.
Proof.
  intros Hin. unfold driver_menu, ui_menu, mbind, st_bind, gets. rewrite Hin. cbn -[menu_round].
  unfold menu_round, mbind, st_bind, gets, in_memory, derefs, raise. cbn. by rewrite Hin.
Qed.
End session.

(** ** A session of two commands on one file *)

Definition demo_command (st : Z) : command := MkCommand (int_type st) "rand" demo_entries.
Definition two_commands : list command := [demo_command SORT_INC; demo_command SORT_DEC].
Definition console_of (f : gmap string string) (cs : list command) : console :=
  MkConsole (MkProc ∅ 0 0 (MkStdio f [] 0)) (typed_text cs).
Definition demo_menu (sio : Stdio) (f : gmap string string) (cs : list command) : exec (gmap string string) :=
  '(_, s) ← @menu_to_exit sio Z.of_nat (fun _ => one) (fun _ => "0") (console_of f cs);
  Done (files (memory s)).

Lemma demo_command_ok st : st ∈ [SORT_INC; SORT_DEC] -> command_ok (fun _ => "0") (demo_command st).
Proof.
  intros Hst. split; cbn [c_type c_pre c_entries demo_command]; try done.
  - split; [done|vm_compute; set_solver].
  - unfold command_line, sort_name. case_decide; apply Nat.ltb_lt; vm_compute; reflexivity.
  - repeat constructor; try done; apply Nat.ltb_lt; vm_compute; reflexivity.
  - apply demo_sortable.
Qed.

Lemma menu_session_witness :
  wp (@menu_to_exit lazy_stdio Z.of_nat (fun _ => one) (fun _ => "0")) (console_of demo_files two_commands) (fun r s' =>
    r = 0%Z /\ heap (memory s') = ∅ /\ exists outs, Forall2 (output_of (fun _ => "0")) two_commands outs /\
      NoDup outs.*1 /\ io (memory s') = MkStdio (written outs demo_files) [] 0).
Proof.
  apply (@menu_session lazy_stdio Z.of_nat (fun _ => one) (fun _ => "0") two_commands
    (console_of demo_files two_commands) demo_files); [|done|done|done].
  split; [apply demo_command_ok; set_solver|]. split; [reflexivity|]. split; [set_solver|]. split; [set_solver|].
  split; [apply demo_command_ok; set_solver|]. split; [reflexivity|]. split; [set_solver|].
  split; [vm_compute; set_solver|done].
Defined.

(** ** What the open streams do to other sessions *)

Definition demo_sorted : string := text (fun _ => "0") [("a", CInt (-11)); ("y", CInt 9); ("x", CInt 9)].

(** A command that works on the output of the one before it finds an empty file
    while that output is in the buffer, and writes an empty file itself. *)
Example menu_chained : demo_menu lazy_stdio demo_files
    [demo_command SORT_INC; MkCommand (int_type SORT_DEC) "inc" []] =
  Done (<["dec_int.txt" := ""]> (<["inc_int.txt" := demo_sorted]> demo_files)).
Proof. vm_compute. reflexivity. Qed.

(** Two commands with one output file: its two streams are flushed over each other,
    here the older one last, so that the result of the second command is lost. *)
Definition two_files : gmap string string := <["few_int.txt" := "b=7" +:+ line_end]> demo_files.

Example menu_overlap : demo_menu lazy_stdio two_files
    [demo_command SORT_INC; MkCommand (int_type SORT_INC) "few" []] =
  Done (<["inc_int.txt" := demo_sorted]> two_files).
Proof. vm_compute. reflexivity. Qed.

(** A library with as few streams as the C standard allows. *)
Program Definition few_streams : Stdio :=
  {| transmits o := String.length (s_buf o); max_open := 5; flush_order n := seq 0 n |}.
Next Obligation. done. Qed.
Next Obligation. done. Qed.

(** Its fifth command cannot open its output, and [fprintf] gets NULL. *)
Example menu_exhausts : demo_menu few_streams demo_files (replicate 5 (demo_command SORT_INC)) = Fault NullDeref.
Proof. vm_compute. reflexivity. Qed.
