(* ===== verification/PluginApi.v ===== *)
(** * What the plug-ins of the sorting program share

    [Lab/Lab 6/cmplx-sort/src-kernel]: the list of [list.c] (the text of Lab 5
    once more), the types of [plugin.h], and the interface of [plugin-api.h]: a
    plug-in is a function [ui_cmd] of the program's arguments. *)
From S2P Require Import Prelude StateM CString SortList.

(** ** [list.c] *)

Definition listConstructor : List := SortList.listConstructor.
Definition listAdd (list : List) (node : nat) : ST proc List := SortList.listAdd list node.
Definition listSearch (list : List) (k : string) : ST proc (option nat) := SortList.listSearch list k.
Definition listDestructor (list : List) : ST proc unit := SortList.listDestructor list.

(** ** [plugin.h], [plugin-api.h] *)

Definition SORT_RAND : Z := 0.
Definition SORT_INC : Z := 1.
Definition SORT_DEC : Z := 2.
Definition SORT_NULL : Z := -1.

Definition DATA_CHAR : Z := 0.
Definition DATA_INT : Z := 1.
Definition DATA_DOUBLE : Z := 2.
Definition DATA_NULL : Z := -1.

(** [void ui_cmd(char *argv[])] *)
Definition ui_fun : Type := list string -> ST proc unit.

(** An argument of the program: [argv\[i\]]. *)
Definition arg (argv : list string) (i : nat) : ST proc string := derefs NullDeref (argv !! i).
