(* ===== verification/PluginTxt.v ===== *)
(** * The plug-in for text files: [Lab/Lab 6/cmplx-sort/src-plugin-txt]

    [sort.c] and [ui.c] are those of Lab 5, except that [ui_cmd] finds the type of
    the list by itself. *)
From S2P Require Import Prelude StateM CString SortList PluginApi.
From Stdlib Require Import SpecFloat.

Section plugin.
Context {sio : Stdio} (rand : nat -> Z) (atof : string -> spec_float) (fmt_lf : spec_float -> string).

(** ** [sort.c] *)

Definition cmp : list (list comparator) := SortList.cmp rand.
Definition sort (type : type_) (list : List) : ST proc List := SortList.sort rand type list.

(** ** [ui.c] *)

Definition getType (argv : list string) : ST proc type_ :=
  a1 ← arg argv 1;
  a2 ← arg argv 2;
  lift (SortList.getType a1 a2).

Definition insert (list : List) (k d : nat) : ST proc List := SortList.insert list k d.
Definition print (type : type_) (list : List) : ST proc unit := SortList.print fmt_lf type list.

Definition ui_cmd : ui_fun := fun argv =>
  type ← getType argv;
  raw ← alloc (CChars EmptyString);
  argv1 ← arg argv 1;
  f ← in_io (fopen_r argv1);
  fin ← derefs NullDeref f;
  list ← read_lines atof (S (String.length fin)) type listConstructor fin;
  _ ← free raw;
  list ← sort type list;
  _ ← print type list;
  _ ← listDestructor list;
  in_io fclose_r.
End plugin.
