(* ===== verification/PluginCsv.v ===== *)
(** * The plug-in for CSV files: [Lab/Lab 6/cmplx-sort/src-plugin-csv]

    The first line of the file names an order and a type per column, the other
    lines hold a [key=value] cell per column; each column is sorted by itself and
    the table is written to [export.csv].  [strsep] cuts a line into cells by
    writing NULs into the buffer, which the header loop reads through two
    pointers, so the buffer and the offsets into it are modelled. *)
From S2P Require Import Prelude StateM CString SortList PluginApi.
From Stdlib Require Import SpecFloat.

Definition MAX_COLUMN : nat := 36.
Definition comma_line : string := String ","%char line_end.
Definition EXPORT : string := "export.csv".

(** ** Buffers *)

Fixpoint str_set (n : nat) (c : ascii) (s : string) : string :=
  match s with
  | EmptyString => EmptyString
  | String d r => match n with O => String c r | S n => String d (str_set n c r) end
  end.

(** The C string that starts at offset [p] of the buffer [b]. *)
Definition string_at (b p : nat) : ST proc string :=
  s ← load as_chars b; mret (cstr (str_drop p s)).

(** [strsep(&p, set)] on a pointer into the buffer [b]: the token that starts at
    [p] is ended by a NUL, and [p] is set behind it, or to NULL when the string
    ends with the token. *)
Definition strsep (b : nat) (p : option nat) (set : string) : ST proc (option nat * option nat) :=
  match p with
  | None => mret (None, None)
  | Some p =>
      t ← string_at b p;
      match span (fun c => negb (in_set set c)) t with
      | (tok, EmptyString) => mret (Some p, None)
      | (tok, String _ _) =>
          let q := p + String.length tok in
          u ← load as_chars b;
          _ ← store_chars b (str_set q "000"%char u);
          mret (Some p, Some (S q))
      end
  end.

Section plugin.
Context {sio : Stdio} (rand : nat -> Z) (atof : string -> spec_float) (fmt_lf : spec_float -> string).

(** ** [sort.c] *)

Definition cmp : list (list comparator) := SortList.cmp rand.
Definition sort (type : type_) (list : List) : ST proc List := SortList.sort rand type list.

(** ** [ui.c] *)

Definition getType (argv : string) : exec type_ :=
  if decide (String.length argv < MAX_STR) then
    let '(token, rest) := strtok ("_ " +:+ line_end) argv in
    token ← deref NullDeref token;
    let sortType :=
      if decide (strcmp token "rand" = 0)%Z then SORT_RAND
      else if decide (strcmp token "inc" = 0)%Z then SORT_INC
      else if decide (strcmp token "dec" = 0)%Z then SORT_DEC
      else SORT_NULL in
    token ← deref NullDeref (strtok ("_ " +:+ line_end) rest).1;
    let dataType :=
      if decide (strcmp token "int" = 0)%Z then DATA_INT
      else if decide (strcmp token "char" = 0)%Z then DATA_CHAR
      else if decide (strcmp token "double" = 0)%Z then DATA_DOUBLE
      else DATA_NULL in
    _ ← assertC (dataType <> DATA_NULL /\ sortType <> SORT_NULL);
    mret (MkType sortType dataType)
  else Fault OutOfBounds.

Definition insert (list : List) (k d : nat) : ST proc List := SortList.insert list k d.

(** The local variables of [ui_cmd]: the arrays [type] and [list], whose cells are
    [None] until they are written, the counters and the first line. *)
Record table := MkTable {
  types : list (option type_);
  lists : list (option List);
  lineCnt : Z;
  columnCnt : nat;
  FIRST : option string
}.

Definition empty_table : table := MkTable (replicate MAX_COLUMN None) (replicate MAX_COLUMN None) (-1) 0 None.

(** The body of the loop over the cells of the first line. *)
Definition add_column (ty : type_) (t : table) : exec table :=
  if decide (columnCnt t < MAX_COLUMN) then
    Done (MkTable (<[columnCnt t := Some ty]> (types t)) (<[columnCnt t := Some listConstructor]> (lists t))
                  (lineCnt t) (S (columnCnt t)) (FIRST t))
  else Fault OutOfBounds.

(** [while (raww != NULL && tmpKeyI != "\0")]: no pointer into the buffer is the
    address of the literal. *)
Fixpoint header_loop (fuel : nat) (b : nat) (tmpKeyI raww : option nat) (t : table) : ST proc table :=
  match raww with
  | None => mret t
  | Some _ =>
      match fuel with
      | O => raise OutOfFuel
      | S fuel =>
          p ← derefs NullDeref tmpKeyI;
          tok ← string_at b p;
          ty ← lift (getType tok);
          t ← lift (add_column ty t);
          '(tmpKeyI, raww) ← strsep b raww comma_line;
          header_loop fuel b tmpKeyI raww t
      end
  end.

(** The first line: the first [strsep] moves [rawww], the others [raww]. *)
Definition read_header (raw : string) (raww : nat) (t : table) : ST proc table :=
  let t := MkTable (types t) (lists t) (lineCnt t) (columnCnt t) (Some raw) in
  '(tmpKeyI, _) ← strsep raww (Some 0) comma_line;
  header_loop (S (S (String.length raw))) raww tmpKeyI (Some 0) t.

(** A cell of the array [type] or [list]: reading one that was never written is
    undefined. *)
Definition cell_at {A} (l : list (option A)) (i : nat) : ST proc A :=
  c ← derefs OutOfBounds (l !! i); derefs Undefined c.

(** The body of the loop over the cells of another line. *)
Definition add_cell (ty : type_) (list : List) (tok : string) : ST proc List :=
  let '(tmpKey, rest) := strtok "=" tok in
  let '(tmpData, _) := strtok (" " +:+ line_end) rest in
  t ← derefs NullDeref tmpData;
  d ← read_data atof ty t;
  k ← derefs NullDeref tmpKey;
  k ← alloc (CChars k);
  insert list k d.

Fixpoint cells_loop (fuel : nat) (b : nat) (tmpKeyI raww : option nat) (columnTmp : nat) (t : table) : ST proc table :=
  match raww with
  | None => mret t
  | Some _ =>
      match fuel with
      | O => raise OutOfFuel
      | S fuel =>
          p ← derefs NullDeref tmpKeyI;
          tok ← string_at b p;
          ty ← cell_at (types t) columnTmp;
          l ← cell_at (lists t) columnTmp;
          l ← add_cell ty l tok;
          let t := MkTable (types t) (<[columnTmp := Some l]> (lists t)) (lineCnt t) (columnCnt t) (FIRST t) in
          '(tmpKeyI, raww) ← strsep b raww comma_line;
          cells_loop fuel b tmpKeyI raww (S columnTmp) t
      end
  end.

Definition read_row (raw : string) (raww : nat) (t : table) : ST proc table :=
  '(tmpKeyI, p) ← strsep raww (Some 0) comma_line;
  cells_loop (S (S (String.length raw))) raww tmpKeyI p 0 t.

(** One pass of the reading loop.  The buffer [raww] is never freed. *)
Definition read_line (raw : string) (t : table) : ST proc table :=
  raww ← alloc (CChars raw);
  t ← (if decide (lineCnt t = -1)%Z then read_header raw raww t else read_row raw raww t);
  n ← lift (int_expr (lineCnt t + 1));
  mret (MkTable (types t) (lists t) n (columnCnt t) (FIRST t)).

Fixpoint read_lines (fuel : nat) (fin : string) (t : table) : ST proc table :=
  match fuel with
  | O => raise OutOfFuel
  | S fuel =>
      match fgets MAX_STR fin with
      | None => mret t
      | Some (raw, fin) => t ← read_line raw t; read_lines fuel fin t
      end
  end.

(** The loops over the columns: [n] are left. *)
Fixpoint sort_columns (n i : nat) (t : table) : ST proc table :=
  match n with
  | O => mret t
  | S n =>
      ty ← cell_at (types t) i;
      l ← cell_at (lists t) i;
      l ← sort ty l;
      sort_columns n (S i) (MkTable (types t) (<[i := Some l]> (lists t)) (lineCnt t) (columnCnt t) (FIRST t))
  end.

Fixpoint heads (n i : nat) (t : table) : ST proc (list (option nat)) :=
  match n with
  | O => mret []
  | S n => l ← cell_at (lists t) i; hs ← heads n (S i) t; mret (head l :: hs)
  end.

(** One line of the table: the nodes that were printed are replaced by their
    successors. *)
Fixpoint write_cells (fout : option nat) (n i : nat) (t : table) (nodeIndex : list (option nat)) : ST proc (list (option nat)) :=
  match n with
  | O => mret nodeIndex
  | S n =>
      ty ← cell_at (types t) i;
      p ← derefs OutOfBounds (nodeIndex !! i);
      p ← derefs NullDeref p;
      nd ← load as_node p;
      k ← load as_chars (key nd);
      v ← print_data fmt_lf ty (data nd);
      _ ← in_io (fprintf fout (k +:+ "=" +:+ v));
      _ ← (if decide (i <> columnCnt t - 1) then in_io (fprintf fout ",") else mret tt);
      write_cells fout n (S i) t (<[i := next nd]> nodeIndex)
  end.

Fixpoint write_rows (fout : option nat) (dpt : nat) (t : table) (nodeIndex : list (option nat)) : ST proc unit :=
  match dpt with
  | O => mret tt
  | S dpt =>
      nodeIndex ← write_cells fout (columnCnt t) 0 t nodeIndex;
      _ ← in_io (fprintf fout line_end);
      write_rows fout dpt t nodeIndex
  end.

Fixpoint destroy_columns (n i : nat) (t : table) : ST proc unit :=
  match n with
  | O => mret tt
  | S n => l ← cell_at (lists t) i; _ ← listDestructor l; destroy_columns n (S i) t
  end.

Definition ui_cmd : ui_fun := fun argv =>
  argv1 ← arg argv 1;
  raw ← alloc (CChars EmptyString);
  f ← in_io (fopen_r argv1);
  fin ← derefs NullDeref f;
  t ← read_lines (S (String.length fin)) fin empty_table;
  _ ← free raw;
  t ← sort_columns (columnCnt t) 0 t;
  fout ← in_io (fopen_w EXPORT);
  first ← derefs Undefined (FIRST t);
  _ ← in_io (fprintf fout (cstr first));
  nodeIndex ← heads (columnCnt t) 0 t;
  _ ← write_rows fout (Z.to_nat (lineCnt t)) t nodeIndex;
  _ ← destroy_columns (columnCnt t) 0 t;
  in_io fclose_r.
End plugin.
