(* ===== verification/PluginCsvProps.v ===== *)
(** * What the CSV plug-in does

    With one column it sorts, as the other programs do, but leaves one buffer per
    line allocated.  With two it stops at the first line of data: the header loop
    reads its buffer through a pointer that no [strsep] has moved yet, and finds
    the first column only. *)
From S2P Require Import Prelude StateM CString SortList SortListInv SortListSort SortListProps PluginApi PluginCsv.
From Stdlib Require Import SpecFloat.

(** ** Buffers *)

#[local] Arguments String.append : simpl nomatch.

Lemma span_delim (p : ascii -> bool) s : all_chars p s = false -> exists a c r, span p s = (a, String c r).
Proof.
  induction s as [|c s IH]; cbn; [done|]. destruct (p c); cbn; [|by eauto].
  intros Hs. destruct (IH Hs) as (a & d & r & ->). eauto.
Qed.

Lemma str_set_app s c d r : str_set (String.length s) c (s +:+ String d r) = s +:+ String c r.
Proof. induction s as [|e s IH]; cbn; [done|]. by f_equal. Qed.

Lemma cstr_app_nul s r : all_chars not_nul s = true -> cstr (s +:+ String "000"%char r) = s.
Proof. intros Hs. unfold cstr. by rewrite span_app. Qed.

Definition cell_char (c : ascii) : bool := not_nul c && negb (in_set comma_line c).

(** ** Changes of the rest of the memory *)

Lemma holds_update F s L items b c c' : holds F s L items -> F !! b = Some c ->
  holds (<[b := c']> F) (set_heap (<[b := c']> (heap s)) s) L items.
Proof.
  intros HL Hb. destruct (holds_lt _ _ _ _ HL) as [Hlt _]. destruct HL as [Hseg Hlen Hnd Hrest Hown Hbrk].
  assert (Hbi : b ∉ addrs items) by (intros Hx%Hown; congruence).
  split; cbn; [by apply seg_insert|done|done|..].
  - intros a Ha. destruct (decide (b = a)) as [->|Hne]; [by rewrite !lookup_insert_eq|].
    rewrite !lookup_insert_ne by done. auto.
  - intros a Ha. rewrite lookup_insert_ne; [auto|]. by intros ->.
  - intros a Ha. rewrite lookup_insert_ne; [by apply Hbrk|]. intros <-.
    assert (b < brk s); [|lia]. apply Hlt. rewrite Hrest by done. eauto.
Qed.

(** [F'] is [F] with [n] more cells. *)
Definition grown (n : nat) (F F' : gmap nat cell) : Prop := F ⊆ F' /\ size F' = size F + n.

Lemma grown_refl F : grown 0 F F.
Proof. split; [done|lia]. Qed.

Lemma grown_trans n m F F' F'' : grown n F F' -> grown m F' F'' -> grown (n + m) F F''.
Proof. intros [H1 H2] [H3 H4]. split; [by etrans|lia]. Qed.

Lemma grown_insert F b c : F !! b = None -> grown 1 F (<[b := c]> F).
Proof. intros Hb. split; [by apply insert_subseteq|]. rewrite map_size_insert_None by done. lia. Qed.

Lemma grown_lookup n F F' b c : grown n F F' -> F !! b = Some c -> F' !! b = Some c.
Proof. intros [H _] Hb. by eapply lookup_weaken. Qed.

Lemma grown_delete n F F' b c : grown n F F' -> F !! b = Some c -> grown n (delete b F) (delete b F').
Proof.
  intros [H1 H2] Hb. split; [by apply delete_mono|]. pose proof (lookup_weaken _ _ _ _ Hb H1) as Hb'.
  rewrite !map_size_delete, Hb, Hb'.
  assert (size F <> 0) by (intros H0%map_size_empty_inv; by subst). lia.
Qed.

Section plugin.
Context {sio : Stdio} (rand : nat -> Z) (atof : string -> spec_float) (fmt_lf : spec_float -> string).

(** ** [strsep] *)

(** The first call: the buffer is cut behind its first cell. *)
Lemma strsep_first b body c r s (Q : option nat * option nat -> proc -> Prop) :
  heap s !! b = Some (CChars (body +:+ String c r)) -> all_chars cell_char body = true ->
  c <> "000"%char -> in_set comma_line c = true ->
  Q (Some 0, Some (S (String.length body)))
    (set_heap (<[b := CChars (body +:+ String "000"%char r)]> (heap s)) s) ->
  wp (strsep b (Some 0) comma_line) s Q.
Proof.
  intros Hb Hbody Hc Hset HQ. unfold strsep, string_at. apply wp_bind, wp_bind. eapply wp_load; [done..|]. apply wp_ret.
  assert (Hn : all_chars not_nul body = true) by (eapply all_chars_mono; [|exact Hbody]; by intros d [H _]%andb_prop).
  assert (Hcs : exists r', cstr (str_drop 0 (body +:+ String c r)) = body +:+ String c r').
  { change (str_drop 0 (body +:+ String c r)) with (body +:+ String c r).
    unfold cstr. clear -Hn Hc. induction body as [|d body IH]; cbn in *.
    - destruct (Ascii.eqb c "000") eqn:He; [by apply Ascii.eqb_eq in He|]. cbn.
      destruct (span (fun c => negb (Ascii.eqb c "000")) r) as [u v]. by exists u.
    - apply andb_prop in Hn as [Hd Hn]. unfold not_nul in Hd. rewrite Hd.
      destruct (IH Hn) as [r' Hr']. destruct (span _ (body +:+ String c r)) as [u v].
      cbn in *. exists r'. by rewrite Hr'. }
  destruct Hcs as [r' ->]. rewrite span_app.
  - apply wp_bind. eapply wp_load; [done..|]. apply wp_bind. eapply wp_store_chars; [done|].
    rewrite Nat.add_0_l, str_set_app. by apply wp_ret.
  - eapply all_chars_mono; [|exact Hbody]. by intros d [_ H]%andb_prop.
  - cbn [stops]. by rewrite Hset.
Qed.

(** A call on a string that holds no more delimiter. *)
Lemma strsep_last b p u t s (Q : option nat * option nat -> proc -> Prop) :
  heap s !! b = Some (CChars u) -> cstr (str_drop p u) = t ->
  all_chars (fun c => negb (in_set comma_line c)) t = true -> Q (Some p, None) s ->
  wp (strsep b (Some p) comma_line) s Q.
Proof.
  intros Hb Ht Hset HQ. unfold strsep, string_at. apply wp_bind, wp_bind. eapply wp_load; [done..|]. apply wp_ret.
  rewrite Ht, (span_all _ _ Hset). by apply wp_ret.
Qed.

(** A call on a string with a delimiter. *)
Lemma strsep_more b p u s : heap s !! b = Some (CChars u) ->
  all_chars (fun c => negb (in_set comma_line c)) (cstr (str_drop p u)) = false ->
  wp (strsep b (Some p) comma_line) s (fun r s' => exists q u',
    r = (Some p, Some q) /\ heap s' !! b = Some (CChars u')).
Proof.
  intros Hb (a & c & r & Hspan)%span_delim. unfold strsep, string_at. apply wp_bind, wp_bind.
  eapply wp_load; [done..|]. apply wp_ret. rewrite Hspan. apply wp_bind. eapply wp_load; [done..|].
  apply wp_bind. eapply wp_store_chars; [done|]. apply wp_ret. eexists _, _. split; [done|]. apply lookup_insert_eq.
Qed.

Lemma wp_string_at b p u t s (Q : string -> proc -> Prop) :
  heap s !! b = Some (CChars u) -> cstr (str_drop p u) = t -> Q t s -> wp (string_at b p) s Q.
Proof. intros Hb <- HQ. unfold string_at. apply wp_bind. eapply wp_load; [done..|]. by apply wp_ret. Qed.
Lemma wp_cell_at {A} (l : list (option A)) i x s (Q : A -> proc -> Prop) :
  l !! i = Some (Some x) -> Q x s -> wp (cell_at l i) s Q.
Proof. intros Hl HQ. unfold cell_at. apply wp_bind. eapply wp_derefs; [done|]. by eapply wp_derefs. Qed.

(** ** The first line *)

Definition column_name (ty : type_) : string := sort_name ty +:+ "_" +:+ data_name ty.

(** The table when the header loop has found one column. *)
Definition one_column (ty : type_) (L : List) (n : Z) (hdr : string) : table :=
  MkTable (<[0 := Some ty]> (replicate MAX_COLUMN None)) (<[0 := Some L]> (replicate MAX_COLUMN None)) n 1 (Some hdr).

Lemma column_name_ok ty : keyed_type ty ->
  all_chars cell_char (column_name ty) = true /\ getType (column_name ty) = Done ty.
Proof.
  intros [Hs Hd]. destruct ty as [st dt]. cbn [sortType dataType] in *. rewrite !elem_of_cons, elem_of_nil in Hs, Hd.
  destruct Hs as [->|[->|[]]], Hd as [->|[->|[]]]; split; vm_compute; reflexivity.
Qed.

Lemma cell_not_nul t : all_chars cell_char t = true -> all_chars not_nul t = true.
Proof. apply all_chars_mono. by intros c [H _]%andb_prop. Qed.

Lemma cell_no_delim t : all_chars cell_char t = true -> all_chars (fun c => negb (in_set comma_line c)) t = true.
Proof. apply all_chars_mono. by intros c [_ H]%andb_prop. Qed.

(** Whatever follows the first cell of the first line, the loop ends after it. *)
Lemma read_header_spec ty b c r s : keyed_type ty -> c <> "000"%char -> in_set comma_line c = true ->
  let raw := column_name ty +:+ String c r in
  heap s !! b = Some (CChars raw) ->
  wp (read_header raw b empty_table) s (fun t s' => t = one_column ty listConstructor (-1) raw /\
    s' = set_heap (<[b := CChars (column_name ty +:+ String "000"%char r)]> (heap s)) s).
Proof.
  intros Hty Hc Hset raw Hb. destruct (column_name_ok ty Hty) as [Hcol Hget]. unfold read_header.
  apply wp_bind. eapply strsep_first; [exact Hb|done..|]. cbn [header_loop].
  set (s1 := set_heap _ s). assert (Hb1 : heap s1 !! b = Some (CChars (column_name ty +:+ String "000"%char r)))
    by apply lookup_insert_eq.
  assert (Hcs : cstr (str_drop 0 (column_name ty +:+ String "000"%char r)) = column_name ty).
  { apply (cstr_app_nul (column_name ty)), cell_not_nul, Hcol. }
  apply wp_bind. eapply wp_derefs; [done|]. apply wp_bind. eapply wp_string_at; [exact Hb1|exact Hcs|].
  apply wp_bind. eapply wp_lift; [exact Hget|]. apply wp_bind. eapply wp_lift; [done|].
  apply wp_bind. eapply strsep_last; [exact Hb1|exact Hcs|by apply cell_no_delim|]. by apply wp_ret.
Qed.

(** ** The other lines *)

(** A cell of a CSV file that can be read back. *)
Definition wf_cell (ty : type_) (e : string * cell) : Prop :=
  wf_entry fmt_lf ty e /\ all_chars cell_char (e.1 +:+ "=" +:+ data_text fmt_lf e.2) = true.

Definition cell_text (e : string * cell) : string := e.1 +:+ "=" +:+ data_text fmt_lf e.2.

Lemma holds_lookup F s L items b c : holds F s L items -> F !! b = Some c -> heap s !! b = Some c.
Proof. intros HL Hb. rewrite (h_rest _ _ _ _ HL); [done|]. intros Hx%(h_own _ _ _ _ HL). congruence. Qed.

Lemma cell_tokens ty e : wf_entry fmt_lf ty e ->
  strtok "=" (cell_text e) = (Some e.1, data_text fmt_lf e.2) /\
  strtok (" " +:+ line_end) (data_text fmt_lf e.2) = (Some (data_text fmt_lf e.2), EmptyString).
Proof.
  intros (Hne & Hk & Hd & _). destruct (data_text_chars atof fmt_lf _ _ Hd) as [Hdne Hdc]. split.
  - apply strtok_token; [done| |done]. eapply all_chars_mono; [|exact Hk].
    intros c [[_ H]%andb_prop _]%andb_prop. exact H.
  - apply strtok_last; [done|]. eapply all_chars_mono; [|exact Hdc]. by intros c [_ H]%andb_prop.
Qed.

Lemma add_cell_spec ty F s L items e : wf_entry fmt_lf ty e -> holds F s L items -> (length L < INT_MAX)%Z ->
  wp (add_cell atof ty L (cell_text e)) s (fun L' s' => exists i,
    holds F s' L' (items ++ [i]) /\ entry i = e /\ io s' = io s).
Proof.
  intros He HL Hn. destruct (cell_tokens ty e He) as [Ht1 Ht2]. unfold add_cell. rewrite Ht1, Ht2.
  apply wp_bind. eapply wp_derefs; [done|]. apply (new_entry_spec atof fmt_lf ty); [apply He|done..].
Qed.

(** The first cell of a line goes to the first column; [O] is what is shown of the
    outcome of the loop, once it is shown of the rest of the line. *)
Lemma first_cell ty F s L items e n hdr b c r k (O : exec (table * proc) -> Prop) : wf_cell ty e -> holds F s L items ->
  (length L < INT_MAX)%Z -> F !! b = Some (CChars (cell_text e +:+ String c r)) ->
  c <> "000"%char -> in_set comma_line c = true ->
  let u := cell_text e +:+ String "000"%char r in
  (forall i L' s', holds (<[b := CChars u]> F) s' L' (items ++ [i]) -> entry i = e -> io s' = io s ->
    O (('(tmpKeyI, raww) ← strsep b (Some (S (String.length (cell_text e)))) comma_line;
        cells_loop atof k b tmpKeyI raww 1 (one_column ty L' n hdr)) s')) ->
  O (('(tmpKeyI, p) ← strsep b (Some 0) comma_line; cells_loop atof (S k) b tmpKeyI p 0 (one_column ty L n hdr)) s).
Proof.
  intros [He Hcell] HL Hn Hb Hc Hset u Hk. apply bind_outcome.
  eapply strsep_first; [by eapply holds_lookup|exact Hcell|done..|]. fold u.
  pose proof (holds_update F s L items b _ (CChars u) HL Hb) as HL'.
  cbn [cells_loop]. apply bind_outcome. eapply wp_derefs; [done|].
  apply bind_outcome. eapply wp_string_at; [apply lookup_insert_eq|by apply cstr_app_nul, cell_not_nul|].
  do 2 (apply bind_outcome; eapply wp_cell_at; [done|]).
  apply bind_outcome. eapply wp_mono; [by apply (add_cell_spec ty (<[b := CChars u]> F) _ L items e)|].
  intros L' s' (i & HL2 & Hi & Hf). cbn [io set_heap] in Hf. by apply (Hk i).
Qed.

Lemma read_row_spec ty F s L items e n hdr b : wf_cell ty e -> holds F s L items -> (length L < INT_MAX)%Z ->
  F !! b = Some (CChars (cell_text e +:+ line_end)) ->
  wp (read_row atof (cell_text e +:+ line_end) b (one_column ty L n hdr)) s (fun t s' => exists L' i,
    t = one_column ty L' n hdr /\ entry i = e /\ io s' = io s /\
    holds (<[b := CChars (cell_text e +:+ String "000"%char EmptyString)]> F) s' L' (items ++ [i])).
Proof.
  intros He HL Hn Hb. unfold read_row.
  apply (first_cell ty F s L items e n hdr b newline EmptyString _ (fun r => runs r _)); [done..|].
  intros i L' s' HL' Hi Hf. apply (bind_outcome _ _ _ (fun r => runs r _)).
  eapply strsep_last; [eapply holds_lookup; [exact HL'|apply lookup_insert_eq]|by rewrite str_drop_next|done|].
  apply runs_done. exists L', i. done.
Qed.

Lemma read_line_row ty F s L items e n hdr : wf_cell ty e -> holds F s L items -> (length L < INT_MAX)%Z ->
  (0 <= n < INT_MAX)%Z ->
  wp (read_line atof (entry_line fmt_lf e) (one_column ty L n hdr)) s (fun t s' => exists L' F' i,
    t = one_column ty L' (n + 1) hdr /\ entry i = e /\ io s' = io s /\
    holds F' s' L' (items ++ [i]) /\ grown 1 F F').
Proof.
  intros He HL Hl Hn. unfold read_line. rewrite entry_line_body. fold (cell_text e). apply wp_bind, wp_alloc.
  pose proof (holds_alloc _ _ _ _ (CChars (cell_text e +:+ line_end)) HL) as HL'.
  cbn [lineCnt one_column]. rewrite decide_False by lia. apply wp_bind. eapply wp_mono.
  { apply (read_row_spec ty _ _ L items e n hdr (brk s) He HL' Hl). apply lookup_insert_eq. }
  intros t s' (L' & i & -> & Hi & Hf & HL2). cbn [lineCnt one_column].
  apply wp_bind. eapply wp_lift; [apply int_expr_done; unfold INT_MIN, INT_MAX in *; lia|].
  apply wp_ret. rewrite insert_insert_eq in HL2. eexists _, _, i. split; [done|]. split_and!; [done..|exact HL2|].
  apply grown_insert. eapply holds_unused; [exact HL|lia].
Qed.

Lemma read_rows_spec ty es F s L items hdr fuel : Forall (wf_cell ty) es -> holds F s L items ->
  (Z.of_nat (Datatypes.length items + Datatypes.length es) <= INT_MAX)%Z -> Datatypes.length es < fuel ->
  wp (read_lines atof fuel (text fmt_lf es) (one_column ty L (Z.of_nat (Datatypes.length items)) hdr)) s
    (fun t s' => exists L' F' new,
      t = one_column ty L' (Z.of_nat (Datatypes.length items + Datatypes.length es)) hdr /\
      holds F' s' L' (items ++ new) /\ entries new = es /\ io s' = io s /\
      grown (Datatypes.length es) F F').
Proof.
  revert F s L items fuel. induction es as [|e es IH]; intros F s L items [|fuel] Hes HL Hn Hf; cbn in Hn, Hf; try lia.
  { apply wp_ret. exists L, F, []. rewrite app_nil_r, Nat.add_0_r. split_and!; first [done|apply grown_refl]. }
  inversion_clear Hes as [|? ? He Hes']. cbn [read_lines]. rewrite (fgets_text atof fmt_lf ty) by apply He.
  apply wp_bind. pose proof (h_len _ _ _ _ HL) as Hlen. eapply wp_mono.
  { apply (read_line_row ty F s L items e); [done|done|lia|lia]. }
  intros t s' (L' & F' & i & -> & <- & Hfs & HL' & Hg).
  replace (Z.of_nat (Datatypes.length items) + 1)%Z with (Z.of_nat (Datatypes.length (items ++ [i])))
    by (rewrite length_app; cbn; lia).
  eapply wp_mono; [apply (IH F' s' L' (items ++ [i])); [done..| |lia]|].
  { rewrite length_app. cbn. lia. }
  intros t'' s'' (L'' & F'' & new & -> & HL'' & <- & Hfs' & Hg'). exists L'', F'', (i :: new).
  rewrite <- app_assoc in HL''. split_and!; try done.
  - f_equal. rewrite length_app. cbn. lia.
  - by rewrite Hfs'.
  - cbn. by apply (grown_trans 1 _ F F').
Qed.

(** ** Writing the table *)

Lemma write_rows_spec ty L n hdr l p s f0 k t0 : seg (heap s) p l None -> Forall (typed ty) (values l) ->
  writing f0 [(EXPORT, t0)] k (io s) ->
  wp (write_rows fmt_lf (Some 0) (Datatypes.length l) (one_column ty L n hdr) [p]) s (fun _ s' =>
    exists d, s' = set_io d s /\ writing f0 [(EXPORT, t0 +:+ text fmt_lf (entries l))] k d).
Proof.
  revert p s t0. induction l as [|i l IH]; intros p s t0 Hs Ht Hw; cbn [write_rows Datatypes.length].
  { apply wp_ret. exists (io s). cbn. rewrite str_app_nil. by destruct s. }
  destruct Hs as (-> & r & (H1 & H2 & H3) & Hl). inversion_clear Ht as [|? ? Hti Htl].
  apply wp_bind. cbn [write_cells columnCnt one_column].
  apply wp_bind. eapply wp_cell_at; [done|]. do 2 (apply wp_bind; eapply wp_derefs; [done|]).
  apply wp_bind. eapply wp_load; [done..|]. apply wp_bind. eapply wp_load; [done..|].
  apply wp_bind. eapply wp_mono; [by apply (print_data_spec fmt_lf ty (ival i))|]. intros t s' [-> ->].
  apply wp_bind, wp_in_io. eapply wp_mono; [by apply (fprintf_spec EXPORT t0 _ f0 [])|]. intros [] d Hd.
  apply wp_bind, wp_ret, wp_ret. apply wp_bind, wp_in_io.
  eapply wp_mono; [eapply (fprintf_spec EXPORT _ _ f0 []); exact Hd|]. intros [] d' Hd'.
  eapply wp_mono; [apply (IH _ (set_io d' s)); [exact Hl|exact Htl|exact Hd']|].
  intros _ s' (d'' & -> & Hd''). exists d''. split; [done|].
  replace (t0 +:+ text fmt_lf (entries (i :: l))) with
    (((t0 +:+ ikey i +:+ "=" +:+ data_text fmt_lf (ival i)) +:+ line_end) +:+ text fmt_lf (entries l)); [exact Hd''|].
  change (text fmt_lf (entries (i :: l))) with (entry_line fmt_lf (entry i) +:+ text fmt_lf (entries l)).
  unfold entry_line. cbn [entry fst snd]. by rewrite !str_app_assoc.
Qed.

(** ** The whole plug-in *)

Lemma fgets_first line rest : all_chars (fun c => negb (Ascii.eqb c newline)) line = true ->
  String.length line < MAX_STR - 1 ->
  fgets MAX_STR (line +:+ line_end +:+ rest) = Some (line +:+ line_end, rest).
Proof.
  intros Hb Hl. pose proof (line_app (MAX_STR - 1) line rest Hb Hl) as Hline. unfold fgets.
  change (line_end +:+ rest) with (String newline rest). rewrite Hline. by destruct line.
Qed.

(** The first line, whatever follows its first cell. *)
Lemma read_line_first ty c r s F : keyed_type ty -> c <> "000"%char -> in_set comma_line c = true ->
  holds F s listConstructor [] -> let raw := column_name ty +:+ String c r in
  wp (read_line atof raw empty_table) s (fun t s' => exists F', t = one_column ty listConstructor 0 raw /\
    holds F' s' listConstructor [] /\ grown 1 F F' /\ io s' = io s).
Proof.
  intros Hty Hc Hset HL raw. unfold read_line. apply wp_bind, wp_alloc. rewrite decide_True by done.
  pose proof (holds_alloc _ _ _ _ (CChars raw) HL) as HL'.
  apply wp_bind. eapply wp_mono; [by apply read_header_spec, lookup_insert_eq|]. intros t s' [-> ->].
  cbn [lineCnt one_column]. apply wp_bind. eapply wp_lift; [done|]. apply wp_ret. eexists. split; [done|]. split_and!.
  - eapply holds_update; [exact HL'|apply lookup_insert_eq].
  - rewrite insert_insert_eq. apply grown_insert. eapply holds_unused; [exact HL|lia].
  - done.
Qed.

(** Sorting one column and writing it. *)
Lemma export_spec ty F s L items hdr f0 : holds F s L items ->
  keyed_type ty -> sortable ty (values items) -> all_chars not_nul hdr = true -> writing f0 [] 1 (io s) ->
  wp (t ← sort_columns rand 1 0 (one_column ty L (Z.of_nat (Datatypes.length items)) hdr);
      fout ← in_io (fopen_w EXPORT);
      first ← derefs Undefined (FIRST t);
      _ ← in_io (fprintf fout (cstr first));
      nodeIndex ← heads (columnCnt t) 0 t;
      _ ← write_rows fmt_lf fout (Z.to_nat (lineCnt t)) t nodeIndex;
      _ ← destroy_columns (columnCnt t) 0 t;
      in_io fclose_r) s (fun _ s' => heap s' = F /\ exists es',
    sorted_entries ty (entries items) es' /\ writing f0 [(EXPORT, hdr +:+ text fmt_lf es')] 0 (io s')).
Proof.
  intros HL Hty Hs Hh Hw. cbn [sort_columns types lists one_column].
  apply wp_bind. do 2 (apply wp_bind; eapply wp_cell_at; [done|]). apply wp_bind.
  eapply wp_mono; [apply (sort_items rand ty F _ L items); [by apply keyed_valid|done..]|].
  intros L2 s2 (items2 & HL2 & Hr & Hf2). pose proof (insertion_sorted_perm _ _ _ Hr) as Hp. rewrite <- Hf2 in Hw.
  apply wp_ret. change (MkTable _ _ _ _ _) with (one_column ty L2 (Z.of_nat (Datatypes.length items)) hdr).
  pose proof max_open_law. apply wp_bind, wp_in_io.
  eapply wp_mono; [apply (fopen_w_spec EXPORT f0 [] 1); [exact Hw|set_solver|cbn; lia]|].
  intros fout d [-> Hd]. apply wp_bind. eapply wp_derefs; [done|]. apply wp_bind, wp_in_io.
  eapply wp_mono; [by apply (fprintf_spec EXPORT EmptyString _ f0 [])|]. intros [] d2 Hd2.
  rewrite cstr_id in Hd2 by done. cbn [columnCnt heads lineCnt one_column].
  apply wp_bind, wp_bind. eapply wp_cell_at; [done|].
  apply wp_bind, wp_ret, wp_ret. rewrite Nat2Z.id. rewrite <- (Permutation_length Hp).
  apply (holds_io _ _ d2) in HL2. apply wp_bind. eapply wp_mono.
  { apply (write_rows_spec ty L2 _ hdr items2 (head L2) _ f0 1 hdr); [apply HL2| |exact Hd2].
    change (Forall (typed ty) (values items2)). unfold values. rewrite Hp. apply Hs. }
  intros _ s3 (d3 & -> & Hd3). apply (holds_io _ _ d3) in HL2. cbn [destroy_columns lists].
  apply wp_bind, wp_bind. eapply wp_cell_at; [done|].
  apply wp_bind. eapply wp_mono; [by eapply listDestructor_spec|].
  intros _ s4 (Hh4 & Hf4 & _). apply wp_ret, wp_in_io. rewrite Hf4.
  eapply wp_mono; [by eapply fclose_r_spec|]. intros [] d4 Hd4. split; [done|]. exists (entries items2).
  split; [by apply insertion_sorted_entries; [|apply Hs|]|done].
Qed.
Lemma column_line ty : keyed_type ty -> all_chars not_nul (column_name ty +:+ line_end) = true /\
  forall r, fgets MAX_STR (column_name ty +:+ line_end +:+ r) = Some (column_name ty +:+ line_end, r).
Proof.
  intros [Hs Hd]. destruct ty as [st dt]. cbn [sortType dataType] in *. rewrite !elem_of_cons, elem_of_nil in Hs, Hd.
  destruct Hs as [->|[->|[]]], Hd as [->|[->|[]]]; (split; [vm_compute; reflexivity|intros r; apply fgets_first];
    [vm_compute; reflexivity|apply Nat.ltb_lt; vm_compute; reflexivity]).
Qed.

Lemma text_length ty es : Forall (wf_cell ty) es -> Datatypes.length es <= String.length (text fmt_lf es).
Proof.
  induction 1 as [|e es He Hes IH]; [cbn; lia|].
  change (text fmt_lf (e :: es)) with (entry_line fmt_lf e +:+ text fmt_lf es).
  rewrite entry_line_body, str_length_app, str_length_app. cbn in *. lia.
Qed.

(** The plug-in on a file of one column, when nothing else is open. *)
Lemma csv_spec ty prog name order es s f0 :
  keyed_type ty -> io s = MkStdio f0 [] 0 ->
  f0 !! name = Some (column_name ty +:+ line_end +:+ text fmt_lf es) ->
  Forall (wf_cell ty) es -> sortable ty es.*2 -> (Z.of_nat (Datatypes.length es) <= INT_MAX)%Z -> fresh s ->
  wp (ui_cmd rand atof fmt_lf [prog; name; order]) s (fun _ s' =>
    (exists es', sorted_entries ty es es' /\
      writing f0 [(EXPORT, column_name ty +:+ line_end +:+ text fmt_lf es')] 0 (io s')) /\
    grown (1 + Datatypes.length es) (heap s) (heap s')).
Proof.
  intros Hty Hio Hfile Hes Hs Hn Hb. destruct (column_line ty Hty) as [Hnn Hget]. unfold ui_cmd. pose proof max_open_law.
  apply wp_bind, wp_ret. apply wp_bind, wp_alloc, wp_bind, wp_in_io. cbn [io]. rewrite Hio.
  eapply wp_mono; [eapply fopen_r_spec; [apply writing_none|set_solver|exact Hfile|cbn; lia]|].
  intros f d [-> Hd]. apply wp_bind. eapply wp_derefs; [done|].
  pose proof (holds_alloc _ _ _ _ (CChars EmptyString) (holds_empty s Hb)) as HL. apply (holds_io _ _ d) in HL.
  apply wp_bind. cbn [read_lines]. rewrite Hget. apply wp_bind. eapply wp_mono.
  { by apply (read_line_first ty newline EmptyString _ (<[brk s := CChars EmptyString]> (heap s)) Hty). }
  intros t s1 (F1 & -> & HL1 & Hg1 & Hf1). eapply wp_mono.
  { apply (read_rows_spec ty es F1 s1 listConstructor []); [done..|].
    pose proof (text_length ty es Hes). rewrite !str_length_app. cbn [line_end String.length]. lia. }
  intros t s2 (L2 & F2 & items & -> & HL2 & Hi & Hf2 & Hg2). cbn [app Nat.add Datatypes.length] in *.
  pose proof (grown_trans _ _ _ _ _ Hg1 Hg2) as Hg.
  assert (Hraw : F2 !! brk s = Some (CChars EmptyString)) by (eapply grown_lookup; [exact Hg|apply lookup_insert_eq]).
  apply wp_bind. eapply wp_free; [by eapply holds_lookup|].
  apply (holds_delete _ _ _ _ (brk s)) in HL2; [|by eexists]. cbn [columnCnt one_column].
  rewrite <- Hi in *. unfold entries in *. rewrite length_fmap. rewrite <- values_entries in Hs.
  eapply wp_mono; [apply (export_spec ty (delete (brk s) F2) _ L2 items _ f0); [done..|]|].
  { cbn [io set_heap]. rewrite Hf2. cbn in Hf1. by rewrite Hf1. }
  intros u s3 [Hh (es' & Hes' & Hf3)]. split.
  - exists es'. split; [done|]. by rewrite str_app_assoc in Hf3.
  - eapply (grown_delete _ _ _ (brk s)) in Hg; [|apply lookup_insert_eq].
    rewrite delete_insert_id in Hg by (by apply Hb). rewrite Hh. by rewrite length_fmap in Hg.
Qed.

(** C35: on a file whose first line names one column, the plug-in writes the first
    line and the sorted cells to [export.csv], which are in the file when the
    program has ended and the library has flushed its streams; no other file is
    changed, and one buffer per line of the file is left allocated. *)
Theorem csv_one_column ty prog name order es s f0 :
  keyed_type ty -> io s = MkStdio f0 [] 0 ->
  f0 !! name = Some (column_name ty +:+ line_end +:+ text fmt_lf es) ->
  Forall (wf_cell ty) es -> sortable ty es.*2 -> (Z.of_nat (Datatypes.length es) <= INT_MAX)%Z -> fresh s ->
  wp (run_to_exit (ui_cmd rand atof fmt_lf [prog; name; order])) s (fun _ s' =>
    (exists es', sorted_entries ty es es' /\
      io s' = MkStdio (<[EXPORT := column_name ty +:+ line_end +:+ text fmt_lf es']> f0) [] 0) /\
    heap s ⊆ heap s' /\ size (heap s') = size (heap s) + 1 + Datatypes.length es).
Proof.
  intros Hty Hio Hfile Hes Hs Hn Hb. apply wp_bind.
  eapply wp_mono; [by apply (csv_spec ty prog name order es s f0)|].
  intros u s' [(es' & Hes' & Hw) [Hg Hsz]]. eapply wp_exit; [exact Hw|]. rewrite written_one.
  split; [by exists es'|]. split; [exact Hg|]. cbn. lia.
Qed.

(** ** Two columns *)

(** The second cell of a line looks up a column that was never set up. *)
Lemma read_row_two ty F s L items e n hdr b rest : wf_cell ty e -> holds F s L items -> (length L < INT_MAX)%Z ->
  all_chars not_nul rest = true -> let raw := cell_text e +:+ String ","%char (rest +:+ line_end) in
  F !! b = Some (CChars raw) ->
  read_row atof raw b (one_column ty L n hdr) s = Fault Undefined.
Proof.
  intros He HL Hn Hrest raw Hb. unfold read_row.
  apply (first_cell ty F s L items e n hdr b ","%char (rest +:+ line_end) _ (fun r => r = Fault Undefined)); [done..|].
  intros i L' s' HL' _ _. apply (bind_outcome _ _ _ (fun r => r = Fault Undefined)). eapply wp_mono.
  { eapply strsep_more; [eapply holds_lookup; [exact HL'|apply lookup_insert_eq]|].
    rewrite str_drop_next, cstr_id by (change (all_chars not_nul (rest +:+ line_end) = true); by rewrite all_chars_app, Hrest).
    rewrite all_chars_app. by rewrite andb_false_r. }
  intros r s2 (q & u' & -> & Hu). cbn [cells_loop].
  apply (bind_outcome _ _ _ (fun r => r = Fault Undefined)). eapply wp_derefs; [done|].
  apply (bind_outcome _ _ _ (fun r => r = Fault Undefined)). eapply wp_string_at; [exact Hu|done|].
  apply bind_fault. done.
Qed.

(** when the first line names two columns or more, only the first is set up,
    and the first line of data with a second cell makes the plug-in read a type
    that was never written. *)
Theorem csv_two_columns ty prog name order e rest1 rest2 more s :
  keyed_type ty -> wf_cell ty e ->
  all_chars (fun c => negb (Ascii.eqb c newline)) (rest1 +:+ rest2) = true -> all_chars not_nul rest2 = true ->
  let line1 := column_name ty +:+ String ","%char rest1 in
  let line2 := cell_text e +:+ String ","%char rest2 in
  String.length line1 < MAX_STR - 1 -> String.length line2 < MAX_STR - 1 ->
  has_slot (io s) -> files s !! name = Some (line1 +:+ line_end +:+ line2 +:+ line_end +:+ more) -> fresh s ->
  ui_cmd rand atof fmt_lf [prog; name; order] s = Fault Undefined.
Proof.
  intros Hty He Hnl Hnn line1 line2 Hl1 Hl2 Hslot Hfile Hb.
  rewrite all_chars_app in Hnl. apply andb_prop in Hnl as [Hnl1 Hnl2].
  assert (Hcell : forall t, all_chars cell_char t = true -> all_chars (fun c => negb (Ascii.eqb c newline)) t = true).
  { intros t. apply all_chars_mono. intros c [_ H]%andb_prop. destruct (Ascii.eqb c newline) eqn:Hc; [|done].
    apply Ascii.eqb_eq in Hc as ->. done. }
  assert (Hget1 : forall r, fgets MAX_STR (line1 +:+ line_end +:+ r) = Some (line1 +:+ line_end, r)).
  { intros r. apply fgets_first; [|done]. unfold line1. rewrite all_chars_app. cbn [all_chars].
    by rewrite (Hcell (column_name ty)), Hnl1 by apply (column_name_ok ty Hty). }
  assert (Hget2 : forall r, fgets MAX_STR (line2 +:+ line_end +:+ r) = Some (line2 +:+ line_end, r)).
  { intros r. apply fgets_first; [|done]. unfold line2. rewrite all_chars_app. cbn [all_chars].
    by rewrite (Hcell (cell_text e)), Hnl2 by apply He. }
  set (O := fun r : exec (unit * proc) => r = Fault Undefined). change (O (ui_cmd rand atof fmt_lf [prog; name; order] s)).
  unfold ui_cmd. apply bind_outcome, wp_ret. apply bind_outcome, wp_alloc, bind_outcome, wp_in_io.
  eapply wp_done; [cbn [io]; unfold fopen_r; rewrite decide_True by done; unfold files in Hfile; by rewrite Hfile|].
  set (d := MkStdio _ _ _). apply bind_outcome. eapply wp_derefs; [done|].
  pose proof (holds_alloc _ _ _ _ (CChars EmptyString) (holds_empty s Hb)) as HL. apply (holds_io _ _ d) in HL.
  apply bind_fault. cbn [read_lines]. rewrite Hget1.
  apply (bind_outcome _ _ _ (fun r => r = Fault Undefined)). eapply wp_mono.
  { unfold line1. rewrite str_app_assoc.
    by apply (read_line_first ty ","%char (rest1 +:+ line_end) _ (<[brk s := CChars EmptyString]> (heap s)) Hty). }
  intros t s1 (F1 & -> & HL1 & Hg1 & _).
  destruct (String.length (line1 +:+ line_end +:+ line2 +:+ line_end +:+ more)) as [|k] eqn:Hk.
  { rewrite str_length_app in Hk. cbn in Hk. lia. }
  cbn [read_lines]. rewrite Hget2. apply bind_fault. unfold read_line.
  apply (bind_outcome _ _ _ (fun r => r = Fault Undefined)), wp_alloc. cbn [lineCnt one_column].
  apply bind_fault. rewrite decide_False by done. unfold line2. rewrite str_app_assoc.
  pose proof (holds_alloc _ _ _ _ (CChars (cell_text e +:+ String ","%char rest2 +:+ line_end)) HL1) as HL2.
  eapply (read_row_two ty _ _ _ [] e _ _ _ rest2 He HL2); [done|done|]. apply lookup_insert_eq.
Qed.
End plugin.

(** ** Concrete files *)

Definition csv_entries : list (string * cell) := [("x", CInt 9); ("a", CInt (-11)); ("y", CInt 9)].
Definition csv_files (t : string) : gmap string string := {["t.csv" := t]}.
Definition csv_disk (t : string) : proc := MkProc ∅ 0 0 (MkStdio (csv_files t) [] 0).

Lemma csv_entry_ok e : e ∈ csv_entries -> wf_cell (fun _ => "0") (int_type SORT_INC) e.
Proof.
  unfold csv_entries. rewrite !elem_of_cons, elem_of_nil.
  intros [->|[->|[->|[]]]]; (split; [|reflexivity]);
    split_and!; try done; apply Nat.ltb_lt; vm_compute; reflexivity.
Qed.

Lemma csv_one_column_witness :
  wp (@run_to_exit lazy_stdio _ (@ui_cmd lazy_stdio Z.of_nat (fun _ => one) (fun _ => "0") ["sort"; "t.csv"; ""]))
     (csv_disk ("inc_int" +:+ line_end +:+ text (fun _ => "0") csv_entries)) (fun _ s' =>
    (exists es', sorted_entries (int_type SORT_INC) csv_entries es' /\
      io s' = MkStdio (<[EXPORT := "inc_int" +:+ line_end +:+ text (fun _ => "0") es']>
        (csv_files ("inc_int" +:+ line_end +:+ text (fun _ => "0") csv_entries))) [] 0) /\
    ∅ ⊆ heap s' /\ size (heap s') = 4).
Proof.
  apply (@csv_one_column lazy_stdio Z.of_nat (fun _ => one) (fun _ => "0") (int_type SORT_INC) "sort" "t.csv" "" csv_entries).
  - split; vm_compute; set_solver.
  - done.
  - reflexivity.
  - apply Forall_forall. apply csv_entry_ok.
  - apply demo_sortable.
  - done.
  - done.
Defined.

Lemma csv_two_columns_witness :
  @ui_cmd lazy_stdio Z.of_nat (fun _ => one) (fun _ => "0") ["sort"; "t.csv"; ""]
    (csv_disk ("inc_int,inc_char" +:+ line_end +:+ "x=9,k=v" +:+ line_end)) = Fault Undefined.
Proof.
  apply (@csv_two_columns lazy_stdio Z.of_nat (fun _ => one) (fun _ => "0") (int_type SORT_INC) "sort" "t.csv" ""
           ("x", CInt 9) "inc_char" "k=v" "").
  - split; vm_compute; set_solver.
  - apply csv_entry_ok. set_solver.
  - reflexivity.
  - reflexivity.
  - apply Nat.ltb_lt. vm_compute. reflexivity.
  - apply Nat.ltb_lt. vm_compute. reflexivity.
  - unfold has_slot. cbn. lia.
  - reflexivity.
  - done.
Defined.

(** Without a newline at its end the last line is counted but not read. *)
Example csv_last_line :
  @ui_cmd lazy_stdio Z.of_nat (fun _ => one) (fun _ => "0") ["sort"; "t.csv"; ""]
    (csv_disk ("inc_int" +:+ line_end +:+ "x=9" +:+ line_end +:+ "a=1")) = Fault NullDeref.
Proof. vm_compute. reflexivity. Qed.
