(* ===== verification/PluginMain.v ===== *)
(** * The loader of the plug-in sorting program: [cmplx-sort/src-kernel]

    [plugin.c] opens every file of [./plugins/] as a library and records the
    function [ui_cmd] of each under a name cut out of the file name; [main.c]
    passes its arguments to the plug-in that is named like the extension of the
    input file.  The directory and the dynamic linker are parameters. *)
From S2P Require Import Prelude StateM CString SortList PluginApi.

Definition MAX_PLUGIN : nat := 20.
Definition PLUGINS : string := "./plugins/".

(** A program that may call [exit]. *)
Inductive flow (A : Type) := Exit (code : Z) | Go (a : A).
Arguments Exit {A} _.
Arguments Go {A} _.

(** The dynamic linker: [dlopen] of a path and [dlsym] of [ui_cmd].  By its manual
    [dlerror] reports the last error since it was called before, and a call that
    succeeds in between changes nothing: [success_clears] is [false].  In the GNU C
    library such a call makes it forget the error: [success_clears] is [true].
    Both are modelled. *)
Class Dl := {
  lib : Type;
  dlopen : string -> option lib;
  dlsym : lib -> option ui_fun;
  success_clears : bool
}.

Section kernel.
Context `{Dl}.

(** [struct _Handle]; an object of the heap is [None] until it is filled in. *)
Record Handle := MkHandle { handle : lib; type : string; h_ui_cmd : ui_fun }.

(** The rest of the process, the handles, whether [dlerror] has something to
    report, and how often [dlopen] has succeeded without a [dlclose]. *)
Record kernel := MkKernel {
  process : proc;
  handles : gmap nat (option Handle);
  hbrk : nat;
  pending : bool;
  opened : nat
}.

Definition set_handles (h : gmap nat (option Handle)) (s : kernel) : kernel :=
  MkKernel (process s) h (hbrk s) (pending s) (opened s).
Definition set_pending (b : bool) (s : kernel) : kernel :=
  MkKernel (process s) (handles s) (hbrk s) b (opened s).
Definition set_opened (n : nat) (s : kernel) : kernel :=
  MkKernel (process s) (handles s) (hbrk s) (pending s) n.

Definition malloc_handle : ST kernel nat := fun s =>
  Done (hbrk s, MkKernel (process s) (<[hbrk s := None]> (handles s)) (S (hbrk s)) (pending s) (opened s)).

Definition free_handle (p : nat) : ST kernel unit := fun s =>
  match handles s !! p with
  | Some _ => Done (tt, set_handles (delete p (handles s)) s)
  | None => Fault Undefined
  end.

Definition load_handle (p : nat) : ST kernel Handle := fun s =>
  match handles s !! p with
  | Some (Some h) => Done (h, s)
  | _ => Fault Undefined
  end.

Definition in_process {A} (m : ST proc A) : ST kernel A := fun s =>
  '(a, p) ← m (process s); Done (a, MkKernel p (handles s) (hbrk s) (pending s) (opened s)).

(** ** [plugin.c] *)

(** [dlopen] and [dlsym] record an error, or may forget the one before. *)
Definition dl_result {A} (r : option A) : ST kernel (option A) :=
  _ ← modify (fun s => match r with
      | None => set_pending true s
      | Some _ => if success_clears then set_pending false s else s
      end);
  mret r.

Definition dl_open (path : string) : ST kernel (option lib) :=
  hd ← dl_result (dlopen path);
  _ ← modify (fun s => match hd with Some _ => set_opened (S (opened s)) s | None => s end);
  mret hd.

(** [dlclose] of a library that is open. *)
Definition dlclose (hd : lib) : ST kernel unit := fun s =>
  match opened s with
  | S n => Done (tt, set_opened n s)
  | O => Fault Undefined
  end.

(** [dlerror() != NULL]: the error is reported once. *)
Definition dlerror : ST kernel bool := e ← gets pending; _ ← modify (set_pending false); mret e.

(** The name of a plug-in: the second part of its path up to the second dot. *)
Definition plugin_type (path : string) : option string :=
  let '(token, rest) := strtok "." path in
  let '(_, rest) := strtok "/" (default rest token) in
  (strtok "/" rest).1.

Definition is_dots (path : string) : Prop := strcmp path (PLUGINS +:+ ".") = 0%Z \/ strcmp path (PLUGINS +:+ "..") = 0%Z.

#[export] Instance is_dots_dec path : Decision (is_dots path).
Proof. unfold is_dots. apply _. Defined.

(** [while((ent = readdir(dir)) != NULL)]: [arr] is the array [handle]. *)
Fixpoint scan (entries : list string) (pluginCnt : nat) (arr : list (option nat))
    : ST kernel (flow (nat * list (option nat))) :=
  match entries with
  | [] => mret (Go (pluginCnt, arr))
  | d_name :: entries =>
      p ← malloc_handle;
      if decide (Datatypes.length arr <= pluginCnt) then raise OutOfBounds
      else
        let arr := <[pluginCnt := Some p]> arr in
        let path := (PLUGINS +:+ d_name)%string in
        if decide (256 <= String.length path) then raise OutOfBounds
        else
          hd ← dl_open path;
          match hd with
          | None => scan entries pluginCnt arr
          | Some hd =>
              if decide (is_dots path) then scan entries pluginCnt arr
              else
                f ← dl_result (dlsym hd);
                e ← dlerror;
                match e, f with
                | false, Some f =>
                    if decide (36 <= String.length path) then raise OutOfBounds
                    else
                      t ← derefs NullDeref (plugin_type path);
                      _ ← modify (fun s => set_handles (<[p := Some (MkHandle hd t f)]> (handles s)) s);
                      scan entries (S pluginCnt) arr
                | _, _ => mret (Exit (-1))
                end
          end
  end.

(** [dir] is the contents of [./plugins/], if it can be opened. *)
Definition pluginInit (dir : option (list string)) (arr : list (option nat))
    : ST kernel (flow (nat * list (option nat))) :=
  match dir with
  | Some entries => scan entries 0 arr
  | None => mret (Exit (-1))
  end.

(** ** [main.c] *)

Definition handle_at (arr : list (option nat)) (i : nat) : ST kernel nat :=
  c ← derefs OutOfBounds (arr !! i); derefs NullDeref c.

(** The first plug-in from [i] on, of [todo], with the type [token]; behind the
    last one the function ends without a result. *)
Fixpoint find_type (todo i : nat) (token : string) (arr : list (option nat)) : ST kernel nat :=
  match todo with
  | O => raise Undefined
  | S todo =>
      p ← handle_at arr i;
      h ← load_handle p;
      if decide (strcmp token (type h) = 0)%Z then mret i else find_type todo (S i) token arr
  end.

(** What follows the first dot of the file name. *)
Definition file_type (argv1 : string) : option string :=
  let '(_, rest) := strtok "." argv1 in (strtok (" " +:+ line_end) rest).1.

Definition getPluginType (argv : list string) (pluginCnt : nat) (arr : list (option nat)) : ST kernel nat :=
  argv1 ← derefs NullDeref (argv !! 1);
  if decide (1024 <= String.length argv1) then raise OutOfBounds
  else match pluginCnt, file_type argv1 with
       | O, _ => raise Undefined
       | _, None => raise NullDeref
       | _, Some token => find_type pluginCnt 0 token arr
       end.

Fixpoint free_all (todo i : nat) (arr : list (option nat)) : ST kernel unit :=
  match todo with
  | O => mret tt
  | S todo =>
      c ← derefs OutOfBounds (arr !! i);
      _ ← match c with Some p => free_handle p | None => mret tt end;
      free_all todo (S i) arr
  end.

Definition main (dir : option (list string)) (argv : list string) : ST kernel Z :=
  if decide (Datatypes.length argv <> 3) then mret (-1)%Z
  else
    r ← pluginInit dir (replicate MAX_PLUGIN None);
    match r with
    | Exit code => mret code
    | Go (pluginCnt, arr) =>
        pluginId ← getPluginType argv pluginCnt arr;
        p ← handle_at arr pluginId;
        h ← load_handle p;
        _ ← in_process (h_ui_cmd h argv);
        _ ← dlclose (handle h);
        _ ← free_all pluginCnt 0 arr;
        mret 0%Z
    end.

(** A run with the flushing at its end, be it by [return] or by [exit]. *)
Definition main_to_exit `{Stdio} (dir : option (list string)) (argv : list string) : ST kernel Z :=
  r ← main dir argv;
  _ ← in_process (in_io exit_streams);
  mret r.
End kernel.
