(* ===== verification/PluginMainProps.v ===== *)
(** * The loader hands the file to the plug-in of its extension

    For a directory whose libraries all can be loaded, the loader is the function
    [ui_cmd] of the first plug-in that is named like the extension of the file,
    and leaves one handle allocated for each entry of the directory that is no
    library.  But the loader does not clear [dlerror] before it asks it: when
    [dlerror] keeps the error of an entry that is no library (the directory itself
    is one) the next library makes the program give up. *)
From S2P Require Import Prelude StateM CString SortList SortListInv SortListSort SortListProps PluginApi PluginTxt PluginCsv PluginMain.
From Stdlib Require Import SpecFloat.

Section kernel.
Context `{Dl}.

(** ** The directory *)

(** What a directory entry is loaded as. *)
Definition loaded (d : string) : option (string * ui_fun) :=
  hd ← dlopen (PLUGINS +:+ d); f ← dlsym hd; t ← plugin_type (PLUGINS +:+ d); Some (t, f).

(** An entry the loader copes with: it is no library, or one with a short name
    that has a function [ui_cmd]. *)
Definition entry_ok (d : string) : Prop :=
  String.length (PLUGINS +:+ d) < 256 /\
  (dlopen (PLUGINS +:+ d) <> None ->
    String.length (PLUGINS +:+ d) < 36 /\ ~ is_dots (PLUGINS +:+ d) /\ is_Some (loaded d)).

(** The loader gives up: a library comes behind an entry that is none ([late]) and
    [dlerror] has kept the error. *)
Fixpoint refused (late : bool) (entries : list string) : bool :=
  match entries with
  | [] => false
  | d :: entries =>
      match loaded d with
      | None => refused true entries
      | Some _ => (late && negb success_clears) || refused false entries
      end
  end.

Lemma refused_late late entries : refused late entries = true <->
  success_clears = false /\
  ((late = true /\ exists e, e ∈ entries /\ is_Some (loaded e)) \/
   exists l1 d l2 e, entries = l1 ++ d :: l2 /\ loaded d = None /\ e ∈ l2 /\ is_Some (loaded e)).
Proof.
  revert late. induction entries as [|d entries IH]; intros late; cbn [refused].
  { split; [done|]. intros [_ [(_ & e & He & _)|(l1 & d & l2 & e & Hl & _)]]; [by apply not_elem_of_nil in He|].
    by destruct l1. }
  destruct (loaded d) as [x|] eqn:Hd.
  - rewrite orb_true_iff, andb_true_iff, negb_true_iff, IH. split.
    + intros [[-> Hc]|[Hc [[? _]|(l1 & d' & l2 & e & -> & H1)]]]; [|done|].
      * split; [done|]. left. split; [done|]. exists d. split; [left|]. by rewrite Hd.
      * split; [done|]. right. by exists (d :: l1), d', l2, e.
    + intros [Hc [[-> _]|(l1 & d' & l2 & e & Hl & Hn & H1)]]; [by left|]. right. split; [done|]. right.
      destruct l1 as [|y l1]; injection Hl as -> ->; [congruence|]. by exists l1, d', l2, e.
  - rewrite IH. split.
    + intros [Hc [(_ & e & He & Hs)|(l1 & d' & l2 & e & -> & H1)]]; (split; [done|]); right.
      * by exists [], d, entries, e.
      * by exists (d :: l1), d', l2, e.
    + intros [Hc Hor]. split; [done|]. left. split; [done|].
      destruct Hor as [(_ & e & [->|He]%elem_of_cons & Hs)|(l1 & d' & l2 & e & Hl & Hn & He & Hs)].
      * rewrite Hd in Hs. by destruct Hs.
      * by exists e.
      * exists e. split; [|done]. destruct l1 as [|y l1]; injection Hl as -> ->; [done|]. set_solver.
Qed.

(** An entry that is no library stands before a library. *)
Lemma refused_iff entries : refused false entries = true <-> success_clears = false /\
  exists l1 d l2 e, entries = l1 ++ d :: l2 /\ loaded d = None /\ e ∈ l2 /\ is_Some (loaded e).
Proof. rewrite refused_late. naive_solver. Qed.

(** The handles of the array: an address and what is stored there. *)
Definition slots_ok (slots : list (nat * Handle)) (arr : list (option nat)) (s : kernel) : Prop :=
  forall i a h, slots !! i = Some (a, h) -> arr !! i = Some (Some a) /\ handles s !! a = Some (Some h) /\ a < hbrk s.

Definition plugin_of (x : nat * Handle) : string * ui_fun := (type x.2, h_ui_cmd x.2).

(** After [n] entries the loader has allocated [n] handles, and those of the
    libraries are filled in. *)
Record scanned (p : proc) (slots : list (nat * Handle)) (arr : list (option nat)) (n : nat) (s : kernel) : Prop := {
  c_process : process s = p;
  c_brk : hbrk s = n;
  c_arr : Datatypes.length arr = MAX_PLUGIN;
  c_slots : slots_ok slots arr s;
  c_distinct : NoDup slots.*1;
  c_size : size (handles s) = n;
  c_opened : opened s = Datatypes.length slots;
  c_fresh : forall a, n <= a -> handles s !! a = None
}.

(** A new handle behind the others. *)
Lemma scanned_malloc p slots arr n s b : scanned p slots arr n s -> Datatypes.length slots < MAX_PLUGIN ->
  let s' := MkKernel (process s) (<[hbrk s := None]> (handles s)) (S (hbrk s)) b (opened s) in
  scanned p slots (<[Datatypes.length slots := Some (hbrk s)]> arr) (S n) s'.
Proof.
  intros Hs Hlen s'. pose proof (c_brk _ _ _ _ _ Hs) as Hb. split; cbn.
  - apply Hs.
  - by rewrite Hb.
  - rewrite length_insert. apply Hs.
  - intros i a h Hi. destruct (c_slots _ _ _ _ _ Hs i a h Hi) as (H1 & H2 & H3).
    apply lookup_lt_Some in Hi. cbn. rewrite list_lookup_insert_ne, lookup_insert_ne by lia. auto with lia.
  - apply Hs.
  - rewrite map_size_insert_None by (apply (c_fresh _ _ _ _ _ Hs); lia). by rewrite (c_size _ _ _ _ _ Hs).
  - apply Hs.
  - intros a Ha. rewrite lookup_insert_ne by lia. apply (c_fresh _ _ _ _ _ Hs). lia.
Qed.

(** It is filled in and becomes a slot. *)
Lemma scanned_fill p slots arr n s h : scanned p slots (<[Datatypes.length slots := Some n]> arr) (S n) s ->
  Datatypes.length slots < MAX_PLUGIN -> handles s !! n = Some None ->
  (forall i a k, slots !! i = Some (a, k) -> a <> n) ->
  scanned p (slots ++ [(n, h)]) (<[Datatypes.length slots := Some n]> arr) (S n)
    (set_opened (S (opened s)) (set_handles (<[n := Some h]> (handles s)) s)).
Proof.
  intros Hs Hlen Hn Hne. pose proof (c_brk _ _ _ _ _ Hs) as Hb. pose proof (c_arr _ _ _ _ _ Hs) as Ha.
  rewrite length_insert in Ha. split; cbn; try apply Hs.
  - intros i a k [Hi|[Hi Hx]]%lookup_app_Some.
    + destruct (c_slots _ _ _ _ _ Hs i a k Hi) as (H1 & H2 & H3). cbn.
      rewrite lookup_insert_ne by (intros ->; by eapply Hne). done.
    + apply list_lookup_singleton_Some in Hx as [Hi' [= <- <-]].
      assert (i = Datatypes.length slots) as -> by lia. cbn.
      rewrite list_lookup_insert_eq by lia. rewrite lookup_insert_eq. auto with lia.
  - rewrite fmap_app. cbn. apply NoDup_app. split; [apply Hs|]. split; [|apply NoDup_singleton].
    intros a Ha' ->%list_elem_of_singleton. apply list_elem_of_fmap in Ha' as ([a k] & -> & [i Hi]%list_elem_of_lookup_1).
    by eapply Hne.
  - rewrite map_size_insert_Some by by eexists. apply Hs.
  - rewrite length_app, (c_opened _ _ _ _ _ Hs). cbn. lia.
  - intros a Ha'. rewrite lookup_insert_ne by lia. by apply (c_fresh _ _ _ _ _ Hs).
Qed.

(** What is pending when a call has succeeded. *)
Definition kept (b : bool) : bool := b && negb success_clears.

Lemma dl_result_some {A} (a : A) s : dl_result (Some a) s = Done (Some a, set_pending (kept (pending s)) s).
Proof.
  unfold dl_result, kept, mbind, st_bind, modify. destruct success_clears; rewrite ?andb_false_r, ?andb_true_r; [done|].
  by destruct s.
Qed.

Lemma wp_dlerror s (Q : bool -> kernel -> Prop) : Q (pending s) (set_pending false s) -> wp dlerror s Q.
Proof. intros HQ. unfold dlerror. apply wp_bind, wp_gets, wp_bind, wp_modify. by apply wp_ret. Qed.

Lemma scanned_pending p slots arr n s b : scanned p slots arr n s -> scanned p slots arr n (set_pending b s).
Proof. by intros []. Qed.

(** ** Scanning *)

Lemma scan_spec p entries slots arr n s : Forall entry_ok entries -> scanned p slots arr n s ->
  Datatypes.length slots + Datatypes.length (omap loaded entries) < MAX_PLUGIN ->
  wp (scan entries (Datatypes.length slots) arr) s (fun r s' =>
    if refused (pending s) entries then r = Exit (-1) /\ process s' = p
    else exists slots' arr', r = Go (Datatypes.length slots', arr') /\
      plugin_of <$> slots' = (plugin_of <$> slots) ++ omap loaded entries /\
      scanned p slots' arr' (n + Datatypes.length entries) s').
Proof.
  intros Hok. revert slots arr n s. induction Hok as [|d entries [Hl Hd] Hok IH]; intros slots arr n s Hs Hlen; cbn [scan refused].
  { apply wp_ret. exists slots, arr. rewrite app_nil_r, Nat.add_0_r. done. }
  apply wp_bind. eapply wp_done; [done|].
  assert (Hlt : Datatypes.length slots < MAX_PLUGIN) by lia.
  rewrite decide_False by (rewrite (c_arr _ _ _ _ _ Hs); lia). rewrite decide_False by lia.
  pose proof (scanned_malloc _ _ _ _ _ (pending s) Hs Hlt) as Hs1. pose proof (c_brk _ _ _ _ _ Hs) as Hb.
  rewrite Hb in Hs1 |- *. set (s1 := MkKernel _ _ _ _ _) in *. cbn [omap list_omap] in *.
  apply wp_bind. unfold dl_open. apply wp_bind.
  destruct (dlopen (PLUGINS +:+ d)) as [hd|] eqn:Hopen.
  - eapply wp_done; [apply dl_result_some|]. apply wp_bind, wp_modify, wp_ret.
    destruct (Hd ltac:(done)) as (Hshort & Hdots & [[t f] Hload]).
    rewrite Hload in *. rewrite decide_False by done. unfold loaded in Hload. rewrite Hopen in Hload.
    cbn in Hload. destruct (dlsym hd) as [f'|] eqn:Hsym; [|done]. cbn in Hload.
    destruct (plugin_type (PLUGINS +:+ d)) as [t'|] eqn:Ht; [|done]. injection Hload as -> ->.
    apply wp_bind. eapply wp_done; [apply dl_result_some|]. apply wp_bind, wp_dlerror.
    assert (Hkept : kept (kept (pending s)) = pending s && negb success_clears)
      by (unfold kept; by destruct (pending s), success_clears).
    cbn [pending set_pending set_opened set_handles s1]. rewrite Hkept.
    destruct (pending s && negb success_clears) eqn:Href; cbn [orb].
    { apply wp_ret. split; [done|]. apply Hs. }
    rewrite decide_False by lia. apply wp_bind. eapply wp_derefs; [done|]. apply wp_bind, wp_modify.
    assert (Hn : forall i a k, slots !! i = Some (a, k) -> a <> n).
    { intros i a k Hi. destruct (c_slots _ _ _ _ _ Hs i a k Hi) as (_ & _ & Ha). lia. }
    pose proof (scanned_fill p slots arr n (set_pending false s1) (MkHandle hd t f)
      ltac:(by apply scanned_pending) Hlt ltac:(by apply lookup_insert_eq) Hn) as Hs2.
    replace (S (Datatypes.length slots)) with (Datatypes.length (slots ++ [(n, MkHandle hd t f)]))
      by (rewrite length_app; cbn; lia).
    eapply wp_mono; [apply (IH _ _ _ _ Hs2)|].
    { rewrite length_app. cbn in *. lia. }
    cbn [pending set_pending set_handles set_opened]. intros r s'. destruct (refused false entries); [done|].
    intros (slots' & arr' & -> & Hps & Hs'). exists slots', arr'. split; [done|]. split.
    + rewrite Hps, fmap_app, <- app_assoc. done.
    + by rewrite Nat.add_succ_comm in Hs'.
  - eapply wp_done; [done|]. apply wp_bind, wp_modify, wp_ret.
    unfold loaded in *. rewrite Hopen in *. cbn in Hlen |- *.
    eapply wp_mono; [apply (IH slots _ (S n)); [by apply scanned_pending|done]|].
    cbn [pending set_pending]. intros r s'. destruct (refused true entries); [done|].
    intros (slots' & arr' & -> & Hps & Hs'). exists slots', arr'. split_and!; [done|done|].
    by rewrite Nat.add_succ_comm in Hs'.
Qed.

(** ** Choosing a plug-in *)

Lemma slot_at p slots arr n s i a h : scanned p slots arr n s -> slots !! i = Some (a, h) ->
  forall (Q : nat -> kernel -> Prop), Q a s -> wp (handle_at arr i) s Q.
Proof.
  intros Hs Hi Q HQ. destruct (c_slots _ _ _ _ _ Hs i a h Hi) as (H1 & _ & _). unfold handle_at.
  apply wp_bind. eapply wp_derefs; [done|]. by eapply wp_derefs.
Qed.

Lemma slot_handle p slots arr n s i a h : scanned p slots arr n s -> slots !! i = Some (a, h) ->
  load_handle a s = Done (h, s).
Proof.
  intros Hs Hi. destruct (c_slots _ _ _ _ _ Hs i a h Hi) as (_ & H2 & _). unfold load_handle. by rewrite H2.
Qed.

(** The first slot from [i] on whose type is [ext]. *)
Lemma find_type_spec p slots arr n s i todo k a h ext : scanned p slots arr n s -> i + todo = Datatypes.length slots ->
  i <= k -> slots !! k = Some (a, h) -> type h = ext ->
  (forall j b g, i <= j < k -> slots !! j = Some (b, g) -> type g <> ext) ->
  wp (find_type todo i ext arr) s (fun r s' => r = k /\ s' = s).
Proof.
  intros Hs. revert i. induction todo as [|todo IH]; intros i Hlen Hik Hk Hext Hfirst.
  { apply lookup_lt_Some in Hk. lia. }
  cbn [find_type]. destruct (lookup_lt_is_Some_2 slots i) as [[b g] Hi]; [lia|].
  apply wp_bind. eapply slot_at; [done..|]. apply wp_bind. eapply wp_done; [by eapply slot_handle|].
  case_decide as Hc; rewrite strcmp_eq in Hc.
  - apply wp_ret. split; [|done]. destruct (decide (i = k)) as [|Hne]; [done|].
    destruct (Hfirst i b g); [lia|done|done].
  - apply IH; [lia| |done..|].
    + destruct (decide (i = k)) as [->|]; [|lia]. simplify_eq.
    + intros j b' g' Hj. apply Hfirst. lia.
Qed.

(** The handles of the slots are given back. *)
Lemma free_all_spec (slots : list (nat * Handle)) i arr s :
  (forall j a h, slots !! j = Some (a, h) -> arr !! (i + j) = Some (Some a) /\ is_Some (handles s !! a)) ->
  NoDup slots.*1 ->
  wp (free_all (Datatypes.length slots) i arr) s (fun _ s' => process s' = process s /\ opened s' = opened s /\
    size (handles s') + Datatypes.length slots = size (handles s)).
Proof.
  revert i s. induction slots as [|[a h] slots IH]; intros i s Hsl Hnd; cbn [free_all Datatypes.length].
  { apply wp_ret. split; [done|]. split; [done|lia]. }
  destruct (Hsl 0 a h eq_refl) as [Harr [c Hc]]. rewrite Nat.add_0_r in Harr. inversion_clear Hnd as [|? ? Ha Hnd'].
  apply wp_bind. eapply wp_derefs; [done|]. apply wp_bind.
  eapply wp_done; [unfold free_handle; by rewrite Hc|].
  eapply wp_mono; [apply (IH (S i)); [|done]|].
  - intros j b g Hj. destruct (Hsl (S j) b g Hj) as [H1 H2]. rewrite <- Nat.add_succ_comm in H1. split; [done|].
    cbn. rewrite lookup_delete_ne; [done|]. intros ->. apply Ha. apply list_elem_of_fmap.
    exists (b, g). split; [done|]. by eapply list_elem_of_lookup_2.
  - intros u s' (Hp & Ho & Hsz). split; [done|]. split; [done|]. cbn in Hsz.
    assert (size (handles s) = S (size (delete a (handles s)))) as ->; [|lia].
    rewrite <- (insert_delete_id (handles s) a c Hc) at 1. apply map_size_insert_None, lookup_delete_eq.
Qed.

Definition started (p : proc) : kernel := MkKernel p ∅ 0 false 0.

Lemma started_scanned p : scanned p [] (replicate MAX_PLUGIN None) 0 (started p).
Proof. split; try done. constructor. Qed.

(** What [main] does when the directory has been read. *)
Lemma chosen p slots arr n s k a h ext argv0 argv1 argv2 (O : exec (Z * kernel) -> Prop) :
  scanned p slots arr n s -> slots !! k = Some (a, h) -> type h = ext ->
  (forall j b g, 0 <= j < k -> slots !! j = Some (b, g) -> type g <> ext) ->
  String.length argv1 < 1024 -> file_type argv1 = Some ext ->
  let argv := [argv0; argv1; argv2] in
  match h_ui_cmd h argv p with
  | Done (_, p') => forall s', process s' = p' /\ size (handles s') + Datatypes.length slots = n /\
      opened s' + 1 = Datatypes.length slots -> O (Done (0%Z, s'))
  | Fault e => O (Fault e)
  end ->
  O ((pluginId ← getPluginType argv (Datatypes.length slots) arr;
      p ← handle_at arr pluginId;
      h ← load_handle p;
      _ ← in_process (h_ui_cmd h argv);
      _ ← dlclose (handle h);
      _ ← free_all (Datatypes.length slots) 0 arr;
      mret 0%Z) s).
Proof.
  intros Hs Hslot Ht Hfirst Hl Hext argv HO. apply bind_outcome. unfold getPluginType.
  apply wp_bind. eapply wp_derefs; [done|]. rewrite decide_False by lia. rewrite Hext.
  destruct (Datatypes.length slots) as [|m] eqn:Hm; [apply lookup_lt_Some in Hslot; lia|]. rewrite <- Hm in *.
  eapply wp_mono; [by apply (find_type_spec p slots arr _ s 0 _ k a h ext Hs); [|lia|..]|].
  intros i s2 [-> ->]. apply bind_outcome. eapply slot_at; [done..|].
  apply bind_outcome. eapply wp_done; [by eapply slot_handle|].
  unfold mbind at 1, st_bind at 1, in_process. rewrite (c_process _ _ _ _ _ Hs).
  destruct (h_ui_cmd h argv p) as [[u p']|e]; [|exact HO]. cbn [mbind exec_bind].
  apply bind_outcome. eapply wp_done.
  { unfold dlclose. cbn [opened]. rewrite (c_opened _ _ _ _ _ Hs), Hm. done. }
  apply bind_outcome. eapply wp_mono.
  { apply (free_all_spec slots 0 arr); [|apply Hs]. intros j b g Hj.
    destruct (c_slots _ _ _ _ _ Hs j b g Hj) as (H1 & H2 & _). split; [done|]. by eexists. }
  intros u' s4 (Hp & Ho & Hsz). apply HO. cbn in *. rewrite (c_size _ _ _ _ _ Hs) in Hsz. split_and!; [done|done|lia].
Qed.

(** In a directory whose libraries can be loaded, the loader gives up before any
    plug-in runs, or running the program is running the [ui_cmd] of the first
    plug-in that is named like the extension of the file, whatever that does. *)
Lemma dispatch entries argv0 argv1 argv2 ext k f p :
  Forall entry_ok entries -> Datatypes.length (omap loaded entries) < MAX_PLUGIN ->
  String.length argv1 < 1024 -> file_type argv1 = Some ext ->
  omap loaded entries !! k = Some (ext, f) ->
  (forall j g, j < k -> omap loaded entries !! j <> Some (ext, g)) ->
  if refused false entries then
    exists s', main (Some entries) [argv0; argv1; argv2] (started p) = Done ((-1)%Z, s') /\ process s' = p
  else
    match f [argv0; argv1; argv2] p with
    | Done (_, p') => exists s', main (Some entries) [argv0; argv1; argv2] (started p) = Done (0%Z, s') /\
        process s' = p' /\ size (handles s') + Datatypes.length (omap loaded entries) = Datatypes.length entries /\
        opened s' + 1 = Datatypes.length (omap loaded entries)
    | Fault e => main (Some entries) [argv0; argv1; argv2] (started p) = Fault e
    end.
Proof.
  intros Hok Hlen Hl Hext Hk Hfirst. set (argv := [argv0; argv1; argv2]).
  set (O := fun r : exec (Z * kernel) => if refused false entries then
      exists s', r = Done ((-1)%Z, s') /\ process s' = p
    else match f argv p with
    | Done (_, p') => exists s', r = Done (0%Z, s') /\ process s' = p' /\
        size (handles s') + Datatypes.length (omap loaded entries) = Datatypes.length entries /\
        opened s' + 1 = Datatypes.length (omap loaded entries)
    | Fault e => r = Fault e end).
  enough (HO : O (main (Some entries) argv (started p)))
    by (unfold O in HO; destruct (refused false entries); [done|by destruct (f argv p) as [[]|]]).
  unfold main. rewrite decide_False by (by intros []). cbn [pluginInit]. apply bind_outcome. eapply wp_mono.
  { by apply (scan_spec p entries [] _ 0 _ Hok (started_scanned p)). }
  intros r s. change (pending (started p)) with false. destruct (refused false entries).
  { intros [-> Hp]. unfold O. by exists s. }
  intros (slots & arr & -> & Hps & Hs). cbn [fmap list_fmap app Nat.add] in Hps, Hs.
  assert (Hslot : exists a h, slots !! k = Some (a, h) /\ type h = ext /\ h_ui_cmd h = f).
  { rewrite <- Hps, list_lookup_fmap in Hk. destruct (slots !! k) as [[a h]|]; [|done]. injection Hk as <- <-. eauto. }
  destruct Hslot as (a & h & Hslot & Ht & Hf). fold argv.
  apply (chosen p slots arr _ s k a h ext argv0 argv1 argv2 O Hs Hslot Ht); [|done..|].
  - intros j b g Hj Hjs Htg. apply (Hfirst j (h_ui_cmd g)); [lia|].
    rewrite <- Hps, list_lookup_fmap, Hjs. cbn. unfold plugin_of. cbn. by rewrite Htg.
  - fold argv. unfold O. rewrite Hf. destruct (f argv p) as [[u p']|e]; [|done].
    intros s' (Hp & Hsz & Ho). exists s'. rewrite <- Hps, length_fmap. done.
Qed.

(** C33: take a directory whose libraries can all be loaded.  When an entry that is
    no library (such as [.]) stands before a library and [dlerror] keeps the error
    of its [dlopen], as its manual says, the program ends with -1 before any plug-in
    is run and nothing is changed.  Otherwise, so always with a library whose
    [dlerror] forgets the error when a call succeeds, running the program is running
    the [ui_cmd] of the first plug-in that is named like the extension of the file,
    whatever that function does; when it returns the program returns 0, one handle
    for each entry that is no library is left allocated, and every library but the
    one that was used is left open. *)
Theorem main_dispatches entries argv0 argv1 argv2 ext k f p :
  Forall entry_ok entries -> Datatypes.length (omap loaded entries) < MAX_PLUGIN ->
  String.length argv1 < 1024 -> file_type argv1 = Some ext ->
  omap loaded entries !! k = Some (ext, f) ->
  (forall j g, j < k -> omap loaded entries !! j <> Some (ext, g)) ->
  if refused false entries then
    exists s', main (Some entries) [argv0; argv1; argv2] (started p) = Done ((-1)%Z, s') /\ process s' = p
  else
    match f [argv0; argv1; argv2] p with
    | Done (_, p') => exists s', main (Some entries) [argv0; argv1; argv2] (started p) = Done (0%Z, s') /\
        process s' = p' /\ size (handles s') + Datatypes.length (omap loaded entries) = Datatypes.length entries /\
        opened s' + 1 = Datatypes.length (omap loaded entries)
    | Fault e => main (Some entries) [argv0; argv1; argv2] (started p) = Fault e
    end.
Proof. apply dispatch. Qed.
End kernel.

(** ** The loader with the text plug-in *)

Section text.
Context `{Dl} {sio : Stdio} (rand : nat -> Z) (atof : string -> spec_float) (fmt_lf : spec_float -> string).

Lemma txt_file_type ty pre : keyed_type ty -> pre <> EmptyString ->
  all_chars (fun c => negb (in_set DELIM c)) pre = true -> file_type (in_name ty pre) = Some "txt".
Proof.
  intros [_ Hd] Hne Hpre. unfold file_type.
  assert (Hdot : all_chars (fun c => negb (in_set "." c)) pre = true).
  { eapply all_chars_mono; [|exact Hpre]. intros c. unfold in_set. cbn. by destruct (Ascii.eqb c "."), (Ascii.eqb c "_"). }
  assert (Hname : in_name ty pre = (pre +:+ "_" +:+ data_name ty) +:+ String "."%char "txt")
    by (unfold in_name; by rewrite !str_app_assoc).
  rewrite Hname, strtok_token; [done|by destruct pre|..|done].
  rewrite !all_chars_app, Hdot. unfold data_name. by case_decide.
Qed.

(** The end of the program. *)
Lemma kernel_exit (r : Z) f0 outs k s (Q : Z -> kernel -> Prop) : writing f0 outs k (io (process s)) ->
  Q r (MkKernel (set_io (MkStdio (written outs f0) [] 0) (process s)) (handles s) (hbrk s) (pending s) (opened s)) ->
  wp (_ ← in_process (in_io exit_streams); mret r) s Q.
Proof.
  intros Hw HQ. destruct (exit_streams_spec _ _ _ _ Hw) as ([[] d] & Hrun & Hd). cbn in Hd. subst d.
  apply wp_bind. eapply wp_done; [unfold in_process, in_io; by rewrite Hrun|]. by apply wp_ret.
Qed.

(** The text plug-in does what the program of Lab 5 does. *)
Lemma txt_sorts ty prog pre es s f0 :
  keyed_type ty -> pre <> EmptyString -> all_chars (fun c => negb (in_set DELIM c)) pre = true ->
  String.length (in_name ty pre) < MAX_STR -> io s = MkStdio f0 [] 0 ->
  f0 !! in_name ty pre = Some (text fmt_lf es) -> Forall (wf_entry fmt_lf ty) es ->
  sortable ty es.*2 -> (Z.of_nat (Datatypes.length es) <= INT_MAX)%Z -> fresh s ->
  wp (PluginTxt.ui_cmd rand atof fmt_lf [prog; in_name ty pre; sort_name ty]) s (fun _ s' =>
    heap s' = heap s /\
    exists es', sorted_entries ty es es' /\ writing f0 [(out_name ty, text fmt_lf es')] 0 (io s')).
Proof.
  intros Hty Hne Hpre Hlen Hio Hfile Hes Hs Hn Hb. unfold PluginTxt.ui_cmd, PluginTxt.getType.
  apply wp_bind, wp_bind, wp_ret, wp_bind, wp_ret. eapply wp_lift; [by apply getType_spec|]. pose proof max_open_law.
  eapply wp_mono; [apply (driver_spec rand atof fmt_lf ty (in_name ty pre) es s f0 []); try done|].
  - rewrite Hio. apply writing_none.
  - set_solver.
  - set_solver.
  - cbn. lia.
  - intros u s' (Hh & _ & Hpost). done.
Qed.

(** C34: when the first plug-in of the directory that is named [txt] is the text
    plug-in, the whole program sorts a text file, loader, plug-in, list and sort
    together: it returns 0, and when the streams have been flushed the output file
    holds the sorted entries, no other file is changed and the objects of the sort
    have been freed.  But when [dlerror] keeps errors and an entry that is no
    library stands before a library, the program ends with -1 and has sorted
    nothing. *)
Theorem kernel_sorts_text entries ty prog pre es p k f0 :
  Forall entry_ok entries -> Datatypes.length (omap loaded entries) < MAX_PLUGIN ->
  omap loaded entries !! k = Some ("txt", PluginTxt.ui_cmd rand atof fmt_lf) ->
  (forall j g, j < k -> omap loaded entries !! j <> Some ("txt", g)) ->
  keyed_type ty -> pre <> EmptyString -> all_chars (fun c => negb (in_set DELIM c)) pre = true ->
  String.length (in_name ty pre) < MAX_STR -> io p = MkStdio f0 [] 0 ->
  f0 !! in_name ty pre = Some (text fmt_lf es) -> Forall (wf_entry fmt_lf ty) es ->
  sortable ty es.*2 -> (Z.of_nat (Datatypes.length es) <= INT_MAX)%Z -> fresh p ->
  wp (main_to_exit (Some entries) [prog; in_name ty pre; sort_name ty]) (started p) (fun r s' =>
    heap (process s') = heap p /\
    if refused false entries then r = (-1)%Z /\ io (process s') = MkStdio f0 [] 0
    else r = 0%Z /\ exists es', sorted_entries ty es es' /\
      io (process s') = MkStdio (<[out_name ty := text fmt_lf es']> f0) [] 0).
Proof.
  intros Hok Hl Hk Hfirst Hty Hne Hpre Hlen Hio Hfile Hes Hs Hn Hb.
  destruct (txt_sorts ty prog pre es p f0 Hty Hne Hpre Hlen Hio Hfile Hes Hs Hn Hb) as ([u p'] & Hrun & Hh & es' & Hes' & Hw).
  pose proof (dispatch entries prog (in_name ty pre) (sort_name ty) "txt" k
    (PluginTxt.ui_cmd rand atof fmt_lf) p Hok Hl Hlen (txt_file_type ty pre Hty Hne Hpre) Hk Hfirst) as Hmain.
  rewrite Hrun in Hmain. apply wp_bind. destruct (refused false entries).
  - destruct Hmain as (s' & Hrun' & Hp). eapply wp_done; [exact Hrun'|]. eapply kernel_exit.
    { rewrite Hp, Hio. apply writing_none. }
    cbn. rewrite Hp. unfold written. cbn. by rewrite (left_id_L ∅ (∪)).
  - destruct Hmain as (s' & Hrun' & Hp & _). eapply wp_done; [exact Hrun'|]. cbn in Hh, Hw. eapply kernel_exit.
    { rewrite Hp. exact Hw. }
    rewrite written_one. cbn. rewrite Hp, Hh. split; [done|]. split; [done|]. by exists es'.
Qed.
End text.

(** ** A directory with both plug-ins *)

Section demo.
Let zero : string -> spec_float := fun _ => one.
Let shown : spec_float -> string := fun _ => "0".
#[local] Existing Instance lazy_stdio.

(** A linker whose [dlerror] forgets errors, or not. *)
Definition demo_dl (clears : bool) : Dl := {|
  lib := bool;
  dlopen path := if decide (path = "./plugins/txt.so") then Some true
                 else if decide (path = "./plugins/csv.so") then Some false else None;
  dlsym l := Some (if l : bool then PluginTxt.ui_cmd Z.of_nat zero shown else PluginCsv.ui_cmd Z.of_nat zero shown);
  success_clears := clears
|}.

Definition demo_dir : list string := ["."; "csv.so"; ".."; "txt.so"; "notes"].

Lemma demo_dir_ok b : Forall (@entry_ok (demo_dl b)) demo_dir.
Proof.
  assert (Hno : forall d, String.length (PLUGINS +:+ d) < 256 -> @dlopen (demo_dl b) (PLUGINS +:+ d) = None ->
    @entry_ok (demo_dl b) d) by (intros d Hl Hd; by split).
  assert (Hso : forall d x, String.length (PLUGINS +:+ d) < 36 -> ~ is_dots (PLUGINS +:+ d) ->
    @loaded (demo_dl b) d = Some x -> @entry_ok (demo_dl b) d) by (intros d x Hl Hd Hx; split; [lia|eauto]).
  repeat apply Forall_cons_2; try apply Forall_nil_2.
  1, 3, 5: apply Hno; [apply Nat.ltb_lt|]; reflexivity.
  all: eapply Hso; [apply Nat.ltb_lt; reflexivity|by intros [Hx|Hx]|reflexivity].
Qed.

Lemma demo_loaded b : omap (@loaded (demo_dl b)) demo_dir =
  [("csv", PluginCsv.ui_cmd Z.of_nat zero shown); ("txt", PluginTxt.ui_cmd Z.of_nat zero shown)].
Proof. reflexivity. Qed.

Lemma demo_first b j g : j < 1 -> omap (@loaded (demo_dl b)) demo_dir !! j <> Some ("txt", g).
Proof. rewrite demo_loaded. intros Hj. by assert (j = 0) as -> by lia. Qed.

Lemma demo_few b : Datatypes.length (omap (@loaded (demo_dl b)) demo_dir) < MAX_PLUGIN.
Proof. rewrite demo_loaded. cbn. unfold MAX_PLUGIN. lia. Qed.

Definition demo_args : list string := ["cmplxsort"; "rand_int.txt"; "inc"].

(** Sorted with the one linker, given up with the other. *)
Lemma kernel_sorts_text_witness :
  wp (@main_to_exit (demo_dl true) _ (Some demo_dir) demo_args) (@started (demo_dl true) demo_disk) (fun r s' =>
    heap (process s') = ∅ /\ r = 0%Z /\ exists es', sorted_entries (int_type SORT_INC) demo_entries es' /\
    io (process s') = MkStdio (<["inc_int.txt" := text shown es']> demo_files) [] 0) /\
  wp (@main_to_exit (demo_dl false) _ (Some demo_dir) demo_args) (@started (demo_dl false) demo_disk) (fun r s' =>
    heap (process s') = ∅ /\ r = (-1)%Z /\ io (process s') = MkStdio demo_files [] 0).
Proof.
  split;
    [ apply (@kernel_sorts_text (demo_dl true) _ Z.of_nat zero shown demo_dir (int_type SORT_INC) "cmplxsort" "rand" demo_entries demo_disk 1)
    | apply (@kernel_sorts_text (demo_dl false) _ Z.of_nat zero shown demo_dir (int_type SORT_INC) "cmplxsort" "rand" demo_entries demo_disk 1)];
    first [ apply demo_dir_ok | apply demo_few | apply demo_first | apply demo_sortable | reflexivity | done
          | split; vm_compute; set_solver | apply Nat.ltb_lt; vm_compute; reflexivity
          | repeat constructor; try done; apply Nat.ltb_lt; vm_compute; reflexivity ].
Defined.

(** What the text plug-in does with the file of the demonstration. *)
Lemma demo_txt : exists p', PluginTxt.ui_cmd Z.of_nat zero shown demo_args demo_disk = Done (tt, p').
Proof. eexists. vm_compute. reflexivity. Qed.

(** On the text file the CSV plug-in is not asked; with a [dlerror] that keeps its
    errors none is. *)
Lemma main_dispatches_witness :
  (exists p' s', PluginTxt.ui_cmd Z.of_nat zero shown demo_args demo_disk = Done (tt, p') /\
    @main (demo_dl true) (Some demo_dir) demo_args (@started (demo_dl true) demo_disk) = Done (0%Z, s') /\
    process s' = p' /\ size (handles s') + 2 = 5 /\ opened s' + 1 = 2) /\
  exists s', @main (demo_dl false) (Some demo_dir) demo_args (@started (demo_dl false) demo_disk) = Done ((-1)%Z, s') /\
    process s' = demo_disk.
Proof.
  assert (Hl : String.length "rand_int.txt" < 1024) by (apply Nat.ltb_lt; reflexivity).
  split.
  - pose proof (@main_dispatches (demo_dl true) demo_dir "cmplxsort" "rand_int.txt" "inc" "txt" 1 _ demo_disk
      (demo_dir_ok _) (demo_few _) Hl eq_refl eq_refl (demo_first _)) as Hmain.
    destruct demo_txt as [p' Hrun]. exists p'. unfold demo_args in *. rewrite Hrun in Hmain.
    destruct Hmain as (s' & Hm & Hp & Hsz & Ho). rewrite demo_loaded in Hsz, Ho.
    exists s'. split_and!; [exact Hrun|exact Hm|exact Hp|exact Hsz|exact Ho].
  - exact (@main_dispatches (demo_dl false) demo_dir "cmplxsort" "rand_int.txt" "inc" "txt" 1 _ demo_disk
      (demo_dir_ok _) (demo_few _) Hl eq_refl eq_refl (demo_first _)).
Defined.

(** No plug-in for the extension: the function that looks for it ends without a
    result, which the program then uses. *)
Example no_plugin : match @main (demo_dl true) (Some demo_dir) ["cmplxsort"; "notes.md"; "inc"] (@started (demo_dl true) demo_disk) with
  | Fault Undefined => true | _ => false end = true.
Proof. vm_compute. reflexivity. Qed.
End demo.
