(* ===== verification/DlistObj.v ===== *)
(** * The list object of [Lab/Lab 5/lab5_dlist.c]

    A list type behind a [void *], with a union for the values.  The objects
    [List] and [Node] live on the heap; keys and string values are pointers that
    the list borrows from its user.  [malloc] succeeds, [rand] is a parameter. *)
From S2P Require Import Prelude StateM CString.
From S2P Require Export PtrArray.
From Stdlib Require Import SpecFloat.

(** ** Data *)

Inductive dlistValueType := DLIST_INT | DLIST_STR | DLIST_DOUBLE | DLIST_UNKOWN.
#[export] Instance dlistValueType_eq_dec : EqDecision dlistValueType.
Proof. solve_decision. Defined.

(** The number of the enumeration, as which the code uses it. *)
Definition type_no (t : dlistValueType) : nat :=
  match t with DLIST_INT => 1 | DLIST_STR => 2 | DLIST_DOUBLE => 3 | DLIST_UNKOWN => 0 end.

Inductive dlistSortMethod := DLIST_SORT_RAND | DLIST_SORT_INC | DLIST_SORT_DEC | DLIST_SORT_UNKOWN.

(** The union, with the member that was stored last. *)
Inductive dlistValue := intValue (z : Z) | doubleValue (d : spec_float) | strValue (p : nat).

Record Node := MkNode { key : nat; value : dlistValue; next : option nat }.
Record List := MkList { head : option nat; type : dlistValueType; length : Z }.

(** The objects of the heap, the next address, and how often [rand] was called. *)
Record mem := MkMem { lists : gmap nat List; nodes : gmap nat Node; brk : nat; draws : nat }.
Definition set_lists (l : gmap nat List) (s : mem) : mem := MkMem l (nodes s) (brk s) (draws s).
Definition set_nodes (n : gmap nat Node) (s : mem) : mem := MkMem (lists s) n (brk s) (draws s).

Definition load_list (this : option nat) : ST mem (nat * List) :=
  p ← derefs NullDeref this;
  m ← gets lists;
  l ← derefs Undefined (m !! p);
  mret (p, l).
Definition store_list (p : nat) (l : List) : ST mem unit := modify (fun s => set_lists (<[p := l]> (lists s)) s).

Definition load_node (p : nat) : ST mem Node := m ← gets nodes; derefs Undefined (m !! p).
Definition store_next (p : nat) (q : option nat) : ST mem unit :=
  n ← load_node p;
  modify (fun s => set_nodes (<[p := MkNode (key n) (value n) q]> (nodes s)) s).
Definition malloc_node (n : Node) : ST mem nat := fun s =>
  Done (brk s, MkMem (lists s) (<[brk s := n]> (nodes s)) (S (brk s)) (draws s)).
Definition free_node (p : nat) : ST mem unit :=
  _ ← load_node p; modify (fun s => set_nodes (delete p (nodes s)) s).

(** A walk along a list visits each node of the heap once at most. *)
Definition walk_fuel : ST mem nat := gets (fun s => S (size (nodes s))).

(** ** Creating and appending *)

(** The object is allocated and initialised before the type is looked at. *)
Definition createDlist (type : dlistValueType) : ST mem (option nat) := fun s =>
  Done (if decide (type = DLIST_UNKOWN) then None else Some (brk s),
        MkMem (<[brk s := MkList None type 0]> (lists s)) (nodes s) (S (brk s)) (draws s)).

Definition dlistIsEmpty (this : option nat) : ST mem bool :=
  '(_, l) ← load_list this; mret (bool_decide (length l = 0)%Z).

Fixpoint last_node (fuel : nat) (indexNode : nat) : ST mem nat :=
  match fuel with
  | O => raise OutOfFuel
  | S fuel =>
      n ← load_node indexNode;
      match next n with Some q => last_node fuel q | None => mret indexNode end
  end.

Definition dlistAppend (this : option nat) (key : nat) (value : dlistValue) : ST mem unit :=
  node ← malloc_node (MkNode key value None);
  empty ← dlistIsEmpty this;
  '(p, l) ← load_list this;
  _ ← (if empty : bool then store_list p (MkList (Some node) (type l) (length l))
       else
         indexNode ← derefs NullDeref (head l);
         fuel ← walk_fuel;
         indexNode ← last_node fuel indexNode;
         store_next indexNode (Some node));
  '(p, l) ← load_list this;
  n ← lift (int_expr (length l + 1));
  store_list p (MkList (head l) (type l) n).

(** ** Sorting *)

Fixpoint fill_src (fuel : nat) (src : list (option nat)) (index : Z) (nodeIndex : option nat)
    : ST mem (list (option nat)) :=
  match nodeIndex with
  | None => mret src
  | Some p =>
      match fuel with
      | O => raise OutOfFuel
      | S fuel =>
          src ← lift (src_set src index p);
          n ← load_node p;
          fill_src fuel src (index + 1) (next n)
      end
  end.

(** [for (i = 0; i < length - 1; i++) src[i]->next = src[i+1]]. *)
Fixpoint relink (n : nat) (src : list (option nat)) (i : Z) : ST mem unit :=
  match n with
  | O => mret tt
  | S n =>
      p ← lift (src_get src i);
      q ← lift (src_get src (i + 1));
      _ ← store_next p (Some q);
      relink n src (i + 1)
  end.

Section sort.
Context (rand : nat -> Z).

(** The assertions of [rnd] hold of the address of a node. *)
Definition rnd (a b : nat) : ST mem Z := fun s =>
  Done (Z.rem (rand (draws s)) 2 * 2 - 1, MkMem (lists s) (nodes s) (brk s) (S (draws s)))%Z.

Definition cmp : list (list (nat -> nat -> ST mem Z)) :=
  [[rnd; rnd; rnd]; [rnd; rnd; rnd]; [rnd; rnd; rnd]].

(** [cmp[type][type]]. *)
Definition cmp_at (type : dlistValueType) : exec (nat -> nat -> ST mem Z) :=
  row ← deref OutOfBounds (cmp !! type_no type);
  deref OutOfBounds (row !! type_no type).

(** The inner [while] loop: [n] bounds its passes. *)
Fixpoint shift_greater (n : nat) (type : dlistValueType) (src : list (option nat)) (j : Z) (flag : nat)
    : ST mem (list (option nat) * Z) :=
  if decide (0 <= j)%Z then
    match n with
    | O => raise OutOfFuel
    | S n =>
        f ← lift (cmp_at type);
        p ← lift (src_get src j);
        c ← f p flag;
        if decide (0 <= c)%Z then
          src ← lift (src_set src (j + 1) p);
          shift_greater n type src (j - 1) flag
        else mret (src, j)
    end
  else mret (src, j).

Definition insert_one (type : dlistValueType) (src : list (option nat)) (i : Z) : ST mem (list (option nat)) :=
  flag ← lift (src_get src i);
  '(src, j) ← shift_greater (Z.to_nat i) type src (i - 1) flag;
  lift (src_set src (j + 1) flag).

(** [for (i = 1; i < length; i++)]: [n] passes are left. *)
Fixpoint insert_all (n : nat) (type : dlistValueType) (src : list (option nat)) (i : Z)
    : ST mem (list (option nat)) :=
  match n with
  | O => mret src
  | S n => src ← insert_one type src i; insert_all n type src (i + 1)
  end.

(** The arguments [listDst] and [method] are not used. *)
Definition dlistSort (this listDst : option nat) (method : dlistSortMethod) : ST mem unit :=
  '(p, l) ← load_list this;
  if decide (length l = 0)%Z then mret tt
  else
    let n := Z.to_nat (length l) in
    fuel ← walk_fuel;
    src ← fill_src fuel (replicate n None) 0 (head l);
    src ← insert_all (n - 1) (type l) src 1;
    h ← lift (src_get src 0);
    _ ← store_list p (MkList (Some h) (type l) (length l));
    _ ← relink (n - 1) src 0;
    e ← lift (src_get src (length l - 1));
    store_next e None.
End sort.

(** ** Printing and freeing *)

(** The union itself is passed for the value of a conversion [%d], [%lf] or [%s],
    which is undefined. *)
Definition dlistPrint (this : option nat) : ST mem unit :=
  '(_, l) ← load_list this;
  if decide (length l = 0)%Z then mret tt
  else match head l with
       | None => mret tt
       | Some p => _ ← load_node p; raise Undefined
       end.

Fixpoint free_from (fuel : nat) (nodeIndex : option nat) : ST mem unit :=
  match nodeIndex with
  | None => mret tt
  | Some p =>
      match fuel with
      | O => raise OutOfFuel
      | S fuel => n ← load_node p; _ ← free_node p; free_from fuel (next n)
      end
  end.

(** The nodes are freed, the list object is not. *)
Definition dlistFree (this : option nat) : ST mem unit :=
  '(_, l) ← load_list this;
  if decide (length l = 0)%Z then mret tt
  else fuel ← walk_fuel; free_from fuel (head l).
