(* ===== verification/DlistObjProps.v ===== *)
(** * The list object of [lab5_dlist.c]: what a list holds, and its operations

    [dlist_at F s p ty l]: at [p] there is a list of type [ty] whose nodes are
    [l], and the rest of the nodes on the heap is [F].  Appending, sorting and
    freeing are proved against it. *)
From S2P Require Import Prelude StateM CString DlistObj.

(** ** Chains of nodes *)

(** The key and the value of a node, and a node with its address. *)
Notation entry := (nat * dlistValue)%type.
Notation item := (nat * entry)%type.

Definition node_of (e : entry) (r : option nat) : Node := MkNode e.1 e.2 r.

(** The chain from [p] to [q]. *)
Fixpoint seg (h : gmap nat Node) (p : option nat) (l : list item) (q : option nat) : Prop :=
  match l with
  | [] => p = q
  | i :: l => p = Some i.1 /\ exists r, h !! i.1 = Some (node_of i.2 r) /\ seg h r l q
  end.

Lemma dl_seg_app h p l1 l2 q : seg h p (l1 ++ l2) q <-> exists r, seg h p l1 r /\ seg h r l2 q.
Proof.
  revert p. induction l1 as [|i l1 IH]; intros p; cbn; [naive_solver|]. setoid_rewrite IH. naive_solver.
Qed.

Lemma dl_seg_snoc h p l i q : seg h p (l ++ [i]) q <-> seg h p l (Some i.1) /\ h !! i.1 = Some (node_of i.2 q).
Proof.
  rewrite dl_seg_app. cbn. split.
  - intros (r & Hl & -> & r' & Hn & <-). done.
  - intros [Hl Hn]. exists (Some i.1). eauto.
Qed.

Lemma dl_seg_insert h a c p l q : a ∉ l.*1 -> seg h p l q -> seg (<[a := c]> h) p l q.
Proof.
  revert p. induction l as [|i l IH]; intros p Ha; cbn in *; [done|].
  intros (-> & r & Hi & Hl). split; [done|]. exists r. rewrite lookup_insert_ne by set_solver.
  split; [done|]. apply IH; set_solver.
Qed.

Lemma seg_delete h a p l q : a ∉ l.*1 -> seg h p l q -> seg (delete a h) p l q.
Proof.
  revert p. induction l as [|i l IH]; intros p Ha; cbn in *; [done|].
  intros (-> & r & Hi & Hl). split; [done|]. exists r. rewrite lookup_delete_ne by set_solver.
  split; [done|]. apply IH; set_solver.
Qed.

(** The nodes of [l] are on the heap, whatever their links are. *)
Definition owned (h : gmap nat Node) (l : list item) : Prop :=
  Forall (fun i => exists r, h !! i.1 = Some (node_of i.2 r)) l.

#[export] Instance owned_perm h : Proper ((≡ₚ) ==> iff) (owned h).
Proof. apply Forall_Permutation. done. Qed.

Lemma seg_owned h p l q : seg h p l q -> owned h l.
Proof. revert p. induction l as [|i l IH]; intros p; cbn; [constructor|]. intros (_ & r & Hi & Hl). constructor; [by exists r|by eapply IH]. Qed.

Lemma owned_lookup h l i : owned h l -> i ∈ l -> exists r, h !! i.1 = Some (node_of i.2 r).
Proof. intros Hl Hi. unfold owned in Hl. rewrite Forall_forall in Hl. by apply Hl. Qed.

Lemma owned_dom h l a : owned h l -> a ∈ l.*1 -> is_Some (h !! a).
Proof. intros Hl (i & -> & Hi)%list_elem_of_fmap. destruct (owned_lookup _ _ _ Hl Hi) as [r ->]. by eexists. Qed.

Lemma owned_size h l : owned h l -> NoDup l.*1 -> Datatypes.length l <= size h.
Proof.
  intros Hl Hnd. rewrite <- size_dom, <- (length_fmap fst), <- (size_list_to_set (C := gset nat)) by done.
  apply subseteq_size. intros a Ha%elem_of_list_to_set. by apply elem_of_dom, (owned_dom _ l).
Qed.

(** ** Lists *)

Record dlist_at (F : gmap nat Node) (s : mem) (p : nat) (ty : dlistValueType) (l : list item) : Prop := {
  d_list : exists hd, lists s !! p = Some (MkList hd ty (Z.of_nat (Datatypes.length l))) /\ seg (nodes s) hd l None;
  d_nodup : NoDup l.*1;
  d_rest : forall a, a ∉ l.*1 -> nodes s !! a = F !! a;
  d_own : forall a, a ∈ l.*1 -> F !! a = None;
  d_brk : forall a, brk s <= a -> nodes s !! a = None
}.

Lemma wp_load_list s p l (Q : nat * List -> mem -> Prop) : lists s !! p = Some l -> Q (p, l) s ->
  wp (load_list (Some p)) s Q.
Proof. intros Hp HQ. apply wp_bind, wp_ret, wp_bind, wp_gets, wp_bind. eapply wp_derefs; [done|]. by apply wp_ret. Qed.

Lemma wp_load_node s p n (Q : Node -> mem -> Prop) : nodes s !! p = Some n -> Q n s -> wp (load_node p) s Q.
Proof. intros Hp HQ. apply wp_bind, wp_gets. by eapply wp_derefs. Qed.

(** A node with a new link. *)
Definition link (i : item) (q : option nat) (s : mem) : mem := set_nodes (<[i.1 := node_of i.2 q]> (nodes s)) s.

Lemma dl_wp_link s i q (Q : unit -> mem -> Prop) : (exists r, nodes s !! i.1 = Some (node_of i.2 r)) ->
  Q tt (link i q s) -> wp (store_next i.1 q) s Q.
Proof. intros [r Hr] HQ. apply wp_bind. eapply wp_load_node; [done|]. by apply wp_modify. Qed.

Lemma dl_wp_walk_fuel s (Q : nat -> mem -> Prop) : Q (S (size (nodes s))) s -> wp walk_fuel s Q.
Proof. apply (wp_gets (fun s => S (size (nodes s)))). Qed.

(** ** Creating and appending *)

Lemma createDlist_spec F ty s : ty <> DLIST_UNKOWN -> nodes s = F -> (forall a, brk s <= a -> F !! a = None) ->
  wp (createDlist ty) s (fun r s' => r = Some (brk s) /\ dlist_at F s' (brk s) ty [] /\
    lists s' = <[brk s := MkList None ty 0]> (lists s)).
Proof.
  intros Hty HF Hb. eapply wp_done; [done|]. rewrite decide_False by done. split; [done|]. split; [|done].
  split; cbn.
  - exists None. by rewrite lookup_insert_eq.
  - constructor.
  - by rewrite HF.
  - set_solver.
  - intros a Ha. rewrite HF. apply Hb. lia.
Qed.

Lemma dl_last_node_spec fuel p l i s : seg (nodes s) (Some p) (l ++ [i]) None -> Datatypes.length l < fuel ->
  wp (last_node fuel p) s (fun r s' => r = i.1 /\ s' = s).
Proof.
  revert p fuel. induction l as [|j l IH]; intros p [|fuel] Hs Hf; cbn in Hf; try lia;
    destruct Hs as (Hp & r & Hn & Hl); injection Hp as ->; apply wp_bind; (eapply wp_load_node; [exact Hn|]); cbn.
  - cbn in Hl. subst r. by apply wp_ret.
  - destruct r as [r|]; [|by destruct l; cbn in Hl; destruct Hl as [? _]]. apply IH; [done|lia].
Qed.

(** The nodes of a list were given out by [malloc]. *)
Lemma dlist_lt F s p ty l a : dlist_at F s p ty l -> a ∈ l.*1 -> a < brk s.
Proof.
  intros [(hd & _ & Hseg%seg_owned) _ _ _ Hbrk] [n Hn]%(owned_dom _ _ _ Hseg).
  destruct (decide (a < brk s)); [done|]. rewrite Hbrk in Hn by lia. done.
Qed.

(** A new last node. *)
Lemma dlist_snoc F s p ty l e h hd ls : dlist_at F s p ty l ->
  seg h hd (l ++ [(brk s, e)]) None -> (forall a, a ∉ (l ++ [(brk s, e)]).*1 -> h !! a = nodes s !! a) ->
  ls !! p = Some (MkList hd ty (Z.of_nat (Datatypes.length l) + 1)) ->
  dlist_at F (MkMem ls h (S (brk s)) (draws s)) p ty (l ++ [(brk s, e)]).
Proof.
  intros HL Hs Hh Hls. pose proof (fun a => dlist_lt _ _ _ _ _ a HL) as Hlt.
  destruct HL as [_ Hnd Hrest Hown Hbrk].
  assert (Hb : brk s ∉ l.*1) by (intros Hx%Hlt; lia).
  split; cbn.
  - exists hd. split; [|done]. rewrite length_app, Nat2Z.inj_add. done.
  - rewrite fmap_app. cbn. rewrite <- Permutation_cons_append. by constructor.
  - intros a Ha. rewrite Hh by done. apply Hrest. rewrite fmap_app in Ha. set_solver.
  - intros a. rewrite fmap_app, elem_of_app. intros [Ha| ->%list_elem_of_singleton]; [by apply Hown|].
    cbn. rewrite <- Hrest by done. by apply Hbrk.
  - intros a Ha. rewrite Hh; [apply Hbrk; lia|]. rewrite fmap_app, elem_of_app.
    intros [Hx%Hlt|Hx%list_elem_of_singleton]; [lia|]. cbn in Hx. lia.
Qed.

(** [dlistAppend] adds a node at the end, and changes no other list. *)
Lemma dlistAppend_spec F s p ty l k v : dlist_at F s p ty l -> (Z.of_nat (Datatypes.length l) < INT_MAX)%Z ->
  wp (dlistAppend (Some p) k v) s (fun _ s' => dlist_at F s' p ty (l ++ [(brk s, (k, v))]) /\
    delete p (lists s') = delete p (lists s)).
Proof.
  intros HL Hn. destruct HL as [(hd & Hp & Hseg) Hnd Hrest Hown Hbrk] eqn:E. clear E.
  pose proof (seg_owned _ _ _ _ Hseg) as Ho.
  assert (Hb : brk s ∉ l.*1) by (intros [x Hx]%(owned_dom _ _ _ Ho); rewrite Hbrk in Hx by lia; done).
  apply wp_bind. eapply wp_done; [done|]. set (h := <[brk s := MkNode k v None]> (nodes s)).
  assert (Hseg' : seg h hd l None) by by apply dl_seg_insert.
  apply wp_bind, wp_bind. eapply wp_load_list; [exact Hp|]. apply wp_ret. apply wp_bind.
  eapply wp_load_list; [exact Hp|]. cbn [length head type].
  assert (Hadd : int_expr (Z.of_nat (Datatypes.length l) + 1) = Done (Z.of_nat (Datatypes.length l) + 1)%Z)
    by (apply int_expr_done; unfold INT_MIN; lia).
  assert (Hlast : forall hd' h' ls, ls !! p = Some (MkList hd' ty (Z.of_nat (Datatypes.length l))) ->
    delete p ls = delete p (lists s) -> seg h' hd' (l ++ [(brk s, (k, v))]) None ->
    (forall a, a ∉ (l ++ [(brk s, (k, v))]).*1 -> h' !! a = nodes s !! a) ->
    wp ('(p0, l0) ← load_list (Some p); n ← lift (int_expr (length l0 + 1)); store_list p0 (MkList (head l0) (type l0) n))
      (MkMem ls h' (S (brk s)) (draws s))
      (fun _ s' => dlist_at F s' p ty (l ++ [(brk s, (k, v))]) /\ delete p (lists s') = delete p (lists s))).
  { intros hd' h' ls Hls Hdel Hs' Hh'. apply wp_bind. eapply wp_load_list; [exact Hls|]. cbn [length head type].
    apply wp_bind. eapply wp_lift; [exact Hadd|]. apply wp_modify. unfold set_lists. cbn. split; [|by rewrite delete_insert_eq].
    apply (dlist_snoc F s p ty l (k, v) h' hd'); [by split; eauto|done..|by rewrite lookup_insert_eq]. }
  apply wp_bind. destruct l as [|i l _] using rev_ind.
  - cbn in Hseg, Hlast. subst hd. cbn. apply wp_modify. unfold set_lists. cbn.
    apply (Hlast (Some (brk s))); [by rewrite lookup_insert_eq|by rewrite delete_insert_eq|..].
    + split; [done|]. exists None. unfold h. by rewrite lookup_insert_eq.
    + intros a Ha. unfold h. apply lookup_insert_ne. set_solver.
  - rewrite bool_decide_false by (rewrite length_app; cbn; lia).
    destruct hd as [q|]; [|by destruct l; cbn in Hseg; destruct Hseg].
    apply wp_bind, wp_ret, wp_bind, dl_wp_walk_fuel, wp_bind. eapply wp_mono.
    { apply (dl_last_node_spec _ _ l i); [exact Hseg'|]. cbn [nodes].
      pose proof (owned_size _ _ (seg_owned _ _ _ _ Hseg') Hnd) as Hsz. rewrite length_app in Hsz. cbn in Hsz. lia. }
    intros r s' [-> ->]. apply dl_seg_snoc in Hseg' as [Hs1 Hs2]. cbn [fst] in Hb.
    rewrite fmap_app in Hnd, Hb. cbn in Hnd, Hb. apply NoDup_app in Hnd as (Hnd & Hi & _).
    assert (Hil : i.1 ∉ l.*1) by (intros Hx; apply (Hi _ Hx); set_solver).
    apply dl_wp_link; [by eexists|]. unfold link, set_nodes. cbn.
    apply (Hlast (Some q)); [done..| |].
    + rewrite !dl_seg_snoc. cbn. split; [split|].
      * by apply dl_seg_insert.
      * by rewrite lookup_insert_eq.
      * rewrite lookup_insert_ne by set_solver. unfold h. by rewrite lookup_insert_eq.
    + intros a Ha. unfold h. rewrite !fmap_app in Ha. cbn in Ha. rewrite !lookup_insert_ne by set_solver. done.
Qed.

(** ** Sorting *)

Abbreviation arr := (PtrArray.arr (fst : item -> nat)).

Lemma dl_fill_src_spec fuel p l1 l s : seg (nodes s) p l None -> Datatypes.length l <= fuel ->
  wp (fill_src fuel (arr l1 ++ replicate (Datatypes.length l) None) (Z.of_nat (Datatypes.length l1)) p) s
    (fun a s' => a = arr (l1 ++ l) /\ s' = s).
Proof.
  revert p fuel l1. induction l as [|i l IH]; intros p fuel l1 Hs Hf; cbn in Hs.
  { subst p. cbn. rewrite !app_nil_r. destruct fuel; by apply wp_ret. }
  destruct Hs as (-> & r & Hi & Hl). destruct fuel as [|fuel]; cbn in Hf; [lia|].
  cbn [fill_src replicate Datatypes.length]. apply wp_bind. eapply wp_lift; [apply (src_set_next fst)|].
  apply wp_bind. eapply wp_load_node; [done|]. cbn [next node_of].
  replace (Z.of_nat (Datatypes.length l1) + 1)%Z with (Z.of_nat (Datatypes.length (l1 ++ [i])))
    by (rewrite length_app; cbn; lia).
  eapply wp_mono; [apply IH; [done|lia]|]. intros a s' [-> ->]. by rewrite <- app_assoc.
Qed.

(** Comparing draws random numbers only. *)
Definition same (s s' : mem) : Prop := nodes s' = nodes s /\ lists s' = lists s /\ brk s' = brk s.

#[export] Instance same_po : PreOrder same.
Proof. unfold same. split; [done|]. intros s1 s2 s3 (-> & -> & ->) (-> & -> & ->). done. Qed.

Section sort.
Context (rand : nat -> Z) (ty : dlistValueType).
Hypothesis Hcmp : cmp_at rand ty = Done (rnd rand).

Lemma dl_shift_greater_spec n p g q x s : Datatypes.length p <= n ->
  wp (shift_greater rand n ty (arr (p ++ g :: q)) (Z.of_nat (Datatypes.length p) - 1) x) s
    (fun r s' => same s s' /\ exists p1 p2 g', p = p1 ++ p2 /\
       r = (arr (p1 ++ g' :: p2 ++ q), Z.of_nat (Datatypes.length p1) - 1)%Z).
Proof.
  revert n g q s. induction p as [|y p IH] using rev_ind; intros n g q s Hn.
  { assert (Hr : shift_greater rand n ty (arr (g :: q)) (Z.of_nat 0 - 1) x = mret (arr (g :: q), (Z.of_nat 0 - 1)%Z))
      by by destruct n.
    cbn [app Datatypes.length]. rewrite Hr. apply wp_ret. split; [done|]. by exists [], [], g. }
  rewrite length_app in *. cbn [Datatypes.length] in *. destruct n as [|n]; [lia|].
  rewrite <- app_assoc. cbn [shift_greater app]. rewrite decide_True by lia.
  apply wp_bind. eapply wp_lift; [exact Hcmp|].
  apply wp_bind. eapply wp_lift; [apply src_get_arr; lia|].
  apply wp_bind. eapply wp_done; [done|]. case_decide as Hge.
  - apply wp_bind. eapply wp_lift.
    { rewrite (cons_middle y), (app_assoc p). apply src_set_arr. rewrite length_app. cbn. lia. }
    rewrite <- app_assoc. cbn [app].
    replace (Z.of_nat (Datatypes.length p + 1) - 1 - 1)%Z with (Z.of_nat (Datatypes.length p) - 1)%Z by lia.
    eapply wp_mono; [apply (IH n y (y :: q)); lia|]. intros r s' [Hs (p1 & p2 & g' & -> & ->)].
    split; [done|]. exists p1, (p2 ++ [y]), g'. by rewrite <- !app_assoc.
  - apply wp_ret. split; [done|]. exists (p ++ [y]), [], g. by rewrite app_nil_r, length_app, <- app_assoc.
Qed.

Lemma dl_insert_one_spec p x rest s :
  wp (insert_one rand ty (arr (p ++ x :: rest)) (Z.of_nat (Datatypes.length p))) s
    (fun a s' => same s s' /\ exists r, r ≡ₚ x :: p /\ a = arr (r ++ rest)).
Proof.
  unfold insert_one. apply wp_bind. eapply wp_lift; [by apply src_get_arr|].
  apply wp_bind. eapply wp_mono; [apply (dl_shift_greater_spec _ p x rest); lia|].
  intros r s' [Hs (p1 & p2 & g' & -> & ->)]. eapply wp_lift; [apply src_set_arr; lia|].
  split; [done|]. exists (p1 ++ x :: p2). rewrite <- app_assoc. split; [|done]. by rewrite <- Permutation_middle.
Qed.

Lemma dl_insert_all_spec r rest s :
  wp (insert_all rand (Datatypes.length rest) ty (arr (r ++ rest)) (Z.of_nat (Datatypes.length r))) s
    (fun a s' => same s s' /\ exists r', r' ≡ₚ r ++ rest /\ a = arr r').
Proof.
  revert r s. induction rest as [|x rest IH]; intros r s; cbn [Datatypes.length insert_all].
  - apply wp_ret. split; [done|]. exists r. by rewrite app_nil_r.
  - apply wp_bind. eapply wp_mono; [apply dl_insert_one_spec|]. intros a s' [Hs (r' & Hp & ->)].
    replace (Z.of_nat (Datatypes.length r) + 1)%Z with (Z.of_nat (Datatypes.length r')) by (rewrite Hp; cbn; lia).
    eapply wp_mono; [apply IH|]. intros a s'' [Hs' (r'' & Hp' & ->)]. split; [by transitivity s'|].
    exists r''. split; [|done]. rewrite Hp', Hp. cbn. by rewrite Permutation_middle.
Qed.
End sort.

Lemma sort_array_spec rand ty x rest s : rest = [] \/ cmp_at rand ty = Done (rnd rand) ->
  wp (insert_all rand (Datatypes.length rest) ty (arr ([x] ++ rest)) 1) s
    (fun a s' => same s s' /\ exists r', r' ≡ₚ [x] ++ rest /\ a = arr r').
Proof.
  intros [->|Hcmp]; [apply wp_ret; split; [done|by exists [x]]|]. by apply (dl_insert_all_spec rand ty Hcmp [x]).
Qed.

(** A state that differs in the links of the nodes of [r] only. *)
Definition relinked (r : list item) (s s' : mem) : Prop :=
  (forall a, a ∉ r.*1 -> nodes s' !! a = nodes s !! a) /\ brk s' = brk s /\ lists s' = lists s.

Lemma dl_relinked_link r x q s : x ∈ r -> relinked r s (link x q s).
Proof.
  intros Hx. split; [|done]. intros a Ha. cbn. apply lookup_insert_ne. intros <-. apply Ha, list_elem_of_fmap. eauto.
Qed.

Lemma dl_relinked_trans r s1 s2 s3 : relinked r s1 s2 -> relinked r s2 s3 -> relinked r s1 s3.
Proof.
  intros (H1 & Hb1 & Hl1) (H2 & Hb2 & Hl2). repeat split; try congruence. intros a Ha. by rewrite H2, H1.
Qed.

(** An address belongs to one item. *)
Lemma item_eq (l : list item) x y : NoDup l.*1 -> x ∈ l -> y ∈ l -> x.1 = y.1 -> x = y.
Proof.
  intros Hnd (i & Hi)%list_elem_of_lookup (j & Hj)%list_elem_of_lookup Hxy.
  assert (i = j) as ->; [|congruence].
  apply (NoDup_lookup l.*1 i j x.1 Hnd); rewrite list_lookup_fmap, ?Hi, ?Hj; cbn; congruence.
Qed.

Lemma dl_link_owned l x q s : NoDup l.*1 -> x ∈ l -> owned (nodes s) l -> owned (nodes (link x q s)) l.
Proof.
  intros Hnd Hx Ho. apply Forall_forall. intros z Hz. unfold link. cbn.
  destruct (decide (x.1 = z.1)) as [He|He].
  - rewrite (item_eq _ _ _ Hnd Hx Hz He). exists q. by rewrite lookup_insert_eq.
  - rewrite lookup_insert_ne by done. by apply (owned_lookup _ l).
Qed.

Lemma dl_relink_spec p r1 x r2 y s : let r := r1 ++ x :: r2 in
  NoDup r.*1 -> owned (nodes s) r -> seg (nodes s) p r1 (Some x.1) -> last (x :: r2) = Some y ->
  wp (relink (Datatypes.length r2) (arr r) (Z.of_nat (Datatypes.length r1))) s (fun _ s' =>
    relinked r s s' /\ owned (nodes s') r /\ exists r', r = r' ++ [y] /\ seg (nodes s') p r' (Some y.1)).
Proof.
  revert r1 x s. induction r2 as [|z r2 IH]; intros r1 x s r Hnd Ho Hs Hy; cbn [Datatypes.length relink].
  { apply wp_ret. injection Hy as <-. split; [by repeat split|]. split; [done|]. by exists r1. }
  apply wp_bind. eapply wp_lift; [by apply src_get_arr|].
  assert (Hr : r = (r1 ++ [x]) ++ z :: r2) by (unfold r; by rewrite <- app_assoc).
  assert (Hlen : (Z.of_nat (Datatypes.length r1) + 1)%Z = Z.of_nat (Datatypes.length (r1 ++ [x])))
    by (rewrite length_app; cbn; lia).
  apply wp_bind. eapply wp_lift; [rewrite Hlen, Hr; by apply src_get_arr|].
  assert (Hx : x ∈ r) by (unfold r; set_solver).
  apply wp_bind, dl_wp_link; [by apply (owned_lookup _ r)|].
  specialize (IH (r1 ++ [x]) z (link x (Some z.1) s)). cbn zeta in IH. rewrite <- Hr in IH.
  rewrite Hlen. eapply wp_mono; [apply IH; [done|by apply dl_link_owned| |exact Hy]|].
  - apply dl_seg_snoc. cbn. rewrite lookup_insert_eq. split; [|done]. apply dl_seg_insert; [|done].
    unfold r in Hnd. rewrite fmap_app in Hnd. apply NoDup_app in Hnd as (_ & Hnd & _).
    intros Ha. apply (Hnd _ Ha). cbn. set_solver.
  - intros _ s' (Hrel & Ho2 & Hseg). split; [|done]. eapply dl_relinked_trans; [by apply dl_relinked_link|done].
Qed.

(** The links between nodes that are changed make the list another one. *)
Lemma dlist_relinked F s s1 s' p ty l r hd : dlist_at F s p ty l -> r ≡ₚ l ->
  nodes s1 = nodes s -> brk s1 = brk s -> lists s1 = <[p := MkList hd ty (Z.of_nat (Datatypes.length l))]> (lists s) ->
  relinked r s1 s' -> seg (nodes s') hd r None -> dlist_at F s' p ty r.
Proof.
  intros HL Hp Hn1 Hb1 Hl1 (Hn & Hb & Hl) Hseg.
  pose proof (fmap_Permutation fst _ _ Hp) as Hp1. pose proof (fun a => dlist_lt _ _ _ _ _ a HL) as Hlt.
  destruct HL as [_ Hnd Hrest Hown Hbrk]. split.
  - exists hd. split; [|done]. by rewrite Hl, Hl1, lookup_insert_eq, Hp.
  - by rewrite Hp1.
  - intros a Ha. rewrite Hn, Hn1 by done. apply Hrest. by rewrite <- Hp1.
  - intros a. rewrite Hp1. apply Hown.
  - intros a Ha. rewrite Hb, Hb1 in Ha. rewrite Hn, Hn1; [by apply Hbrk|]. rewrite Hp1. intros Hx%Hlt. lia.
Qed.

Lemma relink_list F s p ty l y r n : dlist_at F s p ty l -> y :: r ≡ₚ l -> n = Datatypes.length l ->
  wp (_ ← store_list p (MkList (Some y.1) ty (Z.of_nat n));
      _ ← relink (n - 1) (arr (y :: r)) 0;
      e ← lift (src_get (arr (y :: r)) (Z.of_nat n - 1));
      store_next e None) s
    (fun _ s' => dlist_at F s' p ty (y :: r) /\ delete p (lists s') = delete p (lists s)).
Proof.
  intros HL Hp ->. rewrite <- (Permutation_length Hp).
  destruct (last (y :: r)) as [z|] eqn:Hz; [|by apply last_None in Hz].
  assert (Hnd : NoDup (y :: r).*1) by (rewrite (fmap_Permutation fst _ _ Hp); apply HL).
  assert (Ho : owned (nodes s) (y :: r)).
  { destruct HL as [(hd & _ & Hs%seg_owned) _ _ _ _]. by rewrite Hp. }
  apply wp_bind, wp_modify, wp_bind. eapply wp_mono.
  { replace (Datatypes.length (y :: r) - 1) with (Datatypes.length r) by (cbn; lia).
    by apply (dl_relink_spec (Some y.1) [] y r z). }
  cbn [app]. intros _ s2 (Hrel & Ho2 & r' & Hr' & Hseg).
  apply wp_bind. eapply wp_lift.
  { rewrite Hr'. apply src_get_arr. rewrite length_app. cbn. lia. }
  assert (Hzr : z ∈ y :: r) by (rewrite Hr'; set_solver).
  apply dl_wp_link; [by apply (owned_lookup _ (y :: r))|].
  pose proof (dl_relinked_trans _ _ _ _ Hrel (dl_relinked_link _ z None s2 Hzr)) as Hrel'.
  split.
  - refine (dlist_relinked F s _ _ p ty l _ (Some y.1) HL Hp _ _ _ Hrel' _); [done..| |].
    + cbn. by rewrite <- (Permutation_length Hp).
    + rewrite Hr'. apply dl_seg_snoc. cbn. rewrite lookup_insert_eq. split; [|done]. apply dl_seg_insert; [|done].
      rewrite Hr', fmap_app in Hnd. apply NoDup_app in Hnd as (_ & Hnd & _). intros Ha. apply (Hnd _ Ha). cbn. set_solver.
  - destruct Hrel' as (_ & _ & ->). cbn. by rewrite delete_insert_eq.
Qed.

(** [dlistSort] on a list of a type in its table of comparators, or without
    comparisons: the nodes in some order.  [DLIST_DOUBLE] indexes the table out of
    range. *)
Lemma dlistSort_spec rand F s p ty l dst method : dlist_at F s p ty l ->
  (Datatypes.length l <= 1 \/ cmp_at rand ty = Done (rnd rand)) ->
  wp (dlistSort rand (Some p) dst method) s (fun _ s' => exists l', l' ≡ₚ l /\ dlist_at F s' p ty l' /\
    delete p (lists s') = delete p (lists s)).
Proof.
  intros HL Hty. pose proof HL as [(hd & Hp & Hseg) Hnd _ _ _]. unfold dlistSort.
  apply wp_bind. eapply wp_load_list; [exact Hp|]. cbn [length head type]. case_decide as Hn.
  { apply wp_ret. exists l. done. }
  rewrite Nat2Z.id. apply wp_bind, dl_wp_walk_fuel, wp_bind.
  pose proof (owned_size _ _ (seg_owned _ _ _ _ Hseg) Hnd) as Hsz.
  eapply wp_mono; [apply (dl_fill_src_spec _ _ []); [done|lia]|]. intros a s' [-> ->]. cbn [app].
  destruct l as [|x rest] eqn:Hl; [done|]. rewrite <- Hl in *.
  apply wp_bind. eapply wp_mono.
  { replace (Datatypes.length l - 1) with (Datatypes.length rest) by (subst; cbn; lia).
    rewrite Hl. apply (sort_array_spec rand ty x rest). destruct Hty as [Hty|Hty]; [left|by right].
    rewrite Hl in Hty. cbn in Hty. destruct rest; [done|cbn in Hty; lia]. }
  intros a s1 [(Hs1n & Hs1l & Hs1b) (r & Hr & ->)]. cbn [app] in Hr. rewrite <- Hl in Hr.
  assert (HL1 : dlist_at F s1 p ty l).
  { destruct HL as [? ? Hrest ? Hbrk]. split; rewrite ?Hs1n, ?Hs1l, ?Hs1b; done. }
  destruct r as [|y r]; [symmetry in Hr; apply Permutation_nil_r in Hr; by subst|].
  apply wp_bind. eapply wp_lift; [by apply (src_get_arr fst [])|].
  eapply wp_mono; [by apply (relink_list F s1 p ty l y r)|]. intros _ s2 [HL2 Hd2].
  exists (y :: r). split; [done|]. split; [done|]. by rewrite Hd2, Hs1l.
Qed.

Lemma dlistSort_double rand F s p l dst method : dlist_at F s p DLIST_DOUBLE l -> 2 <= Datatypes.length l ->
  dlistSort rand (Some p) dst method s = Fault OutOfBounds.
Proof.
  intros HL Hlen. destruct HL as [(hd & Hp & Hseg) Hnd _ _ _].
  set (O := fun r : exec (unit * mem) => r = Fault OutOfBounds). change (O (dlistSort rand (Some p) dst method s)).
  unfold dlistSort. apply bind_outcome. eapply wp_load_list; [exact Hp|]. cbn [length head type].
  rewrite decide_False by lia. rewrite Nat2Z.id. apply bind_outcome, dl_wp_walk_fuel, bind_outcome.
  pose proof (owned_size _ _ (seg_owned _ _ _ _ Hseg) Hnd) as Hsz.
  eapply wp_mono; [apply (dl_fill_src_spec _ _ []); [done|lia]|]. intros a s' [-> ->]. cbn [app].
  destruct l as [|x [|z rest]]; cbn in Hlen; [lia..|]. apply bind_fault.
  cbn [Datatypes.length Nat.sub insert_all]. apply bind_fault. unfold insert_one.
  erewrite bind_done; [|by unfold lift; rewrite (src_get_arr fst [x] z rest)].
  apply bind_fault. done.
Qed.

(** ** Freeing *)

Lemma dl_free_from_spec F fuel p l s : seg (nodes s) p l None -> NoDup l.*1 ->
  (forall a, a ∉ l.*1 -> nodes s !! a = F !! a) -> (forall a, a ∈ l.*1 -> F !! a = None) ->
  Datatypes.length l <= fuel ->
  wp (free_from fuel p) s (fun _ s' => nodes s' = F /\ lists s' = lists s).
Proof.
  revert p fuel s. induction l as [|i l IH]; intros p fuel s Hs Hnd Hrest Hown Hf; cbn in Hs.
  { subst p. assert (nodes s = F) by (apply map_eq; intros a; apply Hrest; set_solver). destruct fuel; by apply wp_ret. }
  destruct Hs as (-> & r & Hi & Hl). destruct fuel as [|fuel]; cbn in Hf; [lia|].
  cbn in Hnd. apply NoDup_cons in Hnd as [Hil Hnd].
  apply wp_bind. eapply wp_load_node; [done|]. apply wp_bind, wp_bind. eapply wp_load_node; [done|].
  apply wp_modify. cbn [next node_of]. eapply wp_mono; [apply IH; cbn|done].
  - by apply seg_delete.
  - done.
  - intros a Ha. destruct (decide (a = i.1)) as [->|Hai].
    + rewrite lookup_delete_eq. symmetry. apply Hown. set_solver.
    + rewrite lookup_delete_ne by done. apply Hrest. set_solver.
  - intros a Ha. apply Hown. set_solver.
  - lia.
Qed.

(** All nodes are freed, and the list object stays. *)
Lemma dlistFree_spec F s p ty l : dlist_at F s p ty l ->
  wp (dlistFree (Some p)) s (fun _ s' => nodes s' = F /\ lists s' = lists s).
Proof.
  intros [(hd & Hp & Hseg) Hnd Hrest Hown _]. unfold dlistFree. apply wp_bind. eapply wp_load_list; [exact Hp|].
  cbn [length head]. case_decide as Hn.
  - destruct l; [|cbn in Hn; lia]. apply wp_ret. split; [|done]. apply map_eq. intros a. apply Hrest. set_solver.
  - apply wp_bind, dl_wp_walk_fuel. eapply dl_free_from_spec; [done..|].
    pose proof (owned_size _ _ (seg_owned _ _ _ _ Hseg) Hnd). lia.
Qed.

(** ** A user of the list *)

(** The member of the union that a list of a type holds. *)
Definition has_type (ty : dlistValueType) (v : dlistValue) : bool :=
  match ty, v with
  | DLIST_INT, intValue _ | DLIST_STR, strValue _ | DLIST_DOUBLE, doubleValue _ => true
  | _, _ => false
  end.

Fixpoint append_all (this : option nat) (es : list entry) : ST mem unit :=
  match es with
  | [] => mret tt
  | (k, v) :: es => _ ← dlistAppend this k v; append_all this es
  end.

Definition build (ty : dlistValueType) (es : list entry) : ST mem (option nat) :=
  this ← createDlist ty; _ ← append_all this es; mret this.

(** The list [this] holds the entries, in some order, all of the type of the list;
    [F] is the rest of the nodes and [G] are the other lists. *)
Definition holds_typed (F : gmap nat Node) (G : gmap nat List) (p : nat) (ty : dlistValueType) (es : list entry) (s : mem) : Prop :=
  delete p (lists s) = G /\ exists l, dlist_at F s p ty l /\ l.*2 = es /\ forallb (fun e => has_type ty e.2) l.*2 = true.

Lemma append_all_spec F G p ty es1 es s : holds_typed F G p ty es1 s -> forallb (fun e => has_type ty e.2) es = true ->
  (Z.of_nat (Datatypes.length (es1 ++ es)) <= INT_MAX)%Z ->
  wp (append_all (Some p) es) s (fun _ => holds_typed F G p ty (es1 ++ es)).
Proof.
  revert es1 s. induction es as [|[k v] es IH]; intros es1 s (HG & l & HL & <- & Hty) Hes Hn; cbn [append_all].
  { apply wp_ret. rewrite app_nil_r. split; [done|]. by exists l. }
  rewrite length_app, length_fmap in Hn. cbn in Hn, Hes. apply andb_prop in Hes as [Hv Hes].
  apply wp_bind. eapply wp_mono; [apply (dlistAppend_spec F s p ty l k v HL); lia|]. intros _ s' [HL' Hd].
  replace (l.*2 ++ (k, v) :: es) with ((l ++ [(brk s, (k, v))]).*2 ++ es) by (by rewrite fmap_app, <- app_assoc).
  apply IH; [|done|].
  - split; [by rewrite Hd|]. exists (l ++ [(brk s, (k, v))]). split; [done|]. split; [done|].
    rewrite fmap_app, forallb_app, Hty. cbn. by rewrite Hv.
  - rewrite length_app, length_fmap, length_app. cbn. lia.
Qed.

Lemma build_spec ty es s : ty <> DLIST_UNKOWN -> forallb (fun e => has_type ty e.2) es = true ->
  (Z.of_nat (Datatypes.length es) <= INT_MAX)%Z ->
  (forall a, brk s <= a -> nodes s !! a = None /\ lists s !! a = None) ->
  wp (build ty es) s (fun this s' => this = Some (brk s) /\ holds_typed (nodes s) (lists s) (brk s) ty es s').
Proof.
  intros Hty Hes Hn Hf. apply wp_bind. eapply wp_mono.
  { apply (createDlist_spec (nodes s)); [done..|]. intros a Ha. by apply Hf. }
  intros this s1 (-> & HL & Hl). apply wp_bind. eapply wp_mono.
  { apply (append_all_spec (nodes s) (lists s) _ ty []); [|done..].
    split; [rewrite Hl, delete_insert_id; [done|by apply Hf]|]. by exists []. }
  intros u s2 Hs2. by apply wp_ret.
Qed.

Lemma forallb_perm {A} (f : A -> bool) l1 l2 : l1 ≡ₚ l2 -> forallb f l1 = forallb f l2.
Proof. induction 1; cbn; [done|congruence|by rewrite !andb_assoc, (andb_comm (f _))|congruence]. Qed.

(** C30: a list keeps the type it was created with: after any appends it holds the
    entries in order, all of that type; sorting leaves a permutation of them that
    is typed as well, and neither the destination nor another list is changed;
    freeing gives back the nodes and leaves the list object allocated.  A list of
    two doubles or more cannot be sorted: its type indexes the table of
    comparators out of range. *)
Theorem dlist_session rand ty es dst method s : ty <> DLIST_UNKOWN ->
  forallb (fun e => has_type ty e.2) es = true -> (Z.of_nat (Datatypes.length es) <= INT_MAX)%Z ->
  (forall a, brk s <= a -> nodes s !! a = None /\ lists s !! a = None) ->
  wp (build ty es) s (fun this s1 => holds_typed (nodes s) (lists s) (brk s) ty es s1 /\
    if decide (ty = DLIST_DOUBLE /\ 2 <= Datatypes.length es) then dlistSort rand this dst method s1 = Fault OutOfBounds
    else wp (dlistSort rand this dst method) s1 (fun _ s2 =>
      (exists es', es' ≡ₚ es /\ holds_typed (nodes s) (lists s) (brk s) ty es' s2) /\
      wp (dlistFree this) s2 (fun _ s3 => nodes s3 = nodes s /\ lists s3 = lists s2 /\ is_Some (lists s3 !! brk s)))).
Proof.
  intros Hty Hes Hn Hf. eapply wp_mono; [by apply build_spec|]. intros this s1 [-> H1]. split; [done|].
  destruct H1 as (HG & l & HL & Hl & Ht). assert (Hlen : Datatypes.length l = Datatypes.length es) by (by rewrite <- Hl, length_fmap).
  case_decide as Hd.
  { destruct Hd as [-> Hd]. apply (dlistSort_double rand (nodes s) s1 (brk s) l); [done|lia]. }
  eapply wp_mono.
  { apply (dlistSort_spec rand (nodes s) s1 (brk s) ty l dst method HL).
    destruct (decide (ty = DLIST_DOUBLE)) as [->|]; [left|right; by destruct ty].
    apply Nat.nlt_ge. intros Hlt. apply Hd. split; [done|lia]. }
  intros _ s2 (l' & Hp & HL2 & Hd2). split.
  - pose proof (fmap_Permutation snd _ _ Hp) as Hp2. exists l'.*2. rewrite <- Hl. split; [exact Hp2|]. split; [by rewrite Hd2|]. exists l'. split; [done|]. split; [done|].
    by rewrite (forallb_perm _ _ _ Hp2).
  - eapply wp_mono; [by eapply dlistFree_spec|]. intros _ s3 [Hn3 Hl3]. split; [done|]. split; [done|].
    rewrite Hl3. destruct HL2 as [(hd & -> & _) _ _ _ _]. by eexists.
Qed.

(** ** A list of two strings, and one of two doubles *)

Definition empty_mem : mem := MkMem ∅ ∅ 0 0.
Definition two_strings : list entry := [(100, strValue 101); (102, strValue 103)].
Definition two_doubles : list entry := [(100, doubleValue (SpecFloat.S754_zero false)); (102, doubleValue (SpecFloat.S754_zero true))].

Lemma dlist_session_witness :
  (exists r, build DLIST_STR two_strings empty_mem = Done r /\ lists r.2 !! 0 = Some (MkList (Some 1) DLIST_STR 2)) /\
  (exists r, build DLIST_DOUBLE two_doubles empty_mem = Done r /\
    dlistSort (fun _ => 0%Z) r.1 None DLIST_SORT_INC r.2 = Fault OutOfBounds).
Proof.
  assert (Hf : forall a, brk empty_mem <= a -> nodes empty_mem !! a = None /\ lists empty_mem !! a = None) by done.
  split.
  - destruct (dlist_session (fun _ => 0%Z) DLIST_STR two_strings None DLIST_SORT_INC empty_mem) as (r & Hr & _); try done.
    exists r. split; [done|]. vm_compute in Hr. injection Hr as <-. done.
  - destruct (dlist_session (fun _ => 0%Z) DLIST_DOUBLE two_doubles None DLIST_SORT_INC empty_mem) as (r & Hr & _ & Hs); try done.
    exists r. split; [done|]. exact Hs.
Defined.
