(* ===== verification/Zathura.v ===== *)
(** * The text plug-in for zathura: [Lab/Lab 6/zathura-txt/zathura-txt/plugin.c]

    Five callbacks that the document viewer calls to open a document, to set up,
    draw and clear its only page, and to close it.  The viewer and cairo are a
    parameter; memory and files are modelled.  [malloc] succeeds. *)
From S2P Require Import Prelude StateM CString.

(** ** The viewer *)

(** The data a document and a page carry for the plug-in are addresses. *)
Class Viewer := {
  view : Type;
  document_get_path : view -> string;
  document_set_number_of_pages : Z -> view -> view;
  document_set_data : nat -> view -> view;
  document_get_data : view -> option nat;
  page_set_width : Z -> view -> view;
  page_set_height : Z -> view -> view;
  page_set_data : option nat -> view -> view;
  page_get_data : view -> option nat;
  cairo_move_to : Z -> Z -> view -> view;
  cairo_show_text : string -> view -> view
}.

(** The data that were set are the data one gets. *)
Class ViewerOk `{Viewer} := {
  document_data p v : document_get_data (document_set_data p v) = Some p;
  document_data_width w v : document_get_data (page_set_width w v) = document_get_data v;
  document_data_height w v : document_get_data (page_set_height w v) = document_get_data v;
  page_data p v : page_get_data (page_set_data p v) = p;
  page_data_move x y v : page_get_data (cairo_move_to x y v) = page_get_data v;
  page_data_text t v : page_get_data (cairo_show_text t v) = page_get_data v;
  document_data_page p v : document_get_data (page_set_data p v) = document_get_data v;
  document_data_move x y v : document_get_data (cairo_move_to x y v) = document_get_data v;
  document_data_text t v : document_get_data (cairo_show_text t v) = document_get_data v
}.

(** ** Memory *)

(** [txt_document_t], [txt_page_t] before and after its pointer is set, the array
    of lines, of which a cell may be unset, and a string. *)
Inductive cell :=
| CDocument (pages : option nat)
| CPage (data : option nat)
| CLines (l : list (option nat))
| CString (t : string).

Definition ZATHURA_ERROR_OK : Z := 0.

Section plugin.
Context `{Viewer}.

Record state := MkState { heap : gmap nat cell; brk : nat; files : gmap string string; viewer : view }.
Definition set_heap (h : gmap nat cell) (s : state) : state := MkState h (brk s) (files s) (viewer s).
Definition call (f : view -> view) : ST state unit :=
  modify (fun s => MkState (heap s) (brk s) (files s) (f (viewer s))).

Definition malloc (c : cell) : ST state nat := fun s =>
  Done (brk s, MkState (<[brk s := c]> (heap s)) (S (brk s)) (files s) (viewer s)).
Definition load {A} (as_ : cell -> option A) (p : nat) : ST state A := fun s =>
  match heap s !! p ≫= as_ with Some a => Done (a, s) | None => Fault Undefined end.
Definition store (p : nat) (c : cell) : ST state unit := modify (fun s => set_heap (<[p := c]> (heap s)) s).

(** [free] and [g_free]; NULL is ignored. *)
Definition free (p : option nat) : ST state unit := fun s =>
  match p with
  | None => Done (tt, s)
  | Some p =>
      match heap s !! p with
      | Some _ => Done (tt, set_heap (delete p (heap s)) s)
      | None => Fault Undefined
      end
  end.

Definition as_document (c : cell) : option (option nat) := match c with CDocument p => Some p | _ => None end.
Definition as_page (c : cell) : option (option nat) := match c with CPage p => Some p | _ => None end.
Definition as_lines (c : cell) : option (list (option nat)) := match c with CLines l => Some l | _ => None end.
Definition as_string (c : cell) : option string := match c with CString t => Some t | _ => None end.

(** ** The callbacks *)

(** The result of [fopen] is not checked, nor is that of [fgets]: at the end of
    the file [strdup] copies a buffer that was never written. *)
Definition txt_document_open : ST state Z :=
  txt_document ← malloc (CDocument None);
  path ← gets (fun s => document_get_path (viewer s));
  fin ← gets (fun s => files s !! path);
  pages ← malloc (CPage None);
  _ ← store txt_document (CDocument (Some pages));
  data ← malloc (CLines (replicate 40 None));
  _ ← store pages (CPage (Some data));
  fin ← derefs NullDeref fin;
  '(tmpData, _) ← derefs Undefined (fgets 256 fin);
  str ← malloc (CString (cstr tmpData));
  l ← load as_lines data;
  _ ← store data (CLines (<[0 := Some str]> l));
  _ ← call (document_set_number_of_pages 1);
  _ ← call (document_set_data txt_document);
  mret ZATHURA_ERROR_OK.

Definition txt_document_free (txt_document : nat) : ST state Z :=
  pages ← load as_document txt_document;
  _ ← free pages;
  _ ← free (Some txt_document);
  mret ZATHURA_ERROR_OK.

Definition txt_page_render_cairo (txt_page : nat) : ST state Z :=
  _ ← call (cairo_move_to 20 30);
  data ← load as_page txt_page;
  data ← derefs Undefined data;
  l ← load as_lines data;
  str ← derefs OutOfBounds (l !! 0);
  str ← derefs Undefined str;
  t ← load as_string str;
  _ ← call (cairo_show_text t);
  mret ZATHURA_ERROR_OK.

Definition txt_page_init : ST state Z :=
  txt_document ← gets (fun s => document_get_data (viewer s));
  _ ← call (page_set_width 500);
  _ ← call (page_set_height 500);
  txt_document ← derefs NullDeref txt_document;
  pages ← load as_document txt_document;
  _ ← call (page_set_data pages);
  mret ZATHURA_ERROR_OK.

(** The array of lines is freed, the line in it is not. *)
Definition txt_page_clear (txt_page : nat) : ST state Z :=
  data ← load as_page txt_page;
  data ← derefs Undefined data;
  _ ← free (Some data);
  mret ZATHURA_ERROR_OK.
End plugin.

(** ** The extension of a path *)

(** [for (; i > 0; i--) if (path[i] == '.') break;]: the [i] it ends with. *)
Fixpoint last_dot (i : nat) (path : string) : nat :=
  match i with
  | O => O
  | S j => if decide (String.get i path = Some "."%char) then i else last_dot j path
  end.

Definition get_extension (path : option string) : option string :=
  match path with
  | None => None
  | Some path =>
      let i := last_dot (Z.to_nat (u32 (Z.of_nat (String.length path)))) path in
      if decide (i = 0) then None else Some (str_drop (i + 1) path)
  end.
