(* ===== verification/ZathuraProps.v ===== *)
(** * What the text plug-in shows, and what it leaves behind *)
From S2P Require Import Prelude StateM CString Zathura.

(** ** The extension of a path *)

Definition no_dot (s : string) : bool := all_chars (fun c => negb (Ascii.eqb c "."%char)) s.

Lemma get_app s c r : String.get (String.length s) (s +:+ String c r) = Some c.
Proof. induction s as [|d s IH]; done. Qed.

Lemma get_app_l s r i : i < String.length s -> String.get i (s +:+ r) = String.get i s.
Proof.
  revert i. induction s as [|c s IH]; intros i Hi; cbn in Hi; [lia|]. destruct i as [|i]; [done|]. apply IH. lia.
Qed.

Lemma get_no_dot s i : no_dot s = true -> String.get i s <> Some "."%char.
Proof.
  revert i. induction s as [|c s IH]; intros i; [done|]. intros [Hc Hs]%andb_prop.
  destruct i as [|i]; [|by apply IH]. intros [= ->]. done.
Qed.

Lemma split_last_dot s : no_dot s = true \/ exists pre ext, s = pre +:+ String "."%char ext /\ no_dot ext = true.
Proof.
  induction s as [|c s [IH|(pre & ext & -> & Hext)]]; [by left| |].
  - destruct (Ascii.eqb c ".") eqn:Hc; [right|left; cbn; by rewrite Hc].
    apply Ascii.eqb_eq in Hc as ->. by exists EmptyString, s.
  - right. by exists (String c pre), ext.
Qed.

Lemma last_dot_app i pre ext : no_dot ext = true -> String.length pre <= i ->
  last_dot i (pre +:+ String "."%char ext) = String.length pre.
Proof.
  intros Hext. induction i as [|i IH]; intros Hi; cbn [last_dot]; [lia|]. case_decide as Hg.
  - destruct (decide (String.length pre = S i)) as [|Hne]; [done|exfalso].
    replace (S i) with (String.length (pre +:+ ".") + (i - String.length pre)) in Hg
      by (rewrite str_length_app; cbn; lia).
    replace (pre +:+ String "."%char ext) with ((pre +:+ ".") +:+ ext) in Hg by (by rewrite str_app_assoc).
    revert Hg. generalize (i - String.length pre). intros j Hg.
    enough (String.get j ext = Some "."%char) by by apply (get_no_dot ext j).
    rewrite <- Hg. generalize (pre +:+ "."). intros p. clear. induction p as [|c p IH]; done.
  - apply IH. destruct (decide (String.length pre = S i)) as [He|]; [|lia].
    exfalso. apply Hg. rewrite <- He. apply get_app.
Qed.

Lemma last_dot_none i s : no_dot s = true -> last_dot i s = 0.
Proof. intros Hs. induction i as [|i IH]; [done|]. cbn. rewrite decide_False; [done|]. by apply get_no_dot. Qed.

(** What follows the last dot, unless there is none or it is the first character. *)
Lemma get_extension_spec path ext : (Z.of_nat (String.length path) < 2 ^ 32)%Z ->
  get_extension (Some path) = Some ext <->
  exists pre, pre <> EmptyString /\ path = pre +:+ String "."%char ext /\ no_dot ext = true.
Proof.
  intros Hlen. unfold get_extension. rewrite u32_small, Nat2Z.id by lia.
  destruct (split_last_dot path) as [Hno|(pre & e & -> & He)].
  - rewrite last_dot_none by done. split; [done|]. intros (pre & _ & -> & _). exfalso.
    apply (get_no_dot _ (String.length pre) Hno), get_app.
  - rewrite last_dot_app by (done || rewrite str_length_app; lia). rewrite Nat.add_1_r, str_drop_next. split.
    + case_decide as Hz; [done|]. intros [= <-]. exists pre. split; [|done]. intros ->. done.
    + intros (pre' & Hne & Heq & He').
      assert (String.length pre = String.length pre') as Hl.
      { rewrite <- (last_dot_app (String.length pre + String.length pre') pre e), Heq by (done || lia).
        apply last_dot_app; [done|lia]. }
      case_decide as Hz; [destruct pre'; [done|cbn in Hl; lia]|]. f_equal.
      rewrite <- (str_drop_next pre "."%char e), Heq, Hl. apply str_drop_next.
Qed.

(** ** A session *)

Section session.
Context `{ViewerOk}.
Implicit Types (s : state).

Lemma wp_malloc c s (Q : nat -> state -> Prop) :
  Q (brk s) (MkState (<[brk s := c]> (heap s)) (S (brk s)) (files s) (viewer s)) -> wp (malloc c) s Q.
Proof. by apply wp_done. Qed.

Lemma za_wp_load {A} (as_ : cell -> option A) p c a s (Q : A -> state -> Prop) :
  heap s !! p = Some c -> as_ c = Some a -> Q a s -> wp (load as_ p) s Q.
Proof. intros Hp Ha. apply wp_done. unfold load. by rewrite Hp; cbn; rewrite Ha. Qed.

Lemma za_wp_free p c s (Q : unit -> state -> Prop) : heap s !! p = Some c ->
  Q tt (set_heap (delete p (heap s)) s) -> wp (free (Some p)) s Q.
Proof. intros Hp. apply wp_done. unfold free. by rewrite Hp. Qed.

(** The viewer opens the document, sets up its page, draws it [n] times, clears it
    and closes the document. *)
Fixpoint draw (n : nat) (page : nat) : ST state unit :=
  match n with O => mret tt | S n => _ ← txt_page_render_cairo page; draw n page end.

Definition session (n : nat) : ST state Z :=
  _ ← txt_document_open;
  _ ← txt_page_init;
  page ← gets (fun s => page_get_data (viewer s));
  page ← derefs NullDeref page;
  _ ← draw n page;
  _ ← txt_page_clear page;
  document ← gets (fun s => document_get_data (viewer s));
  document ← derefs NullDeref document;
  txt_document_free document.

(** The drawing of a text, once. *)
Definition shown (t : string) (v : view) : view := cairo_show_text t (cairo_move_to 20 30 v).

(** The four objects of an open document at [d]. *)
Definition opened (h : gmap nat cell) (d : nat) (t : string) : gmap nat cell :=
  <[d := CDocument (Some (S d))]> (<[S d := CPage (Some (S (S d)))]>
    (<[S (S d) := CLines (<[0 := Some (S (S (S d)))]> (replicate 40 None))]> (<[S (S (S d)) := CString t]> h))).

Lemma open_spec s path text raw rest : document_get_path (viewer s) = path -> files s !! path = Some text ->
  fgets 256 text = Some (raw, rest) ->
  wp txt_document_open s (fun r s' => r = ZATHURA_ERROR_OK /\
    s' = MkState (opened (heap s) (brk s) (cstr raw)) (S (S (S (S (brk s))))) (files s)
           (document_set_data (brk s) (document_set_number_of_pages 1 (viewer s)))).
Proof.
  intros Hp Hf Hg. unfold txt_document_open. apply wp_bind, wp_malloc, wp_bind, wp_gets. cbn [viewer]. rewrite Hp.
  apply wp_bind, wp_gets. cbn [files]. rewrite Hf.
  apply wp_bind, wp_malloc, wp_bind, wp_modify, wp_bind, wp_malloc, wp_bind, wp_modify, wp_bind, wp_ret, wp_bind.
  eapply wp_derefs; [exact Hg|]. apply wp_bind, wp_malloc. cbn -[replicate]. apply wp_bind. eapply za_wp_load.
  { cbn -[replicate]. rewrite lookup_insert_ne by lia. rewrite lookup_insert_ne by lia. by rewrite lookup_insert_eq. }
  { done. }
  apply wp_bind, wp_modify, wp_bind, wp_modify, wp_bind, wp_modify, wp_ret. split; [done|].
  unfold set_heap, opened. cbn -[replicate insert]. f_equal. apply map_eq. intros a.
  rewrite !lookup_insert. repeat case_decide; try done; lia.
Qed.

Lemma opened_document h d t : opened h d t !! d = Some (CDocument (Some (S d))).
Proof. apply lookup_insert_eq. Qed.
Lemma opened_page h d t : opened h d t !! S d = Some (CPage (Some (S (S d)))).
Proof. unfold opened. rewrite lookup_insert_ne by lia. apply lookup_insert_eq. Qed.
Lemma opened_lines h d t : opened h d t !! S (S d) = Some (CLines (<[0 := Some (S (S (S d)))]> (replicate 40 None))).
Proof. unfold opened. rewrite !lookup_insert_ne by lia. apply lookup_insert_eq. Qed.
Lemma opened_string h d t : opened h d t !! S (S (S d)) = Some (CString t).
Proof. unfold opened. rewrite !lookup_insert_ne by lia. apply lookup_insert_eq. Qed.

Lemma init_spec s h d t : heap s = opened h d t -> document_get_data (viewer s) = Some d ->
  wp txt_page_init s (fun _ s' => s' = MkState (heap s) (brk s) (files s)
    (page_set_data (Some (S d)) (page_set_height 500 (page_set_width 500 (viewer s))))).
Proof.
  intros Hh Hd. unfold txt_page_init. apply wp_bind, wp_gets. rewrite Hd.
  apply wp_bind, wp_modify, wp_bind, wp_modify, wp_bind, wp_ret, wp_bind.
  eapply za_wp_load; [cbn; rewrite Hh; apply opened_document|done|]. by apply wp_bind, wp_modify, wp_ret.
Qed.

Lemma draw_spec n s h d t : heap s = opened h d t ->
  wp (draw n (S d)) s (fun _ s' => s' = MkState (heap s) (brk s) (files s) (Nat.iter n (shown t) (viewer s))).
Proof.
  revert s. induction n as [|n IH]; intros s Hh; [by apply wp_ret; destruct s|]. cbn [draw].
  apply wp_bind, wp_bind, wp_modify, wp_bind. eapply za_wp_load; [cbn; rewrite Hh; apply opened_page|done|].
  apply wp_bind, wp_ret, wp_bind. eapply za_wp_load; [cbn; rewrite Hh; apply opened_lines|done|].
  apply wp_bind, wp_ret, wp_bind, wp_ret, wp_bind. eapply za_wp_load; [cbn; rewrite Hh; apply opened_string|done|].
  apply wp_bind, wp_modify, wp_ret. eapply wp_mono; [by apply IH|]. intros u s' ->. cbn [heap brk files viewer].
  by rewrite (Nat.iter_succ_r n).
Qed.

Lemma close_spec s h d t : heap s = opened h d t -> h !! d = None -> h !! S d = None -> h !! S (S d) = None ->
  document_get_data (viewer s) = Some d ->
  wp (_ ← txt_page_clear (S d); document ← gets (fun s => document_get_data (viewer s));
      document ← derefs NullDeref document; txt_document_free document) s (fun r s' => r = ZATHURA_ERROR_OK /\
    s' = MkState (<[S (S (S d)) := CString t]> h) (brk s) (files s) (viewer s)).
Proof.
  intros Hh H1 H2 H3 Hd. apply wp_bind, wp_bind. eapply za_wp_load; [rewrite Hh; apply opened_page|done|].
  apply wp_bind, wp_ret, wp_bind. eapply za_wp_free; [rewrite Hh; apply opened_lines|]. apply wp_ret, wp_bind, wp_gets. cbn [viewer set_heap]. rewrite Hd. apply wp_bind, wp_ret, wp_bind.
  eapply za_wp_load; [cbn; rewrite Hh, lookup_delete_ne by lia; apply opened_document|done|].
  apply wp_bind. eapply za_wp_free; [cbn; rewrite Hh, lookup_delete_ne by lia; apply opened_page|].
  apply wp_bind. eapply za_wp_free; [cbn; rewrite Hh, !lookup_delete_ne by lia; apply opened_document|].
  apply wp_ret. split; [done|]. unfold set_heap. cbn -[opened]. rewrite Hh. f_equal. unfold opened. apply map_eq. intros a.
  destruct (decide (a = d)) as [->|?]; [by rewrite lookup_delete_eq, lookup_insert_ne by lia|].
  destruct (decide (a = S d)) as [->|?]; [by rewrite lookup_delete_ne, lookup_delete_eq, lookup_insert_ne by lia|].
  destruct (decide (a = S (S d))) as [->|?];
    [by rewrite lookup_delete_ne, lookup_delete_ne, lookup_delete_eq, lookup_insert_ne by lia|].
  by rewrite !lookup_delete_ne, !lookup_insert_ne with (i := d), !lookup_insert_ne with (i := S d),
    !lookup_insert_ne with (i := S (S d)) by lia.
Qed.

Lemma shown_data n t v : document_get_data (Nat.iter n (shown t) v) = document_get_data v.
Proof. induction n as [|n IH]; [done|]. cbn. unfold shown at 1. by rewrite document_data_text, document_data_move. Qed.

(** C31: a session with a file shows its first line, up to 255 characters of it,
    at (20, 30) each time the page is drawn, on a page of 500 by 500; no callback
    follows a freed or an unset pointer, the document, the page and the array of
    lines are freed, and the copy of the line is not. *)
Theorem zathura_session n s text raw rest : files s !! document_get_path (viewer s) = Some text ->
  fgets 256 text = Some (raw, rest) -> (forall a, brk s <= a -> heap s !! a = None) ->
  wp (session n) s (fun r s' => r = ZATHURA_ERROR_OK /\
    heap s' = <[S (S (S (brk s))) := CString (cstr raw)]> (heap s) /\
    viewer s' = Nat.iter n (shown (cstr raw)) (page_set_data (Some (S (brk s))) (page_set_height 500
      (page_set_width 500 (document_set_data (brk s) (document_set_number_of_pages 1 (viewer s))))))).
Proof.
  intros Hf Hg Hb. unfold session. apply wp_bind. eapply wp_mono; [by eapply open_spec|]. intros r s1 [_ ->].
  apply wp_bind. eapply wp_mono; [eapply (init_spec _ (heap s) (brk s) (cstr raw)); [done|apply document_data]|].
  intros r1 s2 ->. cbn [heap brk files viewer]. apply wp_bind, wp_gets. cbn [viewer]. rewrite page_data.
  apply wp_bind, wp_ret, wp_bind. eapply wp_mono; [by eapply (draw_spec n _ (heap s) (brk s) (cstr raw))|].
  intros r2 s3 ->. cbn [heap brk files viewer]. eapply wp_mono.
  { apply (close_spec _ (heap s) (brk s) (cstr raw)); [done|apply Hb; lia..|]. cbn [viewer].
    by rewrite shown_data, document_data_page, document_data_height, document_data_width, document_data. }
  intros r3 s4 [-> ->]. done.
Qed.
End session.

(** ** A viewer that records what is drawn *)

Record screen := MkScreen { doc : option nat; pagedata : option nat; texts : list string }.

#[local] Instance demo_viewer : Viewer := {|
  view := screen;
  document_get_path _ := "notes.txt";
  document_set_number_of_pages _ v := v;
  document_set_data p v := MkScreen (Some p) (pagedata v) (texts v);
  document_get_data := doc;
  page_set_width _ v := v;
  page_set_height _ v := v;
  page_set_data p v := MkScreen (doc v) p (texts v);
  page_get_data := pagedata;
  cairo_move_to _ _ v := v;
  cairo_show_text t v := MkScreen (doc v) (pagedata v) (texts v ++ [t])
|}.

#[local] Instance demo_viewer_ok : ViewerOk.
Proof. by split. Qed.

Definition notes : state := MkState ∅ 0 {[ "notes.txt" := "hello" +:+ line_end +:+ "world" ]} (MkScreen None None []).

Lemma zathura_session_witness : exists s', session 2 notes = Done (ZATHURA_ERROR_OK, s') /\
  texts (viewer s') = ["hello" +:+ line_end; "hello" +:+ line_end] /\ heap s' = {[ 3 := CString ("hello" +:+ line_end) ]}.
Proof.
  destruct (zathura_session 2 notes ("hello" +:+ line_end +:+ "world") ("hello" +:+ line_end) "world")
    as ([r s'] & Hrun & Hr & Hh & Hv); [reflexivity|reflexivity|intros a _; apply lookup_empty|].
  cbn [fst snd] in Hr, Hh, Hv. subst r. exists s'. split; [exact Hrun|]. rewrite Hv, Hh. split; reflexivity.
Defined.
