(* ===== verification/Cthread.v ===== *)
(** * Two threads and a semaphore: [Homework/h4/cthread.c]

    Two threads increment a shared counter, each step of the C code being a step
    of the model: the read, the addition and the store of [thread_count] are
    separate, and any thread that is not blocked may take the next step.  The
    main thread creates the two, joins them and reports the counter.  The calls
    of [pthread] and of the semaphore have their documented effect:
    [sem_wait] blocks while the semaphore is 0, [pthread_join] until the thread
    has returned, and [pthread_create] and [pthread_join] may also report an
    error. *)
From S2P Require Import Prelude CString.
From stdpp Require Export relations.

Definition N : Z := 1000000.

(** ** The counting threads *)

(** Where a thread stands in the loop of [thread_count]; [WDone] has returned. *)
Inductive wpc := WTest | WWait | WRead | WAdd | WStore | WPost | WNext | WDone.
#[export] Instance wpc_eq_dec : EqDecision wpc.
Proof. solve_decision. Defined.

Record worker := MkWorker { pc : wpc; i : Z; tmp : Z }.

(** The shared variables; [sem] is [None] before [sem_init]. *)
Record shared := MkShared { count : Z; sem : option Z }.

(** One step of a thread: [None] when it is blocked or has returned. *)
Definition thread_count (g : shared) (w : worker) : option (exec (shared * worker)) :=
  let go pc' := MkWorker pc' (i w) (tmp w) in
  match pc w with
  | WTest => Some (Done (g, if decide (i w < N)%Z then go WWait else go WDone))
  | WWait =>
      match sem g with
      | None => Some (Fault Undefined)
      | Some v => if decide (0 < v)%Z then Some (Done (MkShared (count g) (Some (v - 1)%Z), go WRead)) else None
      end
  | WRead => Some (Done (g, MkWorker WAdd (i w) (count g)))
  | WAdd => Some (t ← int_expr (tmp w + 1); Done (g, MkWorker WStore (i w) t))
  | WStore => Some (Done (MkShared (tmp w) (sem g), go WPost))
  | WPost =>
      match sem g with
      | None => Some (Fault Undefined)
      | Some v => Some (Done (MkShared (count g) (Some (v + 1)%Z), go WNext))
      end
  | WNext => Some (k ← int_expr (i w + 1); Done (g, MkWorker WTest k (tmp w)))
  | WDone => None
  end.

(** ** The main thread *)

(** [MCreate k] and [MJoin k]: the next call is for the thread [k].  After
    [pthread_exit] the main thread does not go on. *)
Inductive mpc := MSemInit | MCreate (k : nat) | MJoin (k : nat) | MReport | MPthreadExit | MGone.

Record state := MkState { glob : shared; threads : list worker; main : mpc; out : string }.

(** A running process, one that has called [exit], or one that did something
    undefined. *)
Inductive process := Running (s : state) | Exited (code : Z) (err : string) | Crashed (f : fault).

Definition report (c : Z) : string :=
  (if decide (c < 2 * N)%Z then "Count is " +:+ fmt_d c +:+ ", but should be " +:+ fmt_d (2 * N) +:+ line_end
   else "Count is [" +:+ fmt_d c +:+ "]" +:+ line_end)%string.

Definition with_main (m : mpc) (s : state) : state := MkState (glob s) (threads s) m (out s).

Section steps.
(** Whether [pthread_create] and [pthread_join] may report errors. *)
Context (may_fail : bool).

(** What the main thread may do next. *)
Inductive main_step (s : state) : process -> Prop :=
| main_sem_init : main s = MSemInit ->
    main_step s (Running (MkState (MkShared (count (glob s)) (Some 1%Z)) (threads s) (MCreate 0) (out s)))
| main_create k : main s = MCreate k -> k < 2 ->
    main_step s (Running (MkState (glob s) (threads s ++ [MkWorker WTest 0 0]) (MCreate (S k)) (out s)))
| main_create_error k : may_fail = true -> main s = MCreate k -> k < 2 ->
    main_step s (Exited 1 ("ERROR creating thread " +:+ fmt_d (Z.of_nat k) +:+ line_end))
| main_created : main s = MCreate 2 -> main_step s (Running (with_main (MJoin 0) s))
| main_join k w : main s = MJoin k -> k < 2 -> threads s !! k = Some w -> pc w = WDone ->
    main_step s (Running (with_main (MJoin (S k)) s))
| main_join_error k : may_fail = true -> main s = MJoin k -> k < 2 ->
    main_step s (Exited 1 ("ERROR joining thread" +:+ line_end))
| main_joined : main s = MJoin 2 -> main_step s (Running (with_main MReport s))
| main_report : main s = MReport ->
    main_step s (Running (MkState (glob s) (threads s) MPthreadExit (out s +:+ report (count (glob s)))))
| main_exit : main s = MPthreadExit -> main_step s (Running (with_main MGone s)).

(** ** The process *)

Inductive step : process -> process -> Prop :=
| step_main s p : main_step s p -> step (Running s) p
| step_thread s k w g w' : threads s !! k = Some w -> thread_count (glob s) w = Some (Done (g, w')) ->
    step (Running s) (Running (MkState g (<[k := w']> (threads s)) (main s) (out s)))
| step_fault s k w f : threads s !! k = Some w -> thread_count (glob s) w = Some (Fault f) ->
    step (Running s) (Crashed f).
End steps.

(** [count] is 0, and the first statement is [sem_init]. *)
Definition start : process := Running (MkState (MkShared 0 None) [] MSemInit EmptyString).
