(* ===== verification/CthreadProps.v ===== *)
(** * What the two counting threads do

    The invariant of the process of [cthread.c], kept by every step of every
    interleaving: the semaphore and the threads in the critical section together
    count 1, and the counter is the number of stores the threads have made.  It
    gives mutual exclusion and the final count; a measure bounds the length of
    every run. *)
From S2P Require Import Prelude CString Cthread.

(** ** Sums over the threads *)

Definition total (f : worker -> Z) (ws : list worker) : Z := foldr (fun w a => f w + a)%Z 0%Z ws.

Lemma total_app f ws ws' : (total f (ws ++ ws') = total f ws + total f ws')%Z.
Proof. unfold total. induction ws as [|w ws IH]; cbn; [done|]. unfold total in IH. lia. Qed.

Lemma total_insert f ws k w w' : ws !! k = Some w ->
  (total f (<[k := w']> ws) = total f ws - f w + f w')%Z.
Proof.
  intros Hk. rewrite <- (take_drop_middle _ _ _ Hk) at 2. rewrite insert_take_drop by (by eapply lookup_lt_Some).
  rewrite !total_app. cbn. lia.
Qed.

Lemma total_nonneg f ws : Forall (fun w => 0 <= f w)%Z ws -> (0 <= total f ws)%Z.
Proof. induction 1; cbn; [done|]. unfold total in *. lia. Qed.

Lemma total_lookup f ws k w : Forall (fun w => 0 <= f w)%Z ws -> ws !! k = Some w -> (f w <= total f ws)%Z.
Proof.
  intros Hf Hk. rewrite <- (take_drop_middle _ _ _ Hk). rewrite total_app. cbn.
  pose proof (total_nonneg f (take k ws) (Forall_take _ _ _ Hf)).
  pose proof (total_nonneg f (drop (S k) ws) (Forall_drop _ _ _ Hf)). unfold total in *. lia.
Qed.

(** ** The invariant *)

(** In the critical section; the increments the thread has stored. *)
Definition critical (w : worker) : Z := match pc w with WRead | WAdd | WStore | WPost => 1 | _ => 0 end.
Definition stored (w : worker) : Z := i w + match pc w with WPost | WNext => 1 | _ => 0 end.

Record worker_ok (c : Z) (w : worker) : Prop := {
  k_range : (0 <= i w <= N)%Z;
  k_inside : pc w <> WTest -> pc w <> WDone -> (i w < N)%Z;
  k_done : pc w = WDone -> i w = N;
  k_read : pc w = WAdd -> tmp w = c;
  k_added : pc w = WStore -> tmp w = (c + 1)%Z
}.

(** How far the main thread is, and what it relies on. *)
Definition main_ok (s : state) : Prop :=
  let all_done := Forall (fun w => pc w = WDone) in
  match main s with
  | MSemInit => threads s = []
  | MCreate k => k <= 2 /\ length (threads s) = k
  | MJoin k => k <= 2 /\ length (threads s) = 2 /\ all_done (take k (threads s))
  | MReport => length (threads s) = 2 /\ all_done (threads s)
  | MPthreadExit | MGone => length (threads s) = 2 /\ all_done (threads s) /\ out s = report (2 * N)
  end.

Record state_ok (s : state) : Prop := {
  i_sem : main s <> MSemInit -> exists v, sem (glob s) = Some v /\ (0 <= v)%Z /\ (v + total critical (threads s) = 1)%Z;
  i_count : count (glob s) = total stored (threads s);
  i_workers : Forall (worker_ok (count (glob s))) (threads s);
  i_main : main_ok s;
  i_out : main s <> MPthreadExit -> main s <> MGone -> out s = EmptyString
}.

Definition process_ok (b : bool) (p : process) : Prop :=
  match p with Running s => state_ok s | Exited c _ => b = true /\ c = 1%Z | Crashed _ => False end.

Lemma critical_range w : (0 <= critical w <= 1)%Z.
Proof. unfold critical. destruct (pc w); lia. Qed.

Lemma stored_range c w : worker_ok c w -> (0 <= stored w <= N)%Z.
Proof.
  intros [Hr Hi _ _ _]. unfold stored.
  destruct (pc w) eqn:Hp; try lia; specialize (Hi ltac:(done) ltac:(done)); lia.
Qed.

Lemma critical_nonneg ws : Forall (fun w => 0 <= critical w)%Z ws.
Proof. apply Forall_true. intros w. apply critical_range. Qed.

Lemma start_ok b : process_ok b start.
Proof. split; cbn; try done. Qed.

Lemma main_bound s : main_ok s -> length (threads s) <= 2.
Proof. unfold main_ok. destruct (main s); [intros ->; cbn; lia|intros; destruct_and?; lia..]. Qed.

(** The counter never leaves [int]. *)
Lemma count_range s : state_ok s -> (0 <= count (glob s) <= 2 * N)%Z.
Proof.
  intros Hs. rewrite (i_count _ Hs). pose proof (main_bound s (i_main _ Hs)) as Hl.
  pose proof (i_workers _ Hs) as Hw. revert Hl Hw. generalize (count (glob s)). intros c Hl Hw.
  destruct (threads s) as [|w1 [|w2 [|w3 ws]]]; cbn in *; [unfold N; lia|..|lia];
    rewrite ?Forall_cons in Hw; destruct_and?;
    repeat match goal with H : worker_ok _ ?w |- _ => apply stored_range in H end; lia.
Qed.

Lemma all_done_count s : state_ok s -> length (threads s) = 2 -> Forall (fun w => pc w = WDone) (threads s) ->
  count (glob s) = (2 * N)%Z.
Proof.
  intros Hs Hl Hd. rewrite (i_count _ Hs). pose proof (i_workers _ Hs) as Hw.
  destruct (threads s) as [|w1 [|w2 [|w3 ws]]]; try done. rewrite !Forall_cons in Hd, Hw. destruct_and?.
  cbn. unfold stored. repeat match goal with H : pc ?w = WDone |- _ => rewrite H end.
  repeat match goal with H : worker_ok _ ?w, H' : pc ?w = WDone |- _ => pose proof (k_done _ _ H H'); clear H end.
  lia.
Qed.

(** ** Every step keeps it *)

(** A thread outside the critical section does not depend on the counter. *)
Lemma worker_ok_outside c c' w : worker_ok c w -> critical w = 0%Z -> worker_ok c' w.
Proof. intros [] Hc. unfold critical in Hc. split; try done; intros Hp; by rewrite Hp in Hc. Qed.

Lemma int_succ z : (0 <= z <= 2 * N)%Z -> int_expr (z + 1) = Done (z + 1)%Z.
Proof. intros Hz. apply int_expr_done. unfold INT_MIN, INT_MAX, N in *. lia. Qed.

(** What one step of a thread does, seen from the others. *)
Lemma thread_step_ok g w r v : worker_ok (count g) w -> (0 <= count g <= 2 * N)%Z ->
  sem g = Some v -> (0 <= v)%Z -> thread_count g w = Some r ->
  exists g' w' v', r = Done (g', w') /\ worker_ok (count g') w' /\
    sem g' = Some v' /\ (0 <= v')%Z /\ (v' + critical w' = v + critical w)%Z /\
    (count g' - stored w' = count g - stored w)%Z /\
    (count g' = count g \/ critical w = 1%Z) /\ pc w <> WDone.
Proof.
  intros [Hr Hi Hd Hrd Had] Hc Hsem Hv Hstep. unfold thread_count in Hstep. rewrite Hsem in Hstep.
  destruct w as [p k t]. cbn [pc i tmp] in *.
  destruct p; cbn in Hstep; try specialize (Hi ltac:(done) ltac:(done)); try done;
    rewrite ?(Hrd eq_refl), ?(Had eq_refl), ?int_succ in Hstep by (done || unfold N in *; lia);
    repeat case_decide; try done; injection Hstep as <-; do 3 eexists; split_and!; try done;
    first [by left | by right | unfold stored; cbn; lia | split; cbn; intros; try done; lia].
Qed.

(** Only threads that have not returned take steps. *)
Lemma done_insert (ws : list worker) k w w' : ws !! k = Some w -> pc w <> WDone ->
  Forall (fun w => pc w = WDone) ws -> Forall (fun w => pc w = WDone) (<[k := w']> ws).
Proof. intros Hk Hw Ha. rewrite Forall_lookup in Ha. by apply Ha in Hk. Qed.

Lemma done_insert_take (ws : list worker) j k w w' : ws !! k = Some w -> pc w <> WDone ->
  Forall (fun w => pc w = WDone) (take j ws) -> Forall (fun w => pc w = WDone) (take j (<[k := w']> ws)).
Proof.
  intros Hk Hw Ha. rewrite take_insert_ge; [done|]. destruct (decide (j <= k)); [done|].
  rewrite Forall_lookup in Ha. destruct Hw. apply (Ha k). rewrite lookup_take_lt by lia. done.
Qed.

(** The threads but one that are in the critical section, when that one is. *)
Lemma critical_alone ws v k j w w' : (0 <= v)%Z -> (v + total critical ws = 1)%Z ->
  ws !! k = Some w -> critical w = 1%Z -> ws !! j = Some w' -> j <> k -> critical w' = 0%Z.
Proof.
  intros Hv Ht Hk Hc Hj Hjk. pose proof (critical_range w') as Hr.
  set (x := MkWorker WTest 0 0). pose proof (total_insert critical ws k w x Hk) as Hx. cbn in Hx.
  pose proof (total_lookup critical (<[k := x]> ws) j w' (critical_nonneg _)
    ltac:(by rewrite list_lookup_insert_ne)). lia.
Qed.

Lemma thread_keeps s k w g w' : state_ok s -> threads s !! k = Some w ->
  thread_count (glob s) w = Some (Done (g, w')) ->
  state_ok (MkState g (<[k := w']> (threads s)) (main s) (out s)).
Proof.
  intros Hs Hk Hstep. pose proof (count_range s Hs) as Hcr.
  destruct Hs as [Hsem Hcount Hws Hmain Hout].
  assert (Hm : main s <> MSemInit).
  { intros Hm. unfold main_ok in Hmain. rewrite Hm in Hmain. by rewrite Hmain in Hk. }
  destruct (Hsem Hm) as (v & Hv & Hv0 & Hcrit).
  assert (Hw : worker_ok (count (glob s)) w) by (rewrite Forall_lookup in Hws; eauto).
  destruct (thread_step_ok _ _ _ v Hw Hcr Hv Hv0 Hstep)
    as (? & ? & v' & Hr & Hw' & Hg' & Hv0' & Hcrit' & Hst & Hchg & Hnd). simplify_eq.
  split; cbn -[total]; [| | | |done].
  - intros _. exists v'. rewrite (total_insert _ _ _ w) by done. split_and!; [done..|lia].
  - rewrite (total_insert _ _ _ w) by done. lia.
  - rewrite Forall_lookup in Hws |- *. intros j u Hj.
    destruct (decide (j = k)) as [->|Hjk].
    { rewrite list_lookup_insert_eq in Hj by (by eapply lookup_lt_Some). by simplify_eq. }
    rewrite list_lookup_insert_ne in Hj by done. specialize (Hws j u Hj).
    destruct Hchg as [->|Hc1]; [done|]. eapply worker_ok_outside; [done|]. by apply (critical_alone (threads s) v k j w).
  - unfold main_ok in *. cbn. destruct (main s); rewrite ?length_insert; try done.
    + destruct Hmain as (? & ? & ?). split_and!; [done..|]. by eapply done_insert_take.
    + destruct Hmain as (? & ?). split; [done|]. by eapply done_insert.
    + destruct Hmain as (? & ? & ?). split_and!; [done|by eapply done_insert|done].
    + destruct Hmain as (? & ? & ?). split_and!; [done|by eapply done_insert|done].
Qed.

Lemma main_keeps b s p : state_ok s -> main_step b s p -> process_ok b p.
Proof.
  intros Hs Hstep. pose proof Hs as [Hsem Hcount Hws Hmain Hout]. unfold main_ok in Hmain.
  destruct Hstep as [Hm|k Hm Hk|k Hb Hm Hk|Hm|k w Hm Hk Hw Hd|k Hb Hm Hk|Hm|Hm|Hm]; rewrite Hm in *; cbn; try done.
  - rewrite Hmain in *. split; cbn; try done; [intros _; by exists 1%Z|split; [lia|done]|intros _ _; by apply Hout].
  - destruct Hmain as [Hk2 Hl]. split; cbn -[total]; rewrite ?total_app; cbn; try done.
    + intros _. destruct Hsem as (v & ? & ? & ?); [done|]. exists v. split_and!; [done..|]. cbn. lia.
    + unfold stored at 2. cbn. lia.
    + apply Forall_app. split; [done|]. repeat constructor; done.
    + split; [lia|]. rewrite length_app. cbn. lia.
    + intros _ _. by apply Hout.
  - destruct Hmain as [Hk2 Hl]. split; cbn -[total]; try done.
    + intros _. by apply Hsem.
    + split_and!; [lia|done|constructor].
    + intros _ _. by apply Hout.
  - destruct Hmain as (Hk2 & Hl & Ha). split; cbn -[total]; try done.
    + intros _. by apply Hsem.
    + split_and!; [lia|done|]. rewrite (take_S_r _ _ w) by done. apply Forall_app. by repeat constructor.
    + intros _ _. by apply Hout.
  - destruct Hmain as (Hk2 & Hl & Ha). split; cbn -[total]; try done.
    + intros _. by apply Hsem.
    + split; [done|]. by rewrite take_ge in Ha by lia.
    + intros _ _. by apply Hout.
  - destruct Hmain as (Hl & Ha). split; cbn -[total]; try done.
    + intros _. by apply Hsem.
    + split_and!; [done..|]. rewrite Hout, (all_done_count s) by done. done.
  - destruct Hmain as (Hl & Ha & Ho). split; cbn -[total]; try done. intros _. by apply Hsem.
Qed.

Lemma step_keeps b p q : process_ok b p -> step b p q -> process_ok b q.
Proof.
  intros Hp Hstep. destruct Hstep as [s q Hm|s k w g w' Hk Hw|s k w f Hk Hw]; cbn in Hp.
  - by eapply main_keeps.
  - by apply thread_keeps with (w := w).
  - pose proof Hp as [Hsem _ Hws Hmain _]. pose proof (count_range s Hp) as Hcr.
    assert (Hm : main s <> MSemInit).
    { intros Hm. unfold main_ok in Hmain. rewrite Hm in Hmain. by rewrite Hmain in Hk. }
    destruct (Hsem Hm) as (v & Hv & Hv0 & _). rewrite Forall_lookup in Hws.
    destruct (thread_step_ok _ _ _ v (Hws _ _ Hk) Hcr Hv Hv0 Hw) as (? & ? & ? & ? & _). done.
Qed.

Lemma reachable_ok b p : rtc (step b) start p -> process_ok b p.
Proof. apply (rtc_ind_r (fun p => process_ok b p)); [apply start_ok|]. intros x y _ Hxy Hx. by eapply step_keeps. Qed.

(** ** Some step can be taken until the end *)

Lemma critical_somewhere ws : (0 < total critical ws)%Z -> exists k w, ws !! k = Some w /\ critical w = 1%Z.
Proof.
  induction ws as [|w ws IH]; cbn -[total]; [done|]. intros Ht.
  destruct (decide (critical w = 1%Z)) as [Hw|Hw]; [by exists 0, w|].
  destruct IH as (k & u & Hk & Hu); [|by exists (S k), u].
  pose proof (critical_range w). cbn in Ht. unfold total. lia.
Qed.

Lemma thread_can g w v : worker_ok (count g) w -> (0 <= count g <= 2 * N)%Z -> sem g = Some v ->
  pc w <> WDone -> (pc w = WWait -> (0 < v)%Z) -> exists g' w', thread_count g w = Some (Done (g', w')).
Proof.
  intros [Hr Hi Hd Hrd Had] Hc Hsem Hnd Hv. unfold thread_count. rewrite Hsem.
  destruct w as [p k t]; cbn [pc i tmp] in *.
  destruct p; try done; rewrite ?(Hrd eq_refl), ?int_succ by (done || unfold N in *; lia); try by eauto.
  rewrite decide_True by auto. eauto.
Qed.

Lemma can_join b s k : state_ok s -> main s = MJoin k -> k < 2 -> exists q, step b (Running s) q.
Proof.
  intros Hs Hm Hk. pose proof (count_range s Hs) as Hcr. destruct Hs as [Hsem _ Hws Hmain _].
  destruct Hsem as (v & Hv & Hv0 & Hcrit); [by rewrite Hm|].
  unfold main_ok in Hmain. rewrite Hm in Hmain. destruct Hmain as (_ & Hl & _). rewrite Forall_lookup in Hws.
  assert (Hgo : forall j w, threads s !! j = Some w -> pc w <> WDone -> (pc w = WWait -> (0 < v)%Z) ->
    exists q, step b (Running s) q).
  { intros j w Hj Hnd Hw. destruct (thread_can _ w v (Hws _ _ Hj) Hcr Hv Hnd Hw) as (g & w' & Hstep).
    eexists. by eapply step_thread. }
  destruct (lookup_lt_is_Some_2 (threads s) k) as [w Hw]; [lia|].
  destruct (decide (pc w = WDone)) as [Hd|Hd].
  { eexists. eapply step_main, main_join; done. }
  destruct (decide (0 < v)%Z); [by apply (Hgo k w)|].
  destruct (critical_somewhere (threads s)) as (j & u & Hj & Hu); [lia|].
  apply (Hgo j u); [done|..]; unfold critical in Hu; intros Hp; by rewrite Hp in Hu.
Qed.

Lemma progress b s : state_ok s -> main s = MGone \/ exists q, step b (Running s) q.
Proof.
  intros Hs. pose proof (i_main _ Hs) as Hmain. unfold main_ok in Hmain.
  destruct (main s) as [|k|k| | |] eqn:Hm; [right| |right|right|right|by left].
  - eexists. by apply step_main, main_sem_init.
  - right. destruct (decide (k < 2)).
    + eexists. by eapply step_main, main_create.
    + assert (k = 2) as -> by lia. eexists. by apply step_main, main_created.
  - destruct (decide (k < 2)); [by eapply can_join|]. assert (k = 2) as -> by lia.
    eexists. by apply step_main, main_joined.
  - eexists. by apply step_main, main_report.
  - eexists. by apply step_main, main_exit.
Qed.

(** ** Every run is as long *)

(** The steps a thread, and the main thread, have left. *)
Definition left_of (w : worker) : Z :=
  7 * (N - i w) + match pc w with
    | WTest => 1 | WWait => 0 | WRead => -1 | WAdd => -2 | WStore => -3 | WPost => -4 | WNext => -5 | WDone => 0
    end.

Definition thread_steps : Z := 7 * N + 1.

Definition main_left (m : mpc) : Z :=
  match m with
  | MSemInit => 9 + 2 * thread_steps
  | MCreate k => 8 - Z.of_nat k + (2 - Z.of_nat k) * thread_steps
  | MJoin k => 5 - Z.of_nat k
  | MReport => 2
  | MPthreadExit => 1
  | MGone => 0
  end.

Definition steps_left (p : process) : Z :=
  match p with Running s => main_left (main s) + total left_of (threads s) | _ => 0 end.

Lemma left_nonneg c w : worker_ok c w -> (0 <= left_of w)%Z.
Proof.
  intros [Hr Hi Hd _ _]. unfold left_of.
  destruct (pc w) eqn:Hp; try specialize (Hi ltac:(done) ltac:(done)); lia.
Qed.

Lemma steps_left_nonneg s : state_ok s -> (0 <= steps_left (Running s))%Z.
Proof.
  intros Hs. cbn -[total]. assert (Ht : (0 <= total left_of (threads s))%Z).
  { apply total_nonneg. eapply Forall_impl; [apply Hs|]. intros w. apply left_nonneg. }
  enough (0 <= main_left (main s))%Z by lia. pose proof (i_main _ Hs) as Hm. unfold main_ok in Hm.
  unfold main_left, thread_steps, N. destruct (main s); destruct_and?; lia.
Qed.

Lemma thread_left g w g' w' : worker_ok (count g) w -> thread_count g w = Some (Done (g', w')) ->
  left_of w' = (left_of w - 1)%Z.
Proof.
  intros [Hr _ _ _ _] Hstep. unfold thread_count in Hstep. destruct w as [p k t]. cbn [pc i tmp] in *.
  destruct p; try done.
  - injection Hstep as <- <-. case_decide; unfold left_of; cbn; lia.
  - destruct (sem g); [|done]. case_decide; [|done]. injection Hstep as <- <-. unfold left_of. cbn. lia.
  - injection Hstep as <- <-. unfold left_of. cbn. lia.
  - destruct (int_expr (t + 1)); [|done]. injection Hstep as <- <-. unfold left_of. cbn. lia.
  - injection Hstep as <- <-. unfold left_of. cbn. lia.
  - destruct (sem g); [|done]. injection Hstep as <- <-. unfold left_of. cbn. lia.
  - unfold int_expr in Hstep. case_decide; [|done]. injection Hstep as <- <-. unfold left_of. cbn. lia.
Qed.

Lemma done_totals c ws : Forall (worker_ok c) ws -> Forall (fun w => pc w = WDone) ws ->
  total left_of ws = 0%Z /\ total critical ws = 0%Z.
Proof.
  induction 1 as [|w ws Hk Hws IH]; [done|]. rewrite !Forall_cons. intros [Hw Hd].
  destruct (IH Hd) as [H1 H2]. unfold total in *. cbn. rewrite H1, H2. unfold left_of, critical. rewrite Hw, (k_done _ _ Hk Hw). lia.
Qed.

Lemma fresh_left : total left_of [MkWorker WTest 0 0] = thread_steps.
Proof. done. Qed.

Lemma step_left s q : state_ok s -> step false (Running s) q -> steps_left q = (steps_left (Running s) - 1)%Z.
Proof.
  intros Hs Hstep. inversion Hstep as [s' q' Hm|s' k w g w' Hk Hw|s' k w f Hk Hw]; subst.
  - destruct Hm as [Hm|k Hm Hk|k Hb Hm Hk|Hm|k w Hm Hk Hw Hd|k Hb Hm Hk|Hm|Hm|Hm]; try done;
      unfold steps_left, with_main; cbn [main threads]; rewrite Hm, ?total_app, ?fresh_left;
      unfold main_left, thread_steps; lia.
  - cbn -[total]. rewrite (total_insert _ _ _ w) by done.
    rewrite (thread_left (glob s) w g w'); [lia| |done].
    pose proof (i_workers _ Hs) as Hws. rewrite Forall_lookup in Hws. eauto.
  - exfalso. apply (step_keeps false (Running s) (Crashed f)); [done|]. by eapply step_fault.
Qed.

(** ** The properties *)

(** C36: whatever the interleaving and whether or not the calls of [pthread]
    fail, at most one thread is between [sem_wait] and [sem_post], the counter is
    the number of increments stored, and the process never does anything
    undefined. *)
Theorem threads_exclusive b p : rtc (step b) start p ->
  match p with
  | Running s =>
      (forall j k u w, threads s !! j = Some u -> threads s !! k = Some w ->
        critical u = 1%Z -> critical w = 1%Z -> j = k) /\
      count (glob s) = total stored (threads s)
  | Exited code _ => b = true /\ code = 1%Z
  | Crashed _ => False
  end.
Proof.
  intros Hp%reachable_ok. destruct p as [s| |]; [|done..]. cbn in Hp.
  split; [|apply Hp]. intros j k u w Hj Hk Hu Hw.
  destruct (decide (j = k)) as [|Hjk]; [done|exfalso].
  destruct (i_sem _ Hp) as (v & _ & Hv & Hc).
  { intros Hm. pose proof (i_main _ Hp) as Hmain. unfold main_ok in Hmain. rewrite Hm in Hmain.
    by rewrite Hmain in Hj. }
  pose proof (critical_alone _ v k j w u Hv Hc Hk Hw Hj Hjk). congruence.
Qed.

(** C37: when [pthread_create] and [pthread_join] succeed, no interleaving
    deadlocks, and each ends after the same number of steps with the count of all
    increments printed, the semaphore neither taken nor destroyed. *)
Theorem count_complete n p : nsteps (step false) n start p ->
  (Z.of_nat n <= 14 * N + 11)%Z /\
  ((exists q, step false p q) \/
   Z.of_nat n = (14 * N + 11)%Z /\
   exists s, p = Running s /\ out s = ("Count is [2000000]" +:+ line_end) /\
     Forall (fun w => pc w = WDone) (threads s) /\ sem (glob s) = Some 1%Z).
Proof.
  intros Hn. assert (Hleft : process_ok false p /\ (steps_left p = 14 * N + 11 - Z.of_nat n)%Z).
  { revert Hn. revert p. induction n as [|n IH]; intros p Hn.
    - inversion Hn; subst. split; [apply start_ok|]. done.
    - apply nsteps_inv_r in Hn as (q & Hq & Hstep). destruct (IH q Hq) as [Hok Hl].
      split; [by eapply step_keeps|]. destruct q as [s| |]; [|by inversion Hstep..].
      rewrite (step_left s p Hok Hstep). lia. }
  destruct Hleft as [Hok Hl]. destruct p as [s|c e|f]; [|by destruct Hok|done]. cbn in Hok.
  pose proof (steps_left_nonneg s Hok). split; [lia|].
  destruct (progress false s Hok) as [Hm|Hq]; [right|by left].
  pose proof (i_main _ Hok) as Hmain. unfold main_ok in Hmain. rewrite Hm in Hmain.
  destruct Hmain as (Hlen & Hd & Ho).
  destruct (done_totals _ _ (i_workers _ Hok) Hd) as [Hz Hc]. cbn -[total] in Hl. rewrite Hm, Hz in Hl. cbn [main_left] in Hl.
  split; [lia|]. exists s. split_and!; [done|by rewrite Ho|done|].
  destruct (i_sem _ Hok) as (v & Hv & _ & Hvc); [by rewrite Hm|]. rewrite Hv. f_equal. lia.
Qed.

(** A run in which one thread is blocked while the other counts. *)
Example count_run : exists s, nsteps (step false) 7 start (Running s) /\
  (pc <$> threads s) = [WRead; WWait] /\ sem (glob s) = Some 0%Z.
Proof.
  eexists. split; [|split].
  - eapply nsteps_l; [by apply step_main, main_sem_init|].
    eapply nsteps_l; [by eapply step_main, (main_create _ _ 0); [|lia]|].
    eapply nsteps_l; [by eapply step_main, (main_create _ _ 1); [|lia]|].
    eapply nsteps_l; [by eapply (step_thread _ _ 0)|].
    eapply nsteps_l; [by eapply (step_thread _ _ 1)|].
    eapply nsteps_l; [by eapply (step_thread _ _ 0)|].
    eapply nsteps_l; [by apply step_main, main_created|]. constructor.
  - done.
  - done.
Qed.

(** In that run one thread is inside and the other waits. *)
Lemma threads_exclusive_witness : exists s, nsteps (step false) 7 start (Running s) /\
  (pc <$> threads s) = [WRead; WWait] /\
  (forall j k u w, threads s !! j = Some u -> threads s !! k = Some w ->
    critical u = 1%Z -> critical w = 1%Z -> j = k) /\
  count (glob s) = total stored (threads s).
Proof.
  destruct count_run as (s & Hrun & Hpc & _). exists s. split; [exact Hrun|]. split; [exact Hpc|].
  apply (threads_exclusive false (Running s)). eapply rtc_nsteps_2, Hrun.
Defined.

Lemma count_complete_witness : (Z.of_nat 1 <= 14 * N + 11)%Z /\
  ((exists q, step false (Running (MkState (MkShared 0 (Some 1%Z)) [] (MCreate 0) EmptyString)) q) \/
   Z.of_nat 1 = (14 * N + 11)%Z /\
   exists s, Running (MkState (MkShared 0 (Some 1%Z)) [] (MCreate 0) EmptyString) = Running s /\
     out s = ("Count is [2000000]" +:+ line_end) /\
     Forall (fun w => pc w = WDone) (threads s) /\ sem (glob s) = Some 1%Z).
Proof.
  apply (count_complete 1). apply nsteps_once. by apply step_main, main_sem_init.
Defined.
