(* ===== verification/Getnchpid.v ===== *)
(** * The children of a process: [Homework/h7/getnchpid.c]

    Two functions meant for the Minix process manager: [getnchpid] looks at one
    slot of the process table, [getchpids] copies the pids of several slots to an
    array of the caller.  The process table [mproc], its size [NR_PROCS] and the
    slot [who_p] of the caller are declared in [mproc.h], which is not in the
    repository.  The program's [main] calls a function [getchpid] that does not
    exist: it is an argument, and [main_spec] takes [getchpids] for it, as the
    name and the arguments suggest. *)
From S2P Require Import Prelude StateM.

Definition OK : Z := 0.

(** What the code uses of [mproc.h]: a slot outside the table has no fields. *)
Class ProcTable := {
  NR_PROCS : Z;
  who_p : Z;
  mp_parent : Z -> option Z;
  mp_pid : Z -> option Z
}.

(** [mproc] is an array of [NR_PROCS] structures. *)
Class ProcTableOk `{ProcTable} := {
  NR_PROCS_nonneg : (0 <= NR_PROCS)%Z;
  mp_parent_range n : is_Some (mp_parent n) <-> (0 <= n < NR_PROCS)%Z;
  mp_pid_range n : is_Some (mp_pid n) <-> (0 <= n < NR_PROCS)%Z
}.

(** The array [childpid] of the caller; a pointer into it is an index. *)
Definition pids : Type := list Z.

Definition store (p : nat) (z : Z) : ST pids unit := fun a =>
  if decide (p < length a) then Done (tt, <[p := z]> a) else Fault OutOfBounds.

Section code.
Context `{ProcTable}.

Definition getnchpid (n : Z) (childpid : option nat) : ST pids Z :=
  match childpid with
  | None => mret (-1)%Z
  | Some p =>
      if decide (NR_PROCS < n)%Z then mret (-1)%Z
      else
        parent ← derefs OutOfBounds (mp_parent n);
        if decide (parent <> who_p) then mret (-1)%Z
        else
          pid ← derefs OutOfBounds (mp_pid n);
          _ ← store p pid;
          mret OK
  end.

(** [for (index = 0; index < n; index++)]: [todo] passes are left. *)
Fixpoint getchpids_from (todo : nat) (index : Z) (childpid : option nat) : ST pids Z :=
  match todo with
  | O => mret index
  | S todo =>
      r ← getnchpid index ((fun p => p + Z.to_nat index) <$> childpid);
      if decide (r <> OK) then mret (-1)%Z else getchpids_from todo (index + 1) childpid
  end.

Definition getchpids (n : Z) (childpid : option nat) : ST pids Z := getchpids_from (Z.to_nat n) 0 childpid.

(** ** The program *)

(** [while(childNum <= 4)]: [todo] passes are left.  [fork k] is what the call of
    [fork] in pass [k] returns; a process that does not get 0 exits. *)
Fixpoint fork_from (fork : nat -> Z) (todo childNum : nat) (childpidRef : list Z) : option (list Z) :=
  match todo with
  | O => Some childpidRef
  | S todo =>
      let pid := fork childNum in
      if decide (pid = 0)%Z then fork_from fork todo (S childNum) (<[childNum := pid]> childpidRef) else None
  end.

(** [for(int i=0;i<childNum;i++) assert(childpidRef[i] == childpid[i])]. *)
Fixpoint compare_from (todo i : nat) (childpidRef : list Z) : ST pids unit :=
  match todo with
  | O => mret tt
  | S todo =>
      r ← derefs OutOfBounds (childpidRef !! i);
      c ← gets (fun childpid => childpid !! i);
      c ← derefs OutOfBounds c;
      _ ← asserts (r = c);
      compare_from todo (S i) childpidRef
  end.

(** The two arrays are what the caller passes: they are not set at first. *)
Definition main (fork : nat -> Z) (getchpid : Z -> option nat -> ST pids Z) (childpidRef : list Z) : ST pids Z :=
  match fork_from fork 5 0 childpidRef with
  | None => mret 0%Z
  | Some childpidRef => _ ← getchpid 5%Z (Some 0); _ ← compare_from 5 0 childpidRef; mret 0%Z
  end.

(** ** Specification *)

Definition is_child (k : nat) : Prop := mp_parent (Z.of_nat k) = Some who_p.

(** The slots from [k] on, at most [n], that hold children of the caller. *)
Fixpoint children (n k : nat) : list Z :=
  match n with
  | O => []
  | S n => if decide (is_child k) then default 0%Z (mp_pid (Z.of_nat k)) :: children n (S k) else []
  end.

Lemma children_length n k : length (children n k) <= n.
Proof. revert k. induction n as [|n IH]; intros k; cbn; [lia|]. case_decide; cbn; [|lia]. specialize (IH (S k)). lia. Qed.

Context `{!ProcTableOk}.

(** The children of the table all are below [NR_PROCS]. *)
Lemma children_bound n k : (Z.of_nat k <= NR_PROCS)%Z -> (Z.of_nat (k + length (children n k)) <= NR_PROCS)%Z.
Proof.
  revert k. induction n as [|n IH]; intros k Hk; cbn; [lia|]. case_decide as Hc; cbn; [|lia].
  rewrite <- Nat.add_succ_comm. apply IH.
  assert (is_Some (mp_parent (Z.of_nat k))) as Hr%mp_parent_range by by eexists. lia.
Qed.

(** What one slot does. *)
Lemma getnchpid_slot k a : (Z.of_nat k <= NR_PROCS)%Z -> k < length a ->
  getnchpid (Z.of_nat k) (Some k) a =
    if decide (is_child k) then Done (OK, <[k := default 0%Z (mp_pid (Z.of_nat k))]> a)
    else if decide (Z.of_nat k < NR_PROCS)%Z then Done ((-1)%Z, a) else Fault OutOfBounds.
Proof.
  intros Hk Ha. unfold getnchpid. rewrite decide_False by lia. unfold is_child.
  pose proof (mp_parent_range (Z.of_nat k)) as Hr. pose proof (mp_pid_range (Z.of_nat k)) as Hp.
  destruct (decide (Z.of_nat k < NR_PROCS)%Z) as [Hlt|Hlt].
  - destruct (proj2 Hr) as [q Hq]; [lia|]. destruct (proj2 Hp) as [pid Hpid]; [lia|]. rewrite Hq, Hpid.
    erewrite bind_done by done. destruct (decide (q <> who_p)) as [Hne|He].
    + rewrite (decide_False (P := Some q = Some who_p)) by congruence. done.
    + rewrite (decide_True (P := Some q = Some who_p)) by (f_equal; by apply dec_stable).
      erewrite bind_done by done. unfold store. erewrite bind_done by (by rewrite decide_True). done.
  - destruct (mp_parent (Z.of_nat k)) as [q|]; [destruct Hr as [Hr _]; specialize (Hr ltac:(eauto)); lia|].
    rewrite decide_False by done. done.
Qed.

Lemma getchpids_from_spec todo k a : (Z.of_nat k <= NR_PROCS)%Z -> k + todo <= length a ->
  let c := children todo k in
  let a' := take k a ++ c ++ drop (k + length c) a in
  getchpids_from todo (Z.of_nat k) (Some 0) a =
    if decide (length c = todo) then Done (Z.of_nat (k + todo), a')
    else if decide (Z.of_nat (k + length c) < NR_PROCS)%Z then Done ((-1)%Z, a')
    else Fault OutOfBounds.
Proof.
  revert k a. induction todo as [|todo IH]; intros k a Hk Ha; cbn zeta.
  { cbn. rewrite !Nat.add_0_r, take_drop. done. }
  cbn [getchpids_from fmap option_fmap option_map]. rewrite Nat.add_0_l, Nat2Z.id.
  pose proof (getnchpid_slot k a Hk ltac:(lia)) as Hslot. cbn [children].
  destruct (decide (is_child k)) as [Hc|Hc].
  - erewrite bind_done by exact Hslot. rewrite decide_False by auto.
    assert (is_Some (mp_parent (Z.of_nat k))) as Hr%mp_parent_range by by eexists.
    replace (Z.of_nat k + 1)%Z with (Z.of_nat (S k)) by lia.
    rewrite IH by (rewrite ?length_insert; lia). cbn zeta.
    set (pid := default 0%Z (mp_pid (Z.of_nat k))). set (c := children todo (S k)). cbn [length].
    assert (take (S k) (<[k:=pid]> a) ++ c ++ drop (S k + length c) (<[k:=pid]> a)
            = take k a ++ (pid :: c) ++ drop (k + S (length c)) a) as ->.
    { rewrite drop_insert_lt by lia. rewrite (take_S_r _ _ pid) by (apply list_lookup_insert_eq; lia).
      rewrite take_insert_ge by lia. rewrite <- app_assoc. cbn. do 4 f_equal. lia. }
    rewrite !Nat.add_succ_comm, (decide_ext (length c = todo) (S (length c) = S todo)) by lia. done.
  - cbn [length app]. rewrite (decide_False (P := 0 = S todo)) by done. rewrite Nat.add_0_r, take_drop.
    destruct (decide (Z.of_nat k < NR_PROCS)%Z).
    + by erewrite bind_done by exact Hslot.
    + by erewrite bind_fault by exact Hslot.
Qed.

(** C38: [getchpids] looks only at the first [n] slots of the process table: it
    returns [n] with their pids if all of them hold children of the caller, and
    otherwise -1 after writing the pids before the first slot that does not.  If
    the whole table holds children and [n] is larger, it reads behind the table:
    the guard lets [NR_PROCS] itself pass. *)
Theorem getchpids_spec n a : (n <= Z.of_nat (length a))%Z ->
  let c := children (Z.to_nat n) 0 in
  let a' := c ++ drop (length c) a in
  getchpids n (Some 0) a =
    if decide (length c = Z.to_nat n) then Done (Z.max n 0, a')
    else if decide (Z.of_nat (length c) < NR_PROCS)%Z then Done ((-1)%Z, a')
    else Fault OutOfBounds.
Proof.
  intros Hn. unfold getchpids. pose proof NR_PROCS_nonneg.
  change 0%Z with (Z.of_nat 0) at 1. rewrite (getchpids_from_spec (Z.to_nat n) 0 a) by lia. cbn [take app Nat.add].
  by replace (Z.of_nat (Z.to_nat n)) with (Z.max n 0) by lia.
Qed.

(** The loop of [main] ends only in a process for which every [fork] returned 0,
    and records these zeros. *)
Lemma fork_from_spec fork todo k ref : k + todo <= length ref -> (forall i, i < k -> ref !! i = Some 0%Z) ->
  if decide (Forall (fun i => fork i = 0%Z) (seq k todo)) then
    exists ref', fork_from fork todo k ref = Some ref' /\ forall i, i < k + todo -> ref' !! i = Some 0%Z
  else fork_from fork todo k ref = None.
Proof.
  revert k ref. induction todo as [|todo IH]; intros k ref Hl Hz; cbn [seq fork_from].
  - rewrite decide_True by constructor. exists ref. split; [done|]. intros i Hi. apply Hz. lia.
  - destruct (decide (fork k = 0)%Z) as [He|He].
    + specialize (IH (S k) (<[k := fork k]> ref)). rewrite (decide_ext _ (Forall (fun i => fork i = 0%Z) (seq (S k) todo))) by (rewrite Forall_cons; tauto).
      rewrite Nat.add_succ_r. apply IH; [rewrite length_insert; lia|]. intros i Hi. rewrite He.
      destruct (decide (i = k)) as [->|]; [apply list_lookup_insert_eq; lia|]. rewrite list_lookup_insert_ne by done. apply Hz. lia.
    + rewrite decide_False; [done|]. by rewrite Forall_cons; intros [? _].
Qed.

Lemma compare_from_spec todo k ref a : k + todo <= length a -> (forall i, i < k + todo -> ref !! i = Some 0%Z) ->
  compare_from todo k ref a = if decide (Forall (fun z => z = 0%Z) (take todo (drop k a))) then Done (tt, a) else Fault AssertFail.
Proof.
  revert k. induction todo as [|todo IH]; intros k Hl Hz; cbn [compare_from].
  - rewrite take_0, decide_True by constructor. done.
  - destruct (lookup_lt_is_Some_2 a k) as [z Hk]; [lia|]. rewrite (drop_S _ _ _ Hk). cbn [take].
    rewrite (Hz k) by lia. erewrite bind_done by done. rewrite (bind_done _ _ _ (a !! k) a) by done. rewrite Hk. erewrite bind_done by done.
    destruct (decide (0 = z)%Z) as [<-|Hne].
    + erewrite bind_done by (unfold asserts; by rewrite decide_True). rewrite IH by (lia || (intros i Hi; apply Hz; lia)).
      apply decide_ext. rewrite Forall_cons. tauto.
    + erewrite bind_fault by (unfold asserts; by rewrite decide_False). rewrite decide_False; [done|].
      rewrite Forall_cons. intros [Hz' _]. congruence.
Qed.

(** [main] with [getchpids] compares what [fork] returned in the children, which is
    0, with pids of the process table: it fails its assertion unless the first
    five entries of the array are 0 in the end. *)
Lemma main_spec fork ref a : (5 < NR_PROCS)%Z -> 5 <= length ref -> 5 <= length a ->
  let c := children 5 0 in
  let a' := c ++ drop (length c) a in
  main fork getchpids ref a =
    if decide (Forall (fun i => fork i = 0%Z) (seq 0 5)) then
      if decide (Forall (fun z => z = 0%Z) (take 5 a')) then Done (0%Z, a') else Fault AssertFail
    else Done (0%Z, a).
Proof.
  intros HN Hr Ha c a'. unfold main. pose proof (fork_from_spec fork 5 0 ref Hr ltac:(lia)) as Hf. case_decide as Hd; [|by rewrite Hf].
  destruct Hf as (ref' & -> & Hz). pose proof (children_length 5 0) as Hc. fold c in Hc.
  assert (exists x, getchpids 5 (Some 0) a = Done (x, a')) as [x Hx].
  { unfold getchpids. pose proof (getchpids_from_spec 5 0 a) as Hg. cbn [take app Nat.add] in Hg. unfold a', c.
    change (Z.to_nat 5) with 5. change 0%Z with (Z.of_nat 0). rewrite Hg by lia. case_decide; [by eexists|]. rewrite decide_True by (fold c; lia). by eexists. }
  erewrite bind_done by exact Hx.
  assert (Hl : 5 <= length a') by (unfold a'; rewrite length_app, length_drop; lia).
  pose proof (compare_from_spec 5 0 ref' a' Hl ltac:(intros i Hi; apply Hz; lia)) as Hcmp. rewrite drop_0 in Hcmp.
  case_decide; [by erewrite bind_done by exact Hcmp|by erewrite bind_fault by exact Hcmp].
Qed.
End code.

(** ** A process table of two slots, both children of slot 7 *)

#[local] Instance demo_table : ProcTable := {|
  NR_PROCS := 2; who_p := 7;
  mp_parent n := if decide (0 <= n < 2)%Z then Some 7%Z else None;
  mp_pid n := if decide (0 <= n < 2)%Z then Some (100 + n)%Z else None
|}.

#[local] Instance demo_table_ok : ProcTableOk.
Proof.
  split; [done|..]; intros n; cbn; case_decide; split; try done; intros []; done.
Qed.

(** Asked for three children, it reads the slot behind the table. *)
Lemma getchpids_spec_witness :
  (3 <= Z.of_nat (length [0; 0; 0]%Z))%Z /\ getchpids 3 (Some 0) [0; 0; 0]%Z = Fault OutOfBounds /\
  getchpids 2 (Some 0) [0; 0; 0]%Z = Done (2, [100; 101; 0])%Z.
Proof.
  split; [cbn; lia|]. split.
  - rewrite (getchpids_spec 3) by (cbn; lia). reflexivity.
  - rewrite (getchpids_spec 2) by (cbn; lia). reflexivity.
Defined.

(** With enough children, [main] stops at its first assertion. *)
#[local] Definition larger_table : ProcTable := {|
  NR_PROCS := 8; who_p := 7;
  mp_parent n := if decide (0 <= n < 8)%Z then Some 7%Z else None;
  mp_pid n := if decide (0 <= n < 8)%Z then Some (100 + n)%Z else None
|}.

Example main_fails : main (fun _ => 0%Z) (@getchpids larger_table) (replicate 10 7%Z) (replicate 10 7%Z) = Fault AssertFail.
Proof. by vm_compute. Qed.
