(* ===== verification/Thrashing.v ===== *)
(** * Four large arrays: [Homework/h6/thrashing.c]

    The program allocates four arrays of 2^30 ints, fills them one after the
    other, and frees them.  None of the results of [malloc] is looked at.  The
    number of ints is an argument here, so that small runs can be evaluated. *)
From S2P Require Import Prelude StateM CString.

(** The length of each array in the program. *)
Definition LENGTH : nat := Z.to_nat 1073741824.

(** An array is a list of cells, [None] as long as nothing has been written.  The
    state also counts the calls of [malloc] and has the lines that were printed. *)
Record mem := MkMem { arrays : gmap nat (list (option Z)); calls : nat; out : list string }.
Definition set_arrays (h : gmap nat (list (option Z))) (s : mem) : mem := MkMem h (calls s) (out s).
Definition printf (t : string) : ST mem unit := modify (fun s => MkMem (arrays s) (calls s) (out s ++ [t])).

Record Big := MkBig { d1 : option nat; d2 : option nat; d3 : option nat; d4 : option nat; ok1 : Z; ok2 : Z; ok3 : Z }.

Section program.
(** Whether the call of [malloc] with the given number gets its memory. *)
Context (grants : nat -> bool).

(** [malloc(sizeof(int) * n)]; a [size_t] has 64 bits. *)
Definition malloc_ints (n : nat) : ST mem (option nat) := fun s =>
  let cells := Z.to_nat (u64 (4 * Z.of_nat n) / 4) in
  if grants (calls s) then
    let p := fresh (dom (arrays s)) in
    Done (Some p, MkMem (<[p := replicate cells None]> (arrays s)) (S (calls s)) (out s))
  else Done (None, MkMem (arrays s) (S (calls s)) (out s)).

Definition free (p : option nat) : ST mem unit := fun s =>
  match p with
  | None => Done (tt, s)
  | Some p => match arrays s !! p with Some _ => Done (tt, set_arrays (delete p (arrays s)) s) | None => Fault Undefined end
  end.

(** [d[i] = v]. *)
Definition store (d : option nat) (i v : Z) : ST mem unit := fun s =>
  match d with
  | None => Fault NullDeref
  | Some p =>
      match arrays s !! p with
      | None => Fault Undefined
      | Some a => if decide (0 <= i < Z.of_nat (length a))%Z then Done (tt, set_arrays (<[p := <[Z.to_nat i := Some v]> a]> (arrays s)) s) else Fault OutOfBounds
      end
  end.

(** [for(int i=0;i<n;i++) d[i]=i]: [todo] passes are left.  [i] is an [int]. *)
Fixpoint fill_from (todo : nat) (i : Z) (d : option nat) : ST mem unit :=
  match todo with
  | O => mret tt
  | S todo => _ ← store d i i; i ← lift (int_expr (i + 1)); fill_from todo i d
  end.
Definition fill (n : nat) (d : option nat) : ST mem unit := fill_from n 0 d.

Definition initBit (n : nat) (data : Big) : ST mem Big :=
  p1 ← malloc_ints n; _ ← printf "d1 init ok";
  p2 ← malloc_ints n; _ ← printf "d2 init ok";
  p3 ← malloc_ints n; _ ← printf "d3 init ok";
  p4 ← malloc_ints n; _ ← printf "d4 init ok";
  _ ← fill n p1; _ ← printf "d1 calc ok";
  _ ← fill n p2; _ ← printf "d2 calc ok";
  _ ← fill n p3; _ ← printf "d3 calc ok";
  _ ← fill n p4; _ ← printf "d4 calc ok";
  mret (MkBig p1 p2 p3 p4 (ok1 data) (ok2 data) (ok3 data)).

(** [garbage] is what the pointers hold before they are set. *)
Definition main (n : nat) (garbage : option nat) : ST mem Z :=
  data ← initBit n (MkBig garbage garbage garbage garbage 0 0 0);
  _ ← free (d1 data); _ ← free (d2 data); _ ← free (d3 data); _ ← free (d4 data);
  mret 0%Z.

(** ** Specification *)

Implicit Types (s : mem) (h : gmap nat (list (option Z))).

(** The array that [fill] leaves. *)
Definition counted (n : nat) : list (option Z) := (fun i => Some (Z.of_nat i)) <$> seq 0 n.

(** The bound of the loops is an [int]. *)
Definition fits (n : nat) : Prop := 0 < n /\ (Z.of_nat n <= INT_MAX)%Z.

Lemma cells_fit n : fits n -> Z.to_nat (u64 (4 * Z.of_nat n) / 4) = n.
Proof. intros [_ Hn]. unfold INT_MAX in Hn. rewrite u64_small by lia. rewrite Z.mul_comm, Z.div_mul by done. lia. Qed.

Lemma counted_length n : length (counted n) = n.
Proof. unfold counted. by rewrite length_fmap, length_seq. Qed.

Lemma counted_next i o l : <[i := Some (Z.of_nat i)]> (counted i ++ o :: l) = counted (S i) ++ l.
Proof.
  rewrite insert_app_r_alt, counted_length, Nat.sub_diag by by rewrite counted_length. cbn [insert list_insert].
  unfold counted. by rewrite seq_S, fmap_app, <- app_assoc.
Qed.

Lemma fill_from_spec todo i p s l : arrays s !! p = Some (counted i ++ l) -> length l = todo ->
  (Z.of_nat (i + todo) <= INT_MAX)%Z ->
  fill_from todo (Z.of_nat i) (Some p) s = Done (tt, set_arrays (<[p := counted (i + todo)]> (arrays s)) s).
Proof.
  revert i s l. induction todo as [|todo IH]; intros i s l Hp Hl Hmax.
  - destruct l; [|done]. rewrite app_nil_r in Hp. cbn. rewrite Nat.add_0_r, insert_id by done. by destruct s.
  - destruct l as [|o l]; [done|]. cbn [length] in Hl.
    cbn [fill_from]. erewrite bind_done.
    2: { unfold store. rewrite Hp, decide_True by (rewrite length_app, counted_length; cbn; lia). done. }
    erewrite bind_done by (unfold lift; rewrite int_expr_done by (unfold INT_MIN, INT_MAX in *; lia); done).
    replace (Z.of_nat i + 1)%Z with (Z.of_nat (S i)) by lia. rewrite Nat2Z.id.
    rewrite (IH _ _ l); [| |lia|lia].
    + cbn. rewrite insert_insert_eq. by rewrite Nat.add_succ_r.
    + cbn. rewrite lookup_insert_eq. f_equal. by apply counted_next.
Qed.

Lemma fill_spec n p s : fits n -> arrays s !! p = Some (replicate n None) ->
  fill n (Some p) s = Done (tt, set_arrays (<[p := counted n]> (arrays s)) s).
Proof.
  intros [_ Hn] Hp. unfold fill. change 0%Z with (Z.of_nat 0).
  by rewrite (fill_from_spec n 0 p s (replicate n None)) by (done || apply length_replicate).
Qed.

Lemma fill_null n s : fits n -> fill n None s = Fault NullDeref.
Proof. intros [Hn _]. unfold fill. by destruct n; [lia|]. Qed.

(** Two lines of [initBit]: an array is allocated, empty, or the pointer is NULL. *)
Definition next s : nat := fresh (dom (arrays s)).
Definition pointer s : option nat := if grants (calls s) then Some (next s) else None.
Definition alloced n t s : mem :=
  MkMem (if grants (calls s) then <[next s := replicate n None]> (arrays s) else arrays s) (S (calls s)) (out s ++ [t]).

Lemma next_free s : arrays s !! next s = None.
Proof. unfold next. apply not_elem_of_dom, is_fresh. Qed.

Lemma alloc_next {A} n t s (k : option nat -> ST mem A) : fits n ->
  (p ← malloc_ints n; _ ← printf t; k p) s = k (pointer s) (alloced n t s).
Proof.
  intros Hn. unfold malloc_ints, mbind at 1, st_bind at 1. rewrite cells_fit by done. unfold pointer, alloced. by destruct (grants (calls s)).
Qed.

(** The pointer [d] is NULL or that of an array with the contents [a]. *)
Definition holds (d : option nat) (a : list (option Z)) s : Prop := forall p, d = Some p -> arrays s !! p = Some a.

Lemma alloced_holds n t s : holds (pointer s) (replicate n None) (alloced n t s).
Proof. unfold pointer, alloced. intros p. cbn. destruct (grants (calls s)); intros [= <-]. apply lookup_insert_eq. Qed.

Lemma alloced_keeps n t s d a : holds d a s -> holds d a (alloced n t s).
Proof.
  intros Hd p Hp. specialize (Hd p Hp). unfold alloced. cbn. destruct (grants (calls s)); [|done].
  rewrite lookup_insert_ne; [done|]. intros <-. by rewrite next_free in Hd.
Qed.

Lemma pointer_new s d a : holds d a s -> forall p, d = Some p -> pointer s <> Some p.
Proof. intros Hd p Hp. unfold pointer. destruct (grants (calls s)); [|done]. intros [= <-]. specialize (Hd _ Hp). by rewrite next_free in Hd. Qed.

Lemma holds_filled n d a p s t : holds d a s -> d <> Some p -> holds d a (MkMem (<[p := counted n]> (arrays s)) (calls s) (out s ++ [t])).
Proof. intros Hd Hne q Hq. cbn. rewrite lookup_insert_ne by congruence. by apply Hd. Qed.

Lemma alloced_other n t s p : pointer s <> Some p -> arrays (alloced n t s) !! p = arrays s !! p.
Proof. unfold pointer, alloced. cbn. destruct (grants (calls s)); [|done]. intros Hp. rewrite lookup_insert_ne; [done|congruence]. Qed.

Lemma alloced_free n t s p : arrays (alloced n t s) !! p = None -> arrays s !! p = None.
Proof.
  intros Hp. destruct (arrays s !! p) as [a|] eqn:E; [|done].
  by rewrite (alloced_keeps n t s (Some p) a (fun q Hq => ltac:(by injection Hq as <-)) p eq_refl) in Hp.
Qed.

(** Two lines of the second half. *)
Lemma fill_next {A} n d t s (k : ST mem A) : fits n -> holds d (replicate n None) s ->
  (_ ← fill n d; _ ← printf t; k) s =
    match d with Some p => k (MkMem (<[p := counted n]> (arrays s)) (calls s) (out s ++ [t])) | None => Fault NullDeref end.
Proof.
  intros Hn Hd. destruct d as [p|].
  - erewrite bind_done by (apply fill_spec; [done|by apply Hd]). done.
  - by erewrite bind_fault by by apply fill_null.
Qed.

Definition granted s : bool := grants (calls s) && grants (1 + calls s) && grants (2 + calls s) && grants (3 + calls s).

Definition lines : list string := ["d1 init ok"; "d2 init ok"; "d3 init ok"; "d4 init ok"; "d1 calc ok"; "d2 calc ok"; "d3 calc ok"; "d4 calc ok"].

(** The four arrays are filled; what was there before is as it was. *)
Definition filled n s (ps : list nat) s' : Prop :=
  NoDup ps /\ (forall p, p ∈ ps -> arrays s !! p = None) /\ calls s' = 4 + calls s /\ out s' = out s ++ lines /\
  forall p, arrays s' !! p = if decide (p ∈ ps) then Some (counted n) else arrays s !! p.

Lemma init_bit_spec n data s : fits n ->
  if granted s then exists p1 p2 p3 p4 s', filled n s [p1; p2; p3; p4] s' /\
    initBit n data s = Done (MkBig (Some p1) (Some p2) (Some p3) (Some p4) (ok1 data) (ok2 data) (ok3 data), s')
  else initBit n data s = Fault NullDeref.
Proof.
  intros Hn. unfold initBit. rewrite !alloc_next by done.
  set (s1 := alloced n _ s). set (s2 := alloced n _ s1). set (s3 := alloced n _ s2). set (s4 := alloced n _ s3).
  assert (H1 : holds (pointer s) (replicate n None) s4) by (do 3 apply alloced_keeps; apply alloced_holds).
  assert (H2 : holds (pointer s1) (replicate n None) s4) by (do 2 apply alloced_keeps; apply alloced_holds).
  assert (H3 : holds (pointer s2) (replicate n None) s4) by (apply alloced_keeps, alloced_holds).
  assert (H4 : holds (pointer s3) (replicate n None) s4) by apply alloced_holds.
  assert (P1 : pointer s = if grants (calls s) then Some (next s) else None) by done.
  assert (P2 : pointer s1 = if grants (1 + calls s) then Some (next s1) else None) by done.
  assert (P3 : pointer s2 = if grants (2 + calls s) then Some (next s2) else None) by done.
  assert (P4 : pointer s3 = if grants (3 + calls s) then Some (next s3) else None) by done.
  assert (K1 : holds (pointer s) (replicate n None) s1) by apply alloced_holds.
  assert (K2 : holds (pointer s) (replicate n None) s2) by (apply alloced_keeps, K1).
  assert (K3 : holds (pointer s1) (replicate n None) s2) by apply alloced_holds.
  assert (D12 := pointer_new _ _ _ K1). assert (D13 := pointer_new _ _ _ K2). assert (D23 := pointer_new _ _ _ K3).
  assert (D14 := pointer_new s3 _ _ (alloced_keeps _ _ _ _ _ K2)). assert (D24 := pointer_new s3 _ _ (alloced_keeps _ _ _ _ _ K3)).
  assert (D34 := pointer_new s3 (pointer s2) _ (alloced_holds _ _ _)).
  unfold granted. destruct (grants (calls s)) eqn:G1; rewrite P1 in *; rewrite fill_next by done; [|done].
  destruct (grants (1 + calls s)) eqn:G2; rewrite P2 in *; rewrite fill_next by (try done; apply holds_filled; auto); [|done].
  destruct (grants (2 + calls s)) eqn:G3; rewrite P3 in *; rewrite fill_next by (try done; do 2 (apply holds_filled; [|by auto]); auto); [|done].
  destruct (grants (3 + calls s)) eqn:G4; rewrite P4 in *; rewrite fill_next by (try done; do 3 (apply holds_filled; [|by auto]); auto); [|done].
  assert (F2 := alloced_free _ _ _ _ (next_free s1)). assert (F3 := alloced_free _ _ _ _ (alloced_free _ _ _ _ (next_free s2))).
  assert (F4 := alloced_free _ _ _ _ (alloced_free _ _ _ _ (alloced_free _ _ _ _ (next_free s3)))).
  assert (next s1 <> next s /\ next s2 <> next s /\ next s2 <> next s1 /\ next s3 <> next s /\ next s3 <> next s1 /\ next s3 <> next s2)
    as (E1 & E2 & E3 & E4 & E5 & E6).
  { split_and!; intros E; [apply (D12 _ eq_refl)|apply (D13 _ eq_refl)|apply (D23 _ eq_refl)|apply (D14 _ eq_refl)|apply (D24 _ eq_refl)|
      apply (D34 _ eq_refl)]; by f_equal. }
  eexists _, _, _, _, _. split; [|done]. split_and!.
  - rewrite !NoDup_cons, !not_elem_of_cons. split_and!; try apply not_elem_of_nil; try constructor; congruence.
  - intros p Hp. repeat (apply elem_of_cons in Hp as [->|Hp]); [apply next_free|done..|by apply elem_of_nil in Hp].
  - done.
  - cbn. by rewrite <- !app_assoc.
  - intros p. cbn [arrays]. case_decide as Hd.
    + repeat (apply elem_of_cons in Hd as [->|Hd]); [..|by apply elem_of_nil in Hd];
        repeat (rewrite lookup_insert_ne by congruence); apply lookup_insert_eq.
    + rewrite !not_elem_of_cons in Hd. repeat (rewrite lookup_insert_ne by (intros <-; tauto)).
      unfold s4, s3, s2, s1. rewrite !alloced_other; [done|..]; fold s1 s2 s3; rewrite ?P1, ?P2, ?P3, ?P4; intros [= <-]; tauto.
Qed.

Lemma free_next {A} p a s (k : ST mem A) : arrays s !! p = Some a ->
  (_ ← free (Some p); k) s = k (MkMem (delete p (arrays s)) (calls s) (out s)).
Proof. intros Hp. erewrite bind_done; [done|]. cbn. by rewrite Hp. Qed.

(** C40: The program looks at none of its four pointers.  Take a length that is an [int].  When every [malloc] gets
    its memory, [initBit] sets them to four new arrays that hold the numbers from 0
    on, and [main] prints eight lines, frees the arrays and returns 0, with the
    memory as it was; when one does not, both follow the NULL pointer. *)
Theorem thrashing_runs n data garbage s : fits n ->
  if granted s then
    (exists p1 p2 p3 p4 s', filled n s [p1; p2; p3; p4] s' /\
      initBit n data s = Done (MkBig (Some p1) (Some p2) (Some p3) (Some p4) (ok1 data) (ok2 data) (ok3 data), s')) /\
    main n garbage s = Done (0%Z, MkMem (arrays s) (4 + calls s) (out s ++ lines))
  else initBit n data s = Fault NullDeref /\ main n garbage s = Fault NullDeref.
Proof.
  intros Hn. assert (Hd := init_bit_spec n data s Hn). assert (Hi := init_bit_spec n (MkBig garbage garbage garbage garbage 0 0 0) s Hn).
  unfold main. destruct (granted s); [|split; [done|by erewrite bind_fault]]. split; [done|]. clear Hd.
  destruct Hi as (p1 & p2 & p3 & p4 & s' & (Hnd & Hfree & Hcalls & Hout & Hl) & Hi).
  assert (Hall : forall p, p ∈ [p1; p2; p3; p4] -> arrays s' !! p = Some (counted n)) by (intros p Hp; by rewrite Hl, decide_True).
  rewrite !NoDup_cons, !not_elem_of_cons in Hnd.
  erewrite bind_done by exact Hi. cbn [d1 d2 d3 d4].
  do 4 (erewrite free_next by (cbn; rewrite ?lookup_delete_ne by tauto; apply Hall; rewrite !elem_of_cons; tauto)).
  unfold mret, st_ret. cbn [arrays Thrashing.calls Thrashing.out]. rewrite Hcalls, Hout. do 3 f_equal. apply map_eq. intros p.
  rewrite !lookup_delete, Hl. destruct (decide (p ∈ [p1; p2; p3; p4])) as [Hp|Hp].
  - rewrite (Hfree p Hp). rewrite !elem_of_cons in Hp. repeat case_decide; [done..|]. destruct Hp as [->|[->|[->|[->|[]%elem_of_nil]]]]; done.
  - rewrite !not_elem_of_cons in Hp. rewrite !decide_False by (intros ->; tauto). done.
Qed.
End program.

(** The arrays of the program. *)
Lemma program_fits : fits LENGTH.
Proof. unfold fits, LENGTH, INT_MAX. lia. Qed.

(** Three ints per array; with memory for three arrays only the program stops. *)
Lemma thrashing_runs_witness :
  main (fun _ => true) 3 None (MkMem ∅ 0 []) = Done (0%Z, MkMem ∅ 4 lines) /\
  main (fun k => bool_decide (k < 3)) 3 None (MkMem ∅ 0 []) = Fault NullDeref.
Proof.
  split.
  - refine (proj2 (thrashing_runs (fun _ => true) 3 (MkBig None None None None 0 0 0) None (MkMem ∅ 0 []) _)). by split; [lia|].
  - refine (proj2 (thrashing_runs (fun k => bool_decide (k < 3)) 3 (MkBig None None None None 0 0 0) None (MkMem ∅ 0 []) _)). by split; [lia|].
Defined.
