(* ===== verification/Banker.v ===== *)
(** * The banker's algorithm: [Homework/h5/banker.cpp]

    The program decides whether a state of processes and resources is safe: as
    long as it finds a process whose request [R] is available, it lets the process
    run and gives back its maximum [M].  A process that has run is marked in
    [R[i][0]].  The model has the program's loops on its matrices, for any
    contents of the matrices. *)
From S2P Require Import Prelude CString.

Definition PS_CNT : nat := 5.
Definition RS_CNT : nat := 4.
Definition UNREACHABLE : Z := -1.

(** The matrices of the program; a row that is not given is zero. *)
Definition M : list (list Z) := [[7;5;2;4]; [3;3;2;3]; [6;2;3;4]; [2;9;4;2]; [0;0;0;0]]%Z.
Definition R : list (list Z) := [[6;4;1;3]; [1;3;0;2]; [3;1;1;2]; [1;7;0;0]; [0;0;0;0]]%Z.
Definition A : list Z := [3;2;1;3]%Z.

Inductive status := S_RUNNING | S_SUCCESS | S_FAIL.

Record bank := MkBank { avail : list Z; request : list (list Z); remainingPs : Z; isFound : bool }.

(** ** The loops *)

(** [for (x of l) s = f x s] *)
Fixpoint for_each {X S} (f : X -> S -> exec S) (l : list X) (s : S) : exec S :=
  match l with
  | [] => Done s
  | x :: l => s ← f x s; for_each f l s
  end.

Definition get1 (a : list Z) (j : nat) : exec Z := deref OutOfBounds (a !! j).
Definition get2 (m : list (list Z)) (i j : nat) : exec Z := row ← deref OutOfBounds (m !! i); get1 row j.

(** [isSatisfy]: no entry of the request is larger than what is available. *)
Definition check_request (a : list Z) (r : list (list Z)) (i : nat) : exec bool :=
  for_each (fun j ok => x ← get1 a j; y ← get2 r i j; Done (if decide (x < y)%Z then false else ok))
    (seq 0 RS_CNT) true.

(** [A[j] op= m[i][j]] for every resource [j]. *)
Definition update_all (op : Z -> Z -> Z) (m : list (list Z)) (i : nat) (a : list Z) : exec (list Z) :=
  for_each (fun j a => x ← get1 a j; y ← get2 m i j; z ← int_expr (op x y); Done (<[j := z]> a))
    (seq 0 RS_CNT) a.

(** The body of the loop over the processes. *)
Definition try_process (maxm : list (list Z)) (i : nat) (s : bank) : exec bank :=
  r0 ← get2 (request s) i 0;
  if decide (r0 = UNREACHABLE) then Done s
  else
    ok ← check_request (avail s) (request s) i;
    if ok : bool then
      a ← update_all Z.sub (request s) i (avail s);
      a ← update_all Z.add maxm i a;
      let r := alter (<[0 := UNREACHABLE]>) i (request s) in
      Done (MkBank a r (remainingPs s - 1) true)
    else Done s.

Definition find_pass (maxm : list (list Z)) (s : bank) : exec bank :=
  for_each (try_process maxm) (seq 0 PS_CNT) (MkBank (avail s) (request s) (remainingPs s) false).

(** The outer [while]: each pass but the last runs a process. *)
Fixpoint find_all (fuel : nat) (maxm : list (list Z)) (s : bank) : exec status :=
  match fuel with
  | O => Fault OutOfFuel
  | S fuel =>
      s ← find_pass maxm s;
      let exitStatus := if isFound s then S_RUNNING else S_FAIL in
      let exitStatus := if decide (remainingPs s <= 0)%Z then S_SUCCESS else exitStatus in
      match exitStatus with
      | S_RUNNING => find_all fuel maxm s
      | _ => Done exitStatus
      end
  end.

Definition verdict (st : status) : string :=
  match st with
  | S_SUCCESS => "all recources released, processes terminated safely."
  | S_FAIL => "the state is unsafe, and the request should be denied."
  | S_RUNNING => "system error."
  end.

(** The output of the program on the matrices [m], [r] and [a]. *)
Definition banker (m r : list (list Z)) (a : list Z) : exec string :=
  st ← find_all (S PS_CNT) m (MkBank a r (Z.of_nat PS_CNT) false);
  Done (verdict st +:+ line_end).

(** The demo matrices: two of the processes can never run. *)
Example banker_demo : banker M R A = Done ("the state is unsafe, and the request should be denied." +:+ line_end).
Proof. reflexivity. Qed.
