(* ===== verification/BankerProps.v ===== *)
(** * When the banker calls a state safe

    A state is safe when the processes can run one after the other, each finding
    its request available and giving back all it held.  The program decides this:
    its greedy search loses nothing, because what a process leaves behind is never
    less than what it found. *)
From S2P Require Import Prelude CString Banker.

(** ** Sums *)

Fixpoint sum (f : nat -> Z) (l : list nat) : Z :=
  match l with [] => 0 | i :: l => f i + sum f l end.

Lemma sum_app f l l' : (sum f (l ++ l') = sum f l + sum f l')%Z.
Proof. induction l as [|i l IH]; cbn; [done|]. rewrite IH. lia. Qed.

Lemma sum_nonneg f l : (forall i, i ∈ l -> 0 <= f i)%Z -> (0 <= sum f l)%Z.
Proof.
  induction l as [|i l IH]; cbn; intros Hf; [done|].
  pose proof (Hf i ltac:(set_solver)). specialize (IH ltac:(set_solver)). lia.
Qed.

Lemma sum_mono f g l : (forall i, i ∈ l -> f i <= g i)%Z -> (sum f l <= sum g l)%Z.
Proof.
  induction l as [|i l IH]; cbn; intros Hf; [done|].
  pose proof (Hf i ltac:(set_solver)). specialize (IH ltac:(set_solver)). lia.
Qed.

#[export] Instance sum_perm f : Proper ((≡ₚ) ==> (=)) (sum f).
Proof. intros l l' Hl. induction Hl; cbn; lia. Qed.

(** More terms that are not negative. *)
Lemma sum_subset f l l' : NoDup l -> l ⊆ l' -> (forall i, i ∈ l' -> 0 <= f i)%Z -> (sum f l <= sum f l')%Z.
Proof.
  intros Hl Hs Hf. pose proof (NoDup_submseteq l l' Hl Hs) as [k Hk]%submseteq_Permutation.
  rewrite Hk, sum_app. enough (0 <= sum f k)%Z by lia. apply sum_nonneg. intros i Hi. apply Hf.
  rewrite Hk. set_solver.
Qed.

(** ** Safe states *)

Section spec.
Context (m r : list (list Z)) (a : list Z).

Definition at2 (x : list (list Z)) (i j : nat) : Z := (x !!! i) !!! j.

(** What is available once the processes [l] have run. *)
Definition free (l : list nat) (j : nat) : Z := a !!! j + sum (fun i => at2 m i j - at2 r i j)%Z l.

Definition can_run (l : list nat) (i : nat) : Prop := forall j, j < RS_CNT -> (at2 r i j <= free l j)%Z.

Definition runs_in_order (l : list nat) : Prop := forall l1 i l2, l = l1 ++ i :: l2 -> can_run l1 i.

Definition safe : Prop := exists l, l ≡ₚ seq 0 PS_CNT /\ runs_in_order l.

(** The matrices of a state: a process requests no more than its maximum, and
    all resources together are an [int]. *)
Record bank_ok : Prop := {
  b_m : length m = PS_CNT /\ Forall (fun row => length row = RS_CNT) m;
  b_r : length r = PS_CNT /\ Forall (fun row => length row = RS_CNT) r;
  b_a : length a = RS_CNT;
  b_nonneg : forall i j, i < PS_CNT -> j < RS_CNT -> (0 <= at2 r i j <= at2 m i j)%Z;
  b_avail : forall j, j < RS_CNT -> (0 <= a !!! j)%Z;
  b_int : forall j, j < RS_CNT -> (a !!! j + sum (fun i => at2 m i j) (seq 0 PS_CNT) <= INT_MAX)%Z
}.

Context (Hok : bank_ok).

Definition procs (l : list nat) : Prop := NoDup l /\ forall i, i ∈ l -> i < PS_CNT.

Lemma procs_subset l : procs l -> l ⊆ seq 0 PS_CNT.
Proof. intros [_ Hl] i Hi. apply elem_of_seq. specialize (Hl i Hi). lia. Qed.

Lemma free_snoc l i j : free (l ++ [i]) j = (free l j - at2 r i j + at2 m i j)%Z.
Proof. unfold free. rewrite sum_app. cbn. lia. Qed.

(** What is available only grows. *)
Lemma free_mono l l' j : NoDup l -> l ⊆ l' -> procs l' -> j < RS_CNT -> (free l j <= free l' j)%Z.
Proof.
  intros Hl Hs [_ Hp] Hj. unfold free. enough (sum (fun i => at2 m i j - at2 r i j)%Z l
    <= sum (fun i => at2 m i j - at2 r i j)%Z l')%Z by lia.
  apply sum_subset; [done..|]. intros i Hi. destruct (b_nonneg Hok i j); [auto..|]. lia.
Qed.

Lemma resource_range l j : procs l -> j < RS_CNT -> (0 <= free l j <= INT_MAX)%Z.
Proof.
  intros Hp Hj. pose proof Hp as [Hnd Hl]. pose proof (b_avail Hok j Hj). pose proof (b_int Hok j Hj).
  pose proof (b_nonneg Hok) as Hn. split.
  - pose proof (free_mono [] l j ltac:(constructor) ltac:(set_solver) Hp Hj) as Hm.
    unfold free in Hm at 1. cbn in Hm. lia.
  - enough (sum (fun i => at2 m i j - at2 r i j)%Z l <= sum (fun i => at2 m i j) (seq 0 PS_CNT))%Z
      by (unfold free; lia).
    etrans; [apply (sum_mono _ (fun i => at2 m i j)); intros i Hi; destruct (Hn i j); [auto..|]; lia|].
    apply sum_subset; [done|by apply procs_subset|]. intros i Hi%elem_of_seq. destruct (Hn i j); [lia..|]. lia.
Qed.

(** If nobody can run any more, no order is safe. *)
Lemma stuck_unsafe l : procs l -> length l < PS_CNT ->
  (forall i, i < PS_CNT -> i ∈ l \/ ~ can_run l i) -> ~ safe.
Proof.
  intros Hp Hlen Hstuck (o & Ho & Hrun).
  assert (Hex : exists o1 i o2, o = o1 ++ i :: o2 /\ o1 ⊆ l /\ i ∉ l).
  { assert (Hn : ~ o ⊆ l).
    { intros Hs. assert (NoDup o) as Hnd by (rewrite Ho; apply NoDup_seq).
      apply (NoDup_submseteq o l Hnd), submseteq_length in Hs. rewrite Ho, length_seq in Hs. lia. }
    clear -Hn. induction o as [|x o IH]; [set_solver|].
    destruct (decide (x ∈ l)) as [Hx|Hx]; [|exists [], x, o; set_solver].
    destruct IH as (o1 & i & o2 & -> & H1 & H2); [set_solver|]. exists (x :: o1), i, o2. set_solver. }
  destruct Hex as (o1 & i & o2 & -> & Ho1 & Hi).
  assert (Hip : i < PS_CNT).
  { assert (i ∈ seq 0 PS_CNT) as Hs%elem_of_seq by (rewrite <- Ho; set_solver). lia. }
  assert (NoDup (o1 ++ i :: o2)) as (Hnd & _)%NoDup_app by (rewrite Ho; apply NoDup_seq).
  destruct (Hstuck i Hip) as [|Hno]; [done|]. apply Hno. intros j Hj.
  etrans; [by apply (Hrun o1 i o2)|]. by apply free_mono.
Qed.
(** ** The loops *)

Lemma row_at (x : list (list Z)) i : i < PS_CNT -> length x = PS_CNT /\ Forall (fun row => length row = RS_CNT) x ->
  x !! i = Some (x !!! i) /\ length (x !!! i) = RS_CNT.
Proof.
  intros Hi [Hl Hf]. destruct (lookup_lt_is_Some_2 x i) as [row Hrow]; [lia|].
  rewrite (list_lookup_total_correct _ _ _ Hrow). split; [done|]. rewrite Forall_lookup in Hf. eauto.
Qed.

Lemma get1_at (x : list Z) j : j < length x -> get1 x j = Done (x !!! j).
Proof.
  intros Hj. destruct (lookup_lt_is_Some_2 x j Hj) as [z Hz]. unfold get1.
  by rewrite Hz, (list_lookup_total_correct _ _ _ Hz).
Qed.

(** A matrix whose row [i] is [row]. *)
Lemma get2_at (x : list (list Z)) i (row : list Z) j : x !! i = Some row -> j < length row -> get2 x i j = Done (row !!! j).
Proof. intros Hi Hj. unfold get2. rewrite Hi. by apply get1_at. Qed.

(** A process may run when no entry of its row is larger. *)
Definition fits (av row : list Z) : bool := forallb (fun j => row !!! j <=? av !!! j)%Z (seq 0 RS_CNT).

Lemma fits_true av row : fits av row = true <-> forall j, j < RS_CNT -> (row !!! j <= av !!! j)%Z.
Proof.
  unfold fits. rewrite forallb_forall. split.
  - intros H j Hj. apply Z.leb_le, H, in_seq. lia.
  - intros H j Hj%in_seq. apply Z.leb_le, H. lia.
Qed.

Lemma check_request_spec (av : list Z) (x : list (list Z)) i (row : list Z) : length av = RS_CNT -> x !! i = Some row -> length row = RS_CNT ->
  check_request av x i = Done (fits av row).
Proof.
  intros Ha Hi Hr. unfold check_request, fits.
  assert (Hjs : forall j, j ∈ seq 0 RS_CNT -> j < RS_CNT) by (intros j Hj%elem_of_seq; lia).
  revert Hjs. generalize (seq 0 RS_CNT). intros js Hjs.
  rewrite <- (andb_true_l (forallb _ js)). generalize true. induction js as [|j js IH]; intros ok; cbn.
  { by rewrite andb_true_r. }
  assert (j < RS_CNT) by (apply Hjs; set_solver).
  rewrite get1_at, (get2_at _ _ row) by (done || lia). cbn [mbind exec_bind].
  rewrite IH by set_solver. f_equal.
  destruct (decide (av !!! j < row !!! j)%Z) as [Hlt|Hge].
  - apply Z.leb_gt in Hlt. rewrite Hlt. by destruct ok.
  - assert ((row !!! j <=? av !!! j)%Z = true) as -> by (apply Z.leb_le; lia). done.
Qed.

Lemma update_loop (op : Z -> Z -> Z) (x : list (list Z)) i (row : list Z) k n (av : list Z) : x !! i = Some row -> length row = RS_CNT -> length av = RS_CNT ->
  k + n <= RS_CNT ->
  (forall j, k <= j < k + n -> (INT_MIN <= op (av !!! j) (row !!! j) <= INT_MAX)%Z) ->
  exists av', for_each (fun j a => x' ← get1 a j; y ← get2 x i j; z ← int_expr (op x' y); Done (<[j := z]> a))
      (seq k n) av = Done av' /\ length av' = RS_CNT /\
    forall j, av' !!! j = if decide (k <= j < k + n) then op (av !!! j) (row !!! j) else av !!! j.
Proof.
  intros Hi Hr. revert k av. induction n as [|n IH]; intros k av Ha Hk Hop; cbn.
  { exists av. split_and!; [done..|]. intros j. rewrite decide_False by lia. done. }
  rewrite get1_at, (get2_at _ _ row) by (done || lia). cbn [mbind exec_bind].
  rewrite int_expr_done by (apply Hop; lia). cbn [mbind exec_bind].
  destruct (IH (S k) (<[k := op (av !!! k) (row !!! k)]> av)) as (av' & Hrun & Hlen & Hav).
  - by rewrite length_insert.
  - lia.
  - intros j Hj. rewrite list_lookup_total_insert_ne by lia. apply Hop. lia.
  - exists av'. split_and!; [done..|]. intros j. rewrite Hav. destruct (decide (j = k)) as [->|Hjk].
    + rewrite decide_False, decide_True by lia. by rewrite list_lookup_total_insert_eq by lia.
    + rewrite list_lookup_total_insert_ne by done. apply decide_ext; lia.
Qed.

Lemma update_all_spec (op : Z -> Z -> Z) (x : list (list Z)) i (row : list Z) (av : list Z) : x !! i = Some row -> length row = RS_CNT -> length av = RS_CNT ->
  (forall j, j < RS_CNT -> (INT_MIN <= op (av !!! j) (row !!! j) <= INT_MAX)%Z) ->
  exists av', update_all op x i av = Done av' /\ length av' = RS_CNT /\
    forall j, j < RS_CNT -> av' !!! j = op (av !!! j) (row !!! j).
Proof.
  intros Hi Hr Ha Hop. destruct (update_loop op x i row 0 RS_CNT av) as (av' & Hrun & Hlen & Hav); try done.
  { intros j Hj. apply Hop. lia. }
  exists av'. split_and!; [done..|]. intros j Hj. rewrite Hav. by rewrite decide_True by lia.
Qed.

(** ** The state after the processes [l] have run *)

Record after (l : list nat) (s : bank) : Prop := {
  f_procs : procs l;
  f_order : runs_in_order l;
  f_len : length (avail s) = RS_CNT;
  f_avail : forall j, j < RS_CNT -> avail s !!! j = free l j;
  f_request : forall i, i < PS_CNT ->
    request s !! i = Some (if decide (i ∈ l) then <[0 := UNREACHABLE]> (r !!! i) else r !!! i);
  f_left : remainingPs s = (Z.of_nat PS_CNT - Z.of_nat (length l))%Z
}.

Lemma runs_snoc l i : runs_in_order l -> can_run l i -> runs_in_order (l ++ [i]).
Proof.
  intros Hl Hi l1 k l2 He. destruct l2 as [|x l2 _] using rev_ind.
  - apply app_inj_tail in He as [-> ->]. done.
  - rewrite app_comm_cons, app_assoc in He. apply app_inj_tail in He as [-> ->]. by eapply Hl.
Qed.

Lemma after_start : after [] (MkBank a r (Z.of_nat PS_CNT) false).
Proof.
  split; cbn.
  - split; [constructor|set_solver].
  - intros [|? ?] i l2; done.
  - apply Hok.
  - intros j Hj. unfold free. cbn. lia.
  - intros i Hi. by apply row_at; [|apply Hok].
  - lia.
Qed.
(** A process that has run is skipped, one whose request is too large waits. *)
Lemma try_skip l s i : after l s -> i < PS_CNT -> i ∈ l -> try_process m i s = Done s.
Proof.
  intros Hs Hi Hil. destruct (row_at r i Hi (b_r Hok)) as [_ Hlen]. unfold try_process.
  rewrite (get2_at _ i (<[0 := UNREACHABLE]> (r !!! i)) 0).
  - rewrite list_lookup_total_insert_eq by (rewrite Hlen; unfold RS_CNT; lia). done.
  - rewrite (f_request _ _ Hs i Hi). by rewrite decide_True.
  - rewrite length_insert, Hlen. unfold RS_CNT. lia.
Qed.

Lemma request_row l s i : after l s -> i < PS_CNT -> i ∉ l -> request s !! i = Some (r !!! i).
Proof. intros Hs Hi Hil. rewrite (f_request _ _ Hs i Hi). by rewrite decide_False. Qed.

Lemma fits_can_run l s i : after l s -> fits (avail s) (r !!! i) = true <-> can_run l i.
Proof.
  intros Hs. rewrite fits_true. unfold can_run, at2.
  split; intros H j Hj; specialize (H j Hj); rewrite (f_avail _ _ Hs) in * by done; done.
Qed.

(** Both updates of the available resources stay in [int]. *)
Lemma updates l s i : after l s -> i < PS_CNT -> i ∉ l -> can_run l i ->
  exists a1 a2, update_all Z.sub (request s) i (avail s) = Done a1 /\
    update_all Z.add m i a1 = Done a2 /\ length a2 = RS_CNT /\
    forall j, j < RS_CNT -> a2 !!! j = free (l ++ [i]) j.
Proof.
  intros Hs Hi Hil Hrun. destruct (row_at r i Hi (b_r Hok)) as [Hri Hrl], (row_at m i Hi (b_m Hok)) as [Hmi Hml].
  pose proof (f_procs _ _ Hs) as Hp.
  assert (Hp' : procs (l ++ [i])).
  { destruct Hp as [Hnd Hl]. split; [apply NoDup_app; set_solver by auto using NoDup_singleton|set_solver]. }
  destruct (update_all_spec Z.sub (request s) i (r !!! i) (avail s)) as (a1 & H1 & Hl1 & Ha1);
    [by eapply request_row|done|apply Hs| |].
  { intros j Hj. rewrite (f_avail _ _ Hs) by done. specialize (Hrun j Hj). unfold at2 in Hrun.
    pose proof (resource_range l j Hp Hj). pose proof (b_nonneg Hok i j Hi Hj) as Hn. unfold at2 in Hn.
    unfold INT_MIN, INT_MAX in *. lia. }
  destruct (update_all_spec Z.add m i (m !!! i) a1) as (a2 & H2 & Hl2 & Ha2); [done..| |].
  { intros j Hj. rewrite Ha1, (f_avail _ _ Hs) by done.
    pose proof (resource_range _ j Hp' Hj) as Hf. rewrite free_snoc in Hf. unfold at2 in Hf.
    unfold INT_MIN, INT_MAX in *. lia. }
  exists a1, a2. split_and!; [done..|]. intros j Hj. rewrite free_snoc, Ha2, Ha1, (f_avail _ _ Hs) by done. done.
Qed.

Lemma after_run l s i av : after l s -> i < PS_CNT -> i ∉ l -> can_run l i -> length av = RS_CNT ->
  (forall j, j < RS_CNT -> av !!! j = free (l ++ [i]) j) ->
  after (l ++ [i]) (MkBank av (alter (<[0 := UNREACHABLE]>) i (request s)) (remainingPs s - 1) true).
Proof.
  intros Hs Hi Hil Hrun Hlen Hav. pose proof (f_procs _ _ Hs) as [Hnd Hl]. split; cbn; [|by apply runs_snoc, Hrun; apply Hs|done..| |].
  - split; [|set_solver]. apply NoDup_app. split; [done|]. split; [set_solver|apply NoDup_singleton].
  - intros k Hk. destruct (decide (k = i)) as [->|Hki].
    + rewrite list_lookup_alter_eq, (request_row l s i) by done. cbn. by rewrite decide_True by set_solver.
    + rewrite list_lookup_alter_ne by done. rewrite (f_request _ _ Hs k Hk). f_equal.
      apply decide_ext. set_solver.
  - rewrite (f_left _ _ Hs), length_app. cbn. lia.
Qed.

Lemma try_process_spec l s i : after l s -> i < PS_CNT ->
  (try_process m i s = Done s /\ (i ∈ l \/ ~ can_run l i)) \/
  (exists s', try_process m i s = Done s' /\ after (l ++ [i]) s' /\ isFound s' = true).
Proof.
  intros Hs Hi. destruct (decide (i ∈ l)) as [Hil|Hil]; [left; split; [by eapply try_skip|by left]|].
  pose proof (request_row l s i Hs Hi Hil) as Hrow. destruct (row_at r i Hi (b_r Hok)) as [_ Hlen].
  assert (Hr0 : get2 (request s) i 0 = Done (at2 r i 0)) by (apply (get2_at _ _ _ _ Hrow); rewrite Hlen; unfold RS_CNT; lia).
  assert (Hne : at2 r i 0 <> UNREACHABLE).
  { destruct (b_nonneg Hok i 0 Hi ltac:(unfold RS_CNT; lia)). unfold UNREACHABLE. lia. }
  unfold try_process. rewrite Hr0. cbn [mbind exec_bind]. rewrite decide_False by done.
  rewrite (check_request_spec _ _ _ (r !!! i)) by (done || apply Hs). cbn [mbind exec_bind].
  destruct (fits (avail s) (r !!! i)) eqn:Hfit.
  - apply (fits_can_run l s i Hs) in Hfit. destruct (updates l s i Hs Hi Hil Hfit) as (a1 & a2 & H1 & H2 & Hl2 & Ha2).
    right. eexists. rewrite H1. cbn [mbind exec_bind]. rewrite H2. cbn [mbind exec_bind].
    split; [done|]. split; [by apply after_run|done].
  - left. split; [done|]. right. rewrite <- (fits_can_run l s i Hs), Hfit. done.
Qed.

(** One pass: either it ran some process, or nobody can run. *)
Lemma pass_spec is_ l s : after l s -> (forall i, i ∈ is_ -> i < PS_CNT) ->
  exists s' l', for_each (try_process m) is_ s = Done s' /\ after (l ++ l') s' /\
    isFound s' = isFound s || bool_decide (l' <> []) /\
    (l' = [] -> forall i, i ∈ is_ -> i ∈ l \/ ~ can_run l i).
Proof.
  revert l s. induction is_ as [|i is_ IH]; intros l s Hs His; cbn [for_each].
  { exists s, []. rewrite app_nil_r. split_and!; [done..|by rewrite orb_false_r|set_solver]. }
  destruct (try_process_spec l s i Hs ltac:(set_solver)) as [[-> Hno]|(s1 & -> & Hs1 & Hf1)]; cbn [mbind exec_bind].
  - destruct (IH l s Hs ltac:(set_solver)) as (s' & l' & Hrun & Hs' & Hf & Hstuck).
    exists s', l'. split_and!; [done..|]. intros Hl' k [->|Hk]%elem_of_cons; [done|by apply Hstuck].
  - destruct (IH _ s1 Hs1 ltac:(set_solver)) as (s' & l' & Hrun & Hs' & Hf & _).
    exists s', (i :: l'). rewrite <- app_assoc in Hs'. split_and!; [done..| |done].
    rewrite Hf, Hf1. by rewrite orb_true_r.
Qed.

Lemma after_found l s b : after l s -> after l (MkBank (avail s) (request s) (remainingPs s) b).
Proof. by intros []. Qed.

Lemma procs_length l : procs l -> length l <= PS_CNT.
Proof.
  intros Hp. rewrite <- (length_seq PS_CNT 0). apply submseteq_length.
  apply NoDup_submseteq; [apply Hp|by apply procs_subset].
Qed.

Lemma procs_full l : procs l -> length l = PS_CNT -> l ≡ₚ seq 0 PS_CNT.
Proof.
  intros Hp Hl. apply submseteq_length_Permutation; [apply NoDup_submseteq; [apply Hp|by apply procs_subset]|].
  rewrite length_seq. lia.
Qed.

Lemma find_all_spec fuel l s : after l s -> PS_CNT - length l < fuel ->
  exists st, find_all fuel m s = Done st /\ (st = S_SUCCESS /\ safe \/ st = S_FAIL /\ ~ safe).
Proof.
  revert l s. induction fuel as [|fuel IH]; intros l s Hs Hfuel; [lia|]. cbn [find_all]. unfold find_pass.
  destruct (pass_spec (seq 0 PS_CNT) l _ (after_found l s false Hs)) as (s' & l' & -> & Hs' & Hf & Hstuck).
  { intros i Hi%elem_of_seq. lia. }
  cbn [mbind exec_bind]. pose proof (procs_length _ (f_procs _ _ Hs')) as Hlen. pose proof Hlen as Hlen'.
  rewrite length_app in Hlen'. rewrite (f_left _ _ Hs'). cbn [isFound orb] in Hf.
  destruct (decide (Z.of_nat PS_CNT - Z.of_nat (length (l ++ l')) <= 0)%Z) as [Hd|Hd].
  { exists S_SUCCESS. split; [done|left]. split; [done|]. exists (l ++ l').
    split; [apply procs_full; [apply Hs'|lia]|apply Hs']. }
  rewrite Hf. destruct l' as [|x l']; cbn.
  - exists S_FAIL. split; [done|right]. split; [done|]. rewrite app_nil_r in Hd.
    apply (stuck_unsafe l); [apply Hs|lia|]. intros i Hi. apply Hstuck; [done|]. apply elem_of_seq. lia.
  - apply (IH (l ++ x :: l')); [done|]. rewrite length_app in *. cbn [length] in *. lia.
Qed.
End spec.

(** C39: for matrices of the program's size in which no process requests more than
    its maximum and the resources add up to an [int], the program ends, and calls
    the state safe exactly when there is an order in which every process finds its
    request available after the ones before it have given back all they held. *)
Theorem banker_decides m r a : bank_ok m r a ->
  exists st, banker m r a = Done (verdict st +:+ line_end) /\ st <> S_RUNNING /\
    (st = S_SUCCESS <-> safe m r a).
Proof.
  intros Hok. destruct (find_all_spec m r a Hok (S PS_CNT) [] _ (after_start m r a Hok)) as (st & Hrun & Hst).
  { cbn [length]. lia. }
  exists st. unfold banker. rewrite Hrun. split; [done|]. destruct Hst as [[-> Hs]|[-> Hs]]; done.
Qed.

Lemma demo_ok : bank_ok M R A.
Proof.
  split; try (split; [done|repeat constructor]); try done.
  - intros i j Hi Hj. unfold PS_CNT, RS_CNT in *. do 5 (destruct i as [|i]; [do 4 (destruct j as [|j]; [vm_compute; split; discriminate|]); exfalso; lia|]).
    exfalso. lia.
  - intros j Hj. unfold RS_CNT in *. do 4 (destruct j as [|j]; [vm_compute; discriminate|]). exfalso. lia.
  - intros j Hj. unfold RS_CNT in *. do 4 (destruct j as [|j]; [vm_compute; discriminate|]). exfalso. lia.
Qed.

(** The demo state is unsafe. *)
Lemma banker_decides_witness : bank_ok M R A /\ ~ safe M R A.
Proof.
  split; [exact demo_ok|]. destruct (banker_decides M R A demo_ok) as (st & Hrun & _ & Hs).
  rewrite <- Hs. intros ->. discriminate Hrun.
Defined.
