(* ===== verification/Dice.v ===== *)
(** * The dice device of [Lab 9/dice/dice.c]

    A character device with three minor numbers: a read rolls the dice of the
    device and prints them, a write sets their number.  [get_random_bytes] is a
    stream of ints, [kstrtol] and the registration of device numbers are
    parameters of the kernel; the result of a copy from or to the user is an
    argument.  [DiceModule] has the module's calls of the kernel in full. *)
From S2P Require Import Prelude StateM CString.

(** ** Data *)

Definition DICE_DEVS : nat := 3.
Definition DICE_NUM : Z := 2.
Definition GEN_SIDES : Z := 20.
Definition TYPE_REGULAR : Z := 11.
Definition TYPE_BACKGAMMON : Z := 12.
Definition TYPE_GENERIC : Z := 13.
Definition MAX_DICE_STR : Z := 10240.
Definition MAX_DICE_IN : Z := 10.
Definition EINVAL : Z := 22.
Definition EFAULT : Z := 14.

Record dice_dev := MkDev { num : Z; dice_type : Z }.

(** The static variables of the module, and how many random ints were drawn. *)
Record dice := MkDice {
  dice_major : Z;
  dice_num : Z;
  gen_sides : Z;
  dice_devices : list dice_dev;
  drawn : nat
}.
Definition set_num (n : Z) (s : dice) : dice := MkDice (dice_major s) n (gen_sides s) (dice_devices s) (drawn s).
Definition set_devices (l : list dice_dev) (s : dice) : dice := MkDice (dice_major s) (dice_num s) (gen_sides s) l (drawn s).
Definition set_major (m : Z) (s : dice) : dice := MkDice m (dice_num s) (gen_sides s) (dice_devices s) (drawn s).

(** The device that [filp->private_data] points to. *)
Definition get_dev (minor : nat) : ST dice dice_dev :=
  l ← gets dice_devices; derefs OutOfBounds (l !! minor).

(** [dice_open] leaves the index of the device in the file. *)
Definition dice_open (minor : nat) : ST dice nat := _ ← get_dev minor; mret minor.

(** ** Output *)

(** [snprintf(str+err, MAX_DICE_STR, ...)]: the size that is passed is not what
    is left behind [str+err], so the text and its NUL must fit by themselves. *)
Definition snprintf (str t : string) : exec string :=
  if decide (Z.of_nat (String.length str + String.length t) < MAX_DICE_STR)%Z then Done (str +:+ t)
  else Fault OutOfBounds.

(** [for (i=0; i<dice_num; i++) err += snprintf(..., face(rd[i]))]. *)
Fixpoint print_each (face : Z -> exec string) (rd : list Z) (str : string) : exec string :=
  match rd with
  | [] => Done str
  | r :: rd => t ← face r; str ← snprintf str t; print_each face rd str
  end.

Definition table_at (row : list string) (r : Z) : exec string :=
  if decide (0 <= r)%Z then deref OutOfBounds (row !! Z.to_nat r) else Fault OutOfBounds.

Definition DICE_REG_PATTERN : list (list string) :=
  [["|     |  "; "|     |  "; "|  o  |  "; "| o o |  "; "| o o |  "; "| o o |  "];
   ["|  o  |  "; "| o o |  "; "|     |  "; "|     |  "; "|  o  |  "; "| o o |  "];
   ["|     |  "; "|     |  "; "| o o |  "; "| o o |  "; "| o o |  "; "| o o |  "]].

Definition DICE_BAR : string := "-------  ".

Definition DICE_BACKGAMMON : list string := ["2"; "4"; "8"; "16"; "32"; "64"].

Definition print_row (k : nat) (rd : list Z) (str : string) : exec string :=
  row ← deref OutOfBounds (DICE_REG_PATTERN !! k);
  str ← print_each (table_at row) rd str; snprintf str line_end.

Definition print_bar (rd : list Z) (str : string) : exec string :=
  str ← print_each (fun _ => Done DICE_BAR) rd str; snprintf str line_end.

Definition print_regular (rd : list Z) : exec string :=
  str ← print_bar rd EmptyString;
  str ← print_row 0 rd str;
  str ← print_row 1 rd str;
  str ← print_row 2 rd str;
  print_bar rd str.

Definition print_backgammon (rd : list Z) : exec string :=
  str ← print_each (fun r => t ← table_at DICE_BACKGAMMON r; Done (t +:+ " ")) rd EmptyString;
  snprintf str line_end.

Definition print_generic (rd : list Z) : exec string :=
  str ← print_each (fun r => Done (fmt_d r +:+ " ")) rd EmptyString;
  snprintf str line_end.

Section device.
Context (get_random : nat -> Z) (kstrtol : string -> option Z).

(** ** Rolling *)

Definition draw : ST dice Z := fun s =>
  Done (get_random (drawn s),
        MkDice (dice_major s) (dice_num s) (gen_sides s) (dice_devices s) (S (drawn s))).

(** [((r % 6) + 12) % 6]. *)
Definition six (r : Z) : Z := Z.rem (Z.rem r 6 + 12) 6.

(** [((r % gen_sides) + 2*gen_sides) % gen_sides + 1]. *)
Definition sides (g r : Z) : exec Z :=
  if decide (g = 0)%Z then Fault Undefined else
  d ← int_expr (2 * g);
  t ← int_expr (Z.rem r g + d);
  int_expr (Z.rem t g + 1).

Fixpoint roll (f : Z -> exec Z) (n : nat) : ST dice (list Z) :=
  match n with
  | O => mret []
  | S n => r ← draw; v ← lift (f r); l ← roll f n; mret (v :: l)
  end.

(** The faces of [n] dice as text; a device of another type prints nothing. *)
Definition roll_text (type : Z) (n : nat) : ST dice string :=
  if decide (type = TYPE_REGULAR) then rd ← roll (fun r => Done (six r)) n; lift (print_regular rd)
  else if decide (type = TYPE_BACKGAMMON) then rd ← roll (fun r => Done (six r)) n; lift (print_backgammon rd)
  else if decide (type = TYPE_GENERIC) then
    g ← gets gen_sides; rd ← roll (sides g) n; lift (print_generic rd)
  else mret EmptyString.

(** ** Reading and writing *)

(** [count] characters of [str] from [off]. *)
Definition sub (str : string) (off count : Z) : string := String.substring (Z.to_nat off) (Z.to_nat count) str.

(** The result, the bytes that reach the user and the new file position.  [ok]
    says whether [copy_to_user] succeeds.  [rd] is an array of [dice_num] ints,
    undefined for a negative number. *)
Definition dice_read (minor : nat) (count : Z) (ok : bool) (offp : Z) : ST dice (Z * string * Z) :=
  dev ← get_dev minor;
  _ ← modify (set_num (num dev));
  if decide (num dev < 0)%Z then raise Undefined
  else
    str ← roll_text (dice_type dev) (Z.to_nat (num dev));
    let strcount := Z.of_nat (String.length str) in
    if decide (offp >= strcount)%Z then mret (0%Z, EmptyString, offp)
    else
      let count := if decide (u64 (offp + count) > strcount)%Z then (strcount - offp)%Z else count in
      if ok then
        if decide (0 <= offp /\ offp + count <= MAX_DICE_STR)%Z
        then mret (count, sub str offp count, (offp + count)%Z)
        else raise OutOfBounds
      else mret ((- EFAULT)%Z, EmptyString, offp).

(** [buff] is what the user passes, [None] if it cannot be read. *)
Definition dice_write (minor : nat) (buff : option string) (count : Z) : ST dice Z :=
  _ ← get_dev minor;
  if decide (count > MAX_DICE_IN)%Z then mret (- EINVAL)%Z
  else
    match buff with
    | None => mret (- EINVAL)%Z
    | Some input =>
        if decide (count = 0)%Z then raise OutOfBounds
        else
          let input_str := cstr (sub input 0 (count - 1)) in
          let tmp_num := default 0%Z (kstrtol input_str) in
          _ ← modify (set_num (i32 tmp_num));
          l ← gets dice_devices;
          _ ← modify (set_devices (alter (fun d => MkDev (i32 tmp_num) (dice_type d)) minor l));
          mret count
    end.

(** ** Initialisation *)

(** [reg] and [alloc] are the results of [register_chrdev_region] and of
    [alloc_chrdev_region] with the major number it chose. *)
Definition dice_initialization (reg : Z) (alloc : Z * Z) : ST dice Z :=
  major ← gets dice_major;
  reg_result ← (if decide (major <> 0)%Z then mret reg
                else _ ← modify (set_major alloc.2); mret alloc.1);
  if decide (reg_result < 0)%Z then mret reg_result
  else
    major ← gets dice_major;
    _ ← (if decide (major = 0)%Z then modify (set_major reg_result) else mret tt);
    n ← gets dice_num;
    _ ← modify (set_devices [MkDev n TYPE_REGULAR; MkDev n TYPE_BACKGAMMON; MkDev n TYPE_GENERIC]);
    mret 0%Z.
End device.

(** The static initial values. *)
Definition dice_start (sides : Z) : dice := MkDice 0 DICE_NUM sides (replicate DICE_DEVS (MkDev 0 0)) 0.
