(* ===== verification/DiceProps.v ===== *)
(** * What the dice device prints

    The text of a number of regular dice, the number up to which it fits into the
    buffer of [dice_read], and a session of a write and two reads. *)
From S2P Require Import Prelude StateM CString Dice.

(** ** Printing to the buffer *)

(** [m] appends [t], if the buffer has room for it. *)
Definition fits (t : string) : Prop := (Z.of_nat (String.length t) < MAX_DICE_STR)%Z.
#[export] Instance fits_dec t : Decision (fits t).
Proof. unfold fits. apply _. Defined.

Definition appends (m : string -> exec string) (t : string) : Prop := forall str, fits str ->
  m str = if decide (fits (str +:+ t)) then Done (str +:+ t) else Fault OutOfBounds.

Lemma fits_prefix s t : fits (s +:+ t) -> fits s.
Proof. unfold fits. rewrite str_length_app. lia. Qed.

Lemma appends_nil : appends (fun str => Done str) EmptyString.
Proof. intros str Hs. rewrite str_app_nil. by rewrite decide_True. Qed.

Lemma appends_snprintf t : appends (fun str => snprintf str t) t.
Proof.
  intros str Hs. unfold snprintf.
  repeat case_decide; unfold fits in *; rewrite ?str_length_app in *; done || lia.
Qed.

Lemma appends_bind m1 m2 t1 t2 : appends m1 t1 -> appends m2 t2 -> appends (fun str => m1 str ≫= m2) (t1 +:+ t2).
Proof.
  intros H1 H2 str Hs. rewrite H1 by done. rewrite <- str_app_assoc. case_decide as Hd.
  - rewrite exec_bind_done. by apply H2.
  - rewrite decide_False; [done|]. by intros ?%fits_prefix.
Qed.

Lemma appends_ext m1 m2 t : (forall str, m2 str = m1 str) -> appends m1 t -> appends m2 t.
Proof. intros He H1 str Hs. rewrite He. by apply H1. Qed.

Definition faces (f : Z -> string) (rd : list Z) : string := foldr (fun r t => f r +:+ t) EmptyString rd.

Lemma appends_each face f rd : Forall (fun r => face r = Done (f r)) rd -> appends (print_each face rd) (faces f rd).
Proof.
  induction 1 as [|r rd Hr _ IH]; [apply appends_nil|].
  eapply appends_ext; [|apply appends_bind; [apply appends_snprintf|exact IH]].
  intros str. cbn [print_each]. by rewrite Hr.
Qed.

(** A row of texts and its line end. *)
Definition row_text (f : Z -> string) (rd : list Z) : string := faces f rd +:+ line_end.

Lemma appends_row face f rd : Forall (fun r => face r = Done (f r)) rd ->
  appends (fun str => str ← print_each face rd str; snprintf str line_end) (row_text f rd).
Proof. intros Hf. apply appends_bind; [by apply appends_each|apply appends_snprintf]. Qed.

Lemma row_length w f rd : Forall (fun r => String.length (f r) = w) rd ->
  String.length (row_text f rd) = w * length rd + 1.
Proof.
  intros Hf. unfold row_text. rewrite str_length_app. f_equal.
  induction Hf as [|r rd Hw _ IH]; cbn; [lia|]. rewrite str_length_app, Hw. unfold faces in IH. rewrite IH. lia.
Qed.

(** ** Regular dice *)

Definition is_face (r : Z) : Prop := (0 <= r < 6)%Z.

Definition face_text (k : nat) (r : Z) : string :=
  default EmptyString (DICE_REG_PATTERN !! k ≫= fun row => row !! Z.to_nat r).

(** The picture of a throw. *)
Definition picture (rd : list Z) : string :=
  row_text (fun _ => DICE_BAR) rd +:+ row_text (face_text 0) rd +:+ row_text (face_text 1) rd
  +:+ row_text (face_text 2) rd +:+ row_text (fun _ => DICE_BAR) rd.

Lemma face_cases r : is_face r -> (r = 0 \/ r = 1 \/ r = 2 \/ r = 3 \/ r = 4 \/ r = 5)%Z.
Proof. unfold is_face. lia. Qed.

Lemma face_row k row rd : DICE_REG_PATTERN !! k = Some row -> Forall is_face rd ->
  Forall (fun r => table_at row r = Done (face_text k r)) rd /\
  Forall (fun r => String.length (face_text k r) = 9) rd.
Proof.
  intros Hk Hrd. unfold face_text. rewrite Hk. cbn.
  split; (eapply Forall_impl; [exact Hrd|]); intros r Hr%face_cases;
    (destruct k as [|[|[|k]]]; [..|done]); injection Hk as <-;
    repeat (destruct Hr as [->|Hr]; [done|]); by subst.
Qed.

Lemma appends_print_row k rd : k < 3 -> Forall is_face rd ->
  appends (print_row k rd) (row_text (face_text k) rd) /\
  String.length (row_text (face_text k) rd) = 9 * length rd + 1.
Proof.
  intros Hk Hrd. destruct (DICE_REG_PATTERN !! k) as [row|] eqn:Hrow.
  - destruct (face_row _ _ _ Hrow Hrd) as [Hf Hw]. split; [|by apply row_length].
    eapply appends_ext; [|by apply (appends_row (table_at row))]. intros str. unfold print_row. by rewrite Hrow.
  - apply lookup_ge_None in Hrow. cbn in Hrow. lia.
Qed.

Lemma appends_print_bar rd : appends (print_bar rd) (row_text (fun _ => DICE_BAR) rd).
Proof. by apply appends_row, Forall_true. Qed.

Lemma bar_length rd : String.length (row_text (fun _ => DICE_BAR) rd) = 9 * length rd + 1.
Proof. by apply row_length, Forall_true. Qed.

Lemma picture_length rd : Forall is_face rd -> String.length (picture rd) = 45 * length rd + 5.
Proof.
  intros Hrd. unfold picture. rewrite !str_length_app, bar_length.
  assert (Hr : forall k, k < 3 -> String.length (row_text (face_text k) rd) = 9 * length rd + 1)
    by (intros k Hk; by apply appends_print_row).
  rewrite !Hr by lia. lia.
Qed.

(** The five rows fit up to 227 dice. *)
Lemma print_regular_spec rd : Forall is_face rd ->
  print_regular rd = if decide (length rd <= 227) then Done (picture rd) else Fault OutOfBounds.
Proof.
  intros Hrd.
  assert (Ha : appends (fun str => str ← print_bar rd str; str ← print_row 0 rd str;
    str ← print_row 1 rd str; str ← print_row 2 rd str; print_bar rd str) (picture rd)).
  { repeat (apply appends_bind; [first [apply appends_print_bar|apply appends_print_row; (done || lia)]|]).
    apply appends_print_bar. }
  unfold print_regular. rewrite Ha by done. cbn [String.append].
  change (EmptyString +:+ picture rd) with (picture rd).
  repeat case_decide; unfold fits, MAX_DICE_STR in *; rewrite ?picture_length in * by done; done || lia.
Qed.

Lemma six_face r : is_face (six r).
Proof.
  unfold is_face, six. pose proof (Z.rem_bound_abs r 6). rewrite Z.rem_mod_nonneg by lia.
  apply Z.mod_pos_bound. lia.
Qed.

(** ** Buffers *)

#[local] Arguments String.append : simpl nomatch.

Lemma substring_app s t : String.substring 0 (String.length s) (s +:+ t) = s.
Proof. induction s as [|c s IH]; [by destruct t|]. cbn. by f_equal. Qed.

Lemma sub_prefix s t n : n = Z.of_nat (String.length s) -> sub (s +:+ t) 0 n = s.
Proof. intros ->. unfold sub. rewrite Nat2Z.id. apply substring_app. Qed.

Lemma sub_all s n : n = Z.of_nat (String.length s) -> sub s 0 n = s.
Proof. intros Hn. rewrite <- (str_app_nil s) at 1. by apply sub_prefix. Qed.

(** The number the user writes arrives without its newline. *)
Lemma written_number n :
  cstr (sub (fmt_d n +:+ line_end) 0 (Z.of_nat (String.length (fmt_d n +:+ line_end)) - 1)) = fmt_d n.
Proof.
  rewrite sub_prefix by (rewrite str_length_app; cbn; lia). apply cstr_id.
  eapply all_chars_mono; [|apply fmt_d_chars]. intros c. destruct c as [[] [] [] [] [] [] [] []]; vm_compute; done.
Qed.

Section session.
Context (get_random : nat -> Z) (kstrtol : string -> option Z).
Implicit Types (s : dice).

Lemma roll_six n s : wp (roll get_random (fun r => Done (six r)) n) s (fun rd s' =>
  length rd = n /\ Forall is_face rd /\ dice_devices s' = dice_devices s).
Proof.
  revert s. induction n as [|n IH]; intros s; cbn [roll]; [by apply wp_ret|].
  apply wp_bind. eapply wp_done; [done|]. apply wp_bind. eapply wp_lift; [done|].
  apply wp_bind. eapply wp_mono; [apply IH|]. intros rd s' (Hl & Hrd & Hd). apply wp_ret.
  cbn in *. split; [by rewrite Hl|]. split; [|done]. constructor; [apply six_face|done].
Qed.

Definition dev_at s (minor : nat) (d : dice_dev) : Prop := dice_devices s !! minor = Some d.

Lemma get_dev_done s minor d : dev_at s minor d -> get_dev minor s = Done (d, s).
Proof. unfold get_dev, dev_at. intros Hd. erewrite bind_done by done. by rewrite Hd. Qed.

Lemma write_spec s minor d n :
  dev_at s minor d -> (INT_MIN <= n <= INT_MAX)%Z -> String.length (fmt_d n) < 10 ->
  kstrtol (fmt_d n) = Some n ->
  let text := fmt_d n +:+ line_end in
  let count := Z.of_nat (String.length text) in
  wp (dice_write kstrtol minor (Some text) count) s
    (fun r s' => r = count /\ dev_at s' minor (MkDev n (dice_type d))).
Proof.
  intros Hd Hn Hl Hk text count. unfold dice_write. apply wp_bind. eapply wp_done; [by apply get_dev_done|].
  assert (Hc : count = (Z.of_nat (String.length (fmt_d n)) + 1)%Z) by (unfold count, text; rewrite str_length_app; cbn; lia).
  rewrite decide_False by (unfold MAX_DICE_IN; lia). rewrite decide_False by lia.
  unfold count, text. rewrite written_number, Hk. cbn [from_option id].
  rewrite i32_small by (unfold INT_MIN, INT_MAX in Hn; lia).
  apply wp_bind, wp_modify, wp_bind, wp_gets, wp_bind, wp_modify, wp_ret. split; [done|].
  unfold dev_at in *. cbn. by rewrite list_lookup_alter_eq, Hd.
Qed.

(** What a read of a regular device rolls. *)
Lemma roll_regular n s :
  if decide (n <= 227) then
    wp (roll_text get_random TYPE_REGULAR n) s (fun t s' => exists rd,
      length rd = n /\ Forall is_face rd /\ t = picture rd /\ dice_devices s' = dice_devices s)
  else roll_text get_random TYPE_REGULAR n s = Fault OutOfBounds.
Proof.
  destruct (roll_six n s) as ([rd s'] & Hroll & Hlen & Hrd & Hdev). cbn in Hlen, Hrd, Hdev.
  change (roll_text get_random TYPE_REGULAR n) with
    (rd ← roll get_random (fun r => Done (six r)) n; lift (print_regular rd)).
  pose proof (print_regular_spec rd Hrd) as Hp. rewrite Hlen in Hp. case_decide as Hn.
  - apply wp_bind. eapply wp_done; [exact Hroll|]. eapply wp_lift; [exact Hp|]. eauto.
  - rewrite (bind_done _ _ _ _ _ Hroll). unfold lift. by rewrite Hp.
Qed.

(** A read of all that is left, and a read at the end. *)
Lemma read_regular s minor n count offp : dev_at s minor (MkDev (Z.of_nat n) TYPE_REGULAR) ->
  (0 <= offp)%Z -> (0 <= count < 2 ^ 62)%Z -> (offp < 2 ^ 62)%Z ->
  let len := Z.of_nat (45 * n + 5) in
  if decide (n <= 227) then
    wp (dice_read get_random minor count true offp) s (fun r s' => dev_at s' minor (MkDev (Z.of_nat n) TYPE_REGULAR) /\
      exists rd, length rd = n /\ Forall is_face rd /\
        r = if decide (offp >= len)%Z then (0%Z, EmptyString, offp)
            else let c := Z.min count (len - offp) in (c, sub (picture rd) offp c, (offp + c)%Z))
  else dice_read get_random minor count true offp s = Fault OutOfBounds.
Proof.
  intros Hd Ho Hc Hp len. pose proof (roll_regular n (set_num (Z.of_nat n) s)) as Hroll.
  unfold dice_read. rewrite (bind_done _ _ _ _ _ (get_dev_done _ _ _ Hd)).
  assert (Hstart : forall B (k : ST dice B), (_ ← modify (set_num (Z.of_nat n)); k) s = k (set_num (Z.of_nat n) s)) by done.
  destruct (decide (n <= 227)) as [Hn|Hn].
  - cbn [num dice_type]. apply wp_bind. eapply wp_done; [by apply get_dev_done|]. cbn [num dice_type].
    apply wp_bind, wp_modify. rewrite decide_False by lia. rewrite Nat2Z.id.
    apply wp_bind. eapply wp_mono; [exact Hroll|]. intros t s' (rd & Hlen & Hrd & -> & Hdev).
    rewrite picture_length, Hlen by done. fold len. cbn zeta.
    assert (Hd' : dev_at s' minor (MkDev (Z.of_nat n) TYPE_REGULAR)) by (unfold dev_at; by rewrite Hdev).
    destruct (decide (offp >= len)%Z) as [Hend|Hend].
    + apply wp_ret. split; [done|]. exists rd. done.
    + rewrite u64_small by lia. rewrite decide_True.
      2: { unfold MAX_DICE_STR. case_decide; lia. }
      apply wp_ret. split; [done|]. exists rd. split; [done|]. split; [done|].
      assert ((if decide (offp + count > len)%Z then (len - offp)%Z else count) = Z.min count (len - offp)) as ->
        by (case_decide; lia). done.
  - rewrite Hstart. rewrite decide_False by (cbn; lia). cbn [num dice_type]. rewrite Nat2Z.id.
    by rewrite (bind_fault _ _ _ _ Hroll).
Qed.

(** C29: a number that is written to the regular device is the number of dice of
    the next read: up to 227 dice the read returns the picture of as many faces,
    and the read behind it reports the end of the file, so that [cat] stops; from
    228 dice on the read runs over the end of its buffer. *)
Theorem dice_session s d n count1 count2 :
  dev_at s 0 d -> dice_type d = TYPE_REGULAR ->
  (Z.of_nat n <= INT_MAX)%Z -> String.length (fmt_d (Z.of_nat n)) < 10 ->
  kstrtol (fmt_d (Z.of_nat n)) = Some (Z.of_nat n) ->
  (MAX_DICE_STR <= count1 < 2 ^ 62)%Z -> (0 <= count2 < 2 ^ 62)%Z ->
  let text := fmt_d (Z.of_nat n) +:+ line_end in
  let count := Z.of_nat (String.length text) in
  wp (dice_write kstrtol 0 (Some text) count) s (fun r s1 => r = count /\
    if decide (n <= 227) then
      wp (dice_read get_random 0 count1 true 0) s1 (fun r1 s2 => exists rd,
        length rd = n /\ Forall is_face rd /\
        let len := Z.of_nat (String.length (picture rd)) in r1 = (len, picture rd, len) /\
        wp (dice_read get_random 0 count2 true len) s2 (fun r2 _ => r2 = (0%Z, EmptyString, len)))
    else dice_read get_random 0 count1 true 0 s1 = Fault OutOfBounds).
Proof.
  intros Hd Hty Hn Hl Hk Hc1 Hc2 text count. unfold MAX_DICE_STR in Hc1.
  eapply wp_mono; [apply (write_spec s 0 d); [done|unfold INT_MIN; lia|done|done]|].
  intros r s1 [-> Hd1]. split; [done|]. rewrite Hty in Hd1.
  pose proof (read_regular s1 0 n count1 0 Hd1 ltac:(lia) ltac:(lia) ltac:(lia)) as Hread.
  cbn zeta in Hread. destruct (decide (n <= 227)) as [Hle|Hle]; [|exact Hread].
  eapply wp_mono; [exact Hread|]. intros r1 s2 (Hd2 & rd & Hlen & Hrd & ->). exists rd.
  split; [done|]. split; [done|]. rewrite picture_length, Hlen by done. cbn zeta.
  rewrite decide_False, Z.sub_0_r, Z.min_r, Z.add_0_l by lia.
  split; [by rewrite sub_all by (by rewrite picture_length, Hlen)|].
  pose proof (read_regular s2 0 n count2 (Z.of_nat (45 * n + 5)) Hd2 ltac:(lia) Hc2 ltac:(lia)) as Hread2.
  cbn zeta in Hread2. rewrite decide_True in Hread2 by done.
  eapply wp_mono; [exact Hread2|]. intros r2 s3 (_ & rd2 & _ & _ & ->). by rewrite decide_True by lia.
Qed.
End session.

(** The other two devices print numbers of different widths, and each read rolls
    again: what was read before is no prefix of the new text.  Here the first
    read returns [2 2], and the second one, which should report the end, the tail
    of [64 64]. *)
Definition two_dice : dice :=
  MkDice 240 2 20 [MkDev 2 TYPE_REGULAR; MkDev 2 TYPE_BACKGAMMON; MkDev 2 TYPE_GENERIC] 0.
Definition low_then_high (k : nat) : Z := if decide (k < 2) then 0 else 5.

Example backgammon_tail :
  (dice_read low_then_high 1 100 true 0 ≫= fun r => dice_read low_then_high 1 100 true r.2) two_dice
    = Done ((2%Z, String " " line_end, 7%Z),
            MkDice 240 2 20 (dice_devices two_dice) 4) /\
  exists s', dice_read low_then_high 1 100 true 0 two_dice = Done ((5%Z, "2 2 " +:+ line_end, 5%Z), s').
Proof. split; [vm_compute; reflexivity|]. eexists. vm_compute. reflexivity. Qed.

(** ** Witness *)

(** [kstrtol] on a decimal number. *)
Definition kstrtol_dec (t : string) : option Z := match atoi t with Done z => Some z | Fault _ => None end.

Example dice_session_witness :
  wp (dice_write kstrtol_dec 0 (Some ("3" +:+ line_end)) 2) two_dice (fun r s1 => r = 2%Z /\
    wp (dice_read low_then_high 0 20000 true 0) s1 (fun r1 s2 => exists rd,
      length rd = 3 /\ Forall is_face rd /\
      let len := Z.of_nat (String.length (picture rd)) in r1 = (len, picture rd, len) /\
      wp (dice_read low_then_high 0 20000 true len) s2 (fun r2 _ => r2 = (0%Z, EmptyString, len)))).
Proof.
  apply (dice_session low_then_high kstrtol_dec two_dice (MkDev 2 TYPE_REGULAR) 3 20000 20000); try done.
  - vm_compute. repeat constructor.
Defined.
