(* ===== verification/DiceModule.v ===== *)
(** * Loading and unloading the dice module ([dice.c], its second half)

    [dice_initialization] asks the kernel for device numbers and registers one
    character device per kind of dice, [dice_cleanup] takes both back.  The tables
    of device numbers and of character devices belong to the kernel, a parameter;
    [DiceKernelOk] is what its functions promise. *)
From S2P Require Import Prelude StateM CString Dice.
Local Open Scope Z_scope.

(** A device number is [MKDEV major minor]; a [cdev] is the index of its device. *)
Class DiceKernel (W : Type) := {
  register_chrdev_region : Z * Z -> nat -> W -> Z * W;
  alloc_chrdev_region : nat -> W -> Z * (Z * Z) * W;
  cdev_init : nat -> W -> W;
  cdev_add : nat -> Z * Z -> nat -> W -> Z * W;
  cdev_del : nat -> W -> W;
  unregister_chrdev : Z -> W -> W;
  unregister_chrdev_region : Z * Z -> nat -> W -> W
}.

Definition MKDEV (major minor : Z) : Z * Z := (major, minor).
Definition MAJOR (dev : Z * Z) : Z := dev.1.

(** The static variables of the module, and the kernel. *)
Record module (W : Type) := Module_ { statics : dice; kernel : W }.
Arguments Module_ {W} _ _. Arguments statics {W} _. Arguments kernel {W} _.

Definition dice_devs : nat := DICE_DEVS.

Section module.
Context {W : Type} `{!DiceKernel W}.
Abbreviation MM := (ST (module W)).

Definition in_kernel {A} (f : W -> A * W) : MM A := fun s =>
  let '(a, w) := f (kernel s) in Done (a, Module_ (statics s) w).
Definition do_kernel (f : W -> W) : MM unit := in_kernel (fun w => (tt, f w)).
Definition get_major : MM Z := gets (fun s => dice_major (statics s)).
Definition put_major (m : Z) : MM unit := modify (fun s => Module_ (set_major m (statics s)) (kernel s)).

(** An error is printed and otherwise ignored. *)
Definition dice_setup_cdev (dev : nat) (i : nat) : MM unit :=
  major ← get_major;
  let devno := MKDEV major (Z.of_nat i) in
  _ ← do_kernel (cdev_init dev);
  err ← in_kernel (cdev_add dev devno 1);
  mret tt.

(** [for (i=0; i<DICE_DEVS; i++) f(i)]: [todo] passes are left. *)
Fixpoint each_dev (f : nat -> MM unit) (todo i : nat) : MM unit :=
  match todo with O => mret tt | S todo => _ ← f i; each_dev f todo (S i) end.

Definition dice_initialization : MM Z :=
  major ← get_major;
  let dev := MKDEV major 0 in
  reg_result ← (if decide (major <> 0) then in_kernel (register_chrdev_region dev dice_devs)
                else
                  r ← in_kernel (alloc_chrdev_region dice_devs);
                  _ ← put_major (MAJOR r.2);
                  mret r.1);
  if decide (reg_result < 0) then mret reg_result
  else
    major ← get_major;
    _ ← (if decide (major = 0) then put_major reg_result else mret tt);
    _ ← each_dev (fun i => dice_setup_cdev i i) DICE_DEVS 0;
    _ ← modify (fun s =>
          let n := dice_num (statics s) in
          Module_ (set_devices [MkDev n TYPE_REGULAR; MkDev n TYPE_BACKGAMMON; MkDev n TYPE_GENERIC] (statics s)) (kernel s));
    mret 0.

Definition dice_cleanup : MM unit :=
  _ ← each_dev (fun i => do_kernel (cdev_del i)) DICE_DEVS 0;
  major ← get_major;
  _ ← do_kernel (unregister_chrdev major);
  do_kernel (unregister_chrdev_region (MKDEV major 0) dice_devs).
End module.

(** ** Loading and unloading *)

(** The device numbers of [n] minors. *)
Definition numbers_of (major : Z) (n : nat) : gset (Z * Z) := list_to_set ((fun i => MKDEV major (Z.of_nat i)) <$> seq 0 n).

(** The device numbers that are taken, and the devices that can be opened with
    their numbers.  [unregister_chrdev] gives back what [register_chrdev] took,
    which this module does not call. *)
Class DiceKernelOk (W : Type) `{!DiceKernel W} := {
  numbers : W -> gset (Z * Z);
  cdevs : W -> gmap nat (Z * Z);
  register_ok : forall dev n w, let '(r, w') := register_chrdev_region dev n w in cdevs w' = cdevs w /\
    (r = 0 /\ numbers_of (MAJOR dev) n ## numbers w /\ numbers w' = numbers w ∪ numbers_of (MAJOR dev) n \/ r < 0 /\ numbers w' = numbers w);
  alloc_ok : forall n w, let '(r, dev, w') := alloc_chrdev_region n w in cdevs w' = cdevs w /\
    (r = 0 /\ MAJOR dev <> 0 /\ numbers_of (MAJOR dev) n ## numbers w /\ numbers w' = numbers w ∪ numbers_of (MAJOR dev) n \/
     r < 0 /\ numbers w' = numbers w);
  init_ok : forall d w, numbers (cdev_init d w) = numbers w /\ cdevs (cdev_init d w) = cdevs w;
  add_ok : forall d dev w, let '(r, w') := cdev_add d dev 1 w in numbers w' = numbers w /\
    (r = 0 /\ cdevs w' = <[d := dev]> (cdevs w) \/ r <> 0 /\ cdevs w' = cdevs w);
  del_ok : forall d w, numbers (cdev_del d w) = numbers w /\ cdevs (cdev_del d w) = delete d (cdevs w);
  unregister_chrdev_ok : forall major w, numbers (unregister_chrdev major w) = numbers w /\ cdevs (unregister_chrdev major w) = cdevs w;
  unregister_region_ok : forall dev n w, let w' := unregister_chrdev_region dev n w in
    numbers w' = numbers w ∖ numbers_of (MAJOR dev) n /\ cdevs w' = cdevs w
}.

Section lifecycle.
Context {W : Type} `{!DiceKernel W} `{!DiceKernelOk W}.
Implicit Types (s : module W).

Lemma wp_in_kernel {A} (f : W -> A * W) s (Q : A -> module W -> Prop) :
  (let '(a, w) := f (kernel s) in Q a (Module_ (statics s) w)) -> wp (in_kernel f) s Q.
Proof. unfold wp, in_kernel. destruct (f (kernel s)) as [a w]. intros HQ. by eexists. Qed.

Lemma wp_do_kernel (f : W -> W) s (Q : unit -> module W -> Prop) : Q tt (Module_ (statics s) (f (kernel s))) -> wp (do_kernel f) s Q.
Proof. intros HQ. by apply wp_in_kernel. Qed.

Lemma wp_each_dev (Inv : nat -> module W -> Prop) f todo i s (Q : unit -> module W -> Prop) :
  (forall k s, (i <= k < i + todo)%nat -> Inv k s -> wp (f k) s (fun _ s' => Inv (S k) s')) -> Inv i s ->
  (forall s, Inv (i + todo)%nat s -> Q tt s) -> wp (each_dev f todo i) s Q.
Proof.
  revert i s. induction todo as [|todo IH]; intros i s Hf Hi HQ; cbn [each_dev].
  - apply wp_ret, HQ. by rewrite Nat.add_0_r.
  - apply wp_bind. eapply wp_mono; [apply Hf; [lia|done]|]. intros [] s' Hs'. apply IH; [intros k s0 Hk; apply Hf; lia|done|].
    intros s0. rewrite Nat.add_succ_comm. apply HQ.
Qed.

(** The kernel after [cdev_add] for the first [k] devices, whatever failed. *)
Definition added (k : nat) s s' : Prop :=
  statics s' = statics s /\ numbers (kernel s') = numbers (kernel s) /\
  forall d, cdevs (kernel s') !! d = cdevs (kernel s) !! d \/
    (d < k)%nat /\ cdevs (kernel s') !! d = Some (MKDEV (dice_major (statics s)) (Z.of_nat d)).

Lemma setup_spec k s s' : added k s s' -> wp (dice_setup_cdev k k) s' (fun _ s'' => added (S k) s s'').
Proof.
  intros (H1 & H2 & H3). unfold dice_setup_cdev. apply wp_bind, wp_gets. apply wp_bind, wp_do_kernel. cbn [statics kernel].
  destruct (init_ok k (kernel s')) as [I1 I2]. apply wp_bind, wp_in_kernel. cbn [statics kernel].
  pose proof (add_ok k (MKDEV (dice_major (statics s')) (Z.of_nat k)) (cdev_init k (kernel s'))) as Ha.
  destruct (cdev_add _ _ _ _) as [r w]. destruct Ha as [A1 A2]. apply wp_ret. split; [done|]. cbn. rewrite A1, I1, H2. split; [done|].
  intros d. destruct (H3 d) as [E|[Hd E]], A2 as [[_ ->]|[_ ->]]; rewrite I2, <- ?H1 in *.
  - destruct (decide (d = k)) as [->|]; [right; split; [lia|apply lookup_insert_eq]|left; by rewrite lookup_insert_ne].
  - by left.
  - right. split; [lia|]. by rewrite lookup_insert_ne by lia.
  - right. split; [lia|done].
Qed.

Lemma cleanup_spec s : wp dice_cleanup s (fun _ s' => statics s' = statics s /\
  numbers (kernel s') = numbers (kernel s) ∖ numbers_of (dice_major (statics s)) dice_devs /\
  forall d, cdevs (kernel s') !! d = if decide (d < dice_devs)%nat then None else cdevs (kernel s) !! d).
Proof.
  unfold dice_cleanup. apply wp_bind.
  apply (wp_each_dev (fun k s' => statics s' = statics s /\ numbers (kernel s') = numbers (kernel s) /\
    forall d, cdevs (kernel s') !! d = if decide (d < k)%nat then None else cdevs (kernel s) !! d)).
  - intros k s1 _ (H1 & H2 & H3). apply wp_do_kernel. cbn. destruct (del_ok k (kernel s1)) as [-> ->]. split; [done|]. split; [done|].
    intros d. rewrite lookup_delete. repeat case_decide; try lia; rewrite ?H3; [done|..]; case_decide; done || lia.
  - split; [done|]. split; [done|]. intros d. by rewrite decide_False by lia.
  - intros s1 (H1 & H2 & H3). apply wp_bind, wp_gets, wp_bind, wp_do_kernel, wp_do_kernel. cbn [statics kernel].
    destruct (unregister_chrdev_ok (dice_major (statics s1)) (kernel s1)) as [U1 U2].
    destruct (unregister_region_ok (MKDEV (dice_major (statics s1)) 0) dice_devs (unregister_chrdev (dice_major (statics s1)) (kernel s1))) as [-> ->].
    rewrite U1, U2, H2, H1. done.
Qed.

(** Registering: device numbers are taken, or the tables are as before. *)
Definition registered s (reg : Z) (alloc : Z * Z) (r : Z) s' : Prop :=
  cdevs (kernel s') = cdevs (kernel s) /\
  statics s' = (if decide (dice_major (statics s) <> 0) then statics s else set_major alloc.2 (statics s)) /\
  r = (if decide (dice_major (statics s) <> 0) then reg else alloc.1) /\
  (r = 0 /\ dice_major (statics s') <> 0 /\ numbers_of (dice_major (statics s')) dice_devs ## numbers (kernel s) /\
   numbers (kernel s') = numbers (kernel s) ∪ numbers_of (dice_major (statics s')) dice_devs \/
   r < 0 /\ numbers (kernel s') = numbers (kernel s)).

(** Loading the module either fails with nothing registered, or takes the three
    device numbers; then unloading it leaves the kernel's tables as they were.
    [cdev_add] may fail for some devices: the module is loaded all the same, and
    these devices cannot be opened.  What happens to the static variables is
    [Dice.dice_initialization]. *)
Theorem module_session s : (forall d, (d < DICE_DEVS)%nat -> cdevs (kernel s) !! d = None) ->
  wp dice_initialization s (fun r s' =>
    (exists reg alloc, Dice.dice_initialization reg alloc (statics s) = Done (r, statics s')) /\
    if decide (r < 0) then numbers (kernel s') = numbers (kernel s) /\ cdevs (kernel s') = cdevs (kernel s)
    else r = 0 /\ numbers (kernel s') = numbers (kernel s) ∪ numbers_of (dice_major (statics s')) DICE_DEVS /\
      (forall d p, cdevs (kernel s') !! d = Some p -> cdevs (kernel s) !! d = Some p \/
         (d < DICE_DEVS)%nat /\ p = MKDEV (dice_major (statics s')) (Z.of_nat d)) /\
      wp dice_cleanup s' (fun _ s'' => numbers (kernel s'') = numbers (kernel s) /\ cdevs (kernel s'') = cdevs (kernel s))).
Proof.
  intros Hno. unfold dice_initialization. apply wp_bind, wp_gets, wp_bind.
  apply (wp_mono _ _ (fun r s1 => exists reg alloc, registered s reg alloc r s1)).
  { unfold registered. case_decide as Hm.
    - apply wp_in_kernel. pose proof (register_ok (MKDEV (dice_major (statics s)) 0) dice_devs (kernel s)) as H1.
      destruct (register_chrdev_region _ _ _) as [r w]. exists r, (0, 0). cbn. destruct H1 as [H1 H2]. split_and!; [done..|]. tauto.
    - apply wp_bind, wp_in_kernel. pose proof (alloc_ok dice_devs (kernel s)) as H1.
      destruct (alloc_chrdev_region _ _) as [[r dev] w]. apply wp_bind, wp_modify, wp_ret. exists 0, (r, MAJOR dev). cbn.
      destruct H1 as [H1 H2]. split_and!; [done..|]. tauto. }
  intros r s1 (reg & alloc & Hc & Hst & Hr & Hres).
  set (devices := fun t => set_devices [MkDev (dice_num t) TYPE_REGULAR; MkDev (dice_num t) TYPE_BACKGAMMON; MkDev (dice_num t) TYPE_GENERIC] t).
  assert (Hdice : Dice.dice_initialization reg alloc (statics s) =
    Done (if decide (r < 0) then (r, statics s1) else (0, devices (statics s1)))).
  { unfold Dice.dice_initialization, mbind, st_bind, gets, modify, mret, st_ret. rewrite Hst, Hr in *. clear Hst Hr.
    destruct (decide (dice_major (statics s) <> 0)) as [Hm|Hm].
    - case_decide; [done|]. rewrite decide_False by done. done.
    - case_decide; [done|]. destruct Hres as [(_ & Hne & _)|[Hlt _]]; [|done]. rewrite decide_False by done. done. }
  case_decide as Hlt.
  { apply wp_ret. split; [by exists reg, alloc|]. rewrite decide_True by done. split; [|done]. destruct Hres as [[-> _]|[_ ?]]; [lia|done]. }
  destruct Hres as [(_ & Hne & Hdisj & Hnum)|[? _]]; [|lia].
  apply wp_bind, wp_gets, wp_bind. rewrite decide_False by done. apply wp_ret, wp_bind.
  apply (wp_each_dev (fun k => added k s1)); [intros k s2 _; apply setup_spec| |].
  { split; [done|]. split; [done|]. intros d. by left. }
  intros s2 (H1 & H2 & H3). apply wp_bind, wp_modify, wp_ret. split; [exists reg, alloc; rewrite Hdice; cbn; by rewrite H1|].
  rewrite decide_False by done. cbn [statics kernel dice_major set_devices]. rewrite H1, H2. split; [done|]. split; [done|]. split.
  - intros d p Hd. destruct (H3 d) as [E|[Hk E]]; rewrite E in Hd; [left; by rewrite <- Hc|right]. split; [done|congruence].
  - eapply wp_mono; [apply cleanup_spec|]. intros _ s3 (_ & Hn3 & Hc3). cbn in Hn3, Hc3. rewrite Hn3, H2, Hnum. split.
    { rewrite difference_union_distr_l_L, difference_diag_L, union_empty_r_L. apply difference_disjoint_L. by symmetry. }
    apply map_eq. intros d. rewrite Hc3. destruct (decide (d < dice_devs)%nat) as [Hd|Hd]; [symmetry; by apply Hno|]. destruct (H3 d) as [->|[Hd' _]]; [by rewrite Hc|].
    by destruct (Hd Hd').
Qed.
End lifecycle.

(** ** A kernel whose first free major number is 240 *)

#[local] Instance demo_dice_kernel : DiceKernel (gset (Z * Z) * gmap nat (Z * Z)) := {|
  register_chrdev_region := fun dev n '(t, c) =>
    if decide (numbers_of (MAJOR dev) n ## t) then (0, (t ∪ numbers_of (MAJOR dev) n, c)) else (-16, (t, c));
  alloc_chrdev_region := fun n '(t, c) =>
    if decide (numbers_of 240 n ## t) then (0, (240, 0), (t ∪ numbers_of 240 n, c)) else (-16, (0, 0), (t, c));
  cdev_init := fun _ w => w;
  cdev_add := fun d dev _ '(t, c) => (0, (t, <[d := dev]> c));
  cdev_del := fun d '(t, c) => (t, delete d c);
  unregister_chrdev := fun _ w => w;
  unregister_chrdev_region := fun dev n '(t, c) => (t ∖ numbers_of (MAJOR dev) n, c)
|}.

#[local] Instance demo_dice_kernel_ok : DiceKernelOk (gset (Z * Z) * gmap nat (Z * Z)).
Proof.
  refine {| numbers := fun w : gset (Z * Z) * gmap nat (Z * Z) => w.1; cdevs := fun w => w.2 |}.
  - intros dev n [t c]. cbn. case_decide; cbn; [by split; [|left]|by split; [|right]].
  - intros n [t c]. cbn. case_decide; cbn; [by split; [|left]|by split; [|right]].
  - done.
  - intros d dev [t c]. by split; [|left].
  - by intros d [t c].
  - done.
  - by intros dev n [t c].
Defined.

Lemma module_session_witness :
  wp dice_initialization (Module_ (dice_start 20) (∅ : gset (Z * Z), ∅ : gmap nat (Z * Z))) (fun r s' =>
    if decide (r < 0) then True else wp dice_cleanup s' (fun _ s'' => (kernel s'').1 = ∅)).
Proof.
  eapply wp_mono; [by apply module_session|]. intros r s' [_ H]. case_decide; [done|]. destruct H as (_ & _ & _ & H).
  eapply wp_mono; [exact H|]. intros u s'' [H' _]. exact H'.
Defined.
